(** * BCDI preprocessing utilities: FFT size search, padding, monitor
      normalisation, the centering / crop / pad engine, detector masks
      and the interactive masking keys

    Shallow embedding of [bcdi/preprocessing/preprocessing_utils.py]:
    [primes], [try_smaller_primes], [higher_primes], [smaller_primes],
    [zero_pad], [normalize_dataset] and [center_fft]; then [mask_maxipix],
    [mask_eiger4m], [mask_eiger], [remove_hotpixels], [mean_filter],
    [update_aliens_2d] and [update_aliens] (without their plots).

    Python integers are [Z]; a NumPy array is its shape together with its
    row-major buffer; Python exceptions are the [Raise] outcomes of an error
    monad, and an unbounded [while] loop runs on fuel ([OutOfFuel] is not a
    Python behaviour, it only says that the fuel given was too small). *)

From Stdlib Require Import String Ascii.
From Stdlib Require Import ZArith QArith Qround Qminmax List Lia Bool.
From Stdlib Require Import Sorted.
Import ListNotations.
Local Open Scope Z_scope.

(** ** Outcomes of a Python call *)

Inductive exn : Type :=
| ValueError | IndexError | AssertionError | TypeError
| ZeroDivisionError | OverflowError.

Inductive outcome (A : Type) : Type :=
| Ok (a : A)
| Raise (e : exn)
| OutOfFuel.
Arguments Ok {A} a.
Arguments Raise {A} e.
Arguments OutOfFuel {A}.

Definition bind {A B : Type} (m : outcome A) (k : A -> outcome B) : outcome B :=
  match m with
  | Ok a => k a
  | Raise e => Raise e
  | OutOfFuel => OutOfFuel
  end.

Notation "x <- m ;; k" := (bind m (fun x => k))
  (at level 61, m at next level, right associativity).
Notation "' pat <- m ;; k" := (bind m (fun x => match x with pat => k end))
  (at level 61, pat pattern, m at next level, right associativity).

(** [assert cond] *)
Definition py_assert (cond : bool) : outcome unit :=
  if cond then Ok tt else Raise AssertionError.


(** ** Number-shaping utilities *)

Module Primes.

(** [max(p)] on a list of integers; [max([])] is a [ValueError]. *)
Definition py_max (p : list Z) : outcome Z :=
  match p with
  | [] => Raise ValueError
  | x :: xs => Ok (fold_left Z.max xs x)
  end.

(** The inner loop of [primes]: [while number % i == 0]. *)
Fixpoint primes_divide (fuel : nat) (number i : Z) (list_primes : list Z)
  : outcome (Z * list Z) :=
  match fuel with
  | O => OutOfFuel
  | S fuel' =>
      if number mod i =? 0
      then primes_divide fuel' (number / i) i (list_primes ++ [i])
      else Ok (number, list_primes)
  end.

(** The outer loop of [primes]: [while i * i <= number], followed by the
    final [if number > 1]. *)
Fixpoint primes_loop (fuel : nat) (number i : Z) (list_primes : list Z)
  : outcome (list Z) :=
  match fuel with
  | O => OutOfFuel
  | S fuel' =>
      if i * i <=? number then
        '(number', list_primes') <-
          primes_divide (Z.to_nat number) number i list_primes ;;
        primes_loop fuel' number' (i + 1) list_primes'
      else
        Ok (if 1 <? number then list_primes ++ [number] else list_primes)
  end.

(** [primes(number)].  The argument is a Python [int] (the [isinstance]
    test is the type [Z]); the list starts as [[1]].  The fuel handed to the
    two loops is never used up (lemma [primes_ok]). *)
Definition primes (number : Z) : outcome (list Z) :=
  _ <- py_assert (0 <? number) ;;
  primes_loop (Z.to_nat number) number 2 [1].

(** The loop over [required_dividers]; [number % 0] is a
    [ZeroDivisionError]. *)
Fixpoint check_dividers (number : Z) (required_dividers : list Z)
  : outcome bool :=
  match required_dividers with
  | [] => Ok true
  | k :: ks =>
      if k =? 0 then Raise ZeroDivisionError
      else if negb (number mod k =? 0) then Ok false
      else check_dividers number ks
  end.

(** [try_smaller_primes(number, maxprime, required_dividers)];
    [required_dividers] may be [None]. *)
Definition try_smaller_primes (number maxprime : Z)
    (required_dividers : option (list Z)) : outcome bool :=
  p <- primes number ;;
  m <- py_max p ;;
  if maxprime <? m then Ok false
  else match required_dividers with
       | None => Ok true
       | Some ks => check_dividers number ks
       end.

(** The argument [number] of [higher_primes] and [smaller_primes]: an
    integer, a list, a tuple or an array of integers.  [PArray] is a NumPy
    array of integer dtype: iterating it yields NumPy integers ([np.int64]),
    not Python integers. *)
Inductive pyval : Type :=
| PInt (n : Z)
| PList (l : list Z)
| PTuple (l : list Z)
| PArray (l : list Z).

(** How a search loop ends: it falls through with the number found, or the
    function returns from inside the loop. *)
Inductive loop_exit : Type :=
| Found (i : Z)
| Return (v : Z).

(** [primes] on a NumPy integer: [isinstance(number, int)] is false for an
    [np.int64], so the first statement raises. *)
Definition primes_numpy (number : Z) : outcome (list Z) := Raise TypeError.

(** [try_smaller_primes] on a NumPy integer: the same body, whose first
    call is [primes] on that NumPy integer. *)
Definition try_smaller_primes_numpy (number maxprime : Z)
    (required_dividers : option (list Z)) : outcome bool :=
  p <- primes_numpy number ;;
  m <- py_max p ;;
  if maxprime <? m then Ok false
  else match required_dividers with
       | None => Ok true
       | Some ks => check_dividers number ks
       end.

(** [while try_smaller_primes(i, ...) is False: i = i + 1;
     if i == limit: return limit] *)
Fixpoint higher_search (fuel : nat) (limit i maxprime : Z)
    (required_dividers : option (list Z)) : outcome loop_exit :=
  match fuel with
  | O => OutOfFuel
  | S fuel' =>
      ok <- try_smaller_primes i maxprime required_dividers ;;
      if negb ok then
        let i := i + 1 in
        if i =? limit then Ok (Return limit)
        else higher_search fuel' limit i maxprime required_dividers
      else Ok (Found i)
  end.

(** The [for i in number] loop of [higher_primes]; [inr v] is the early
    [return limit]. *)
Fixpoint higher_each (fuel : nat) (number vn : list Z) (maxprime : Z)
    (required_dividers : option (list Z)) : outcome (list Z + Z) :=
  match number with
  | [] => Ok (inl vn)
  | i :: rest =>
      let limit := i in
      _ <- py_assert ((1 <? i) && (maxprime <=? i)) ;;
      r <- higher_search fuel limit i maxprime required_dividers ;;
      match r with
      | Found i' => higher_each fuel rest (vn ++ [i']) maxprime required_dividers
      | Return v => Ok (inr v)
      end
  end.

(** The same two loops when [number] is an integer array: [i], and [i + 1]
    after it, are NumPy integers, and the test of the [while] loop is
    [try_smaller_primes] on a NumPy integer. *)
Fixpoint higher_search_numpy (fuel : nat) (limit i maxprime : Z)
    (required_dividers : option (list Z)) : outcome loop_exit :=
  match fuel with
  | O => OutOfFuel
  | S fuel' =>
      ok <- try_smaller_primes_numpy i maxprime required_dividers ;;
      if negb ok then
        let i := i + 1 in
        if i =? limit then Ok (Return limit)
        else higher_search_numpy fuel' limit i maxprime required_dividers
      else Ok (Found i)
  end.

Fixpoint higher_each_numpy (fuel : nat) (number vn : list Z) (maxprime : Z)
    (required_dividers : option (list Z)) : outcome (list Z + Z) :=
  match number with
  | [] => Ok (inl vn)
  | i :: rest =>
      let limit := i in
      _ <- py_assert ((1 <? i) && (maxprime <=? i)) ;;
      r <- higher_search_numpy fuel limit i maxprime required_dividers ;;
      match r with
      | Found i' =>
          higher_each_numpy fuel rest (vn ++ [i']) maxprime required_dividers
      | Return v => Ok (inr v)
      end
  end.

Definition higher_primes (fuel : nat) (number : pyval) (maxprime : Z)
    (required_dividers : option (list Z)) : outcome pyval :=
  match number with
  | PList l | PTuple l =>
      r <- higher_each fuel l [] maxprime required_dividers ;;
      Ok (match r with inl vn => PList vn | inr v => PInt v end)
  | PArray l =>
      r <- higher_each_numpy fuel l [] maxprime required_dividers ;;
      Ok (match r with inl vn => PArray vn | inr v => PInt v end)
  | PInt number =>
      let limit := number in
      _ <- py_assert ((1 <? number) && (maxprime <=? number)) ;;
      r <- higher_search fuel limit number maxprime required_dividers ;;
      Ok (match r with Found n => PInt n | Return v => PInt v end)
  end.

(** [while try_smaller_primes(i, ...) is False: i = i - 1;
     if i == 0: return 0] *)
Fixpoint smaller_search (fuel : nat) (i maxprime : Z)
    (required_dividers : option (list Z)) : outcome loop_exit :=
  match fuel with
  | O => OutOfFuel
  | S fuel' =>
      ok <- try_smaller_primes i maxprime required_dividers ;;
      if negb ok then
        let i := i - 1 in
        if i =? 0 then Ok (Return 0)
        else smaller_search fuel' i maxprime required_dividers
      else Ok (Found i)
  end.

(** The [for i in number] loop of [smaller_primes]; the downward search
    from [i] makes at most [i] tests. *)
Fixpoint smaller_each (number vn : list Z) (maxprime : Z)
    (required_dividers : option (list Z)) : outcome (list Z + Z) :=
  match number with
  | [] => Ok (inl vn)
  | i :: rest =>
      _ <- py_assert ((1 <? i) && (maxprime <=? i)) ;;
      r <- smaller_search (Z.to_nat i) i maxprime required_dividers ;;
      match r with
      | Found i' => smaller_each rest (vn ++ [i']) maxprime required_dividers
      | Return v => Ok (inr v)
      end
  end.

(** The same two loops when [number] is an integer array: the test of the
    [while] loop is [try_smaller_primes] on a NumPy integer. *)
Fixpoint smaller_search_numpy (fuel : nat) (i maxprime : Z)
    (required_dividers : option (list Z)) : outcome loop_exit :=
  match fuel with
  | O => OutOfFuel
  | S fuel' =>
      ok <- try_smaller_primes_numpy i maxprime required_dividers ;;
      if negb ok then
        let i := i - 1 in
        if i =? 0 then Ok (Return 0)
        else smaller_search_numpy fuel' i maxprime required_dividers
      else Ok (Found i)
  end.

Fixpoint smaller_each_numpy (number vn : list Z) (maxprime : Z)
    (required_dividers : option (list Z)) : outcome (list Z + Z) :=
  match number with
  | [] => Ok (inl vn)
  | i :: rest =>
      _ <- py_assert ((1 <? i) && (maxprime <=? i)) ;;
      r <- smaller_search_numpy (Z.to_nat i) i maxprime required_dividers ;;
      match r with
      | Found i' =>
          smaller_each_numpy rest (vn ++ [i']) maxprime required_dividers
      | Return v => Ok (inr v)
      end
  end.

Definition smaller_primes (number : pyval) (maxprime : Z)
    (required_dividers : option (list Z)) : outcome pyval :=
  match number with
  | PList l | PTuple l =>
      r <- smaller_each l [] maxprime required_dividers ;;
      Ok (match r with inl vn => PList vn | inr v => PInt v end)
  | PArray l =>
      r <- smaller_each_numpy l [] maxprime required_dividers ;;
      Ok (match r with inl vn => PArray vn | inr v => PInt v end)
  | PInt number =>
      _ <- py_assert ((1 <? number) && (maxprime <=? number)) ;;
      r <- smaller_search (Z.to_nat number) number maxprime required_dividers ;;
      Ok (match r with Found n => PInt n | Return v => PInt v end)
  end.

End Primes.

(** ** NumPy arrays *)

Module Numpy.

(** A slice [start:stop]; [None] is an omitted bound. *)
Record slice : Type := mk_slice { start : option Z; stop : option Z }.

Definition range (a b : Z) : slice := mk_slice (Some a) (Some b).
Definition from (a : Z) : slice := mk_slice (Some a) None.
Definition whole : slice := mk_slice None None.

(** A slice bound on a sequence of length [len]: a negative bound counts
    from the end, and the result is clipped to [[0, len]]. *)
Definition clip_bound (len : nat) (i : Z) : nat :=
  let i := if i <? 0 then i + Z.of_nat len else i in
  Z.to_nat (Z.min (Z.of_nat len) (Z.max 0 i)).

(** First index and length of the part a slice selects. *)
Definition slice_indices (len : nat) (s : slice) : nat * nat :=
  let a := match start s with None => O | Some i => clip_bound len i end in
  let b := match stop s with None => len | Some i => clip_bound len i end in
  (a, (b - a)%nat).

(** *** One-dimensional arrays and Python sequences, as lists *)

Section OneDim.
Context {A : Type}.

(** [l[i]] with a negative index counting from the end. *)
Definition item (l : list A) (i : Z) : outcome A :=
  let n := Z.of_nat (length l) in
  if (- n <=? i) && (i <? n) then
    match nth_error l (Z.to_nat (if i <? 0 then i + n else i)) with
    | Some x => Ok x
    | None => Raise IndexError
    end
  else Raise IndexError.

(** [l[start:stop]] *)
Definition getslice (l : list A) (s : slice) : list A :=
  let '(a, n) := slice_indices (length l) s in
  firstn n (skipn a l).

(** Broadcasting a one-dimensional source to length [n]: the lengths
    agree, or the source has one element. *)
Definition broadcast1 (n : nat) (src : list A) : outcome (list A) :=
  if (length src =? n)%nat then Ok src
  else match src with
       | [x] => Ok (repeat x n)
       | _ => Raise ValueError
       end.

(** [l[start:stop] = src] on an array. *)
Definition setslice (l : list A) (s : slice) (src : list A) : outcome (list A) :=
  let '(a, n) := slice_indices (length l) s in
  vals <- broadcast1 n src ;;
  Ok (firstn a l ++ vals ++ skipn (a + n) l).

(** [l[start:stop] = v] on an array, [v] a scalar. *)
Definition fillslice (l : list A) (s : slice) (v : A) : list A :=
  let '(a, n) := slice_indices (length l) s in
  firstn a l ++ repeat v n ++ skipn (a + n) l.

(** [l[i] = v] on an array. *)
Definition setitem (l : list A) (i : Z) (v : A) : outcome (list A) :=
  let n := Z.of_nat (length l) in
  if (- n <=? i) && (i <? n) then
    let k := Z.to_nat (if i <? 0 then i + n else i) in
    Ok (firstn k l ++ v :: skipn (S k) l)
  else Raise IndexError.
End OneDim.

(** *** N-dimensional arrays: the shape and the row-major buffer *)

Record ndarray (A : Type) : Type := mk_ndarray { shape : list nat; buf : list A }.
Arguments mk_ndarray {A} shape buf.
Arguments shape {A} n.
Arguments buf {A} n.

Definition ndim {A : Type} (a : ndarray A) : nat := length (shape a).

Definition size_of (sh : list nat) : nat := fold_right Nat.mul 1%nat sh.

(** The buffer holds one cell per index. *)
Definition well_formed {A : Type} (a : ndarray A) : Prop :=
  length (buf a) = size_of (shape a).

(** The row-major buffer of the 3D array whose cell [(i, j, k)] is
    [f i j k]. *)
Definition tabulate3 {A : Type} (nz ny nx : nat) (f : nat -> nat -> nat -> A) : list A :=
  flat_map (fun i =>
    flat_map (fun j => map (fun k => f i j k) (seq 0 nx)) (seq 0 ny)) (seq 0 nz).

Section ThreeDim.
Context {A : Type} (dflt : A).

(** The cell [(i, j, k)] of a 3D array. *)
Definition cell3 (a : ndarray A) (i j k : nat) : A :=
  match shape a with
  | [_; ny; nx] => nth ((i * ny + j) * nx + k) (buf a) dflt
  | _ => dflt
  end.

(** An in-range index, negative ones counted from the end. *)
Definition index_in (n : nat) (i : Z) : option nat :=
  let n := Z.of_nat n in
  if (- n <=? i) && (i <? n) then Some (Z.to_nat (if i <? 0 then i + n else i))
  else None.

(** [a[i, j, k]] *)
Definition item3 (a : ndarray A) (i j k : Z) : outcome A :=
  match shape a with
  | [nz; ny; nx] =>
      match index_in nz i, index_in ny j, index_in nx k with
      | Some i', Some j', Some k' => Ok (cell3 a i' j' k')
      | _, _, _ => Raise IndexError
      end
  | _ => Raise IndexError
  end.

(** [a[sz, sy, sx]] with three slices. *)
Definition getitem3 (a : ndarray A) (sz sy sx : slice) : outcome (ndarray A) :=
  match shape a with
  | [nz; ny; nx] =>
      let '(z0, lz) := slice_indices nz sz in
      let '(y0, ly) := slice_indices ny sy in
      let '(x0, lx) := slice_indices nx sx in
      Ok (mk_ndarray [lz; ly; lx]
            (tabulate3 lz ly lx
               (fun i j k => cell3 a (z0 + i) (y0 + j) (x0 + k))))
  | _ => Raise IndexError
  end.

(** NumPy broadcasting of one axis: the source axis has the length of
    the target axis, or length 1. *)
Definition broadcasts (src target : nat) : bool :=
  (src =? target)%nat || (src =? 1)%nat.

Definition source_index (src i : nat) : nat :=
  if (src =? 1)%nat then O else i.

Definition within (a n i : nat) : bool := (a <=? i)%nat && (i <? a + n)%nat.

(** [a[sz, sy, sx] = src] *)
Definition setitem3 (a : ndarray A) (sz sy sx : slice) (src : ndarray A)
  : outcome (ndarray A) :=
  match shape a, shape src with
  | [nz; ny; nx], [sz'; sy'; sx'] =>
      let '(z0, lz) := slice_indices nz sz in
      let '(y0, ly) := slice_indices ny sy in
      let '(x0, lx) := slice_indices nx sx in
      if broadcasts sz' lz && broadcasts sy' ly && broadcasts sx' lx then
        Ok (mk_ndarray [nz; ny; nx]
              (tabulate3 nz ny nx (fun i j k =>
                 if within z0 lz i && within y0 ly j && within x0 lx k
                 then cell3 src (source_index sz' (i - z0))
                                (source_index sy' (j - y0))
                                (source_index sx' (k - x0))
                 else cell3 a i j k)))
      else Raise ValueError
  | _, _ => Raise ValueError
  end.

(** [np.zeros(dims)] / [np.ones(dims)]: every cell is [v]; a negative
    dimension is a [ValueError]. *)
Definition full (dims : list Z) (v : A) : outcome (ndarray A) :=
  if existsb (fun d => d <? 0) dims then Raise ValueError
  else let sh := map Z.to_nat dims in
       Ok (mk_ndarray sh (repeat v (size_of sh))).
End ThreeDim.

(** [a.argmax()] on the flattened array: the first index of the maximum. *)
Fixpoint argmax_from (l : list Z) (idx best_idx : nat) (best : Z) : nat :=
  match l with
  | [] => best_idx
  | x :: r =>
      if best <? x then argmax_from r (S idx) idx x
      else argmax_from r (S idx) best_idx best
  end.

Definition argmax (l : list Z) : outcome nat :=
  match l with
  | [] => Raise ValueError
  | x :: r => Ok (argmax_from r 1 0 x)
  end.

(** [np.unravel_index(idx, (nz, ny, nx))] *)
Definition unravel_index (idx ny nx : nat) : nat * nat * nat :=
  ((idx / (ny * nx))%nat, ((idx / nx) mod ny)%nat, (idx mod nx)%nat).

End Numpy.

(** ** The padding primitive *)

Module Padding.
Import Numpy.

(** [zero_pad(array, padding_width, mask_flag)].  Cells are integers, the
    fill value is [1] with [mask_flag] and [0] without; conversions between
    NumPy dtypes are outside the model. *)
Definition zero_pad (array : ndarray Z) (padding_width : list Z) (mask_flag : bool)
  : outcome (ndarray Z) :=
  match shape array with
  | [nbz; nby; nbx] =>
      padding_z0 <- item padding_width 0 ;;
      padding_z1 <- item padding_width 1 ;;
      padding_y0 <- item padding_width 2 ;;
      padding_y1 <- item padding_width 3 ;;
      padding_x0 <- item padding_width 4 ;;
      padding_x1 <- item padding_width 5 ;;
      newobj <- full [Z.of_nat nbz + padding_z0 + padding_z1;
                      Z.of_nat nby + padding_y0 + padding_y1;
                      Z.of_nat nbx + padding_x0 + padding_x1]
                     (if mask_flag then 1 else 0) ;;
      setitem3 0 newobj
        (range padding_z0 (padding_z0 + Z.of_nat nbz))
        (range padding_y0 (padding_y0 + Z.of_nat nby))
        (range padding_x0 (padding_x0 + Z.of_nat nbx)) array
  | _ => Raise ValueError
  end.

End Padding.

(** ** Monitor normalisation *)

Module Normalize.
Import Numpy.

Section NormalizeDataset.
(** float64 values stay abstract: [amin] / [amax] are [.min()] / [.max()]
    of a non-empty array, [fdiv] and [fmul] the float division and
    product, [fzero] is [0.0]. *)
Variable F : Type.
Variables (amin amax : list F -> F).
Variables (fdiv fmul : F -> F -> F).
Variable fzero : F.

(** [a.min()] / [a.max()]: a [ValueError] on an empty array. *)
Definition np_min (a : list F) : outcome F :=
  match a with [] => Raise ValueError | _ => Ok (amin a) end.
Definition np_max (a : list F) : outcome F :=
  match a with [] => Raise ValueError | _ => Ok (amax a) end.

(** [(frames_logical != 0).sum()] *)
Definition count_nonzero (frames_logical : list Z) : nat :=
  length (filter (fun f => negb (f =? 0)) frames_logical).

(** The loop [for idx in range(len(frames_logical))], from frame [idx]
    on; [monitor], [nb_overlap] and [nb_padded] are the loop's variables. *)
Fixpoint monitor_loop (norm_to_min : bool) (raw_monitor : list F)
    (frames_logical : list Z) (idx : Z) (monitor : list F)
    (nb_overlap nb_padded : Z) : outcome (list F * Z) :=
  match frames_logical with
  | [] => Ok (monitor, nb_padded)
  | f :: rest =>
      if f =? -1 then
        v <- (if norm_to_min then np_min raw_monitor else np_max raw_monitor) ;;
        monitor <- setitem monitor (idx - nb_overlap) v ;;
        monitor_loop norm_to_min raw_monitor rest (idx + 1) monitor
                     nb_overlap (nb_padded + 1)
      else if f =? 1 then
        v <- item raw_monitor (idx - nb_padded) ;;
        monitor <- setitem monitor (idx - nb_overlap) v ;;
        monitor_loop norm_to_min raw_monitor rest (idx + 1) monitor
                     nb_overlap nb_padded
      else
        monitor_loop norm_to_min raw_monitor rest (idx + 1) monitor
                     (nb_overlap + 1) nb_padded
  end.

(** One turn of the last loop,
    [array[idx, :, :] = array[idx, :, :] * monitor[idx]]: the frame [idx]
    is read, multiplied by [m] and written back; the other frames stay. *)
Definition scale_frame (array : ndarray F) (nbz nby nbx : nat) (idx : nat)
    (m : F) : ndarray F :=
  mk_ndarray [nbz; nby; nbx]
    (tabulate3 nbz nby nbx
       (fun i j k =>
          if (i =? idx)%nat then fmul (cell3 fzero array i j k) m
          else cell3 fzero array i j k)).

(** [for idx in range(nbz): array[idx, :, :] = array[idx, :, :] * monitor[idx]];
    [monitor] has [nbz] values when the loop is reached. *)
Definition scale_frames (array : ndarray F) (nbz nby nbx : nat)
    (monitor : list F) : ndarray F :=
  fold_left
    (fun array idx => scale_frame array nbz nby nbx idx (nth idx monitor fzero))
    (seq 0 nbz) array.

(** [normalize_dataset(array, raw_monitor, frames_logical, norm_to_min)];
    the plots of [debugging] are left out. *)
Definition normalize_dataset (array : ndarray F) (raw_monitor : list F)
    (frames_logical : list Z) (norm_to_min : bool)
  : outcome (ndarray F * list F * string) :=
  match shape array with
  | [nbz; nby; nbx] =>
      let monitor := repeat fzero (count_nonzero frames_logical) in
      '(monitor, nb_padded) <-
        monitor_loop norm_to_min raw_monitor frames_logical 0 monitor 0 0 ;;
      '(monitor, title) <-
        (if norm_to_min then
           m <- np_min monitor ;;
           Ok (map (fun x => fdiv m x) monitor, "monitor.min() / monitor"%string)
         else
           m <- np_max monitor ;;
           Ok (map (fun x => fdiv x m) monitor, "monitor / monitor.max()"%string)) ;;
      if negb (length monitor =? nbz)%nat then Raise ValueError
      else Ok (scale_frames array nbz nby nbx monitor, monitor, title)
  | _ => Raise ValueError
  end.

(** The monitor the specification describes: one value per USED ([1]) or
    PADDED ([-1]) frame in order, the raw value of the frame's original
    position for a USED frame and [fill] for a PADDED one; [position]
    counts the measured frames passed so far. *)
Fixpoint aligned_monitor (raw_monitor : list F) (fill : F)
    (frames_logical : list Z) (position : nat) : list F :=
  match frames_logical with
  | [] => []
  | f :: rest =>
      if f =? -1 then fill :: aligned_monitor raw_monitor fill rest position
      else if f =? 1 then
        nth position raw_monitor fzero
          :: aligned_monitor raw_monitor fill rest (S position)
      else aligned_monitor raw_monitor fill rest (S position)
  end.

(** The value stored for a PADDED frame. *)
Definition padded_value (norm_to_min : bool) (raw_monitor : list F) : F :=
  if norm_to_min then amin raw_monitor else amax raw_monitor.

(** Number of USED frames. *)
Definition count_used (frames_logical : list Z) : nat :=
  length (filter (fun f => f =? 1) frames_logical).
End NormalizeDataset.

End Normalize.

(** ** The centering / crop / pad engine *)

Module CenterFFT.
Import Numpy Primes Padding.

(** A float64 value: a finite one (as a rational), an infinity or a NaN. *)
Inductive pyfloat : Type :=
| Finite (q : Q)
| Infinite
| NaN.

(** A coordinate of the peak: a Python / NumPy integer or a float. *)
Inductive pynum : Type :=
| PyInt (n : Z)
| PyFloat (x : pyfloat).

(** [round] of a finite float: to the nearest integer, ties to even. *)
Definition round_half_even (q : Q) : Z :=
  let f := Qfloor q in
  match Qcompare (q - inject_Z f) (1 # 2) with
  | Lt => f
  | Gt => f + 1
  | Eq => if Z.even f then f else f + 1
  end.

(** [int(round(x))] *)
Definition int_round (x : pynum) : outcome Z :=
  match x with
  | PyInt n => Ok n
  | PyFloat (Finite q) => Ok (round_half_even q)
  | PyFloat Infinite => Raise OverflowError
  | PyFloat NaN => Raise ValueError
  end.

(** [int(x)] on a finite float: truncation toward zero. *)
Definition int_trunc (q : Q) : Z := Z.quot (Qnum q) (Z.pos (Qden q)).

(** [int(min(size / 2 - low, size - nb))]: one end of the symmetric pad. *)
Definition symmetric_pad (size low nb : Z) : Z :=
  int_trunc (Qmin (inject_Z size / 2 - inject_Z low) (inject_Z (size - nb))).

(** [int(min(size / 2 - nb + i0, size - nb))]: the other end. *)
Definition symmetric_pad_high (size nb i0 : Z) : Z :=
  int_trunc (Qmin (inject_Z size / 2 - inject_Z nb + inject_Z i0)
                  (inject_Z (size - nb))).

(** [int((delta + (parity % 2)) / 2)]: the low end of the asymmetric pad;
    the source passes [parity = delta] on the z and x axes. *)
Definition asymmetric_pad_low (delta parity : Z) : Z :=
  int_trunc (inject_Z (delta + parity mod 2) / 2).

(** [int((delta + 1) / 2 - (delta % 2))]: the high end. *)
Definition asymmetric_pad_high (delta : Z) : Z :=
  int_trunc (inject_Z (delta + 1) / 2 - inject_Z (delta mod 2)).

(** [np.arange(n)] *)
Definition arange (n : Z) : list Z := map Z.of_nat (seq 0 (Z.to_nat n)).

(** [q0 + np.arange(n) * dq] *)
Definition linear_grid (q0 dq : Q) (n : Z) : list Q :=
  map (fun k => q0 + inject_Z k * dq)%Q (arange n).

(** The keyword arguments; an absent one is the empty list, as the source
    sets it.  Any other keyword makes the source raise at once; the record
    has no room for one. *)
Record kwargs : Type := mk_kwargs {
  kw_fix_bragg : list Z;
  kw_fix_size : list Z;
  kw_pad_size : list Z;
  kw_q_values : list (list Q)
}.

(** The local variables a policy branch leaves behind. *)
Record branch_result : Type := mk_branch {
  r_data : ndarray Z;
  r_mask : ndarray Z;
  r_pad_width : list Z;
  r_qx : list Q;
  r_qz : list Q;
  r_qy : list Q;
  r_frames_logical : list Z
}.

(** [a, b, c = value] *)
Definition unpack3 (v : pyval) : outcome (Z * Z * Z) :=
  match v with
  | PInt _ => Raise TypeError
  | PList [a; b; c] | PTuple [a; b; c] | PArray [a; b; c] => Ok (a, b, c)
  | _ => Raise ValueError
  end.

(** [a, b = value] *)
Definition unpack2 (v : pyval) : outcome (Z * Z) :=
  match v with
  | PInt _ => Raise TypeError
  | PList [a; b] | PTuple [a; b] | PArray [a; b] => Ok (a, b)
  | _ => Raise ValueError
  end.

(** The scalar calls [higher_primes(n, maxprime=7, required_dividers=(2,))]. *)
Definition higher_primes_7_2 (fuel : nat) (n : Z) : outcome Z :=
  r <- higher_primes fuel (PInt n) 7 (Some [2]) ;;
  match r with
  | PInt m => Ok m
  | _ => Raise TypeError
  end.

(** [if pad_size[i] != higher_primes(pad_size[i], ...): raise ValueError] *)
Definition check_pad_size (fuel : nat) (pad_size : list Z) (i : Z) : outcome unit :=
  p <- item pad_size i ;;
  p' <- item pad_size i ;;
  h <- higher_primes_7_2 fuel p' ;;
  if negb (p =? h) then Raise ValueError else Ok tt.

(** [temp_frames = -1 * np.ones(data.shape[0]);
     temp_frames[pad_width[0]:pad_width[0] + nbz] = frames_logical] *)
Definition padded_frames (data : ndarray Z) (pad_width : list Z) (nbz : Z)
    (frames_logical : list Z) : outcome (list Z) :=
  n <- item (shape data) 0 ;;
  let temp_frames := repeat (-1) n in
  p0 <- item pad_width 0 ;;
  p0' <- item pad_width 0 ;;
  setslice temp_frames (range p0 (p0' + nbz)) frames_logical.

(** [dq = q[1] - q[0]] *)
Definition spacing (q : list Q) : outcome Q :=
  q1 <- item q 1 ;;
  q0 <- item q 0 ;;
  Ok (q1 - q0)%Q.

(** [q0 = q[0] - pad_width[i] * dq] *)
Definition grid_origin (q : list Q) (pad_width : list Z) (i : Z) (dq : Q)
  : outcome Q :=
  q0 <- item q 0 ;;
  p <- item pad_width i ;;
  Ok (q0 - inject_Z p * dq)%Q.

Section Branches.
Variable fuel : nat.
Variables data mask : ndarray Z.
Variable frames_logical : list Z.
Variable q_values : list (list Q).
Variables qx qz qy : list Q.
Variables fix_size pad_size : list Z.
Variables iz0 iy0 ix0 : Z.
Variables nbz nby nbx : Z.
Variables max_nz max_ny max_nx : Z.

Definition has_q_values : bool := negb (length q_values =? 0)%nat.

(** The crop of data, mask, provenance and q grid to the box
    [[z0:z1, y0:y1, x0:x1]], as the two crop branches and [do_nothing]
    write it. *)
Definition crop_box (z0 z1 y0 y1 x0 x1 : Z) : outcome branch_result :=
  let pad_width := repeat 0 6 in
  data' <- getitem3 0 data (range z0 z1) (range y0 y1) (range x0 x1) ;;
  mask' <- getitem3 0 mask (range z0 z1) (range y0 y1) (range x0 x1) ;;
  let frames1 :=
    if 0 <? z0 then fillslice frames_logical (range 0 z0) 0
    else frames_logical in
  let frames2 :=
    if z1 <? nbz then fillslice frames1 (from z1) 0 else frames1 in
  if has_q_values then
    Ok (mk_branch data' mask' pad_width
          (getslice qx (range z0 z1)) (getslice qz (range y0 y1))
          (getslice qy (range x0 x1)) frames2)
  else Ok (mk_branch data' mask' pad_width qx qz qy frames2).

Definition crop_symmetric_ZYX : outcome branch_result :=
  r <- smaller_primes (PTuple [max_nz; max_ny; max_nx]) 7 (Some [2]) ;;
  '(nz1, ny1, nx1) <- unpack3 r ;;
  crop_box (iz0 - nz1 / 2) (iz0 + nz1 / 2) (iy0 - ny1 / 2) (iy0 + ny1 / 2)
           (ix0 - nx1 / 2) (ix0 + nx1 / 2).

Definition crop_asymmetric_ZYX : outcome branch_result :=
  r <- smaller_primes (PTuple [nbz; nby; nbx]) 7 (Some [2]) ;;
  '(nz1, ny1, nx1) <- unpack3 r ;;
  crop_box (nbz / 2 - nz1 / 2) (nbz / 2 + nz1 / 2)
           (nby / 2 - ny1 / 2) (nby / 2 + ny1 / 2)
           (nbx / 2 - nx1 / 2) (nbx / 2 + nx1 / 2).

(** The common tail of the pad branches: pad data and mask, rebuild the
    provenance vector. *)
Definition pad_arrays (data' mask' : ndarray Z) (pad_width : list Z)
  : outcome (ndarray Z * ndarray Z * list Z) :=
  data'' <- zero_pad data' pad_width false ;;
  mask'' <- zero_pad mask' pad_width true ;;
  frames' <- padded_frames data'' pad_width nbz frames_logical ;;
  Ok (data'', mask'', frames').

(** [qx] rebuilt on [n] samples from the first pad width. *)
Definition extend_qx (pad_width : list Z) (n : Z) : outcome (list Q) :=
  dqx <- spacing qx ;;
  qx0 <- grid_origin qx pad_width 0 dqx ;;
  Ok (linear_grid qx0 dqx n).

(** The detector crop [[:, iy0 - ny1//2:iy0 + ny1//2, ix0 - nx1//2:...]]. *)
Definition crop_detector (a : ndarray Z) (ny1 nx1 : Z) : outcome (ndarray Z) :=
  getitem3 0 a whole (range (iy0 - ny1 / 2) (iy0 + ny1 / 2))
                     (range (ix0 - nx1 / 2) (ix0 + nx1 / 2)).

Definition pad_symmetric_Z_crop_YX : outcome branch_result :=
  if negb (length pad_size =? 3)%nat then Raise ValueError else
  _ <- check_pad_size fuel pad_size 0 ;;
  r <- smaller_primes (PTuple [max_ny; max_nx]) 7 (Some [2]) ;;
  '(ny1, nx1) <- unpack2 r ;;
  data' <- crop_detector data ny1 nx1 ;;
  mask' <- crop_detector mask ny1 nx1 ;;
  p0 <- item pad_size 0 ;;
  let pad_width :=
    [symmetric_pad p0 iz0 nbz; symmetric_pad_high p0 nbz iz0; 0; 0; 0; 0] in
  '(data'', mask'', frames') <- pad_arrays data' mask' pad_width ;;
  if has_q_values then
    qx' <- extend_qx pad_width p0 ;;
    Ok (mk_branch data'' mask'' pad_width qx'
          (getslice qz (range (iy0 - ny1 / 2) (iy0 + ny1 / 2)))
          (getslice qy (range (ix0 - nx1 / 2) (ix0 + nx1 / 2))) frames')
  else Ok (mk_branch data'' mask'' pad_width qx qz qy frames').

Definition pad_asymmetric_Z_crop_YX : outcome branch_result :=
  r <- smaller_primes (PTuple [max_ny; max_nx]) 7 (Some [2]) ;;
  '(ny1, nx1) <- unpack2 r ;;
  nz1 <- higher_primes_7_2 fuel nbz ;;
  data' <- crop_detector data ny1 nx1 ;;
  mask' <- crop_detector mask ny1 nx1 ;;
  let pad_width :=
    [asymmetric_pad_low (nz1 - nbz) (nz1 - nbz); asymmetric_pad_high (nz1 - nbz);
     0; 0; 0; 0] in
  '(data'', mask'', frames') <- pad_arrays data' mask' pad_width ;;
  if has_q_values then
    qx' <- extend_qx pad_width nz1 ;;
    Ok (mk_branch data'' mask'' pad_width qx'
          (getslice qz (range (iy0 - ny1 / 2) (iy0 + ny1 / 2)))
          (getslice qy (range (ix0 - nx1 / 2) (ix0 + nx1 / 2))) frames')
  else Ok (mk_branch data'' mask'' pad_width qx qz qy frames').

Definition pad_symmetric_Z : outcome branch_result :=
  if negb (length pad_size =? 3)%nat then Raise ValueError else
  _ <- check_pad_size fuel pad_size 0 ;;
  p0 <- item pad_size 0 ;;
  let pad_width :=
    [symmetric_pad p0 iz0 nbz; symmetric_pad_high p0 nbz iz0; 0; 0; 0; 0] in
  '(data'', mask'', frames') <- pad_arrays data mask pad_width ;;
  if has_q_values then
    qx' <- extend_qx pad_width p0 ;;
    Ok (mk_branch data'' mask'' pad_width qx' qz qy frames')
  else Ok (mk_branch data'' mask'' pad_width qx qz qy frames').

Definition pad_asymmetric_Z : outcome branch_result :=
  nz1 <- higher_primes_7_2 fuel nbz ;;
  let pad_width :=
    [asymmetric_pad_low (nz1 - nbz) (nz1 - nbz); asymmetric_pad_high (nz1 - nbz);
     0; 0; 0; 0] in
  '(data'', mask'', frames') <- pad_arrays data mask pad_width ;;
  if has_q_values then
    qx' <- extend_qx pad_width nz1 ;;
    Ok (mk_branch data'' mask'' pad_width qx' qz qy frames')
  else Ok (mk_branch data'' mask'' pad_width qx qz qy frames').

Definition pad_symmetric_ZYX : outcome branch_result :=
  if negb (length pad_size =? 3)%nat then Raise ValueError else
  _ <- check_pad_size fuel pad_size 0 ;;
  _ <- check_pad_size fuel pad_size 1 ;;
  _ <- check_pad_size fuel pad_size 2 ;;
  p0 <- item pad_size 0 ;;
  p1 <- item pad_size 1 ;;
  p2 <- item pad_size 2 ;;
  let pad_width :=
    [symmetric_pad p0 iz0 nbz; symmetric_pad_high p0 nbz iz0;
     symmetric_pad p1 iy0 nby; symmetric_pad_high p1 nby iy0;
     symmetric_pad p2 ix0 nbx; symmetric_pad_high p2 nbx ix0] in
  (* remove negative numbers *)
  let pad_width := map (fun value => Z.max value 0) pad_width in
  '(data'', mask'', frames') <- pad_arrays data mask pad_width ;;
  if has_q_values then
    dqx <- spacing qx ;;
    dqy <- spacing qy ;;
    dqz <- spacing qz ;;
    qx0 <- grid_origin qx pad_width 0 dqx ;;
    qy0 <- grid_origin qy pad_width 2 dqy ;;
    qz0 <- grid_origin qz pad_width 1 dqz ;;
    Ok (mk_branch data'' mask'' pad_width
          (linear_grid qx0 dqx p0) (linear_grid qz0 dqz p1)
          (linear_grid qy0 dqy p2) frames')
  else Ok (mk_branch data'' mask'' pad_width qx qz qy frames').

Definition pad_asymmetric_ZYX : outcome branch_result :=
  nz1 <- higher_primes_7_2 fuel nbz ;;
  ny1 <- higher_primes_7_2 fuel nby ;;
  nx1 <- higher_primes_7_2 fuel nbx ;;
  p1 <- item pad_size 1 ;;
  let pad_width :=
    [asymmetric_pad_low (nz1 - nbz) (nz1 - nbz); asymmetric_pad_high (nz1 - nbz);
     asymmetric_pad_low (ny1 - nby) (p1 - nby); asymmetric_pad_high (ny1 - nby);
     asymmetric_pad_low (nx1 - nbx) (nx1 - nbx); asymmetric_pad_high (nx1 - nbx)] in
  '(data'', mask'', frames') <- pad_arrays data mask pad_width ;;
  if has_q_values then
    dqx <- spacing qx ;;
    dqy <- spacing qy ;;
    dqz <- spacing qz ;;
    qx0 <- grid_origin qx pad_width 0 dqx ;;
    qy0 <- grid_origin qy pad_width 2 dqy ;;
    qz0 <- grid_origin qz pad_width 1 dqz ;;
    Ok (mk_branch data'' mask'' pad_width
          (linear_grid qx0 dqx nz1) (linear_grid qz0 dqz ny1)
          (linear_grid qy0 dqy nx1) frames')
  else Ok (mk_branch data'' mask'' pad_width qx qz qy frames').

Definition do_nothing : outcome branch_result :=
  let pad_width := repeat 0 6 in
  if (length fix_size =? 3)%nat then
    f1 <- item fix_size 1 ;; f0 <- item fix_size 0 ;;
    let z_pan := f1 - f0 in
    f3 <- item fix_size 3 ;; f2 <- item fix_size 2 ;;
    let y_pan := f3 - f2 in
    f5 <- item fix_size 5 ;; f4 <- item fix_size 4 ;;
    let x_pan := f5 - f4 in
    if (nbz <? z_pan) || (nby <? y_pan) || (nbx <? x_pan)
       || (nbz <? f1) || (nby <? f3) || (nbx <? f5)
    then Raise ValueError
    else crop_box f0 f1 f2 f3 f4 f5
  else Ok (mk_branch data mask pad_width qx qz qy frames_logical).

(** The [if fft_option == ...: ... elif ...: ... else: raise] chain. *)
Definition apply_policy (fft_option : string) : outcome branch_result :=
  if (fft_option =? "crop_symmetric_ZYX")%string then crop_symmetric_ZYX
  else if (fft_option =? "crop_asymmetric_ZYX")%string then crop_asymmetric_ZYX
  else if (fft_option =? "pad_symmetric_Z_crop_YX")%string then pad_symmetric_Z_crop_YX
  else if (fft_option =? "pad_asymmetric_Z_crop_YX")%string then pad_asymmetric_Z_crop_YX
  else if (fft_option =? "pad_symmetric_Z")%string then pad_symmetric_Z
  else if (fft_option =? "pad_asymmetric_Z")%string then pad_asymmetric_Z
  else if (fft_option =? "pad_symmetric_ZYX")%string then pad_symmetric_ZYX
  else if (fft_option =? "pad_asymmetric_ZYX")%string then pad_asymmetric_ZYX
  else if (fft_option =? "do_nothing")%string then do_nothing
  else Raise ValueError.
End Branches.

Section CenterFft.
(** [scipy.ndimage.measurements.center_of_mass], an external function:
    the three float coordinates it returns for a 3D array. *)
Variable center_of_mass : ndarray Z -> pyfloat * pyfloat * pyfloat.

(** The peak of the [centering] option: [np.unravel_index(
    abs(data).argmax(), data.shape)] or the centre of mass. *)
Definition centering_peak (data : ndarray Z) (centering : string)
  : outcome (pynum * pynum * pynum) :=
  if (centering =? "max")%string then
    idx <- argmax (map Z.abs (buf data)) ;;
    match shape data with
    | [_; ny; nx] =>
        let '(z0, y0, x0) := unravel_index idx ny nx in
        Ok (PyInt (Z.of_nat z0), PyInt (Z.of_nat y0), PyInt (Z.of_nat x0))
    | _ => Raise ValueError
    end
  else if (centering =? "com")%string then
    let '(z0, y0, x0) := center_of_mass data in
    Ok (PyFloat z0, PyFloat y0, PyFloat x0)
  else Raise ValueError.

(** [center_fft(data, mask, frames_logical, centering, fft_option,
    **kwargs)]; the result is [(data, mask, pad_width, q_values,
    frames_logical)]. *)
Definition center_fft (fuel : nat) (data mask : ndarray Z)
    (frames_logical : list Z) (centering fft_option : string) (kw : kwargs)
  : outcome (ndarray Z * ndarray Z * list Z * list (list Q) * list Z) :=
  if negb (ndim data =? 3)%nat || negb (ndim mask =? 3)%nat
  then Raise ValueError else
  if negb (if list_eq_dec Nat.eq_dec (shape data) (shape mask)
           then true else false)
  then Raise ValueError else
  let '(q_values, qx, qz, qy) :=
    match kw_q_values kw with
    | qx :: qz :: qy :: _ => (kw_q_values kw, qx, qz, qy)
    | _ => ([], [], [], [])
    end in
  '(z0, y0, x0) <- centering_peak data centering ;;
  '(z0, y0, x0) <-
    (if negb (length (kw_fix_bragg kw) =? 0)%nat then
       match kw_fix_bragg kw with
       | [z; y; x] => Ok (PyInt z, PyInt y, PyInt x)
       | _ => Raise ValueError
       end
     else Ok (z0, y0, x0)) ;;
  iz0 <- int_round z0 ;;
  iy0 <- int_round y0 ;;
  ix0 <- int_round x0 ;;
  _ <- item3 0 data iz0 iy0 ix0 ;;
  match shape data with
  | [nbz; nby; nbx] =>
      let nbz := Z.of_nat nbz in
      let nby := Z.of_nat nby in
      let nbx := Z.of_nat nbx in
      let max_nz := Z.abs (2 * Z.min iz0 (nbz - iz0)) in
      let max_ny := 2 * Z.min iy0 (nby - iy0) in
      let max_nx := Z.abs (2 * Z.min ix0 (nbx - ix0)) in
      let fft_option :=
        if (max_nz =? 0) || (max_ny =? 0) || (max_nx =? 0)
        then "do_nothing"%string else fft_option in
      r <- apply_policy fuel data mask frames_logical q_values qx qz qy
             (kw_fix_size kw) (kw_pad_size kw) iz0 iy0 ix0 nbz nby nbx
             max_nz max_ny max_nx fft_option ;;
      let q_values :=
        if negb (length q_values =? 0)%nat
        then r_qx r :: r_qz r :: r_qy r :: skipn 3 q_values
        else q_values in
      Ok (r_data r, r_mask r, r_pad_width r, q_values, r_frames_logical r)
  | _ => Raise ValueError
  end.
End CenterFft.

End CenterFFT.

(** ** Vocabulary of the statements *)

Module Spec.
Import Numpy Primes Padding CenterFFT Normalize.

(** The call returns or raises: the fuel was enough. *)
Definition settles {A : Type} (m : outcome A) : Prop := m <> OutOfFuel.

Definition prod (l : list Z) : Z := fold_right Z.mul 1 l.

(** [number] has no divisor in [[2, i)]: what the outer loop of [primes]
    has established when it reaches [i]. *)
Definition no_divisor_below (i number : Z) : Prop :=
  forall d, 2 <= d < i -> ~ (d | number).

(** What [primes] appends after the leading [1]: primes in non-decreasing
    order, none below [i], whose product is [number]. *)
Definition decomposition_from (i number : Z) (fs : list Z) : Prop :=
  Forall Z.prime fs /\ Forall (fun p => i <= p) fs
  /\ Sorted Z.le fs /\ prod fs = number.

Definition dividers (required_dividers : option (list Z)) : list Z :=
  match required_dividers with None => [] | Some ks => ks end.

(** The constraint as the specification words it: every prime factor of
    [n] is at most [maxprime] and every required divider divides [n].  The
    code compares [maxprime] with the maximum of a list that starts with
    [1], hence the first conjunct (implied by the second when [1 < n]). *)
Definition fft_ok (n maxprime : Z) (required_dividers : option (list Z)) : Prop :=
  1 <= maxprime
  /\ (forall q, Z.prime q -> (q | n) -> q <= maxprime)
  /\ Forall (fun k => (k | n)) (dividers required_dividers).

Definition fill_value (mask_flag : bool) : Z := if mask_flag then 1 else 0.

(** The array [zero_pad] builds, cell by cell. *)
Definition padded (a : ndarray Z) (nz ny nx z0 z1 y0 y1 x0 x1 : nat)
    (mask_flag : bool) : ndarray Z :=
  mk_ndarray [nz + z0 + z1; ny + y0 + y1; nx + x0 + x1]%nat
    (tabulate3 (nz + z0 + z1) (ny + y0 + y1) (nx + x0 + x1)
       (fun i j k =>
          if within z0 nz i && within y0 ny j && within x0 nx k
          then cell3 0 a (i - z0) (j - y0) (k - x0)
          else fill_value mask_flag)).

Definition pad_options : list string :=
  ["pad_symmetric_Z_crop_YX"; "pad_asymmetric_Z_crop_YX"; "pad_symmetric_Z";
   "pad_asymmetric_Z"; "pad_symmetric_ZYX"; "pad_asymmetric_ZYX"]%string.

Definition crop_options : list string :=
  ["crop_symmetric_ZYX"; "crop_asymmetric_ZYX"]%string.

(** The first-axis length of an array ([a.shape[0]]). *)
Definition rocking_length {A : Type} (a : ndarray A) : nat :=
  nth 0 (shape a) 0%nat.

(** [(z, y, x)] indexes a cell of an array of shape [sh], negative indices
    counted from the end. *)
Definition in_bounds (sh : list nat) (z y x : Z) : Prop :=
  match sh with
  | [nz; ny; nx] =>
      - Z.of_nat nz <= z < Z.of_nat nz
      /\ - Z.of_nat ny <= y < Z.of_nat ny
      /\ - Z.of_nat nx <= x < Z.of_nat nx
  | _ => False
  end.

(** A provenance tag: PADDED, UNUSED or USED. *)
Definition tag_ok (f : Z) : Prop := f = -1 \/ f = 0 \/ f = 1.

(** The returned monitor: the aligned monitor divided into its minimum, or
    divided by its maximum. *)
Definition rescaled_monitor {F : Type} (amin amax : list F -> F)
    (fdiv : F -> F -> F) (norm_to_min : bool) (monitor : list F) : list F :=
  if norm_to_min then map (fun x => fdiv (amin monitor) x) monitor
  else map (fun x => fdiv x (amax monitor)) monitor.

End Spec.

(** ** Concrete inputs *)

Module Examples.
Import Numpy Primes Padding CenterFFT Normalize.

(** A volume of shape [(nz, ny, nx)] with 100 counts in the voxel
    [(pz, py, px)] and one count everywhere else. *)
Definition volume (nz ny nx pz py px : nat) : ndarray Z :=
  mk_ndarray [nz; ny; nx]
    (tabulate3 nz ny nx (fun i j k =>
       if ((i =? pz) && (j =? py) && (k =? px))%nat then 100 else 1)).

(** The mask that excludes nothing. *)
Definition clear_mask (nz ny nx : nat) : ndarray Z :=
  mk_ndarray [nz; ny; nx] (repeat 0 (nz * ny * nx)).

(** The provenance vector of [n] measured frames, all USED. *)
Definition all_used (n : nat) : list Z := repeat 1 n.

(** A q axis of [n] samples spaced by 1/10, and a q grid co-registered
    with a volume of shape [(nz, ny, nx)], in the order [[qx, qz, qy]]. *)
Definition q_axis (n : nat) : list Q := linear_grid 0 (1 # 10) (Z.of_nat n).
Definition q_grid (nz ny nx : nat) : list (list Q) :=
  [q_axis nz; q_axis ny; q_axis nx].

(** The centre of mass in exact arithmetic, one function that can stand
    for [center_of_mass]. *)
Definition weighted_sum (a : ndarray Z) (w : nat -> nat -> nat -> Z) : Z :=
  match shape a with
  | [nz; ny; nx] =>
      fold_right Z.add 0
        (tabulate3 nz ny nx (fun i j k => w i j k * cell3 0 a i j k))
  | _ => 0
  end.

Definition ratio (num den : Z) : pyfloat :=
  if den =? 0 then (if num =? 0 then NaN else Infinite)
  else Finite (inject_Z num / inject_Z den).

Definition center_of_mass_exact (a : ndarray Z) : pyfloat * pyfloat * pyfloat :=
  let total := weighted_sum a (fun _ _ _ => 1) in
  (ratio (weighted_sum a (fun i _ _ => Z.of_nat i)) total,
   ratio (weighted_sum a (fun _ j _ => Z.of_nat j)) total,
   ratio (weighted_sum a (fun _ _ k => Z.of_nat k)) total).

(** What the statements look at in a result of [center_fft]: the shape of the
    returned data, [pad_width], the lengths of the returned q arrays and the
    provenance vector. *)
Definition digest
    (r : outcome (ndarray Z * ndarray Z * list Z * list (list Q) * list Z))
  : outcome (list nat * list Z * list nat * list Z) :=
  match r with
  | Ok (data, _, pad_width, q_values, frames_logical) =>
      Ok (shape data, pad_width, map (@length Q) q_values, frames_logical)
  | Raise e => Raise e
  | OutOfFuel => OutOfFuel
  end.

(** [center_fft] with [centering='max'] on [volume] and [clear_mask], all
    frames USED. *)
Definition run (nz ny nx pz py px : nat) (fft_option : string) (kw : kwargs) :=
  center_fft center_of_mass_exact 64 (volume nz ny nx pz py px)
             (clear_mask nz ny nx) (all_used nz) "max" fft_option kw.

(** Rationals standing for the floats of [normalize_dataset]. *)
Definition q_min (l : list Q) : Q := fold_right Qmin (hd 0%Q l) l.
Definition q_max (l : list Q) : Q := fold_right Qmax (hd 0%Q l) l.

(** A volume of [nz] frames of one pixel, every pixel holding [1]. *)
Definition pixel_frames (nz : nat) : ndarray Q :=
  mk_ndarray [nz; 1%nat; 1%nat] (repeat 1%Q nz).

End Examples.

(** ** Vocabulary for the engine as a whole *)

Module EngineSpec.
Import Numpy Primes Padding CenterFFT.

(** The q arrays the engine works with: [q_values] and its first three
    entries when it has them, nothing otherwise. *)
Definition q_arrays (kw : kwargs)
  : list (list Q) * list Q * list Q * list Q :=
  match kw_q_values kw with
  | qx :: qz :: qy :: _ => (kw_q_values kw, qx, qz, qy)
  | _ => ([], [], [], [])
  end.

(** [2 * min(i0, nb - i0)]: the largest symmetric box around [i0] on an
    axis of length [nb]. *)
Definition max_box (i0 nb : Z) : Z := 2 * Z.min i0 (nb - i0).

(** The policy that runs: the requested one, or ['do_nothing'] when the
    symmetric box around the peak is empty along an axis. *)
Definition effective_option (fft_option : string)
    (iz0 iy0 ix0 nbz nby nbx : Z) : string :=
  if (Z.abs (max_box iz0 nbz) =? 0) || (max_box iy0 nby =? 0)
     || (Z.abs (max_box ix0 nbx) =? 0)
  then "do_nothing"%string else fft_option.

(** The integer peak position: the [centering] peak, replaced by
    [fix_bragg] when it is given, rounded. *)
Definition peak_position
    (center_of_mass : ndarray Z -> pyfloat * pyfloat * pyfloat)
    (data : ndarray Z) (centering : string) (kw : kwargs)
  : outcome (Z * Z * Z) :=
  '(z0, y0, x0) <- centering_peak center_of_mass data centering ;;
  '(z0, y0, x0) <-
    (if negb (length (kw_fix_bragg kw) =? 0)%nat then
       match kw_fix_bragg kw with
       | [z; y; x] => Ok (PyInt z, PyInt y, PyInt x)
       | _ => Raise ValueError
       end
     else Ok (z0, y0, x0)) ;;
  iz0 <- int_round z0 ;;
  iy0 <- int_round y0 ;;
  ix0 <- int_round x0 ;;
  Ok (iz0, iy0, ix0).

(** The position of the first maximum of [abs(data)]. *)
Definition max_position (data : ndarray Z) : nat * nat * nat :=
  match shape data, map Z.abs (buf data) with
  | [_; ny; nx], x :: r => unravel_index (argmax_from r 1 0 x) ny nx
  | _, _ => (O, O, O)
  end.

(** The returned [q_values]: its first three entries replaced by the
    branch's q arrays when q values were given. *)
Definition returned_q (q_values : list (list Q)) (br : branch_result)
  : list (list Q) :=
  if negb (length q_values =? 0)%nat
  then r_qx br :: r_qz br :: r_qy br :: skipn 3 q_values
  else q_values.

(** What the engine returns from what a branch left. *)
Definition returned (q_values : list (list Q)) (br : branch_result)
  : ndarray Z * ndarray Z * list Z * list (list Q) * list Z :=
  (r_data br, r_mask br, r_pad_width br, returned_q q_values br,
   r_frames_logical br).

(** The array was returned as it was given, with no padding recorded. *)
Definition passed_through (data mask : ndarray Z) (frames_logical : list Z)
    (res : ndarray Z * ndarray Z * list Z * list (list Q) * list Z) : Prop :=
  let '(data', mask', pad_width, _, frames') := res in
  data' = data /\ mask' = mask /\ pad_width = repeat 0 6
  /\ frames' = frames_logical.

(** The window [[lo, lo + n)] of a provenance vector: the tags inside are
    kept, the others are set to UNUSED. *)
Definition keep_window (lo n : nat) (frames_logical : list Z) : list Z :=
  map (fun '(i, f) => if within lo n i then f else 0)
      (combine (seq 0 (length frames_logical)) frames_logical).

(** The sub-array [[z0:z0+nz, y0:y0+ny, x0:x0+nx]]. *)
Definition sub_array (a : ndarray Z) (z0 nz y0 ny x0 nx : nat) : ndarray Z :=
  mk_ndarray [nz; ny; nx]
    (tabulate3 nz ny nx (fun i j k => cell3 0 a (z0 + i) (y0 + j) (x0 + k))).

(** A size [try_smaller_primes] accepts with the engine's parameters. *)
Definition fft_size (n : Z) : Prop :=
  try_smaller_primes n 7 (Some [2]) = Ok true.

End EngineSpec.

(** ** Vocabulary for the monitor normalisation *)

Module NormalizeSpec.

(** Number of measured frames: the tags other than PADDED ([-1]); the loop
    of [normalize_dataset] moves one step along [raw_monitor] for each. *)
Definition count_measured (frames_logical : list Z) : nat :=
  length (filter (fun f => negb (f =? -1)) frames_logical).

(** The title returned for the plots. *)
Definition monitor_title (norm_to_min : bool) : string :=
  if norm_to_min then "monitor.min() / monitor" else "monitor / monitor.max()".

End NormalizeSpec.

(** ** Two-dimensional arrays and indexing by integers and slices *)

Module Numpy2.
Import Numpy.

(** One entry of an index expression: an integer or a slice. *)
Inductive index : Type :=
| At (i : Z)
| Span (s : slice).

(** What an index entry selects on an axis of length [n]: the first
    position and the number of positions; [None] is an integer out of
    range (an [IndexError]). *)
Definition select (n : nat) (ix : index) : option (nat * nat) :=
  match ix with
  | At i =>
      match index_in n i with
      | Some k => Some (k, 1%nat)
      | None => None
      end
  | Span s => Some (slice_indices n s)
  end.

(** The row-major buffer of the 2D array whose cell [(i, j)] is [f i j]. *)
Definition tabulate2 {A : Type} (ny nx : nat) (f : nat -> nat -> A) : list A :=
  flat_map (fun i => map (fun j => f i j) (seq 0 nx)) (seq 0 ny).

Section TwoDim.
Context {A : Type} (dflt : A).

(** The cell [(i, j)] of a 2D array. *)
Definition cell2 (a : ndarray A) (i j : nat) : A :=
  match shape a with
  | [_; nx] => nth (i * nx + j) (buf a) dflt
  | _ => dflt
  end.

(** [a[r, c] = v] on a 2D array, [v] a scalar. *)
Definition fill2 (a : ndarray A) (r c : index) (v : A) : outcome (ndarray A) :=
  match shape a with
  | [ny; nx] =>
      match select ny r, select nx c with
      | Some (r0, rl), Some (c0, cl) =>
          Ok (mk_ndarray [ny; nx]
                (tabulate2 ny nx (fun i j =>
                   if within r0 rl i && within c0 cl j then v
                   else cell2 a i j)))
      | _, _ => Raise IndexError
      end
  | _ => Raise IndexError
  end.

(** [a[r, c]] with two slices, on a 2D array. *)
Definition getitem2 (a : ndarray A) (r c : slice) : outcome (ndarray A) :=
  match shape a with
  | [ny; nx] =>
      let '(r0, rl) := slice_indices ny r in
      let '(c0, cl) := slice_indices nx c in
      Ok (mk_ndarray [rl; cl]
            (tabulate2 rl cl (fun i j => cell2 a (r0 + i) (c0 + j))))
  | _ => Raise IndexError
  end.

(** [a[r, c] = src] with two slices, [src] a 2D array broadcast to the
    selected region. *)
Definition setitem2 (a : ndarray A) (r c : slice) (src : ndarray A)
  : outcome (ndarray A) :=
  match shape a, shape src with
  | [ny; nx], [sy; sx] =>
      let '(r0, rl) := slice_indices ny r in
      let '(c0, cl) := slice_indices nx c in
      if broadcasts sy rl && broadcasts sx cl then
        Ok (mk_ndarray [ny; nx]
              (tabulate2 ny nx (fun i j =>
                 if within r0 rl i && within c0 cl j
                 then cell2 src (source_index sy (i - r0))
                                (source_index sx (j - c0))
                 else cell2 a i j)))
      else Raise ValueError
  | _, _ => Raise ValueError
  end.
End TwoDim.

(** [a[cond == 1] = v] on a 2D array, [cond] an integer array: the boolean
    index must have the shape of [a]. *)
Definition assign_where (a cond : ndarray Z) (v : Z) : outcome (ndarray Z) :=
  match shape a with
  | [ny; nx] =>
      if list_eq_dec Nat.eq_dec (shape cond) [ny; nx] then
        Ok (mk_ndarray [ny; nx]
              (tabulate2 ny nx (fun i j =>
                 if cell2 0 cond i j =? 1 then v else cell2 0 a i j)))
      else Raise IndexError
  | _ => Raise IndexError
  end.

(** [a.sum()] *)
Definition total (a : ndarray Z) : Z := fold_right Z.add 0 (buf a).

(** [(a != 0).sum()], also written [sum(sum(a != 0))] for a 2D array
    with at least one cell. *)
Definition nonzero_count (a : ndarray Z) : Z :=
  Z.of_nat (length (filter (fun x => negb (x =? 0)) (buf a))).

(** [np.argwhere(a == 0)] on a 2D array: the positions of the zero cells
    in row-major order. *)
Definition argwhere_zero (a : ndarray Z) : list (nat * nat) :=
  match shape a with
  | [ny; nx] =>
      filter (fun '(i, j) => cell2 0 a i j =? 0)
             (flat_map (fun i => map (fun j => (i, j)) (seq 0 nx)) (seq 0 ny))
  | _ => []
  end.

End Numpy2.

(** ** Detector gaps, hot pixels and the mean filter *)

Module Detector.
Import Numpy Numpy2.

(** [a[r, c] = v] for each region [(r, c)] in turn. *)
Fixpoint fill_regions (a : ndarray Z) (regions : list (index * index)) (v : Z)
  : outcome (ndarray Z) :=
  match regions with
  | [] => Ok a
  | (r, c) :: rest =>
      a' <- fill2 0 a r c v ;;
      fill_regions a' rest v
  end.

(** The index expressions [[a:b, :]], [[:, a:b]] and [[r0:r1, c0:c1]]. *)
Definition rows (a b : Z) : index * index := (Span (range a b), Span whole).
Definition cols (a b : Z) : index * index := (Span whole, Span (range a b)).
Definition box (r0 r1 c0 c1 : Z) : index * index :=
  (Span (range r0 r1), Span (range c0 c1)).

(** The two checks that open the three gap-masking functions. *)
Definition check_2d_pair (data mask : ndarray Z) : outcome unit :=
  if negb (ndim data =? 2)%nat || negb (ndim mask =? 2)%nat
  then Raise ValueError else
  if negb (if list_eq_dec Nat.eq_dec (shape data) (shape mask)
           then true else false)
  then Raise ValueError else Ok tt.

(** [mask_maxipix(data, mask)] *)
Definition maxipix_gaps : list (index * index) :=
  [cols 255 261; rows 255 261].

Definition mask_maxipix (data mask : ndarray Z)
  : outcome (ndarray Z * ndarray Z) :=
  _ <- check_2d_pair data mask ;;
  data <- fill_regions data maxipix_gaps 0 ;;
  mask <- fill_regions mask maxipix_gaps 1 ;;
  Ok (data, mask).

(** [mask_eiger4m(data, mask)] *)
Definition eiger4m_gaps : list (index * index) :=
  [cols 1029 1041; rows 513 552; rows 1064 1103; rows 1614 1654].

Definition mask_eiger4m (data mask : ndarray Z)
  : outcome (ndarray Z * ndarray Z) :=
  _ <- check_2d_pair data mask ;;
  data <- fill_regions data eiger4m_gaps 0 ;;
  mask <- fill_regions mask eiger4m_gaps 1 ;;
  Ok (data, mask).

(** [mask_eiger(data, mask)]: the regions set to 0 in [data] and the
    regions set to 1 in [mask], in the order of the source; the sixth
    differs ([data[511:552, :0]] against [mask[511:552, :]]). *)
Definition eiger_data_regions : list (index * index) :=
  [cols 255 259; cols 513 517; cols 771 775; box 0 257 72 80;
   rows 255 259;
   (Span (range 511 552), Span (mk_slice None (Some 0)));
   rows 804 809; rows 1061 1102; rows 1355 1359; rows 1611 1652;
   rows 1905 1909;
   (Span (range 1248 1290), At 478); (Span (range 1214 1298), At 481);
   box 1649 1910 620 628].

Definition eiger_mask_regions : list (index * index) :=
  [cols 255 259; cols 513 517; cols 771 775; box 0 257 72 80;
   rows 255 259;
   rows 511 552;
   rows 804 809; rows 1061 1102; rows 1355 1359; rows 1611 1652;
   rows 1905 1909;
   (Span (range 1248 1290), At 478); (Span (range 1214 1298), At 481);
   box 1649 1910 620 628].

Definition mask_eiger (data mask : ndarray Z)
  : outcome (ndarray Z * ndarray Z) :=
  _ <- check_2d_pair data mask ;;
  data <- fill_regions data eiger_data_regions 0 ;;
  mask <- fill_regions mask eiger_mask_regions 1 ;;
  Ok (data, mask).

(** [hotpixels.sum(axis=0)] on a 3D array. *)
Definition sum_axis0 (a : ndarray Z) : ndarray Z :=
  match shape a with
  | [nz; ny; nx] =>
      mk_ndarray [ny; nx]
        (tabulate2 ny nx (fun j k =>
           fold_right Z.add 0 (map (fun i => cell3 0 a i j k) (seq 0 nz))))
  | _ => a
  end.

(** [temp = a[idx, :, :]; temp[cond == 1] = v]: the write goes through the
    view into [a].  [cond] has the shape of a frame. *)
Definition assign_where_frame (a cond : ndarray Z) (idx : nat) (v : Z)
  : ndarray Z :=
  match shape a with
  | [nz; ny; nx] =>
      mk_ndarray [nz; ny; nx]
        (tabulate3 nz ny nx (fun i j k =>
           if (i =? idx)%nat && (cell2 0 cond j k =? 1) then v
           else cell3 0 a i j k))
  | _ => a
  end.

(** [remove_hotpixels(data, mask, hotpixels)] *)
Definition remove_hotpixels (data mask hotpixels : ndarray Z)
  : outcome (ndarray Z * ndarray Z) :=
  let hotpixels :=
    if (ndim hotpixels =? 3)%nat then sum_axis0 hotpixels else hotpixels in
  if negb (if list_eq_dec Nat.eq_dec (shape data) (shape mask)
           then true else false)
  then Raise ValueError else
  match shape data with
  | [nz; ny; nx] =>
      (* data[0, :, :] *)
      if (nz =? 0)%nat then Raise IndexError else
      if negb (if list_eq_dec Nat.eq_dec [ny; nx] (shape hotpixels)
               then true else false)
      then Raise ValueError else
      Ok (fold_left
            (fun '(data, mask) idx =>
               (assign_where_frame data hotpixels idx 0,
                assign_where_frame mask hotpixels idx 1))
            (seq 0 nz) (data, mask))
  | [ny; nx] =>
      if negb (if list_eq_dec Nat.eq_dec (shape data) (shape hotpixels)
               then true else false)
      then Raise ValueError else
      data <- assign_where data hotpixels 0 ;;
      mask <- assign_where mask hotpixels 1 ;;
      Ok (data, mask)
  | _ => Raise ValueError
  end.

Section MeanFilter.
(** [temp.sum() / sum(sum(temp != 0))] as it is stored into [data]; the
    value depends on the dtype of the array and stays abstract. *)
Variable quotient : Z -> Z -> Z.

(** One turn of the loop over the zero pixels. *)
Definition mean_filter_step (nb_neighbours : Z) (interpolate : bool)
    (state : ndarray Z * Z * ndarray Z) (pixel : nat * nat)
  : outcome (ndarray Z * Z * ndarray Z) :=
  let '(data, nb_pixels, mask) := state in
  let '(pixrow, pixcol) := pixel in
  let pixrow := Z.of_nat pixrow in
  let pixcol := Z.of_nat pixcol in
  temp <- getitem2 0 data (range (pixrow - 1) (pixrow + 2))
                          (range (pixcol - 1) (pixcol + 2)) ;;
  if negb (length (buf temp) =? 0)%nat && (24 <? total temp)
     && (nb_neighbours <=? nonzero_count temp)
  then
    let nb_pixels := nb_pixels + 1 in
    if interpolate then
      let value := quotient (total temp) (nonzero_count temp) in
      data <- fill2 0 data (At pixrow) (At pixcol) value ;;
      mask <- fill2 0 mask (At pixrow) (At pixcol) 0 ;;
      Ok (data, nb_pixels, mask)
    else
      mask <- fill2 0 mask (At pixrow) (At pixcol) 1 ;;
      Ok (data, nb_pixels, mask)
  else Ok (data, nb_pixels, mask).

Fixpoint mean_filter_loop (nb_neighbours : Z) (interpolate : bool)
    (zero_pixels : list (nat * nat)) (state : ndarray Z * Z * ndarray Z)
  : outcome (ndarray Z * Z * ndarray Z) :=
  match zero_pixels with
  | [] => Ok state
  | pixel :: rest =>
      state <- mean_filter_step nb_neighbours interpolate state pixel ;;
      mean_filter_loop nb_neighbours interpolate rest state
  end.

(** [mean_filter(data, nb_neighbours, mask, interpolate)]; the result is
    [(data, nb_pixels, mask)], the plots of [debugging] are left out. *)
Definition mean_filter (data : ndarray Z) (nb_neighbours : Z)
    (mask : ndarray Z) (interpolate : bool)
  : outcome (ndarray Z * Z * ndarray Z) :=
  if negb (ndim data =? 2)%nat || negb (ndim mask =? 2)%nat
  then Raise ValueError else
  mean_filter_loop nb_neighbours interpolate (argwhere_zero data)
                   (data, 0, mask).
End MeanFilter.

End Detector.

(** ** Vocabulary for the detector functions *)

Module DetectorSpec.
Import Numpy Numpy2 Detector.

(** The cell [(i, j)] of an array of shape [(ny, nx)] lies in the region
    an index expression selects. *)
Definition in_region (ny nx : nat) (region : index * index) (i j : nat) : bool :=
  match select ny (fst region), select nx (snd region) with
  | Some (r0, rl), Some (c0, cl) => within r0 rl i && within c0 cl j
  | _, _ => false
  end.

Definition in_regions (ny nx : nat) (regions : list (index * index))
    (i j : nat) : bool :=
  existsb (fun region => in_region ny nx region i j) regions.

(** Every integer of the index expressions is in range. *)
Definition selectable (ny nx : nat) (region : index * index) : Prop :=
  select ny (fst region) <> None /\ select nx (snd region) <> None.

(** The cross of the Maxipix: rows and columns 255 to 260. *)
Definition maxipix_gap (i j : nat) : bool :=
  within 255 6 j || within 255 6 i.

(** The gaps of the Eiger4M: columns 1029 to 1040 and three bands of rows. *)
Definition eiger4m_gap (i j : nat) : bool :=
  within 1029 12 j || within 513 39 i || within 1064 39 i || within 1614 40 i.

(** The cells of an Eiger2M frame that [mask_eiger] sets to 0 in [data]. *)
Definition eiger_zeroed (i j : nat) : bool :=
  within 255 4 j || within 513 4 j || within 771 4 j
  || (within 0 257 i && within 72 8 j)
  || within 255 4 i
  || within 804 5 i || within 1061 41 i || within 1355 4 i
  || within 1611 41 i || within 1905 4 i
  || (within 1248 42 i && (j =? 478)%nat)
  || (within 1214 84 i && (j =? 481)%nat)
  || (within 1649 261 i && within 620 8 j).

(** The cells it sets to 1 in [mask]: the same, and the rows 511 to 551. *)
Definition eiger_masked (i j : nat) : bool :=
  eiger_zeroed i j || within 511 41 i.

(** What a gap-masking function leaves: arrays of the same shape, with 0
    in [data'] on the cells of [zeroed], 1 in [mask'] on the cells of
    [masked], and the given values elsewhere. *)
Definition masked_where (zeroed masked : nat -> nat -> bool) (ny nx : nat)
    (data mask data' mask' : ndarray Z) : Prop :=
  shape data' = [ny; nx] /\ shape mask' = [ny; nx]
  /\ forall i j, (i < ny)%nat -> (j < nx)%nat ->
       cell2 0 data' i j = (if zeroed i j then 0 else cell2 0 data i j)
       /\ cell2 0 mask' i j = (if masked i j then 1 else cell2 0 mask i j).

(** The sum of a stack of hot-pixel maps at the pixel [(j, k)]. *)
Definition hot_sum (hotpixels : ndarray Z) (j k : nat) : Z :=
  match shape hotpixels with
  | [nz; _; _] =>
      fold_right Z.add 0 (map (fun i => cell3 0 hotpixels i j k) (seq 0 nz))
  | _ => 0
  end.

(** The test of [mean_filter] on the 3x3 window around the pixel
    [(i, j)] of [data]. *)
Definition isolated (data : ndarray Z) (nb_neighbours : Z) (i j : nat) : bool :=
  match getitem2 0 data (range (Z.of_nat i - 1) (Z.of_nat i + 2))
                        (range (Z.of_nat j - 1) (Z.of_nat j + 2)) with
  | Ok temp =>
      negb (length (buf temp) =? 0)%nat && (24 <? total temp)
      && (nb_neighbours <=? nonzero_count temp)
  | _ => false
  end.

(** The pixels [mean_filter] masks: the zero pixels that pass the test. *)
Definition treated (data : ndarray Z) (nb_neighbours : Z) (i j : nat) : bool :=
  (cell2 0 data i j =? 0) && isolated data nb_neighbours i j.

End DetectorSpec.

(** ** Interactive removal of parasitic intensity ("aliens") *)

Module Aliens.
Import Numpy Numpy2.

(** [a[i0, i1, i2] = v] on a 3D array, [v] a scalar. *)
Definition fill3 (a : ndarray Z) (ix : index * index * index) (v : Z)
  : outcome (ndarray Z) :=
  let '(i0, i1, i2) := ix in
  match shape a with
  | [nz; ny; nx] =>
      match select nz i0, select ny i1, select nx i2 with
      | Some (z0, lz), Some (y0, ly), Some (x0, lx) =>
          Ok (mk_ndarray [nz; ny; nx]
                (tabulate3 nz ny nx (fun i j k =>
                   if within z0 lz i && within y0 ly j && within x0 lx k
                   then v else cell3 0 a i j k)))
      | _, _, _ => Raise IndexError
      end
  | _ => Raise IndexError
  end.

(** [a[i0, i1, i2]] read on a 3D array, for its exceptions only: an
    integer out of range is an [IndexError]. *)
Definition view3 (a : ndarray Z) (ix : index * index * index) : outcome unit :=
  let '(i0, i1, i2) := ix in
  match shape a with
  | [nz; ny; nx] =>
      match select nz i0, select ny i1, select nx i2 with
      | Some _, Some _, Some _ => Ok tt
      | _, _, _ => Raise IndexError
      end
  | _ => Raise IndexError
  end.

(** [dst[i0, i1, i2] = src[i0, i1, i2]] on 3D arrays: the right-hand side
    is read first, then broadcast to the region of [dst]. *)
Definition copy3 (dst src : ndarray Z) (ix : index * index * index)
  : outcome (ndarray Z) :=
  let '(i0, i1, i2) := ix in
  match shape dst, shape src with
  | [nz; ny; nx], [sz; sy; sx] =>
      match select sz i0, select sy i1, select sx i2 with
      | Some (a0, l0), Some (a1, l1), Some (a2, l2) =>
          match select nz i0, select ny i1, select nx i2 with
          | Some (z0, lz), Some (y0, ly), Some (x0, lx) =>
              if broadcasts l0 lz && broadcasts l1 ly && broadcasts l2 lx then
                Ok (mk_ndarray [nz; ny; nx]
                      (tabulate3 nz ny nx (fun i j k =>
                         if within z0 lz i && within y0 ly j && within x0 lx k
                         then cell3 0 src (a0 + source_index l0 (i - z0))
                                          (a1 + source_index l1 (j - y0))
                                          (a2 + source_index l2 (k - x0))
                         else cell3 0 dst i j k)))
              else Raise ValueError
          | _, _, _ => Raise IndexError
          end
      | _, _, _ => Raise IndexError
      end
  | _, _ => Raise IndexError
  end.

(** [if (p - width) < 0: start = 0 else: start = p - width] *)
Definition window_start (p width : Z) : Z :=
  if p - width <? 0 then 0 else p - width.

(** The slice [start:p + width + 1] around the pointer. *)
Definition window (p width : Z) : slice :=
  range (window_start p width) (p + width + 1).

(** [width = width - 1; if width < 0: width = 0] *)
Definition narrower (width : Z) : Z :=
  let width := width - 1 in
  if width <? 0 then 0 else width.

(** [vmax = vmax / 2; if vmax < 1: vmax = 1] *)
Definition brighter (vmax : Q) : Q :=
  let vmax := (vmax / 2)%Q in
  if Qlt_le_dec vmax 1 then 1%Q else vmax.

(** [update_aliens_2d(key, pix, piy, original_data, updated_data,
    updated_mask, figure, width, vmax)]; the result is [(updated_data,
    updated_mask, width, vmax, stop_masking)].  The colour scale [vmax] is
    a rational; drawing on [figure] is left out. *)
Definition update_aliens_2d (key : string) (pix piy : Z)
    (original_data updated_data updated_mask : ndarray Z) (width : Z) (vmax : Q)
  : outcome (ndarray Z * ndarray Z * Z * Q * bool) :=
  if negb (ndim original_data =? 2)%nat || negb (ndim updated_data =? 2)%nat
     || negb (ndim updated_mask =? 2)%nat
  then Raise ValueError else
  let stop_masking := false in
  if (key =? "up")%string then
    Ok (updated_data, updated_mask, width + 1, vmax, stop_masking)
  else if (key =? "down")%string then
    Ok (updated_data, updated_mask, narrower width, vmax, stop_masking)
  else if (key =? "right")%string then
    Ok (updated_data, updated_mask, width, (vmax * 2)%Q, stop_masking)
  else if (key =? "left")%string then
    Ok (updated_data, updated_mask, width, brighter vmax, stop_masking)
  else if (key =? "m")%string then
    updated_data <- fill2 0 updated_data (Span (window piy width))
                          (Span (window pix width)) 0 ;;
    updated_mask <- fill2 0 updated_mask (Span (window piy width))
                          (Span (window pix width)) 1 ;;
    Ok (updated_data, updated_mask, width, vmax, stop_masking)
  else if (key =? "b")%string then
    source <- getitem2 0 original_data (window piy width) (window pix width) ;;
    updated_data <- setitem2 0 updated_data (window piy width)
                             (window pix width) source ;;
    updated_mask <- fill2 0 updated_mask (Span (window piy width))
                          (Span (window pix width)) 0 ;;
    Ok (updated_data, updated_mask, width, vmax, stop_masking)
  else if (key =? "q")%string then
    Ok (updated_data, updated_mask, width, vmax, true)
  else Ok (updated_data, updated_mask, width, vmax, stop_masking).

(** The index expression of the frame [idx] along the axis [dim], with the
    slices [sy] and [sx] on the two other axes: [[idx, sy, sx]],
    [[sy, idx, sx]] or [[sy, sx, idx]]; none of the [if dim == ...]
    branches is taken for another [dim]. *)
Definition plane (dim idx : Z) (sy sx : slice)
  : option (index * index * index) :=
  if dim =? 0 then Some (At idx, Span sy, Span sx)
  else if dim =? 1 then Some (Span sy, At idx, Span sx)
  else if dim =? 2 then Some (Span sy, Span sx, At idx)
  else None.

(** [plt.imshow(updated_data[idx, :, :], ...)] and its two variants: the
    frame is read, the drawing is left out. *)
Definition show_frame (updated_data : ndarray Z) (dim idx : Z) : outcome unit :=
  match plane dim idx whole whole with
  | Some ix => view3 updated_data ix
  | None => Ok tt
  end.

(** The length of the axis [dim] in the shape [(nbz, nby, nbx)]. *)
Definition axis_length (dim nbz nby nbx : Z) : option Z :=
  if dim =? 0 then Some nbz
  else if dim =? 1 then Some nby
  else if dim =? 2 then Some nbx
  else None.

(** [update_aliens(key, pix, piy, original_data, updated_data,
    updated_mask, figure, width, dim, idx, vmax)]; the result is
    [(updated_data, updated_mask, width, vmax, idx, stop_masking)]. *)
Definition update_aliens (key : string) (pix piy : Z)
    (original_data updated_data updated_mask : ndarray Z) (width dim idx : Z)
    (vmax : Q)
  : outcome (ndarray Z * ndarray Z * Z * Q * Z * bool) :=
  if negb (ndim original_data =? 3)%nat || negb (ndim updated_data =? 3)%nat
     || negb (ndim updated_mask =? 3)%nat
  then Raise ValueError else
  match shape original_data with
  | [nbz; nby; nbx] =>
      let nbz := Z.of_nat nbz in
      let nby := Z.of_nat nby in
      let nbx := Z.of_nat nbx in
      let stop_masking := false in
      if 2 <? dim then Raise ValueError else
      if (key =? "u")%string then
        let idx := idx + 1 in
        let idx :=
          match axis_length dim nbz nby nbx with
          | Some n => if n - 1 <? idx then 0 else idx
          | None => idx
          end in
        _ <- show_frame updated_data dim idx ;;
        Ok (updated_data, updated_mask, width, vmax, idx, stop_masking)
      else if (key =? "d")%string then
        let idx := idx - 1 in
        let idx :=
          match axis_length dim nbz nby nbx with
          | Some n => if idx <? 0 then n - 1 else idx
          | None => idx
          end in
        _ <- show_frame updated_data dim idx ;;
        Ok (updated_data, updated_mask, width, vmax, idx, stop_masking)
      else if (key =? "up")%string then
        Ok (updated_data, updated_mask, width + 1, vmax, idx, stop_masking)
      else if (key =? "down")%string then
        Ok (updated_data, updated_mask, narrower width, vmax, idx, stop_masking)
      else if (key =? "right")%string then
        let vmax := (vmax * 2)%Q in
        _ <- show_frame updated_data dim idx ;;
        Ok (updated_data, updated_mask, width, vmax, idx, stop_masking)
      else if (key =? "left")%string then
        let vmax := brighter vmax in
        _ <- show_frame updated_data dim idx ;;
        Ok (updated_data, updated_mask, width, vmax, idx, stop_masking)
      else if (key =? "m")%string then
        match plane dim idx (window piy width) (window pix width) with
        | Some ix =>
            updated_data <- fill3 updated_data ix 0 ;;
            updated_mask <- fill3 updated_mask ix 1 ;;
            _ <- show_frame updated_data dim idx ;;
            Ok (updated_data, updated_mask, width, vmax, idx, stop_masking)
        | None =>
            Ok (updated_data, updated_mask, width, vmax, idx, stop_masking)
        end
      else if (key =? "b")%string then
        match plane dim idx (window piy width) (window pix width) with
        | Some ix =>
            updated_data <- copy3 updated_data original_data ix ;;
            updated_mask <- fill3 updated_mask ix 0 ;;
            _ <- show_frame updated_data dim idx ;;
            Ok (updated_data, updated_mask, width, vmax, idx, stop_masking)
        | None =>
            Ok (updated_data, updated_mask, width, vmax, idx, stop_masking)
        end
      else if (key =? "q")%string then
        Ok (updated_data, updated_mask, width, vmax, idx, true)
      else Ok (updated_data, updated_mask, width, vmax, idx, stop_masking)
  | _ => Raise ValueError
  end.

End Aliens.

(** ** Vocabulary for the alien removal *)

Module AliensSpec.
Import Numpy Numpy2 Aliens.

(** The position [i] is within [width] of the pointer position [p]. *)
Definition near (p width : Z) (i : nat) : bool :=
  (p - width <=? Z.of_nat i) && (Z.of_nat i <=? p + width).

(** The coordinate along the axis [dim] of the voxel [(i, j, k)], and its
    two coordinates in the frame displayed for that axis. *)
Definition along (dim : Z) (i j k : nat) : nat :=
  if dim =? 0 then i else if dim =? 1 then j else k.
Definition frame_row (dim : Z) (i j k : nat) : nat :=
  if dim =? 0 then j else i.
Definition frame_col (dim : Z) (i j k : nat) : nat :=
  if dim =? 2 then j else k.

(** The voxel is in the frame [idx] of the axis [dim], within [width] of
    the pointer. *)
Definition in_patch (dim idx pix piy width : Z) (i j k : nat) : bool :=
  (Z.of_nat (along dim i j k) =? idx)
  && near piy width (frame_row dim i j k)
  && near pix width (frame_col dim i j k).

(** The keys that leave the arrays alone. *)
Definition control_key (key : string) : bool :=
  negb ((key =? "m")%string || (key =? "b")%string).

End AliensSpec.

(* ================================================================== *)
(** * Properties *)

Import Primes Spec.

(** ** The outcome monad *)

Lemma bind_Ok_inv {A B : Type} (m : outcome A) (k : A -> outcome B) (b : B) :
  bind m k = Ok b -> exists a, m = Ok a /\ k a = Ok b.
Proof. destruct m; simpl; intros H; try discriminate; eauto. Qed.

Lemma py_assert_Ok_inv (c : bool) (u : unit) : py_assert c = Ok u -> c = true.
Proof. destruct c; simpl; [reflexivity | discriminate]. Qed.

(** ** Trial division *)

Lemma prod_app (l1 l2 : list Z) : prod (l1 ++ l2) = prod l1 * prod l2.
Proof.
  unfold prod. induction l1 as [|x l1 IH]; cbn [app fold_right].
  - now rewrite Z.mul_1_l.
  - rewrite IH; ring.
Qed.

Lemma prod_repeat (i : Z) (d : nat) : prod (repeat i d) = i ^ Z.of_nat d.
Proof.
  induction d as [|d IH]; [reflexivity|].
  cbn [repeat prod fold_right]. fold (prod (repeat i d)). rewrite IH.
  rewrite Nat2Z.inj_succ, Z.pow_succ_r by lia. ring.
Qed.

Lemma primes_divide_ok (fuel : nat) :
  forall number i acc,
    2 <= i -> 1 <= number -> number <= Z.of_nat fuel ->
    exists number' d,
      primes_divide fuel number i acc = Ok (number', acc ++ repeat i d)
      /\ 1 <= number' <= number
      /\ number = number' * i ^ Z.of_nat d
      /\ number' mod i <> 0
      /\ (d = 0%nat \/ (i | number)).
Proof.
  induction fuel as [|fuel IH]; intros number i acc Hi Hn Hf; [lia|].
  cbn [primes_divide].
  destruct (Z.eqb_spec (number mod i) 0) as [Hm|Hm].
  - assert (Hdiv : number = i * (number / i)) by (apply Z_div_exact_full_2; lia).
    assert (1 <= number / i < number).
    { remember (number / i) as q. clear - Hdiv Hi Hn. nia. }
    destruct (IH (number / i) i (acc ++ [i])) as (n' & d & E & Hb & Hp & Hr & _);
      try lia.
    exists n', (S d). rewrite E, <- app_assoc.
    split; [reflexivity|]. split; [lia|]. split; [|split; [assumption|]].
    + rewrite Nat2Z.inj_succ, Z.pow_succ_r by lia.
      rewrite Hdiv at 1. rewrite Hp at 1. ring.
    + right. exists (number / i). lia.
  - exists number, 0%nat. rewrite app_nil_r.
    split; [reflexivity|]. split; [lia|]. split; [cbn; lia|].
    split; [assumption | now left].
Qed.

Lemma least_divisor_prime (i number : Z) :
  2 <= i -> (i | number) -> no_divisor_below i number -> Z.prime i.
Proof.
  intros Hi Hdiv Hno. split; [lia|].
  intros n Hn Hni. apply (Hno n); [lia|]. now apply Z.divide_trans with i.
Qed.

Lemma no_divisor_below_square_prime (i number : Z) :
  2 <= i -> 1 < number -> number < i * i ->
  no_divisor_below i number -> Z.prime number.
Proof.
  intros Hi Hn Hsq Hno. split; [lia|].
  intros n Hn' [y Hy].
  assert (Hni : i <= n).
  { destruct (Z_lt_le_dec n i) as [Hlt|]; [|assumption].
    exfalso; apply (Hno n); [lia|]. now exists y. }
  assert (Hy2 : 2 <= y) by nia.
  assert (Hyi : i <= y).
  { destruct (Z_lt_le_dec y i) as [Hlt|]; [|assumption].
    exfalso; apply (Hno y); [lia|]. exists n. lia. }
  nia.
Qed.

Lemma no_divisor_below_le (i number : Z) :
  1 < number -> no_divisor_below i number -> i <= number.
Proof.
  intros Hn Hno. destruct (Z_lt_le_dec number i) as [Hlt|]; [|assumption].
  exfalso. apply (Hno number); [lia | apply Z.divide_refl].
Qed.

Lemma sorted_repeat_app (i : Z) (d : nat) (fs : list Z) :
  Forall (fun p => i <= p) fs -> Sorted Z.le fs ->
  Sorted Z.le (repeat i d ++ fs).
Proof.
  intros Hge Hs. induction d as [|d IH]; [exact Hs|].
  cbn [repeat app]. constructor; [exact IH|].
  destruct d as [|d]; cbn [repeat app].
  - destruct Hge; constructor; assumption.
  - constructor. lia.
Qed.

Lemma primes_loop_ok (fuel : nat) :
  forall number i acc N,
    2 <= i -> 1 <= number <= N ->
    (1 <= fuel)%nat -> N - i + 2 <= Z.of_nat fuel ->
    no_divisor_below i number ->
    exists fs, primes_loop fuel number i acc = Ok (acc ++ fs)
               /\ decomposition_from i number fs.
Proof.
  induction fuel as [|fuel IH]; intros number i acc N Hi Hn Hf1 Hf Hno; [lia|].
  cbn [primes_loop].
  destruct (Z.leb_spec (i * i) number) as [Hsq|Hsq].
  - destruct (primes_divide_ok (Z.to_nat number) number i acc)
      as (n' & d & E & Hb & Hp & Hr & Hd); try lia.
    rewrite E. cbn [bind].
    assert (Hii : i <= number) by nia.
    assert (Hno' : no_divisor_below (i + 1) n').
    { intros k Hk Hdiv. destruct (Z.eq_dec k i) as [->|Hne].
      - apply Hr. apply Z.mod_divide; [lia | assumption].
      - apply (Hno k); [lia|]. apply Z.divide_trans with n'; [assumption|].
        exists (i ^ Z.of_nat d). lia. }
    destruct (IH n' (i + 1) (acc ++ repeat i d) N) as (fs & E' & Hpr & Hge & Hs & Hpd);
      try lia; try assumption.
    exists (repeat i d ++ fs). rewrite E', app_assoc. split; [reflexivity|].
    assert (Hge' : Forall (fun p => i <= p) fs).
    { eapply Forall_impl; [|exact Hge]. cbv beta. intros; lia. }
    repeat split.
    + apply Forall_app; split; [|assumption].
      destruct Hd as [->|Hd]; [constructor|].
      apply Forall_forall. intros x Hx. apply repeat_spec in Hx. subst x.
      now apply least_divisor_prime with number.
    + apply Forall_app; split; [|assumption].
      apply Forall_forall. intros x Hx. apply repeat_spec in Hx. lia.
    + now apply sorted_repeat_app.
    + rewrite prod_app, prod_repeat, Hpd. lia.
  - destruct (Z.ltb_spec 1 number) as [H1|H1].
    + exists [number]. split; [reflexivity|].
      assert (Z.prime number) by now apply no_divisor_below_square_prime with i.
      assert (i <= number) by now apply no_divisor_below_le.
      repeat split; auto. cbn. lia.
    + exists []. rewrite app_nil_r. split; [reflexivity|].
      repeat split; auto. cbn. lia.
Qed.

(** [primes] is total on positive integers and returns [1] followed by the
    ordered prime decomposition. *)
Lemma primes_ok (number : Z) :
  0 < number ->
  exists fs, primes number = Ok (1 :: fs) /\ decomposition_from 2 number fs.
Proof.
  intros Hn. unfold primes.
  destruct (Z.ltb_spec 0 number) as [_|]; [|lia]. cbn [py_assert bind].
  destruct (primes_loop_ok (Z.to_nat number) number 2 [1] number)
    as (fs & E & H); try lia.
  - intros d Hd; lia.
  - exists fs. now rewrite E.
Qed.

(** ** The FFT size test *)

Lemma fold_left_max_le (l : list Z) (a p : Z) :
  fold_left Z.max l a <= p <-> a <= p /\ Forall (fun x => x <= p) l.
Proof.
  revert a. induction l as [|x l IH]; intros a; cbn [fold_left].
  - split; [intros; split; [assumption | constructor] | tauto].
  - rewrite IH. split.
    + intros [Hm Hl]. split; [lia|]. constructor; [lia | assumption].
    + intros [Ha Hl]. inversion Hl; subst. split; [lia | assumption].
Qed.

Lemma in_divides_prod (x : Z) (l : list Z) : In x l -> (x | prod l).
Proof.
  induction l as [|y l IH]; intros Hin; [destruct Hin|].
  change (prod (y :: l)) with (y * prod l).
  destruct Hin as [->|Hin].
  - apply Z.divide_factor_l.
  - apply Z.divide_mul_r. auto.
Qed.

Lemma prime_divides_prod (q : Z) (l : list Z) :
  Z.prime q -> Forall Z.prime l -> (q | prod l) -> In q l.
Proof.
  intros Hq. induction l as [|y l IH]; intros Hl Hdiv.
  - cbn in Hdiv. apply Z.divide_1_r in Hdiv. destruct Hq as [Hq _]. lia.
  - change (prod (y :: l)) with (y * prod l) in Hdiv.
    inversion Hl as [|? ? Hy Hl']; subst.
    apply Z.divide_prime_mul in Hdiv; [|assumption].
    destruct Hdiv as [Hdiv|Hdiv].
    + left. symmetry. apply Z.divide_prime_prime; assumption.
    + right. auto.
Qed.

Lemma check_dividers_spec (number : Z) (ks : list Z) :
  Forall (fun k => k <> 0) ks ->
  exists b, check_dividers number ks = Ok b
            /\ (b = true <-> Forall (fun k => (k | number)) ks).
Proof.
  induction 1 as [|k ks Hk Hks IH]; cbn [check_dividers].
  - exists true. split; [reflexivity|]. split; auto.
  - destruct (Z.eqb_spec k 0) as [|_]; [contradiction|].
    destruct (Z.eqb_spec (number mod k) 0) as [Hm|Hm]; cbn [negb].
    + destruct IH as (b & E & Hb). exists b. split; [assumption|].
      rewrite Hb. split.
      * intros Hall. constructor; [|assumption]. now apply Z.mod_divide.
      * intros Hall. now inversion Hall.
    + exists false. split; [reflexivity|]. split; [discriminate|].
      intros Hall. inversion Hall; subst. exfalso. apply Hm.
      now apply Z.mod_divide.
Qed.

(** [try_smaller_primes] returns on every positive [number] when no
    required divider is zero, and it decides [fft_ok]. *)
Lemma try_smaller_primes_spec (number maxprime : Z) (rd : option (list Z)) :
  0 < number -> Forall (fun k => k <> 0) (dividers rd) ->
  exists b, try_smaller_primes number maxprime rd = Ok b
            /\ (b = true <-> fft_ok number maxprime rd).
Proof.
  intros Hn Hnz. unfold try_smaller_primes, fft_ok.
  destruct (primes_ok number Hn) as (fs & E & Hpr & _ & _ & Hpd).
  rewrite E. cbn [bind py_max].
  assert (Hmax : fold_left Z.max fs 1 <= maxprime <->
                 1 <= maxprime /\ forall q, Z.prime q -> (q | number) -> q <= maxprime).
  { rewrite fold_left_max_le, Forall_forall. split; intros [H1 H2]; split; auto.
    - intros q Hq Hdiv. apply H2. apply prime_divides_prod; auto. now rewrite Hpd.
    - intros x Hx. apply H2.
      + rewrite Forall_forall in Hpr. auto.
      + rewrite <- Hpd. now apply in_divides_prod. }
  destruct (Z.ltb_spec maxprime (fold_left Z.max fs 1)) as [Hlt|Hle].
  - exists false. split; [reflexivity|]. split; [discriminate|].
    intros (H1 & H2 & _). assert (fold_left Z.max fs 1 <= maxprime) by (apply Hmax; auto).
    lia.
  - apply Hmax in Hle. destruct rd as [ks|]; cbn [dividers] in *.
    + destruct (check_dividers_spec number ks Hnz) as (b & Eb & Hb).
      exists b. split; [assumption|]. rewrite Hb. tauto.
    + exists true. split; [reflexivity|]. split; auto. intros _.
      destruct Hle. repeat split; auto.
Qed.

(** ** The upward and downward searches *)

Section Search.
Variables (maxprime : Z) (rd : option (list Z)).
Hypothesis rd_nonzero : Forall (fun k => k <> 0) (dividers rd).

Lemma higher_search_found (fuel : nat) :
  forall limit i m0,
    0 < i -> limit <= i -> i <= m0 -> fft_ok m0 maxprime rd ->
    (Z.to_nat (m0 - i) < fuel)%nat ->
    exists m, higher_search fuel limit i maxprime rd = Ok (Found m)
              /\ i <= m <= m0 /\ fft_ok m maxprime rd
              /\ forall k, i <= k < m -> ~ fft_ok k maxprime rd.
Proof.
  induction fuel as [|fuel IH]; intros limit i m0 Hi Hlim Hm0 Hok Hf; [lia|].
  cbn [higher_search].
  destruct (try_smaller_primes_spec i maxprime rd Hi rd_nonzero) as (b & E & Hb).
  rewrite E. cbn [bind]. destruct b; cbn [negb].
  - exists i. split; [reflexivity|]. split; [lia|]. split; [now apply Hb|].
    intros k Hk; lia.
  - assert (Hni : ~ fft_ok i maxprime rd).
    { intros H. apply Hb in H. discriminate. }
    assert (i <> m0) by (intros ->; contradiction).
    destruct (Z.eqb_spec (i + 1) limit) as [|_]; [lia|].
    destruct (IH limit (i + 1) m0) as (m & Em & Hr & Hfm & Hmin); try lia; auto.
    exists m. split; [assumption|]. split; [lia|]. split; [assumption|].
    intros k Hk. destruct (Z.eq_dec k i) as [->|]; [assumption|].
    apply Hmin. lia.
Qed.

Lemma higher_search_diverges (fuel : nat) :
  forall limit i,
    0 < i -> limit <= i ->
    (forall m, i <= m -> ~ fft_ok m maxprime rd) ->
    higher_search fuel limit i maxprime rd = OutOfFuel.
Proof.
  induction fuel as [|fuel IH]; intros limit i Hi Hlim Hnone; [reflexivity|].
  cbn [higher_search].
  destruct (try_smaller_primes_spec i maxprime rd Hi rd_nonzero) as (b & E & Hb).
  rewrite E. cbn [bind]. destruct b; cbn [negb].
  - exfalso. apply (Hnone i); [lia|]. now apply Hb.
  - destruct (Z.eqb_spec (i + 1) limit) as [|_]; [lia|].
    apply IH; try lia. intros m Hm. apply Hnone. lia.
Qed.

Lemma smaller_search_spec (fuel : nat) :
  forall i,
    0 < i -> (Z.to_nat i <= fuel)%nat ->
    (exists m, smaller_search fuel i maxprime rd = Ok (Found m)
               /\ 0 < m <= i /\ fft_ok m maxprime rd
               /\ forall k, m < k <= i -> ~ fft_ok k maxprime rd)
    \/ (smaller_search fuel i maxprime rd = Ok (Return 0)
        /\ forall k, 0 < k <= i -> ~ fft_ok k maxprime rd).
Proof.
  induction fuel as [|fuel IH]; intros i Hi Hf; [lia|].
  cbn [smaller_search].
  destruct (try_smaller_primes_spec i maxprime rd Hi rd_nonzero) as (b & E & Hb).
  rewrite E. cbn [bind]. destruct b; cbn [negb].
  - left. exists i. split; [reflexivity|]. split; [lia|]. split; [now apply Hb|].
    intros k Hk; lia.
  - assert (Hni : ~ fft_ok i maxprime rd).
    { intros H. apply Hb in H. discriminate. }
    destruct (Z.eqb_spec (i - 1) 0) as [E0|NE0].
    + right. split; [reflexivity|]. intros k Hk.
      replace k with i by lia. assumption.
    + destruct (IH (i - 1)) as [(m & Em & Hr & Hfm & Hmax)|[Em Hnone]]; try lia.
      * left. exists m. split; [assumption|]. split; [lia|]. split; [assumption|].
        intros k Hk. destruct (Z.eq_dec k i) as [->|]; [assumption|].
        apply Hmax. lia.
      * right. split; [assumption|]. intros k Hk.
        destruct (Z.eq_dec k i) as [->|]; [assumption|]. apply Hnone. lia.
Qed.

(** The scalar [smaller_primes], read off the search. *)
Lemma smaller_primes_int (n : Z) :
  1 < n -> maxprime <= n ->
  exists m, smaller_primes (PInt n) maxprime rd = Ok (PInt m)
            /\ 0 <= m <= n
            /\ (0 < m -> fft_ok m maxprime rd)
            /\ (forall k, 0 < k <= n -> m < k -> ~ fft_ok k maxprime rd)
            /\ (smaller_search (Z.to_nat n) n maxprime rd
                = Ok (if 0 <? m then Found m else Return 0)).
Proof.
  intros Hn Hp. cbn [smaller_primes].
  destruct (Z.ltb_spec 1 n) as [_|]; [|lia].
  destruct (Z.leb_spec maxprime n) as [_|]; [|lia]. cbn [andb py_assert bind].
  destruct (smaller_search_spec (Z.to_nat n) n) as [(m & Em & Hr & Hfm & Hmax)|[Em Hnone]];
    try lia; rewrite Em; cbn [bind].
  - exists m. split; [reflexivity|]. split; [lia|]. split; [auto|].
    split; [intros k Hk Hmk; apply Hmax; lia|].
    destruct (Z.ltb_spec 0 m); [reflexivity | lia].
  - exists 0. split; [reflexivity|]. split; [lia|]. split; [lia|].
    split; [intros k Hk _; now apply Hnone | reflexivity].
Qed.

(** The sequence loop applies the scalar search to each element in turn,
    and leaves with the scalar [0] at the first element without a
    positive FFT size. *)
Lemma smaller_each_spec (l : list Z) :
  forall vn,
    Forall (fun i => 1 < i /\ maxprime <= i) l ->
    (exists ms, smaller_each l vn maxprime rd = Ok (inl (vn ++ ms))
                /\ Forall2 (fun i m => smaller_primes (PInt i) maxprime rd = Ok (PInt m)
                                       /\ 0 < m) l ms)
    \/ (smaller_each l vn maxprime rd = Ok (inr 0)
        /\ Exists (fun i => smaller_primes (PInt i) maxprime rd = Ok (PInt 0)) l).
Proof.
  induction l as [|i l IH]; intros vn Hall.
  - left. exists []. rewrite app_nil_r. split; [reflexivity | constructor].
  - inversion Hall as [|? ? [Hi Hp] Hall']; subst. cbn [smaller_each].
    destruct (smaller_primes_int i Hi Hp) as (m & Ei & Hr & _ & _ & Es).
    destruct (Z.ltb_spec 1 i) as [_|]; [|lia].
    destruct (Z.leb_spec maxprime i) as [_|]; [|lia]. cbn [andb py_assert bind].
    rewrite Es. destruct (Z.ltb_spec 0 m) as [Hm|Hm]; cbn [bind].
    + destruct (IH (vn ++ [m]) Hall') as [(ms & E & HF)|[E HE]].
      * left. exists (m :: ms). rewrite E, <- app_assoc. split; [reflexivity|].
        constructor; [split; assumption | assumption].
      * right. split; [assumption|]. now apply Exists_cons_tl.
    + right. split; [reflexivity|]. apply Exists_cons_hd.
      replace m with 0 in Ei by lia. assumption.
Qed.

End Search.

Lemma check_dividers_true_nonzero (number : Z) (ks : list Z) :
  check_dividers number ks = Ok true -> Forall (fun k => k <> 0) ks.
Proof.
  induction ks as [|k ks IH]; cbn [check_dividers]; intros H; [constructor|].
  destruct (Z.eqb_spec k 0); [discriminate|].
  destruct (negb (number mod k =? 0)); [discriminate|].
  constructor; auto.
Qed.

Lemma try_smaller_primes_true_nonzero (number maxprime : Z) (rd : option (list Z)) :
  try_smaller_primes number maxprime rd = Ok true ->
  0 < number /\ Forall (fun k => k <> 0) (dividers rd).
Proof.
  unfold try_smaller_primes, primes. intros H.
  apply bind_Ok_inv in H. destruct H as (p & Hp & H).
  apply bind_Ok_inv in Hp. destruct Hp as (u & Hu & _).
  apply py_assert_Ok_inv in Hu. apply Z.ltb_lt in Hu. split; [assumption|].
  apply bind_Ok_inv in H. destruct H as (m & _ & H).
  destruct (maxprime <? m); [discriminate|].
  destruct rd as [ks|]; cbn [dividers]; [|constructor].
  now apply check_dividers_true_nonzero with number.
Qed.

Lemma try_smaller_primes_true_fft_ok (number maxprime : Z) (rd : option (list Z)) :
  try_smaller_primes number maxprime rd = Ok true -> fft_ok number maxprime rd.
Proof.
  intros H. destruct (try_smaller_primes_true_nonzero _ _ _ H) as [Hn Hnz].
  destruct (try_smaller_primes_spec number maxprime rd Hn Hnz) as (b & E & Hb).
  rewrite H in E. injection E as <-. now apply Hb.
Qed.

Lemma fft_ok_try_smaller_primes (number maxprime : Z) (rd : option (list Z)) :
  0 < number -> Forall (fun k => k <> 0) (dividers rd) ->
  fft_ok number maxprime rd -> try_smaller_primes number maxprime rd = Ok true.
Proof.
  intros Hn Hnz H.
  destruct (try_smaller_primes_spec number maxprime rd Hn Hnz) as (b & E & Hb).
  apply Hb in H. now subst b.
Qed.

(** With the parameters of the crop / pad engine ([maxprime = 7],
    [required_dividers = (2,)]) every power of two above 1 passes. *)
Lemma fft_ok_pow2 (k : Z) : 1 <= k -> fft_ok (2 ^ k) 7 (Some [2]).
Proof.
  intros Hk. split; [lia|]. split.
  - intros q Hq Hdiv. apply Z.divide_prime_pp in Hdiv; auto using Z.prime_2; lia.
  - cbn [dividers]. constructor; [|constructor].
    exists (2 ^ (k - 1)). rewrite Z.mul_comm, <- Z.pow_succ_r by lia. f_equal; lia.
Qed.

Lemma fft_size_above (n : Z) :
  1 < n -> exists m0, n <= m0 < 2 * n /\ fft_ok m0 7 (Some [2]).
Proof.
  intros Hn. exists (2 ^ Z.log2_up n).
  pose proof (Z.log2_up_spec n Hn) as [Hlo Hhi].
  assert (Hk : 1 <= Z.log2_up n) by (apply Z.log2_up_pos in Hn; lia).
  split; [|now apply fft_ok_pow2].
  split; [assumption|].
  replace (Z.log2_up n) with (Z.succ (Z.pred (Z.log2_up n))) at 1 by lia.
  rewrite Z.pow_succ_r by lia. lia.
Qed.

(** The engine's calls [higher_primes(n, maxprime=7, required_dividers=(2,))]
    return as soon as the fuel reaches [n]. *)
Lemma higher_primes_engine (fuel : nat) (n : Z) :
  7 <= n -> (Z.to_nat n <= fuel)%nat ->
  exists m, higher_primes fuel (PInt n) 7 (Some [2]) = Ok (PInt m)
            /\ n <= m < 2 * n /\ fft_ok m 7 (Some [2])
            /\ forall k, n <= k < m -> ~ fft_ok k 7 (Some [2]).
Proof.
  intros Hn Hf. destruct (fft_size_above n) as (m0 & Hm0 & Hok); [lia|].
  cbn [higher_primes].
  destruct (Z.ltb_spec 1 n) as [_|]; [|lia].
  destruct (Z.leb_spec 7 n) as [_|]; [|lia]. cbn [andb py_assert bind].
  destruct (higher_search_found 7 (Some [2])) with (fuel := fuel) (limit := n) (i := n) (m0 := m0)
    as (m & E & Hr & Hfm & Hmin); try lia; auto.
  - cbn [dividers]. constructor; [lia | constructor].
  - rewrite E. cbn [bind]. exists m.
    split; [reflexivity|]. split; [lia|]. split; assumption.
Qed.

(** ** Row-major buffers *)

Import Numpy.

Section Buffers.
Local Open Scope nat_scope.
Context {A : Type}.

Lemma flat_map_seq_length (g : nat -> list A) (m : nat) :
  (forall x, length (g x) = m) ->
  forall n s, length (flat_map g (seq s n)) = n * m.
Proof.
  intros Hg. induction n as [|n IH]; intros s; [reflexivity|].
  cbn [seq flat_map]. rewrite length_app, Hg, IH. lia.
Qed.

Lemma nth_flat_map_seq (g : nat -> list A) (m : nat) (d : A) :
  (forall x, length (g x) = m) ->
  forall n s i r, i < n -> r < m ->
    nth (i * m + r) (flat_map g (seq s n)) d = nth r (g (s + i)) d.
Proof.
  intros Hg. induction n as [|n IH]; intros s i r Hi Hr; [lia|].
  cbn [seq flat_map]. destruct i as [|i].
  - rewrite app_nth1 by (rewrite Hg; lia). now rewrite Nat.add_0_r.
  - rewrite app_nth2 by (rewrite Hg; lia). rewrite Hg.
    replace (S i * m + r - m) with (i * m + r) by lia.
    rewrite IH by lia. f_equal. f_equal. lia.
Qed.

Lemma flat_map_seq_ext (g h : nat -> list A) :
  forall n s, (forall i, s <= i < s + n -> g i = h i) ->
              flat_map g (seq s n) = flat_map h (seq s n).
Proof.
  induction n as [|n IH]; intros s Hext; [reflexivity|].
  cbn [seq flat_map]. rewrite Hext by lia. f_equal. apply IH.
  intros i Hi. apply Hext. lia.
Qed.

Lemma tabulate3_length (nz ny nx : nat) (f : nat -> nat -> nat -> A) :
  length (tabulate3 nz ny nx f) = nz * ny * nx.
Proof.
  unfold tabulate3.
  rewrite flat_map_seq_length with (m := ny * nx); [lia|].
  intros i. rewrite flat_map_seq_length with (m := nx); [lia|].
  intros j. now rewrite length_map, length_seq.
Qed.

Lemma nth_tabulate3 (nz ny nx : nat) (f : nat -> nat -> nat -> A) (d : A)
      (i j k : nat) :
  i < nz -> j < ny -> k < nx ->
  nth ((i * ny + j) * nx + k) (tabulate3 nz ny nx f) d = f i j k.
Proof.
  intros Hi Hj Hk. unfold tabulate3.
  replace ((i * ny + j) * nx + k) with (i * (ny * nx) + (j * nx + k)) by lia.
  rewrite nth_flat_map_seq with (m := ny * nx); try assumption.
  - rewrite nth_flat_map_seq with (m := nx); try assumption.
    + cbn [Nat.add].
      rewrite nth_indep with (d' := f i j 0) by now rewrite length_map, length_seq.
      rewrite map_nth with (f := fun k => f i j k). now rewrite seq_nth.
    + intros y. now rewrite length_map, length_seq.
  - intros x. rewrite flat_map_seq_length with (m := nx); [lia|].
    intros y. now rewrite length_map, length_seq.
  - nia.
Qed.

Lemma tabulate3_ext (nz ny nx : nat) (f g : nat -> nat -> nat -> A) :
  (forall i j k, i < nz -> j < ny -> k < nx -> f i j k = g i j k) ->
  tabulate3 nz ny nx f = tabulate3 nz ny nx g.
Proof.
  intros Hext. unfold tabulate3.
  apply flat_map_seq_ext. intros i Hi.
  apply flat_map_seq_ext. intros j Hj.
  apply map_ext_in. intros k Hk. apply in_seq in Hk. apply Hext; lia.
Qed.

(** Every buffer position is the position of one cell. *)
Lemma row_major_position (nz ny nx n : nat) :
  n < nz * ny * nx ->
  exists i j k, i < nz /\ j < ny /\ k < nx /\ n = (i * ny + j) * nx + k.
Proof.
  intros Hn.
  assert (Hx : nx <> 0) by (intros ->; lia).
  assert (Hy : ny <> 0) by (intros ->; lia).
  exists (n / nx / ny), ((n / nx) mod ny), (n mod nx).
  pose proof (Nat.div_mod_eq n nx) as E1.
  pose proof (Nat.div_mod_eq (n / nx) ny) as E2.
  pose proof (Nat.mod_upper_bound n nx Hx).
  pose proof (Nat.mod_upper_bound (n / nx) ny Hy).
  assert (n / nx < nz * ny) by (apply Nat.Div0.div_lt_upper_bound; lia).
  assert (n / nx / ny < nz) by (apply Nat.Div0.div_lt_upper_bound; lia).
  repeat split; try assumption. nia.
Qed.

(** A buffer is the table of its own cells. *)
Lemma tabulate3_nth (nz ny nx : nat) (b : list A) (d : A) :
  length b = nz * ny * nx ->
  tabulate3 nz ny nx (fun i j k => nth ((i * ny + j) * nx + k) b d) = b.
Proof.
  intros Hlen. apply nth_ext with (d := d) (d' := d).
  - now rewrite tabulate3_length.
  - intros n Hn. rewrite tabulate3_length in Hn.
    destruct (row_major_position nz ny nx n Hn) as (i & j & k & Hi & Hj & Hk & ->).
    now rewrite nth_tabulate3.
Qed.
End Buffers.

(** ** Slices and cells *)

Lemma clip_bound_in (len a : nat) :
  (a <= len)%nat -> clip_bound len (Z.of_nat a) = a.
Proof.
  intros H. unfold clip_bound.
  destruct (Z.ltb_spec (Z.of_nat a) 0); lia.
Qed.

Lemma slice_indices_range (len a n : nat) :
  (a + n <= len)%nat ->
  slice_indices len (range (Z.of_nat a) (Z.of_nat a + Z.of_nat n)) = (a, n).
Proof.
  intros H. unfold slice_indices, range. cbn [start stop].
  rewrite <- Nat2Z.inj_add, !clip_bound_in by lia. f_equal. lia.
Qed.

Lemma item_nth_error {A : Type} (l : list A) (n : nat) (x : A) :
  nth_error l n = Some x -> item l (Z.of_nat n) = Ok x.
Proof.
  intros H. unfold item.
  assert (n < length l)%nat by (apply nth_error_Some; congruence).
  destruct (Z.leb_spec (- Z.of_nat (length l)) (Z.of_nat n)); [|lia].
  destruct (Z.ltb_spec (Z.of_nat n) (Z.of_nat (length l))); [|lia].
  cbn [andb]. destruct (Z.ltb_spec (Z.of_nat n) 0); [lia|].
  now rewrite Nat2Z.id, H.
Qed.

(** Reads at literal positions of a list given element by element. *)
Ltac read_item :=
  match goal with
  | |- context [item ?l ?i] =>
      let n := eval cbv in (Z.to_nat i) in
      rewrite (item_nth_error l n _ eq_refl : item l i = Ok _); cbn [bind]
  end.

Lemma full_nonneg {A : Type} (dims : list Z) (v : A) :
  Forall (fun d => 0 <= d) dims ->
  full dims v = Ok (mk_ndarray (map Z.to_nat dims)
                               (repeat v (size_of (map Z.to_nat dims)))).
Proof.
  intros H. unfold full.
  replace (existsb (fun d => d <? 0) dims) with false; [reflexivity|].
  symmetry. induction H as [|d dims Hd _ IH]; [reflexivity|].
  cbn [existsb]. rewrite IH. destruct (Z.ltb_spec d 0); [lia | reflexivity].
Qed.

Lemma row_major_bound (nz ny nx i j k : nat) :
  (i < nz)%nat -> (j < ny)%nat -> (k < nx)%nat ->
  ((i * ny + j) * nx + k < nz * ny * nx)%nat.
Proof.
  intros Hi Hj Hk.
  assert (H1 : (S i * ny <= nz * ny)%nat) by (apply Nat.mul_le_mono_r; lia).
  assert (H2 : (S (i * ny + j) * nx <= nz * ny * nx)%nat)
    by (apply Nat.mul_le_mono_r; lia).
  lia.
Qed.

Lemma cell3_full {A : Type} (d v : A) (nz ny nx i j k : nat) :
  (i < nz)%nat -> (j < ny)%nat -> (k < nx)%nat ->
  cell3 d (mk_ndarray [nz; ny; nx] (repeat v (size_of [nz; ny; nx]))) i j k = v.
Proof.
  intros Hi Hj Hk. unfold cell3. cbn [shape buf size_of fold_right].
  apply nth_repeat_lt.
  pose proof (row_major_bound nz ny nx i j k Hi Hj Hk). lia.
Qed.

Lemma within_spec (a n i : nat) :
  within a n i = true <-> (a <= i < a + n)%nat.
Proof.
  unfold within. rewrite andb_true_iff, Nat.leb_le, Nat.ltb_lt. tauto.
Qed.

Lemma source_index_id (src i : nat) : (i < src)%nat -> source_index src i = i.
Proof.
  intros H. unfold source_index.
  destruct (Nat.eqb_spec src 1); [lia | reflexivity].
Qed.

(** ** The padding primitive *)

Import Padding.

Lemma zero_pad_padded (a : ndarray Z) (nz ny nx z0 z1 y0 y1 x0 x1 : nat)
      (mask_flag : bool) :
  shape a = [nz; ny; nx] ->
  zero_pad a (map Z.of_nat [z0; z1; y0; y1; x0; x1]) mask_flag
  = Ok (padded a nz ny nx z0 z1 y0 y1 x0 x1 mask_flag).
Proof.
  intros Hsh. unfold zero_pad. rewrite Hsh.
  cbn [map].
  do 6 read_item.
  change (if mask_flag then 1 else 0) with (fill_value mask_flag).
  rewrite full_nonneg by (repeat constructor; lia).
  cbn [bind map]. unfold setitem3. cbn [shape]. rewrite Hsh.
  replace (Z.to_nat (Z.of_nat nz + Z.of_nat z0 + Z.of_nat z1)) with (nz + z0 + z1)%nat by lia.
  replace (Z.to_nat (Z.of_nat ny + Z.of_nat y0 + Z.of_nat y1)) with (ny + y0 + y1)%nat by lia.
  replace (Z.to_nat (Z.of_nat nx + Z.of_nat x0 + Z.of_nat x1)) with (nx + x0 + x1)%nat by lia.
  rewrite !slice_indices_range by lia.
  unfold broadcasts. rewrite !Nat.eqb_refl. cbn [orb andb].
  unfold padded. f_equal. f_equal.
  apply tabulate3_ext. intros i j k Hi Hj Hk.
  destruct (within z0 nz i) eqn:Ez; cbn [andb];
    [|now apply cell3_full].
  destruct (within y0 ny j) eqn:Ey; cbn [andb];
    [|now apply cell3_full].
  destruct (within x0 nx k) eqn:Ex; cbn [andb];
    [|now apply cell3_full].
  apply within_spec in Ez, Ey, Ex.
  rewrite !source_index_id by lia. reflexivity.
Qed.

Lemma cell3_padded (a : ndarray Z) (nz ny nx z0 z1 y0 y1 x0 x1 : nat)
      (mask_flag : bool) (i j k : nat) :
  (i < nz + z0 + z1)%nat -> (j < ny + y0 + y1)%nat -> (k < nx + x0 + x1)%nat ->
  cell3 0 (padded a nz ny nx z0 z1 y0 y1 x0 x1 mask_flag) i j k
  = if within z0 nz i && within y0 ny j && within x0 nx k
    then cell3 0 a (i - z0) (j - y0) (k - x0)
    else fill_value mask_flag.
Proof.
  intros Hi Hj Hk. unfold padded, cell3 at 1. cbn [shape buf].
  now rewrite nth_tabulate3.
Qed.

Lemma getitem3_padded (a : ndarray Z) (nz ny nx z0 z1 y0 y1 x0 x1 : nat)
      (mask_flag : bool) :
  shape a = [nz; ny; nx] -> well_formed a ->
  getitem3 0 (padded a nz ny nx z0 z1 y0 y1 x0 x1 mask_flag)
    (range (Z.of_nat z0) (Z.of_nat z0 + Z.of_nat nz))
    (range (Z.of_nat y0) (Z.of_nat y0 + Z.of_nat ny))
    (range (Z.of_nat x0) (Z.of_nat x0 + Z.of_nat nx))
  = Ok a.
Proof.
  intros Hsh Hwf. unfold getitem3. cbn [padded shape].
  rewrite !slice_indices_range by lia.
  destruct a as [sh b]. cbn [shape buf] in *. subst sh.
  f_equal. f_equal.
  etransitivity;
    [|apply (tabulate3_nth nz ny nx b 0);
      unfold well_formed in Hwf; cbn [shape buf size_of fold_right] in Hwf; lia].
  apply tabulate3_ext. intros i j k Hi Hj Hk.
  rewrite cell3_padded by lia.
  replace (within z0 nz (z0 + i)) with true by (symmetry; apply within_spec; lia).
  replace (within y0 ny (y0 + j)) with true by (symmetry; apply within_spec; lia).
  replace (within x0 nx (x0 + k)) with true by (symmetry; apply within_spec; lia).
  cbn [andb]. unfold cell3. cbn [shape buf].
  replace (z0 + i - z0)%nat with i by lia.
  replace (y0 + j - y0)%nat with j by lia.
  replace (x0 + k - x0)%nat with k by lia. reflexivity.
Qed.

(** ** One-dimensional slices *)

Lemma clip_bound_le (len : nat) (i : Z) : (clip_bound len i <= len)%nat.
Proof. unfold clip_bound. destruct (i <? 0); lia. Qed.

Lemma slice_indices_bound (len : nat) (s : slice) (a n : nat) :
  slice_indices len s = (a, n) -> (a + n <= len)%nat.
Proof.
  unfold slice_indices. intros E. injection E as <- <-.
  destruct (start s) as [i|], (stop s) as [j|];
    try pose proof (clip_bound_le len i) as Hi;
    try pose proof (clip_bound_le len j) as Hj; lia.
Qed.

Lemma fillslice_length {A : Type} (l : list A) (s : slice) (v : A) :
  length (fillslice l s v) = length l.
Proof.
  unfold fillslice. destruct (slice_indices (length l) s) as [a n] eqn:E.
  apply slice_indices_bound in E.
  rewrite !length_app, repeat_length, length_firstn, length_skipn. lia.
Qed.

Lemma broadcast1_length {A : Type} (n : nat) (src vals : list A) :
  broadcast1 n src = Ok vals -> length vals = n.
Proof.
  unfold broadcast1. destruct (Nat.eqb_spec (length src) n) as [E|_].
  - intros H. injection H as <-. assumption.
  - destruct src as [|x [|y src]]; try discriminate.
    intros H. injection H as <-. apply repeat_length.
Qed.

Lemma setslice_length {A : Type} (l : list A) (s : slice) (src l' : list A) :
  setslice l s src = Ok l' -> length l' = length l.
Proof.
  unfold setslice. destruct (slice_indices (length l) s) as [a n] eqn:E.
  apply slice_indices_bound in E. intros H.
  apply bind_Ok_inv in H. destruct H as (vals & Hv & H). injection H as <-.
  apply broadcast1_length in Hv.
  rewrite !length_app, length_firstn, length_skipn. lia.
Qed.

Lemma item_Ok_nth {A : Type} (l : list A) (i : Z) (x d : A) :
  item l i = Ok x ->
  - Z.of_nat (length l) <= i < Z.of_nat (length l)
  /\ nth (Z.to_nat (if i <? 0 then i + Z.of_nat (length l) else i)) l d = x.
Proof.
  unfold item.
  destruct (Z.leb_spec (- Z.of_nat (length l)) i); [|discriminate].
  destruct (Z.ltb_spec i (Z.of_nat (length l))); [|discriminate].
  cbn [andb].
  destruct (nth_error l _) as [y|] eqn:E; [|discriminate].
  intros Hx. injection Hx as <-. split; [lia|].
  now apply nth_error_nth.
Qed.

Lemma item_out_of_range {A : Type} (l : list A) (i : Z) :
  Z.of_nat (length l) <= i -> item l i = Raise IndexError.
Proof.
  intros H. unfold item.
  destruct (Z.ltb_spec i (Z.of_nat (length l))); [lia|].
  now rewrite andb_false_r.
Qed.

(** ** The branches of [center_fft] and the provenance vector *)

Import CenterFFT.

(** Inversion of a successful monadic computation, one step at a time. *)
Ltac bind_inv H :=
  repeat first
    [ discriminate H
    | match type of H with
      | bind _ _ = Ok _ =>
          let v := fresh "v" in
          let E := fresh "E" in
          apply bind_Ok_inv in H; destruct H as (v & E & H);
          repeat match type of v with
                 | (_ * _)%type => destruct v as [v ?]
                 end;
          cbv beta iota in H
      | (if ?c then _ else _) = Ok _ =>
          let C := fresh "C" in destruct c eqn:C
      end ].

Lemma padded_frames_length (data : ndarray Z) (pad_width : list Z) (nbz : Z)
      (frames_logical frames' : list Z) :
  padded_frames data pad_width nbz frames_logical = Ok frames' ->
  length frames' = nth 0 (shape data) 0%nat.
Proof.
  unfold padded_frames. intros H. bind_inv H.
  apply setslice_length in H. rewrite repeat_length in H.
  apply item_Ok_nth with (d := 0%nat) in E. destruct E as [_ E].
  cbn in E. congruence.
Qed.

Lemma pad_arrays_frames (frames_logical : list Z) (nbz : Z)
      (data mask : ndarray Z) (pad_width : list Z)
      (data' mask' : ndarray Z) (frames' : list Z) :
  pad_arrays frames_logical nbz data mask pad_width = Ok (data', mask', frames') ->
  length frames' = nth 0 (shape data') 0%nat.
Proof.
  unfold pad_arrays. intros H. bind_inv H.
  injection H as <- <- <-. now apply padded_frames_length in E1.
Qed.

Lemma crop_box_frames (data mask : ndarray Z) (frames_logical : list Z)
      (q_values : list (list Q)) (qx qz qy : list Q)
      (nbz z0 z1 y0 y1 x0 x1 : Z) (br : branch_result) :
  crop_box data mask frames_logical q_values qx qz qy nbz z0 z1 y0 y1 x0 x1 = Ok br ->
  length (r_frames_logical br) = length frames_logical.
Proof.
  unfold crop_box. intros H. bind_inv H;
    injection H as <-; cbn [r_frames_logical];
    destruct (0 <? z0), (z1 <? nbz); now rewrite ?fillslice_length.
Qed.

Section BranchFrames.
Variable fuel : nat.
Variables data mask : ndarray Z.
Variable frames_logical : list Z.
Variable q_values : list (list Q).
Variables qx qz qy : list Q.
Variables fix_size pad_size : list Z.
Variables iz0 iy0 ix0 nbz nby nbx max_nz max_ny max_nx : Z.
Variable br : branch_result.

(** Ends a pad branch: whatever the q grid does, the branch leaves the
    padded data and the rebuilt provenance vector. *)
Ltac pad_branch H :=
  bind_inv H;
  match goal with
  | E : pad_arrays _ _ _ _ _ = Ok _ |- _ =>
      apply pad_arrays_frames in E; injection H as <-; exact E
  end.

Lemma pad_symmetric_Z_crop_YX_frames :
  pad_symmetric_Z_crop_YX fuel data mask frames_logical q_values qx qz qy
    pad_size iz0 iy0 ix0 nbz max_ny max_nx = Ok br ->
  length (r_frames_logical br) = rocking_length (r_data br).
Proof. unfold pad_symmetric_Z_crop_YX. intros H. pad_branch H. Qed.

Lemma pad_asymmetric_Z_crop_YX_frames :
  pad_asymmetric_Z_crop_YX fuel data mask frames_logical q_values qx qz qy
    iy0 ix0 nbz max_ny max_nx = Ok br ->
  length (r_frames_logical br) = rocking_length (r_data br).
Proof. unfold pad_asymmetric_Z_crop_YX. intros H. pad_branch H. Qed.

Lemma pad_symmetric_Z_frames :
  pad_symmetric_Z fuel data mask frames_logical q_values qx qz qy
    pad_size iz0 nbz = Ok br ->
  length (r_frames_logical br) = rocking_length (r_data br).
Proof. unfold pad_symmetric_Z. intros H. pad_branch H. Qed.

Lemma pad_asymmetric_Z_frames :
  pad_asymmetric_Z fuel data mask frames_logical q_values qx qz qy nbz = Ok br ->
  length (r_frames_logical br) = rocking_length (r_data br).
Proof. unfold pad_asymmetric_Z. intros H. pad_branch H. Qed.

Lemma pad_symmetric_ZYX_frames :
  pad_symmetric_ZYX fuel data mask frames_logical q_values qx qz qy
    pad_size iz0 iy0 ix0 nbz nby nbx = Ok br ->
  length (r_frames_logical br) = rocking_length (r_data br).
Proof. unfold pad_symmetric_ZYX. intros H. pad_branch H. Qed.

Lemma pad_asymmetric_ZYX_frames :
  pad_asymmetric_ZYX fuel data mask frames_logical q_values qx qz qy
    pad_size nbz nby nbx = Ok br ->
  length (r_frames_logical br) = rocking_length (r_data br).
Proof. unfold pad_asymmetric_ZYX. intros H. pad_branch H. Qed.

Lemma crop_symmetric_ZYX_frames :
  crop_symmetric_ZYX data mask frames_logical q_values qx qz qy
    iz0 iy0 ix0 nbz max_nz max_ny max_nx = Ok br ->
  length (r_frames_logical br) = length frames_logical.
Proof.
  unfold crop_symmetric_ZYX. intros H. bind_inv H.
  now apply crop_box_frames in H.
Qed.

Lemma crop_asymmetric_ZYX_frames :
  crop_asymmetric_ZYX data mask frames_logical q_values qx qz qy
    nbz nby nbx = Ok br ->
  length (r_frames_logical br) = length frames_logical.
Proof.
  unfold crop_asymmetric_ZYX. intros H. bind_inv H.
  now apply crop_box_frames in H.
Qed.

(** [do_nothing] never crops: with three entries in [fix_size] the read
    of [fix_size[3]] fails, with any other number the branch is skipped. *)
Lemma do_nothing_unchanged :
  do_nothing data mask frames_logical q_values qx qz qy fix_size
    nbz nby nbx = Ok br ->
  r_data br = data /\ r_mask br = mask
  /\ r_frames_logical br = frames_logical
  /\ r_qx br = qx /\ r_qz br = qz /\ r_qy br = qy.
Proof.
  unfold do_nothing. intros H.
  destruct (Nat.eqb_spec (length fix_size) 3) as [Hlen|_].
  - exfalso. bind_inv H.
    rewrite item_out_of_range in E1 by (rewrite Hlen; lia). discriminate.
  - injection H as <-. repeat split.
Qed.

Lemma apply_policy_frames (fft_option : string) :
  apply_policy fuel data mask frames_logical q_values qx qz qy
    fix_size pad_size iz0 iy0 ix0 nbz nby nbx max_nz max_ny max_nx
    fft_option = Ok br ->
  (In fft_option pad_options ->
   length (r_frames_logical br) = rocking_length (r_data br))
  /\ (In fft_option crop_options ->
      length (r_frames_logical br) = length frames_logical)
  /\ (fft_option = "do_nothing"%string ->
      r_data br = data /\ r_frames_logical br = frames_logical).
Proof.
  unfold apply_policy. intros H.
  repeat match type of H with
         | context [String.eqb fft_option ?s] =>
             let Heq := fresh "Heq" in
             destruct (String.eqb_spec fft_option s) as [Heq|Heq];
             cbv iota in H
         end; try discriminate H;
    (split; [|split]); intros Hin;
    try (exfalso; clear H; subst fft_option; cbn in Hin;
         repeat destruct Hin as [Hin|Hin]; discriminate Hin || contradiction).
  - now apply crop_symmetric_ZYX_frames.
  - now apply crop_asymmetric_ZYX_frames.
  - now apply pad_symmetric_Z_crop_YX_frames.
  - now apply pad_asymmetric_Z_crop_YX_frames.
  - now apply pad_symmetric_Z_frames.
  - now apply pad_asymmetric_Z_frames.
  - now apply pad_symmetric_ZYX_frames.
  - now apply pad_asymmetric_ZYX_frames.
  - apply do_nothing_unchanged in H. tauto.
Qed.
End BranchFrames.

(** ** [center_fft] as a whole *)

Section Engine.
Variable center_of_mass : ndarray Z -> pyfloat * pyfloat * pyfloat.
Variable fuel : nat.
Variables data mask : ndarray Z.
Variable frames_logical : list Z.
Variables centering fft_option : string.
Variable kw : kwargs.

(** A successful call went through one branch, the requested one or
    [do_nothing], and returns what the branch left. *)
Lemma center_fft_Ok_inv (data' mask' : ndarray Z) (pad_width : list Z)
      (q' : list (list Q)) (frames' : list Z) :
  center_fft center_of_mass fuel data mask frames_logical centering
             fft_option kw = Ok (data', mask', pad_width, q', frames') ->
  exists q_values qx qz qy iz0 iy0 ix0 nbz nby nbx max_nz max_ny max_nx
         effective br,
    (effective = fft_option \/ effective = "do_nothing"%string)
    /\ apply_policy fuel data mask frames_logical q_values qx qz qy
         (kw_fix_size kw) (kw_pad_size kw) iz0 iy0 ix0 nbz nby nbx
         max_nz max_ny max_nx effective = Ok br
    /\ data' = r_data br /\ mask' = r_mask br
    /\ pad_width = r_pad_width br /\ frames' = r_frames_logical br.
Proof.
  unfold center_fft. intros H.
  destruct (negb (ndim data =? 3)%nat || negb (ndim mask =? 3)%nat);
    [discriminate|].
  destruct (negb (if list_eq_dec Nat.eq_dec (shape data) (shape mask)
                  then true else false)); [discriminate|].
  destruct (kw_q_values kw) as [|q0 [|q1 [|q2 qs]]]; cbv iota beta in H;
    bind_inv H;
    (destruct (shape data) as [|nbz [|nby [|nbx [|? ?]]]]; try discriminate H);
    bind_inv H;
    injection H as <- <- <- _ <-;
    match goal with
    | E : apply_policy _ _ _ _ ?q ?qx ?qz ?qy _ _ ?iz ?iy ?ix ?nz ?ny ?nx
                       ?mz ?my ?mx ?eff = Ok ?br |- _ =>
        exists q, qx, qz, qy, iz, iy, ix, nz, ny, nx, mz, my, mx, eff, br;
        split; [destruct (_ || _); auto | repeat split; exact E]
    end.
Qed.
End Engine.

(** The length of the returned provenance vector: the rocking length of
    the returned data under the pad policies and [do_nothing], the input
    length under the crop policies. *)
Lemma center_fft_frames_lengths
    (center_of_mass : ndarray Z -> pyfloat * pyfloat * pyfloat) (fuel : nat)
    (data mask : ndarray Z) (frames_logical : list Z)
    (centering fft_option : string) (kw : kwargs)
    (data' mask' : ndarray Z) (pad_width : list Z) (q' : list (list Q))
    (frames' : list Z) :
  length frames_logical = rocking_length data ->
  center_fft center_of_mass fuel data mask frames_logical centering
             fft_option kw = Ok (data', mask', pad_width, q', frames') ->
  (In fft_option pad_options \/ fft_option = "do_nothing"%string ->
   length frames' = rocking_length data')
  /\ (In fft_option crop_options -> length frames' = length frames_logical).
Proof.
  intros Hlen H.
  apply center_fft_Ok_inv in H.
  destruct H as (q_values & qx & qz & qy & iz0 & iy0 & ix0 & nbz & nby & nbx
                 & max_nz & max_ny & max_nx & effective & br
                 & Heff & Hbr & -> & _ & _ & ->).
  apply apply_policy_frames in Hbr. destruct Hbr as (Hpad & Hcrop & Hnone).
  destruct Heff as [->| ->].
  - split; [|exact Hcrop].
    intros [Hin| ->]; [now apply Hpad|].
    destruct (Hnone eq_refl) as [-> ->]. assumption.
  - destruct (Hnone eq_refl) as [-> ->]. split; auto.
Qed.

Lemma item3_out_of_bounds (a : ndarray Z) (z y x : Z) :
  ~ in_bounds (shape a) z y x -> item3 0 a z y x = Raise IndexError.
Proof.
  unfold in_bounds, item3, index_in. intros H.
  destruct (shape a) as [|nz [|ny [|nx [|? ?]]]]; try reflexivity.
  destruct (Z.leb_spec (- Z.of_nat nz) z), (Z.ltb_spec z (Z.of_nat nz));
    cbn [andb]; try reflexivity;
  destruct (Z.leb_spec (- Z.of_nat ny) y), (Z.ltb_spec y (Z.of_nat ny));
    cbn [andb]; try reflexivity;
  destruct (Z.leb_spec (- Z.of_nat nx) x), (Z.ltb_spec x (Z.of_nat nx));
    cbn [andb]; try reflexivity.
  exfalso. apply H. lia.
Qed.

Lemma centering_peak_outcome
      (center_of_mass : ndarray Z -> pyfloat * pyfloat * pyfloat)
      (data : ndarray Z) (centering : string) :
  (exists z0 y0 x0, centering_peak center_of_mass data centering = Ok (z0, y0, x0))
  \/ centering_peak center_of_mass data centering = Raise ValueError.
Proof.
  unfold centering_peak.
  destruct (centering =? "max")%string.
  - destruct (map Z.abs (buf data)) as [|v vs]; cbn [argmax bind]; [now right|].
    destruct (shape data) as [|? [|? [|? [|? ?]]]]; try now right.
    destruct (unravel_index _ _ _) as [[z0 y0] x0]. left. eauto.
  - destruct (centering =? "com")%string; [|now right].
    destruct (center_of_mass data) as [[z0 y0] x0]. left. eauto.
Qed.

(** C10.  [center_fft] tests and evaluates [centering] before it looks at
    [fix_bragg]: with a value other than ['max'] and ['com'] the call raises
    [ValueError] whatever [fix_bragg] holds, and with ['max'] the maximum is
    searched (a [ValueError] on an array without cells) even when
    [fix_bragg] is given; and a three-integer [fix_bragg] is still used to
    index [data], so a position outside the array makes the call raise
    ([IndexError], unless an earlier check already raised [ValueError]). *)
Theorem center_fft_centering_before_fix_bragg
    (center_of_mass : ndarray Z -> pyfloat * pyfloat * pyfloat) (fuel : nat)
    (data mask : ndarray Z) (frames_logical : list Z)
    (centering fft_option : string) (kw : kwargs) :
  (centering <> "max"%string -> centering <> "com"%string ->
   center_fft center_of_mass fuel data mask frames_logical centering
              fft_option kw = Raise ValueError)
  /\ (centering = "max"%string -> buf data = [] ->
      center_fft center_of_mass fuel data mask frames_logical centering
                 fft_option kw = Raise ValueError)
  /\ (forall z y x,
        kw_fix_bragg kw = [z; y; x] -> ~ in_bounds (shape data) z y x ->
        center_fft center_of_mass fuel data mask frames_logical centering
                   fft_option kw = Raise IndexError
        \/ center_fft center_of_mass fuel data mask frames_logical centering
                      fft_option kw = Raise ValueError).
Proof.
  split; [|split].
  - intros Hmax Hcom. unfold center_fft.
    destruct (negb (ndim data =? 3)%nat || negb (ndim mask =? 3)%nat);
      [reflexivity|].
    destruct (negb (if list_eq_dec Nat.eq_dec (shape data) (shape mask)
                    then true else false)); [reflexivity|].
    unfold centering_peak.
    destruct (String.eqb_spec centering "max"); [contradiction|].
    destruct (String.eqb_spec centering "com"); [contradiction|].
    destruct (kw_q_values kw) as [|q0 [|q1 [|q2 qs]]]; reflexivity.
  - intros -> Hbuf. unfold center_fft.
    destruct (negb (ndim data =? 3)%nat || negb (ndim mask =? 3)%nat);
      [reflexivity|].
    destruct (negb (if list_eq_dec Nat.eq_dec (shape data) (shape mask)
                    then true else false)); [reflexivity|].
    unfold centering_peak. rewrite Hbuf. cbn [String.eqb Ascii.eqb Bool.eqb map argmax bind].
    destruct (kw_q_values kw) as [|q0 [|q1 [|q2 qs]]]; reflexivity.
  - intros z y x Hfix Hout. unfold center_fft.
    destruct (negb (ndim data =? 3)%nat || negb (ndim mask =? 3)%nat);
      [now right|].
    destruct (negb (if list_eq_dec Nat.eq_dec (shape data) (shape mask)
                    then true else false)); [now right|].
    destruct (centering_peak_outcome center_of_mass data centering)
      as [(z0 & y0 & x0 & E)|E];
      destruct (kw_q_values kw) as [|q0 [|q1 [|q2 qs]]]; cbv iota beta;
      rewrite E; cbn [bind]; try now right.
    all: rewrite Hfix; cbn [length Nat.eqb negb bind int_round];
      rewrite (item3_out_of_bounds data z y x Hout); now left.
Qed.

(** ** Monitor normalisation *)

Import Normalize.

Lemma setitem_middle {A : Type} (acc rest : list A) (x v : A) :
  setitem (acc ++ x :: rest) (Z.of_nat (length acc)) v = Ok (acc ++ v :: rest).
Proof.
  unfold setitem. rewrite length_app. cbn [length].
  destruct (Z.leb_spec (- Z.of_nat (length acc + S (length rest)))
                       (Z.of_nat (length acc))); [|lia].
  destruct (Z.ltb_spec (Z.of_nat (length acc))
                       (Z.of_nat (length acc + S (length rest)))); [|lia].
  cbn [andb]. destruct (Z.ltb_spec (Z.of_nat (length acc)) 0); [lia|].
  rewrite Nat2Z.id. f_equal.
  rewrite firstn_app, firstn_all, Nat.sub_diag. cbn [firstn].
  rewrite app_nil_r. f_equal.
  replace (S (length acc)) with (length (acc ++ [x])) by (rewrite length_app; cbn; lia).
  replace (acc ++ x :: rest) with ((acc ++ [x]) ++ rest) by (now rewrite <- app_assoc).
  rewrite skipn_app, skipn_all, Nat.sub_diag. reflexivity.
Qed.

Lemma setitem_outcome {A : Type} (l : list A) (i : Z) (v : A) :
  (exists l', setitem l i v = Ok l') \/ setitem l i v = Raise IndexError.
Proof. unfold setitem. destruct (_ && _); eauto. Qed.

Lemma item_in_range {A : Type} (l : list A) (n : nat) (d : A) :
  (n < length l)%nat -> item l (Z.of_nat n) = Ok (nth n l d).
Proof.
  intros H. apply item_nth_error. now apply nth_error_nth'.
Qed.

Section NormalizeFacts.
Variable F : Type.
Variables (amin amax : list F -> F).
Variables (fdiv fmul : F -> F -> F).
Variable fzero : F.
Variable norm_to_min : bool.
Variable raw_monitor : list F.

Local Abbreviation padded_value :=
  (Normalize.padded_value F amin amax norm_to_min raw_monitor).

Lemma padded_value_read (v : F) :
  (if norm_to_min then np_min F amin raw_monitor else np_max F amax raw_monitor)
  = Ok v -> v = padded_value.
Proof.
  unfold Normalize.padded_value, np_min, np_max.
  destruct norm_to_min, raw_monitor; intros H; congruence.
Qed.

(** The loop fills [monitor] from the left with the aligned values. *)
Lemma monitor_loop_aligned (frames_logical : list Z) :
  forall idx acc nb_overlap nb_padded position monitor' nb_padded',
    Forall tag_ok frames_logical ->
    idx - nb_overlap = Z.of_nat (length acc) ->
    idx - nb_padded = Z.of_nat position ->
    monitor_loop F amin amax norm_to_min raw_monitor frames_logical idx
      (acc ++ repeat fzero (count_nonzero frames_logical))
      nb_overlap nb_padded = Ok (monitor', nb_padded') ->
    monitor' = acc ++ aligned_monitor F fzero raw_monitor padded_value
                        frames_logical position.
Proof.
  induction frames_logical as [|f rest IH];
    intros idx acc nbo nbp position monitor' nbp' Htags Hacc Hpos H.
  - cbn in H. injection H as <- _. reflexivity.
  - inversion Htags as [|? ? Hf Hrest]; subst.
    cbn [monitor_loop aligned_monitor] in *.
    destruct Hf as [-> | [-> | ->]]; cbn [Z.eqb Pos.eqb] in *.
    + change (count_nonzero (-1 :: rest)) with (S (count_nonzero rest)) in H.
      cbn [repeat] in H. bind_inv H.
      apply padded_value_read in E. subst v.
      rewrite Hacc, setitem_middle in E0. injection E0 as <-.
      replace (acc ++ padded_value :: repeat fzero (count_nonzero rest))
        with ((acc ++ [padded_value]) ++ repeat fzero (count_nonzero rest)) in H
        by (now rewrite <- app_assoc).
      apply IH with (position := position) in H; auto.
      * now rewrite H, <- app_assoc.
      * rewrite length_app. cbn [length]. lia.
      * lia.
    + change (count_nonzero (0 :: rest)) with (count_nonzero rest) in H.
      apply IH with (position := S position) in H; auto; lia.
    + change (count_nonzero (1 :: rest)) with (S (count_nonzero rest)) in H.
      cbn [repeat] in H. bind_inv H.
      rewrite Hpos in E.
      apply item_Ok_nth with (d := fzero) in E. destruct E as [_ E].
      destruct (Z.ltb_spec (Z.of_nat position) 0); [lia|].
      rewrite Nat2Z.id in E. subst v.
      rewrite Hacc, setitem_middle in E0. injection E0 as <-.
      replace (acc ++ nth position raw_monitor fzero
                   :: repeat fzero (count_nonzero rest))
        with ((acc ++ [nth position raw_monitor fzero])
                ++ repeat fzero (count_nonzero rest)) in H
        by (now rewrite <- app_assoc).
      apply IH with (position := S position) in H; auto.
      * now rewrite H, <- app_assoc.
      * rewrite length_app. cbn [length]. lia.
      * lia.
Qed.

(** With a non-empty raw monitor shorter than the number of USED frames,
    the loop ends in the [IndexError] of an out-of-range read or write. *)
Lemma monitor_loop_short_raw (frames_logical : list Z) :
  forall idx monitor nb_overlap nb_padded position,
    raw_monitor <> [] ->
    idx - nb_padded = Z.of_nat position ->
    (1 <= count_used frames_logical)%nat ->
    (length raw_monitor < position + count_used frames_logical)%nat ->
    monitor_loop F amin amax norm_to_min raw_monitor frames_logical idx
      monitor nb_overlap nb_padded = Raise IndexError.
Proof.
  induction frames_logical as [|f rest IH];
    intros idx monitor nbo nbp position Hraw Hpos Hcnt Hshort.
  - cbn in Hcnt. lia.
  - cbn [monitor_loop]. unfold count_used in *. cbn [filter] in *.
    destruct (Z.eqb_spec f (-1)) as [->|Hm1].
    + cbn [Z.eqb] in *.
      assert (Hv : exists v, (if norm_to_min then np_min F amin raw_monitor
                              else np_max F amax raw_monitor) = Ok v).
      { unfold np_min, np_max. destruct norm_to_min, raw_monitor; eauto;
          contradiction. }
      destruct Hv as [v ->]. cbn [bind].
      destruct (setitem_outcome monitor (idx - nbo) v) as [[m' ->]| ->];
        [cbn [bind]|reflexivity].
      apply IH with (position := position); auto; lia.
    + destruct (Z.eqb_spec f 1) as [->|H1].
      * cbn [length] in *.
        destruct (Nat.lt_ge_cases position (length raw_monitor)) as [Hlt|Hge].
        -- rewrite Hpos, (item_in_range raw_monitor position fzero Hlt).
           cbn [bind].
           destruct (setitem_outcome monitor (idx - nbo)
                       (nth position raw_monitor fzero)) as [[m' ->]| ->];
             [cbn [bind]|reflexivity].
           apply IH with (position := S position); auto; lia.
        -- rewrite item_out_of_range by lia. reflexivity.
      * apply IH with (position := S position); auto; lia.
Qed.
End NormalizeFacts.

(** C9 (as amended).  When [normalize_dataset] returns, the monitor it
    returns has one value per frame of the volume and is the rescaled
    aligned monitor: built from the USED and PADDED frames only, with
    [raw_monitor.min()] (or [.max()]) for a PADDED frame.  With a non-empty
    raw monitor shorter than the number of USED frames the call does fail,
    but with the [IndexError] of an out-of-range index, not with the
    [ValueError] of the length check. *)
Theorem normalize_dataset_monitor
    (F : Type) (amin amax : list F -> F) (fdiv fmul : F -> F -> F) (fzero : F)
    (array : ndarray F) (raw_monitor : list F) (frames_logical : list Z)
    (norm_to_min : bool) :
  (forall array' monitor' title,
      normalize_dataset F amin amax fdiv fmul fzero array raw_monitor
                        frames_logical norm_to_min = Ok (array', monitor', title) ->
      length monitor' = rocking_length array
      /\ (Forall tag_ok frames_logical ->
          monitor' = rescaled_monitor amin amax fdiv norm_to_min
                       (aligned_monitor F fzero raw_monitor
                          (padded_value F amin amax norm_to_min raw_monitor)
                          frames_logical 0)))
  /\ (ndim array = 3%nat -> raw_monitor <> [] ->
      (length raw_monitor < count_used frames_logical)%nat ->
      normalize_dataset F amin amax fdiv fmul fzero array raw_monitor
                        frames_logical norm_to_min = Raise IndexError).
Proof.
  split.
  - intros array' monitor' title H. unfold normalize_dataset in H.
    unfold rocking_length.
    destruct (shape array) as [|nbz [|nby [|nbx [|? ?]]]]; try discriminate H.
    bind_inv H. injection H as _ <- _. cbn [nth].
    apply negb_false_iff, Nat.eqb_eq in C. split; [assumption|].
    intros Htags.
    apply (monitor_loop_aligned F amin amax fzero norm_to_min raw_monitor
             frames_logical 0 [] 0 0 0%nat) in E; auto.
    cbn [app] in E. subst v. unfold rescaled_monitor.
    remember (aligned_monitor F fzero raw_monitor
                (padded_value F amin amax norm_to_min raw_monitor)
                frames_logical 0) as aligned eqn:Hal.
    clear Hal.
    destruct norm_to_min; bind_inv E0; injection E0 as <- _;
      unfold np_min, np_max in E;
      (destruct aligned; [discriminate E|]); injection E as <-; reflexivity.
  - intros Hdim Hraw Hshort. unfold normalize_dataset, ndim in *.
    destruct (shape array) as [|nbz [|nby [|nbx [|? ?]]]]; try discriminate Hdim.
    rewrite (monitor_loop_short_raw F amin amax fzero norm_to_min raw_monitor
               frames_logical 0 _ 0 0 0%nat); auto; lia.
Qed.

(** ** Specification of the number-shaping utilities *)

(** C7 (as amended).  For a positive [number], [primes] returns [1] followed
    by the ordered prime decomposition of [number]: primes in non-decreasing
    order whose product is [number]; so [primes(28) == [1, 2, 2, 7]].
    [try_smaller_primes(28, 7, (2,))] is [True] and
    [try_smaller_primes(28, 5, (2,))] is [False]. *)
Theorem primes_leading_one_decomposition (number : Z) :
  0 < number ->
  (exists fs, primes number = Ok (1 :: fs)
              /\ Forall Z.prime fs /\ Sorted Z.le fs /\ prod fs = number)
  /\ primes 28 = Ok [1; 2; 2; 7]
  /\ try_smaller_primes 28 7 (Some [2]) = Ok true
  /\ try_smaller_primes 28 5 (Some [2]) = Ok false.
Proof.
  intros Hn. split; [|repeat split; reflexivity].
  destruct (primes_ok number Hn) as (fs & E & Hpr & _ & Hs & Hpd).
  exists fs. auto.
Qed.

(** C5 (as amended).  For [n > 1] with [maxprime <= n], if some integer
    [m0 >= n] passes [try_smaller_primes], then [higher_primes] returns (as
    soon as the fuel exceeds [m0 - n]) the least integer [m >= n] that
    passes it: every prime factor of [m] is at most [maxprime] and every
    required divider divides [m]. *)
Theorem higher_primes_least_fft_size (n maxprime : Z) (rd : option (list Z))
    (m0 : Z) :
  1 < n -> maxprime <= n -> n <= m0 ->
  try_smaller_primes m0 maxprime rd = Ok true ->
  exists m,
    (forall fuel, (Z.to_nat (m0 - n) < fuel)%nat ->
                  higher_primes fuel (PInt n) maxprime rd = Ok (PInt m))
    /\ n <= m <= m0
    /\ try_smaller_primes m maxprime rd = Ok true
    /\ (forall q, Z.prime q -> (q | m) -> q <= maxprime)
    /\ Forall (fun k => (k | m)) (dividers rd)
    /\ (forall k, n <= k < m -> try_smaller_primes k maxprime rd = Ok false).
Proof.
  intros Hn Hp Hm0 Htry.
  destruct (try_smaller_primes_true_nonzero _ _ _ Htry) as [_ Hnz].
  pose proof (try_smaller_primes_true_fft_ok _ _ _ Htry) as Hok.
  destruct (higher_search_found maxprime rd Hnz (S (Z.to_nat (m0 - n))) n n m0)
    as (m & _ & Hr & Hfm & Hmin); try lia; auto.
  exists m. split; [|split; [assumption|split; [|split; [|split]]]].
  - intros fuel Hfuel. cbn [higher_primes].
    destruct (Z.ltb_spec 1 n) as [_|]; [|lia].
    destruct (Z.leb_spec maxprime n) as [_|]; [|lia]. cbn [andb py_assert bind].
    destruct (higher_search_found maxprime rd Hnz fuel n n m0)
      as (m' & E' & Hr' & Hfm' & Hmin'); try lia; auto.
    rewrite E'. cbn [bind]. do 2 f_equal.
    destruct (Z.lt_trichotomy m' m) as [Hlt|[Heq|Hgt]]; [|assumption|].
    + exfalso. apply (Hmin m'); [lia | assumption].
    + exfalso. apply (Hmin' m); [lia | assumption].
  - apply fft_ok_try_smaller_primes; auto; lia.
  - apply Hfm.
  - apply Hfm.
  - intros k Hk.
    destruct (try_smaller_primes_spec k maxprime rd) as (b & E & Hb); [lia|auto|].
    destruct b; [|assumption]. exfalso. apply (Hmin k Hk). now apply Hb.
Qed.


Lemma higher_each_numpy_cons (fuel : nat) (i : Z) (rest vn : list Z)
      (maxprime : Z) (rd : option (list Z)) :
  higher_each_numpy (S fuel) (i :: rest) vn maxprime rd
  = if (1 <? i) && (maxprime <=? i) then Raise TypeError
    else Raise AssertionError.
Proof.
  cbn [higher_each_numpy].
  destruct ((1 <? i) && (maxprime <=? i)); reflexivity.
Qed.


(** ** Specification of the padding primitive *)

(** C8.  On a 3D array of shape [(nz, ny, nx)] and a non-negative pad width
    [zero_pad] returns a new array of shape [(nz + z0 + z1, ny + y0 + y1,
    nx + x0 + x1)] whose cells are the cells of the input inside the box
    that starts at [(z0, y0, x0)] and the fill value (1 with [mask_flag],
    0 without) outside, so that slicing the box out of the result gives the
    input back (with [z0 = y0 = x0 = p] this is the round trip of the
    specification); an input that is not 3D raises [ValueError]. *)
Theorem zero_pad_embeds_array (array : ndarray Z)
    (nz ny nx z0 z1 y0 y1 x0 x1 : nat) (mask_flag : bool) :
  (ndim array <> 3%nat ->
   forall padding_width, zero_pad array padding_width mask_flag = Raise ValueError)
  /\ (shape array = [nz; ny; nx] -> well_formed array ->
      exists newobj,
        zero_pad array (map Z.of_nat [z0; z1; y0; y1; x0; x1]) mask_flag = Ok newobj
        /\ shape newobj = [nz + z0 + z1; ny + y0 + y1; nx + x0 + x1]%nat
        /\ well_formed newobj
        /\ (forall i j k,
               (i < nz + z0 + z1)%nat -> (j < ny + y0 + y1)%nat ->
               (k < nx + x0 + x1)%nat ->
               cell3 0 newobj i j k
               = if within z0 nz i && within y0 ny j && within x0 nx k
                 then cell3 0 array (i - z0) (j - y0) (k - x0)
                 else fill_value mask_flag)
        /\ getitem3 0 newobj
             (range (Z.of_nat z0) (Z.of_nat z0 + Z.of_nat nz))
             (range (Z.of_nat y0) (Z.of_nat y0 + Z.of_nat ny))
             (range (Z.of_nat x0) (Z.of_nat x0 + Z.of_nat nx))
           = Ok array).
Proof.
  split.
  - intros Hdim padding_width. unfold zero_pad, ndim in *.
    destruct (shape array) as [|? [|? [|? [|? ?]]]]; try reflexivity.
    now contradiction Hdim.
  - intros Hsh Hwf.
    exists (padded array nz ny nx z0 z1 y0 y1 x0 x1 mask_flag).
    split; [now apply zero_pad_padded|]. split; [reflexivity|]. split.
    + unfold well_formed, padded. cbn [shape buf size_of fold_right].
      rewrite tabulate3_length. lia.
    + split; [intros; now apply cell3_padded | now apply getitem3_padded].
Qed.

(** ** The engine and the utilities at concrete inputs *)

Import Examples.

(** C1 as stated fails: [crop_asymmetric_ZYX] on a volume of 11 frames, all
    USED, returns 10 frames of data and a provenance vector of length 11. *)
Lemma crop_provenance_length_counterexample :
  length (all_used 11) = rocking_length (volume 11 8 8 5 4 4)
  /\ match run 11 8 8 5 4 4 "crop_asymmetric_ZYX" (mk_kwargs [] [] [] []) with
     | Ok (data', _, _, _, frames') =>
         rocking_length data' = 10%nat
         /\ frames' = [1; 1; 1; 1; 1; 1; 1; 1; 1; 1; 0]
         /\ length frames' <> rocking_length data'
     | _ => False
     end.
Proof.
  split; [reflexivity|]. vm_compute.
  split; [reflexivity | split; [reflexivity | discriminate]].
Qed.

(** C2.  The q arrays returned by two pad policies are longer or shorter
    than the axes of the returned data: [pad_asymmetric_ZYX] on a
    [(8, 15, 8)] volume with [pad_size = [8, 15, 8]] returns data of shape
    [(8, 15, 8)] and a [qz] of 16 samples; [pad_symmetric_ZYX] on a
    [(10, 8, 8)] volume with [pad_size = [8, 8, 8]] returns data of shape
    [(10, 8, 8)] and a [qx] of 8 samples. *)
Theorem q_grid_length_differs_from_data :
  digest (run 8 15 8 4 7 4 "pad_asymmetric_ZYX"
              (mk_kwargs [] [] [8; 15; 8] (q_grid 8 15 8)))
  = Ok ([8; 15; 8]%nat, [0; 0; 0; 0; 0; 0], [8; 16; 8]%nat, all_used 8)
  /\ digest (run 10 8 8 5 4 4 "pad_symmetric_ZYX"
                 (mk_kwargs [] [] [8; 8; 8] (q_grid 10 8 8)))
     = Ok ([10; 8; 8]%nat, [0; 0; 0; 0; 0; 0], [8; 8; 8]%nat, all_used 10).
Proof. split; vm_compute; reflexivity. Qed.

(** C3.  Only [pad_symmetric_ZYX] clamps: with the peak in frame 1 of 10 and
    [pad_size[0] = 16] the high pad width of the rocking axis comes out as
    -1; [pad_symmetric_Z] and [pad_symmetric_Z_crop_YX] hand it to
    [zero_pad] as it is and the call ends in a [ValueError], where
    [pad_symmetric_ZYX] returns with [pad_width = [6, 0, 4, 4, 4, 4]]. *)
Theorem symmetric_rocking_pad_not_clamped :
  symmetric_pad_high 16 10 1 = -1
  /\ digest (run 10 8 8 1 4 4 "pad_symmetric_Z" (mk_kwargs [] [] [16; 16; 16] []))
     = Raise ValueError
  /\ digest (run 10 8 8 1 4 4 "pad_symmetric_Z_crop_YX"
                 (mk_kwargs [] [] [16; 16; 16] []))
     = Raise ValueError
  /\ digest (run 10 8 8 1 4 4 "pad_symmetric_ZYX" (mk_kwargs [] [] [16; 16; 16] []))
     = Ok ([16; 16; 16]%nat, [6; 0; 4; 4; 4; 4], [],
           repeat (-1) 6 ++ all_used 10).
Proof. repeat split; vm_compute; reflexivity. Qed.

(** C4.  Under [pad_asymmetric_ZYX] the low pad width of the y axis reads
    [pad_size[1]]: on a [(8, 15, 8)] volume (target 16 on y, so a split of
    (1, 0)) the call raises [IndexError] without [pad_size], pads nothing
    on y with [pad_size = [8, 15, 8]] and pads (1, 0) with
    [pad_size = [16, 16, 16]]. *)
Theorem asymmetric_y_split_reads_pad_size :
  higher_primes 64 (PInt 15) 7 (Some [2]) = Ok (PInt 16)
  /\ (asymmetric_pad_low 1 1, asymmetric_pad_high 1) = (1, 0)
  /\ digest (run 8 15 8 4 7 4 "pad_asymmetric_ZYX" (mk_kwargs [] [] [] []))
     = Raise IndexError
  /\ digest (run 8 15 8 4 7 4 "pad_asymmetric_ZYX" (mk_kwargs [] [] [8; 15; 8] []))
     = Ok ([8; 15; 8]%nat, [0; 0; 0; 0; 0; 0], [], all_used 8)
  /\ digest (run 8 15 8 4 7 4 "pad_asymmetric_ZYX"
                 (mk_kwargs [] [] [16; 16; 16] []))
     = Ok ([8; 16; 8]%nat, [0; 0; 1; 0; 0; 0], [], all_used 8).
Proof. repeat split; vm_compute; reflexivity. Qed.

(** C5 as stated fails: with [maxprime = 2] and the required divider 3 no
    integer passes the test, and the search from 8 never returns. *)
Lemma higher_primes_counterexample :
  ~ exists fuel r, higher_primes fuel (PInt 8) 2 (Some [3]) = Ok r.
Proof.
  intros (fuel & r & H). cbn [higher_primes] in H.
  change ((1 <? 8) && (2 <=? 8)) with true in H. cbn [py_assert bind] in H.
  rewrite higher_search_diverges in H; try lia; [discriminate H| |].
  - cbn [dividers]. constructor; [lia | constructor].
  - intros m _ (_ & Hp & Hd). cbn [dividers] in Hd.
    inversion Hd as [|? ? H3 _]; subst.
    specialize (Hp 3 Z.prime_3 H3). lia.
Qed.

Lemma higher_primes_least_fft_size_witness :
  exists m, higher_primes 6 (PInt 11) 7 (Some [2]) = Ok (PInt m)
            /\ 11 <= m <= 16
            /\ try_smaller_primes m 7 (Some [2]) = Ok true.
Proof.
  destruct (higher_primes_least_fft_size 11 7 (Some [2]) 16)
    as (m & Hf & Hr & Ht & _); [lia | lia | lia | reflexivity |].
  exists m. split; [apply Hf; vm_compute; lia | split; assumption].
Defined.



(** C7 as stated fails: the list [primes] returns starts with 1. *)
Lemma primes_counterexample : primes 28 <> Ok [2; 2; 7].
Proof. discriminate. Qed.

Lemma primes_leading_one_decomposition_witness :
  exists fs, primes 360 = Ok (1 :: fs) /\ prod fs = 360.
Proof.
  destruct (primes_leading_one_decomposition 360) as [(fs & E & _ & _ & Hp) _];
    [lia|].
  exists fs. split; assumption.
Defined.

Lemma zero_pad_embeds_array_witness :
  zero_pad (mk_ndarray [2; 2]%nat [1; 2; 3; 4]) [1; 1; 1; 1; 1; 1] false
  = Raise ValueError
  /\ exists newobj,
      zero_pad (volume 2 3 2 1 1 1) [1; 1; 1; 1; 1; 1] false = Ok newobj
      /\ shape newobj = [4; 5; 4]%nat
      /\ getitem3 0 newobj (range 1 3) (range 1 4) (range 1 3)
         = Ok (volume 2 3 2 1 1 1).
Proof.
  split.
  - apply (proj1 (zero_pad_embeds_array (mk_ndarray [2; 2]%nat [1; 2; 3; 4])
                    0 0 0 0 0 0 0 0 0 false)).
    cbn. discriminate.
  - destruct (proj2 (zero_pad_embeds_array (volume 2 3 2 1 1 1)
                       2 3 2 1 1 1 1 1 1 false)) as (newobj & E & Hs & _ & _ & Hg).
    + reflexivity.
    + vm_compute. reflexivity.
    + exists newobj. split; [exact E | split; [exact Hs | exact Hg]].
Defined.

(** C9 as stated fails: with two monitor values for three USED frames the
    call ends in the [IndexError] of the read [raw_monitor[2]], not in the
    [ValueError] of the length check. *)
Lemma normalize_dataset_counterexample :
  normalize_dataset Q q_min q_max Qdiv Qmult 0%Q (pixel_frames 3)
                    [5%Q; 7%Q] [1; 1; 1] true = Raise IndexError
  /\ normalize_dataset Q q_min q_max Qdiv Qmult 0%Q (pixel_frames 3)
                       [5%Q; 7%Q] [1; 1; 1] true <> Raise ValueError.
Proof. split; [reflexivity | discriminate]. Qed.

Lemma normalize_dataset_monitor_witness :
  match normalize_dataset Q q_min q_max Qdiv Qmult 0%Q (pixel_frames 3)
                          [5%Q; 6%Q; 7%Q] [1; 0; 1; -1] true with
  | Ok (_, monitor, _) => length monitor = 3%nat
  | _ => False
  end
  /\ normalize_dataset Q q_min q_max Qdiv Qmult 0%Q (pixel_frames 4)
                       [5%Q; 7%Q] [1; 0; 1; 1; -1] true = Raise IndexError.
Proof.
  split.
  - destruct (normalize_dataset Q q_min q_max Qdiv Qmult 0%Q (pixel_frames 3)
                [5%Q; 6%Q; 7%Q] [1; 0; 1; -1] true)
      as [[[array' monitor'] title]|e|] eqn:E.
    + apply (proj1 (proj1 (normalize_dataset_monitor Q q_min q_max Qdiv Qmult
                             0%Q (pixel_frames 3) [5%Q; 6%Q; 7%Q]
                             [1; 0; 1; -1] true) array' monitor' title E)).
    + vm_compute in E. discriminate E.
    + vm_compute in E. discriminate E.
  - apply (proj2 (normalize_dataset_monitor Q q_min q_max Qdiv Qmult 0%Q
                    (pixel_frames 4) [5%Q; 7%Q] [1; 0; 1; 1; -1] true)).
    + reflexivity.
    + discriminate.
    + vm_compute. lia.
Defined.

Lemma center_fft_centering_before_fix_bragg_witness :
  center_fft center_of_mass_exact 64 (volume 10 8 8 5 4 4) (clear_mask 10 8 8)
             (all_used 10) "centre" "crop_symmetric_ZYX"
             (mk_kwargs [5; 4; 4] [] [] []) = Raise ValueError
  /\ center_fft center_of_mass_exact 64 (mk_ndarray [0; 8; 8]%nat [])
                (mk_ndarray [0; 8; 8]%nat []) [] "max" "crop_symmetric_ZYX"
                (mk_kwargs [0; 4; 4] [] [] []) = Raise ValueError
  /\ center_fft center_of_mass_exact 64 (volume 10 8 8 5 4 4) (clear_mask 10 8 8)
                (all_used 10) "max" "crop_symmetric_ZYX"
                (mk_kwargs [10; 4; 4] [] [] []) = Raise IndexError.
Proof.
  split; [|split].
  - apply (proj1 (center_fft_centering_before_fix_bragg center_of_mass_exact 64
                    (volume 10 8 8 5 4 4) (clear_mask 10 8 8) (all_used 10)
                    "centre" "crop_symmetric_ZYX" (mk_kwargs [5; 4; 4] [] [] [])));
      discriminate.
  - apply (proj1 (proj2 (center_fft_centering_before_fix_bragg
                           center_of_mass_exact 64
                           (mk_ndarray [0; 8; 8]%nat [])
                           (mk_ndarray [0; 8; 8]%nat []) [] "max"
                           "crop_symmetric_ZYX" (mk_kwargs [0; 4; 4] [] [] []))));
      reflexivity.
  - destruct (proj2 (proj2 (center_fft_centering_before_fix_bragg
                              center_of_mass_exact 64
                              (volume 10 8 8 5 4 4) (clear_mask 10 8 8)
                              (all_used 10) "max" "crop_symmetric_ZYX"
                              (mk_kwargs [10; 4; 4] [] [] [])))
                    10 4 4 eq_refl) as [H|H].
    + cbn. lia.
    + exact H.
    + vm_compute in H. discriminate H.
Defined.

(** ** Enough fuel: [center_fft] returns or raises *)

Create HintDb settles.

Lemma settles_bind {A B : Type} (m : outcome A) (k : A -> outcome B) :
  settles m -> (forall a, m = Ok a -> settles (k a)) -> settles (bind m k).
Proof.
  unfold settles. destruct m as [a|e|]; cbn [bind]; intros Hm Hk.
  - now apply Hk.
  - discriminate.
  - contradiction.
Qed.

Lemma settles_Ok {A : Type} (a : A) : settles (Ok a).
Proof. discriminate. Qed.

Lemma settles_Raise {A : Type} (e : exn) : settles (@Raise A e).
Proof. discriminate. Qed.

#[local] Hint Resolve settles_Ok settles_Raise : settles.

(** Splits a monadic computation into its steps; what is left are the
    steps themselves. *)
Ltac settle :=
  repeat first
    [ apply settles_Ok
    | apply settles_Raise
    | apply settles_bind; [solve [auto with settles] | intros ? ?]
    | match goal with
      | |- settles (let _ := _ in _) => cbv zeta
      | |- settles (if ?c then _ else _) => destruct c eqn:?
      | |- settles (match ?p with (_, _) => _ end) => destruct p
      | |- settles (match ?p with Found _ => _ | Return _ => _ end) => destruct p
      | |- settles (match ?p with inl _ => _ | inr _ => _ end) => destruct p
      end ].

Lemma py_assert_settles (c : bool) : settles (py_assert c).
Proof. destruct c; discriminate. Qed.

Lemma item_settles {A : Type} (l : list A) (i : Z) : settles (item l i).
Proof.
  unfold item. destruct (_ && _); [|discriminate].
  destruct (nth_error _ _); discriminate.
Qed.

Lemma setitem_settles {A : Type} (l : list A) (i : Z) (v : A) :
  settles (setitem l i v).
Proof. unfold setitem. destruct (_ && _); discriminate. Qed.

Lemma setslice_settles {A : Type} (l : list A) (s : slice) (src : list A) :
  settles (setslice l s src).
Proof.
  unfold setslice, broadcast1. destruct (slice_indices _ _) as [a n].
  destruct (_ =? _)%nat; [discriminate|].
  destruct src as [|x [|y src]]; discriminate.
Qed.

Lemma getitem3_settles {A : Type} (d : A) (a : ndarray A) (sz sy sx : slice) :
  settles (getitem3 d a sz sy sx).
Proof.
  unfold getitem3. destruct (shape a) as [|? [|? [|? [|? ?]]]]; try discriminate.
  all: destruct (slice_indices _ sz), (slice_indices _ sy), (slice_indices _ sx);
    discriminate.
Qed.

Lemma setitem3_settles {A : Type} (d : A) (a : ndarray A) (sz sy sx : slice)
      (src : ndarray A) :
  settles (setitem3 d a sz sy sx src).
Proof.
  unfold setitem3. destruct (shape a) as [|? [|? [|? [|? ?]]]]; try discriminate.
  all: destruct (shape src) as [|? [|? [|? [|? ?]]]]; try discriminate.
  all: destruct (slice_indices _ sz), (slice_indices _ sy), (slice_indices _ sx);
    destruct (_ && _); discriminate.
Qed.

Lemma item3_settles {A : Type} (d : A) (a : ndarray A) (i j k : Z) :
  settles (item3 d a i j k).
Proof.
  unfold item3. destruct (shape a) as [|? [|? [|? [|? ?]]]]; try discriminate.
  all: repeat match goal with
              | |- context [index_in ?n ?z] => destruct (index_in n z)
              end; discriminate.
Qed.

Lemma full_settles {A : Type} (dims : list Z) (v : A) : settles (full dims v).
Proof. unfold full. destruct (existsb _ _); discriminate. Qed.

#[local] Hint Resolve py_assert_settles item_settles setitem_settles
  setslice_settles getitem3_settles setitem3_settles item3_settles
  full_settles : settles.

Lemma zero_pad_settles (array : ndarray Z) (padding_width : list Z)
      (mask_flag : bool) :
  settles (zero_pad array padding_width mask_flag).
Proof.
  unfold zero_pad. destruct (shape array) as [|? [|? [|? [|? ?]]]];
    try discriminate.
  all: settle; auto with settles.
Qed.

Lemma primes_settles (number : Z) : settles (primes number).
Proof.
  destruct (Z.ltb_spec 0 number) as [Hn|Hn].
  - destruct (primes_ok number Hn) as (fs & E & _). rewrite E. discriminate.
  - unfold primes. destruct (Z.ltb_spec 0 number); [lia | discriminate].
Qed.

Lemma check_dividers_settles (number : Z) (ks : list Z) :
  settles (check_dividers number ks).
Proof.
  induction ks as [|k ks IH]; cbn [check_dividers]; [discriminate|].
  destruct (k =? 0); [discriminate|].
  destruct (negb _); [discriminate | assumption].
Qed.

Lemma py_max_settles (p : list Z) : settles (py_max p).
Proof. destruct p; discriminate. Qed.

#[local] Hint Resolve zero_pad_settles primes_settles check_dividers_settles
  py_max_settles : settles.

Lemma try_smaller_primes_settles (number maxprime : Z) (rd : option (list Z)) :
  settles (try_smaller_primes number maxprime rd).
Proof.
  unfold try_smaller_primes. settle.
  destruct rd; auto with settles.
Qed.

#[local] Hint Resolve try_smaller_primes_settles : settles.

Lemma smaller_search_settles (maxprime : Z) (rd : option (list Z)) (fuel : nat) :
  forall i, 0 < i -> (Z.to_nat i <= fuel)%nat ->
            settles (smaller_search fuel i maxprime rd).
Proof.
  induction fuel as [|fuel IH]; intros i Hi Hf; [lia|].
  cbn [smaller_search]. settle.
  apply IH; [|lia].
  match goal with H : (_ =? 0) = false |- _ => apply Z.eqb_neq in H end. lia.
Qed.

Lemma smaller_each_settles (maxprime : Z) (rd : option (list Z)) (l : list Z) :
  forall vn, settles (smaller_each l vn maxprime rd).
Proof.
  induction l as [|i l IH]; intros vn; cbn [smaller_each]; [discriminate|].
  apply settles_bind; [auto with settles|]. intros u Hu.
  apply py_assert_Ok_inv, andb_prop in Hu. destruct Hu as [Hi _].
  apply Z.ltb_lt in Hi.
  apply settles_bind; [apply smaller_search_settles; lia|].
  intros r _. destruct r; [apply IH | discriminate].
Qed.

Lemma smaller_primes_tuple_settles (maxprime : Z) (rd : option (list Z))
      (l : list Z) :
  settles (smaller_primes (PTuple l) maxprime rd).
Proof.
  cbn [smaller_primes]. apply settles_bind; [apply smaller_each_settles|].
  intros; discriminate.
Qed.

Lemma higher_primes_7_2_settles (fuel : nat) (n : Z) :
  (Z.to_nat n <= fuel)%nat -> settles (higher_primes_7_2 fuel n).
Proof.
  intros Hf. unfold higher_primes_7_2.
  destruct (Z_lt_le_dec n 7) as [Hlt|Hge].
  - cbn [higher_primes].
    destruct (Z.leb_spec 7 n); [lia|]. rewrite andb_false_r. discriminate.
  - destruct (higher_primes_engine fuel n Hge Hf) as (m & E & _).
    rewrite E. discriminate.
Qed.

Lemma unpack3_settles (v : pyval) : settles (unpack3 v).
Proof.
  destruct v as [n|l|l|l]; cbn; try discriminate;
    destruct l as [|? [|? [|? [|? ?]]]]; discriminate.
Qed.

Lemma unpack2_settles (v : pyval) : settles (unpack2 v).
Proof.
  destruct v as [n|l|l|l]; cbn; try discriminate;
    destruct l as [|? [|? [|? ?]]]; discriminate.
Qed.

#[local] Hint Resolve smaller_primes_tuple_settles unpack3_settles
  unpack2_settles : settles.

Lemma item_Ok_In {A : Type} (l : list A) (i : Z) (x : A) :
  item l i = Ok x -> In x l.
Proof.
  unfold item. destruct (_ && _); [|discriminate].
  destruct (nth_error _ _) as [y|] eqn:E; [|discriminate].
  intros H. injection H as <-. now apply nth_error_In in E.
Qed.

Section EnoughFuel.
Variable fuel : nat.
Variables data mask : ndarray Z.
Variable frames_logical : list Z.
Variable q_values : list (list Q).
Variables qx qz qy : list Q.
Variables fix_size pad_size : list Z.
Variables iz0 iy0 ix0 nbz nby nbx max_nz max_ny max_nx : Z.
Hypothesis fuel_nbz : (Z.to_nat nbz <= fuel)%nat.
Hypothesis fuel_nby : (Z.to_nat nby <= fuel)%nat.
Hypothesis fuel_nbx : (Z.to_nat nbx <= fuel)%nat.
Hypothesis fuel_pad_size : Forall (fun p => (Z.to_nat p <= fuel)%nat) pad_size.

Lemma check_pad_size_settles (i : Z) : settles (check_pad_size fuel pad_size i).
Proof.
  unfold check_pad_size. settle.
  apply settles_bind; [|intros; settle].
  apply higher_primes_7_2_settles.
  match goal with H : item pad_size i = Ok ?p |- (Z.to_nat ?p <= _)%nat =>
    apply item_Ok_In in H; rewrite Forall_forall in fuel_pad_size;
    now apply fuel_pad_size
  end.
Qed.

Lemma padded_frames_settles (d : ndarray Z) (pad_width : list Z) :
  settles (padded_frames d pad_width nbz frames_logical).
Proof. unfold padded_frames. settle. auto with settles. Qed.

Hint Resolve check_pad_size_settles padded_frames_settles : settles.

Lemma pad_arrays_settles (d m : ndarray Z) (pad_width : list Z) :
  settles (pad_arrays frames_logical nbz d m pad_width).
Proof. unfold pad_arrays. settle. Qed.

Lemma crop_box_settles (z0 z1 y0 y1 x0 x1 : Z) :
  settles (crop_box data mask frames_logical q_values qx qz qy nbz
                    z0 z1 y0 y1 x0 x1).
Proof. unfold crop_box. settle. Qed.

Lemma spacing_settles (q : list Q) : settles (spacing q).
Proof. unfold spacing. settle. Qed.

Lemma grid_origin_settles (q : list Q) (pad_width : list Z) (i : Z) (dq : Q) :
  settles (grid_origin q pad_width i dq).
Proof. unfold grid_origin. settle. Qed.

Hint Resolve pad_arrays_settles crop_box_settles spacing_settles
  grid_origin_settles : settles.

Lemma extend_qx_settles (pad_width : list Z) (n : Z) :
  settles (extend_qx qx pad_width n).
Proof. unfold extend_qx. settle. Qed.

Lemma crop_detector_settles (a : ndarray Z) (ny1 nx1 : Z) :
  settles (crop_detector iy0 ix0 a ny1 nx1).
Proof. unfold crop_detector. auto with settles. Qed.

Hint Resolve extend_qx_settles crop_detector_settles
  higher_primes_7_2_settles : settles.

Lemma apply_policy_settles (fft_option : string) :
  settles (apply_policy fuel data mask frames_logical q_values qx qz qy
             fix_size pad_size iz0 iy0 ix0 nbz nby nbx max_nz max_ny max_nx
             fft_option).
Proof.
  unfold apply_policy.
  repeat match goal with
         | |- settles (if ?c then _ else _) => destruct c
         end; try discriminate.
  - unfold crop_symmetric_ZYX. settle.
  - unfold crop_asymmetric_ZYX. settle.
  - unfold pad_symmetric_Z_crop_YX. settle.
  - unfold pad_asymmetric_Z_crop_YX. settle.
  - unfold pad_symmetric_Z. settle.
  - unfold pad_asymmetric_Z. settle.
  - unfold pad_symmetric_ZYX. settle.
  - unfold pad_asymmetric_ZYX. settle.
  - unfold do_nothing. settle.
Qed.
End EnoughFuel.

Lemma centering_peak_settles
      (center_of_mass : ndarray Z -> pyfloat * pyfloat * pyfloat)
      (data : ndarray Z) (centering : string) :
  settles (centering_peak center_of_mass data centering).
Proof.
  destruct (centering_peak_outcome center_of_mass data centering)
    as [(z0 & y0 & x0 & E)|E]; rewrite E; discriminate.
Qed.

Lemma int_round_settles (x : pynum) : settles (int_round x).
Proof. destruct x as [n|[q| |]]; discriminate. Qed.

(** With fuel for the largest axis and the largest entry of [pad_size],
    [center_fft] returns or raises: the upward searches of the engine all
    end. *)
Lemma center_fft_settles
      (center_of_mass : ndarray Z -> pyfloat * pyfloat * pyfloat) (fuel : nat)
      (data mask : ndarray Z) (frames_logical : list Z)
      (centering fft_option : string) (kw : kwargs) :
  Forall (fun n => (n <= fuel)%nat) (shape data) ->
  Forall (fun p => (Z.to_nat p <= fuel)%nat) (kw_pad_size kw) ->
  settles (center_fft center_of_mass fuel data mask frames_logical centering
                      fft_option kw).
Proof.
  intros Hshape Hpad. unfold center_fft.
  destruct (negb (ndim data =? 3)%nat || negb (ndim mask =? 3)%nat);
    [discriminate|].
  destruct (negb (if list_eq_dec Nat.eq_dec (shape data) (shape mask)
                  then true else false)); [discriminate|].
  destruct (kw_q_values kw) as [|q0 [|q1 [|q2 qs]]]; cbv iota beta.
  all: apply settles_bind; [apply centering_peak_settles|].
  all: intros [[z0 y0] x0] _.
  all: apply settles_bind;
    [destruct (negb _); [|discriminate];
     destruct (kw_fix_bragg kw) as [|? [|? [|? [|? ?]]]]; discriminate|].
  all: intros [[z0' y0'] x0'] _.
  all: apply settles_bind; [apply int_round_settles|]; intros iz0 _.
  all: apply settles_bind; [apply int_round_settles|]; intros iy0 _.
  all: apply settles_bind; [apply int_round_settles|]; intros ix0 _.
  all: apply settles_bind; [apply item3_settles|]; intros v _.
  all: destruct (shape data) as [|nbz [|nby [|nbx [|? ?]]]]; try discriminate.
  all: inversion Hshape as [|? ? Hz Hs1]; subst;
    inversion Hs1 as [|? ? Hy Hs2]; subst;
    inversion Hs2 as [|? ? Hx _]; subst.
  all: apply settles_bind; [|intros; discriminate].
  all: apply apply_policy_settles; try assumption; rewrite Nat2Z.id; assumption.
Qed.

(* ================================================================== *)
(** * Further properties of the number-shaping utilities *)

Lemma prod_primes_pos (l : list Z) : Forall Z.prime l -> 1 <= prod l.
Proof.
  induction 1 as [|p l Hp _ IH]; unfold prod in *; cbn [fold_right]; [lia|].
  apply Z.prime_ge_2 in Hp. nia.
Qed.

Lemma sorted_primes_head_least (p : Z) (l : list Z) (x : Z) :
  Sorted Z.le (p :: l) -> In x (p :: l) -> p <= x.
Proof.
  intros Hs Hin. apply Sorted_StronglySorted in Hs; [|intros a b c; lia].
  inversion Hs as [|? ? _ Hall]; subst.
  destruct Hin as [<-|Hin]; [lia|].
  rewrite Forall_forall in Hall. now apply Hall.
Qed.

(** Two non-decreasing lists of primes with the same product are equal. *)
Lemma sorted_primes_unique (l1 : list Z) :
  forall l2,
    Forall Z.prime l1 -> Forall Z.prime l2 ->
    Sorted Z.le l1 -> Sorted Z.le l2 ->
    prod l1 = prod l2 -> l1 = l2.
Proof.
  induction l1 as [|p l1 IH]; intros l2 H1 H2 S1 S2 E.
  - destruct l2 as [|q l2]; [reflexivity|]. exfalso.
    inversion H2 as [|? ? Hq H2']; subst.
    pose proof (prod_primes_pos l2 H2') as Hpos.
    apply Z.prime_ge_2 in Hq.
    unfold prod in *; cbn [fold_right] in *. nia.
  - destruct l2 as [|q l2].
    + exfalso. inversion H1 as [|? ? Hp H1']; subst.
      pose proof (prod_primes_pos l1 H1') as Hpos.
      apply Z.prime_ge_2 in Hp.
      unfold prod in *; cbn [fold_right] in *. nia.
    + inversion H1 as [|? ? Hp H1']; subst.
      inversion H2 as [|? ? Hq H2']; subst.
      assert (Hpq : In p (q :: l2)).
      { apply prime_divides_prod; [assumption | assumption |].
        rewrite <- E. apply in_divides_prod. now left. }
      assert (Hqp : In q (p :: l1)).
      { apply prime_divides_prod; [assumption | assumption |].
        rewrite E. apply in_divides_prod. now left. }
      pose proof (sorted_primes_head_least _ _ _ S2 Hpq).
      pose proof (sorted_primes_head_least _ _ _ S1 Hqp).
      assert (p = q) by lia. subst q. f_equal.
      apply IH; try assumption.
      * now inversion S1.
      * now inversion S2.
      * apply Z.prime_ge_2 in Hp.
        unfold prod in *; cbn [fold_right] in *.
        apply Z.mul_reg_l with (p := p); [lia | assumption].
Qed.

(** X1. [primes] inverts the product: for every non-decreasing list [fs]
    of prime numbers, [primes] applied to the product of [fs] returns
    [1] followed by exactly [fs]. *)
Theorem primes_of_product (fs : list Z) :
  Forall Z.prime fs -> Sorted Z.le fs -> primes (prod fs) = Ok (1 :: fs).
Proof.
  intros Hp Hs. pose proof (prod_primes_pos fs Hp) as Hpos.
  destruct (primes_ok (prod fs)) as (gs & E & Hgp & _ & Hgs & Hprod); [lia|].
  rewrite E. do 2 f_equal.
  apply sorted_primes_unique; assumption.
Qed.

Lemma primes_of_product_witness : primes (prod [2; 2; 3; 3]) = Ok [1; 2; 2; 3; 3].
Proof.
  apply (primes_of_product [2; 2; 3; 3]).
  - repeat apply Forall_cons; auto using Z.prime_2, Z.prime_3.
  - repeat constructor; lia.
Defined.

(** The upward search started at or above its limit never takes the early
    [return limit]: it ends on a number that passes the test. *)
Lemma higher_search_Ok_inv (maxprime : Z) (rd : option (list Z)) (fuel : nat) :
  forall limit i r,
    limit <= i ->
    higher_search fuel limit i maxprime rd = Ok r ->
    exists m, r = Found m /\ i <= m
              /\ try_smaller_primes m maxprime rd = Ok true.
Proof.
  induction fuel as [|fuel IH]; intros limit i r Hl H; [discriminate|].
  cbn [higher_search] in H.
  destruct (try_smaller_primes i maxprime rd) as [[|]| |] eqn:E;
    cbn [bind negb] in H; try discriminate.
  - injection H as <-. exists i. repeat split; [lia | assumption].
  - destruct (Z.eqb_spec (i + 1) limit) as [|_]; [lia|].
    apply IH in H; [|lia]. destruct H as (m & -> & Hm & Hok).
    exists m. repeat split; [lia | assumption].
Qed.

(** The downward search ends on a number that passes the test, or on [0]. *)
Lemma smaller_search_Ok_inv (maxprime : Z) (rd : option (list Z)) (fuel : nat) :
  forall i r,
    smaller_search fuel i maxprime rd = Ok r ->
    (exists m, r = Found m /\ m <= i
               /\ try_smaller_primes m maxprime rd = Ok true)
    \/ r = Return 0.
Proof.
  induction fuel as [|fuel IH]; intros i r H; [discriminate|].
  cbn [smaller_search] in H.
  destruct (try_smaller_primes i maxprime rd) as [[|]| |] eqn:E;
    cbn [bind negb] in H; try discriminate.
  - injection H as <-. left. exists i. repeat split; [lia | assumption].
  - destruct (Z.eqb_spec (i - 1) 0) as [_|_].
    + injection H as <-. now right.
    + apply IH in H. destruct H as [(m & -> & Hm & Hok) | ->]; [left | now right].
      exists m. repeat split; [lia | assumption].
Qed.

Lemma search_asserts (n maxprime : Z) :
  1 < n -> maxprime <= n -> py_assert ((1 <? n) && (maxprime <=? n)) = Ok tt.
Proof.
  intros Hn Hp.
  destruct (Z.ltb_spec 1 n); [|lia]. destruct (Z.leb_spec maxprime n); [|lia].
  reflexivity.
Qed.

Lemma higher_search_pass (maxprime : Z) (rd : option (list Z)) (fuel : nat)
      (limit n : Z) :
  try_smaller_primes n maxprime rd = Ok true ->
  higher_search (S fuel) limit n maxprime rd = Ok (Found n).
Proof. intros H. cbn [higher_search]. now rewrite H. Qed.

Lemma smaller_search_pass (maxprime : Z) (rd : option (list Z)) (fuel : nat)
      (n : Z) :
  try_smaller_primes n maxprime rd = Ok true ->
  smaller_search (S fuel) n maxprime rd = Ok (Found n).
Proof. intros H. cbn [smaller_search]. now rewrite H. Qed.

(** X2. A size is returned unchanged by [higher_primes], and by
    [smaller_primes], exactly when [try_smaller_primes] accepts it: this is
    the comparison [center_fft] uses to validate [pad_size]. *)
Theorem fft_size_fixed_point (n maxprime : Z) (rd : option (list Z))
    (fuel : nat) :
  1 < n -> maxprime <= n ->
  (higher_primes (S fuel) (PInt n) maxprime rd = Ok (PInt n)
   <-> try_smaller_primes n maxprime rd = Ok true)
  /\ (smaller_primes (PInt n) maxprime rd = Ok (PInt n)
      <-> try_smaller_primes n maxprime rd = Ok true).
Proof.
  intros Hn Hp. pose proof (search_asserts n maxprime Hn Hp) as Ha.
  split; split.
  - unfold higher_primes. rewrite Ha. cbn [bind].
    destruct (higher_search (S fuel) n n maxprime rd) as [r| |] eqn:E;
      cbn [bind]; try discriminate.
    apply higher_search_Ok_inv in E; [|lia].
    destruct E as (m & -> & _ & Hok). intros [= ->]. assumption.
  - intros H. unfold higher_primes. rewrite Ha. cbn [bind].
    now rewrite (higher_search_pass _ _ _ _ _ H).
  - unfold smaller_primes. rewrite Ha. cbn [bind].
    destruct (smaller_search (Z.to_nat n) n maxprime rd) as [r| |] eqn:E;
      cbn [bind]; try discriminate.
    apply smaller_search_Ok_inv in E.
    destruct E as [(m & -> & _ & Hok) | ->]; intros [= Hm]; [now subst | lia].
  - intros H. unfold smaller_primes. rewrite Ha. cbn [bind].
    destruct (Z.to_nat n) as [|k] eqn:Ek; [lia|].
    now rewrite (smaller_search_pass _ _ _ _ H).
Qed.

Lemma fft_size_fixed_point_witness :
  higher_primes 1 (PInt 12) 7 (Some [2]) = Ok (PInt 12)
  <-> try_smaller_primes 12 7 (Some [2]) = Ok true.
Proof. apply (fft_size_fixed_point 12 7 (Some [2]) 0); lia. Defined.

(** X3. [higher_primes] is idempotent on scalars.  [smaller_primes] is
    not: fed back one of its results, it returns it unchanged when the
    result is above 1 and at least [maxprime], and raises an
    [AssertionError] otherwise (the result [0], or an accepted size below
    [maxprime]). *)
Theorem fft_size_search_idempotence (n m maxprime : Z) (rd : option (list Z)) :
  (forall fuel fuel',
      higher_primes fuel (PInt n) maxprime rd = Ok (PInt m) ->
      higher_primes (S fuel') (PInt m) maxprime rd = Ok (PInt m))
  /\ (smaller_primes (PInt n) maxprime rd = Ok (PInt m) ->
      smaller_primes (PInt m) maxprime rd
      = if (1 <? m) && (maxprime <=? m) then Ok (PInt m)
        else Raise AssertionError).
Proof.
  split.
  - intros fuel fuel' H. unfold higher_primes in H.
    destruct (py_assert _) as [[]| |] eqn:Ha; cbn [bind] in H; try discriminate.
    apply py_assert_Ok_inv, andb_prop in Ha. destruct Ha as [Hn Hp].
    apply Z.ltb_lt in Hn. apply Z.leb_le in Hp.
    destruct (higher_search fuel n n maxprime rd) as [r| |] eqn:E;
      cbn [bind] in H; try discriminate.
    apply higher_search_Ok_inv in E; [|lia].
    destruct E as (m' & -> & Hm & Hok). injection H as ->.
    unfold higher_primes. rewrite search_asserts by lia. cbn [bind].
    now rewrite (higher_search_pass _ _ _ _ _ Hok).
  - intros H. unfold smaller_primes in H.
    destruct (py_assert _) as [[]| |] eqn:Ha; cbn [bind] in H; try discriminate.
    destruct (smaller_search (Z.to_nat n) n maxprime rd) as [r| |] eqn:E;
      cbn [bind] in H; try discriminate.
    apply smaller_search_Ok_inv in E.
    destruct E as [(m' & -> & Hm & Hok) | ->]; injection H as <-.
    + unfold smaller_primes.
      destruct ((1 <? m') && (maxprime <=? m')) eqn:C; [|reflexivity].
      cbn [py_assert bind]. apply andb_prop in C. destruct C as [C _].
      apply Z.ltb_lt in C.
      destruct (Z.to_nat m') as [|k] eqn:Ek; [lia|].
      now rewrite (smaller_search_pass _ _ _ _ Hok).
    + reflexivity.
Qed.

Lemma fft_size_search_idempotence_witness :
  smaller_primes (PInt 13) 13 (Some [4]) = Ok (PInt 12)
  /\ smaller_primes (PInt 12) 13 (Some [4]) = Raise AssertionError.
Proof.
  split; [reflexivity|].
  apply (proj2 (fft_size_search_idempotence 13 12 13 (Some [4]))). reflexivity.
Defined.

Lemma engine_dividers_nonzero : Forall (fun k => k <> 0) (dividers (Some [2])).
Proof. cbn [dividers]. constructor; [lia | constructor]. Qed.

(** With the engine's parameters the downward search stops at the latest
    on the largest power of two below [n]. *)
Lemma smaller_primes_engine_scalar (n : Z) :
  7 <= n ->
  exists m, smaller_primes (PInt n) 7 (Some [2]) = Ok (PInt m)
            /\ n < 2 * m /\ m <= n
            /\ try_smaller_primes m 7 (Some [2]) = Ok true.
Proof.
  intros Hn.
  destruct (smaller_primes_int 7 (Some [2]) engine_dividers_nonzero n)
    as (m & E & Hr & Hok & Hmax & _); try lia.
  assert (Hlog : 1 <= Z.log2 n).
  { change 1 with (Z.log2 2). apply Z.log2_le_mono. lia. }
  pose proof (Z.log2_spec n ltac:(lia)) as [Hlo Hhi].
  rewrite Z.pow_succ_r in Hhi by lia.
  assert (Hm : 2 ^ Z.log2 n <= m).
  { destruct (Z.le_gt_cases (2 ^ Z.log2 n) m) as [|Hlt]; [assumption|].
    exfalso. apply (Hmax (2 ^ Z.log2 n)); [|assumption|now apply fft_ok_pow2].
    pose proof (Z.pow_pos_nonneg 2 (Z.log2 n)). lia. }
  exists m. split; [assumption|]. split; [lia|]. split; [lia|].
  apply fft_ok_try_smaller_primes;
    [lia | exact engine_dividers_nonzero | apply Hok; lia].
Qed.

(** X4. With the parameters [center_fft] passes ([maxprime=7],
    [required_dividers=(2,)]), [smaller_primes] on a sequence of sizes that
    are all at least 7 never gives up with [0]: it returns a list with, for
    each size, an accepted size that keeps more than half of it. *)
Theorem smaller_primes_engine_keeps_half (l : list Z) :
  Forall (fun i => 7 <= i) l ->
  exists ms,
    smaller_primes (PTuple l) 7 (Some [2]) = Ok (PList ms)
    /\ Forall2 (fun i m => i < 2 * m /\ m <= i
                           /\ try_smaller_primes m 7 (Some [2]) = Ok true) l ms.
Proof.
  intros Hall. cbn [smaller_primes].
  destruct (smaller_each_spec 7 (Some [2]) engine_dividers_nonzero l [])
    as [(ms & E & HF) | [_ HE]].
  - eapply Forall_impl; [|exact Hall]. cbn beta. intros; lia.
  - rewrite E. cbn [bind app]. exists ms. split; [reflexivity|].
    clear E. induction HF as [|i m l' ms' [Ei _] _ IH]; [constructor|].
    inversion Hall as [|? ? Hi Hall']; subst.
    constructor; [|now apply IH].
    destruct (smaller_primes_engine_scalar i Hi) as (m' & Ei' & H1 & H2 & H3).
    rewrite Ei in Ei'. injection Ei' as <-. auto.
  - exfalso. rewrite Exists_exists in HE. destruct HE as (i & Hin & Ei).
    rewrite Forall_forall in Hall.
    destruct (smaller_primes_engine_scalar i (Hall i Hin)) as (m' & Ei' & H1 & H2 & _).
    rewrite Ei in Ei'. injection Ei' as <-. lia.
Qed.

Lemma smaller_primes_engine_keeps_half_witness :
  exists ms, smaller_primes (PTuple [11; 16; 17]) 7 (Some [2]) = Ok (PList ms)
             /\ length ms = 3%nat.
Proof.
  destruct (smaller_primes_engine_keeps_half [11; 16; 17]) as (ms & E & HF).
  - repeat constructor; lia.
  - exists ms. split; [exact E|].
    apply Forall2_length in HF. symmetry; exact HF.
Defined.

(** The sequence loop of [higher_primes] applies the scalar search to each
    element in turn. *)
Lemma higher_each_spec (maxprime : Z) (rd : option (list Z)) (fuel : nat)
      (l : list Z) :
  forall vn r,
    higher_each fuel l vn maxprime rd = Ok r
    <-> exists ms, r = inl (vn ++ ms)
                   /\ Forall2 (fun i m => higher_primes fuel (PInt i) maxprime rd
                                          = Ok (PInt m)) l ms.
Proof.
  induction l as [|i l IH]; intros vn r; cbn [higher_each].
  - split.
    + intros [= <-]. exists []. rewrite app_nil_r. split; [reflexivity | constructor].
    + intros (ms & -> & HF). inversion HF; subst. now rewrite app_nil_r.
  - split.
    + intros H.
      destruct (py_assert _) as [[]| |] eqn:Ha; cbn [bind] in H; try discriminate.
      destruct (higher_search fuel i i maxprime rd) as [r0| |] eqn:E;
        cbn [bind] in H; try discriminate.
      pose proof E as E'. apply higher_search_Ok_inv in E'; [|lia].
      destruct E' as (m & -> & _ & _).
      apply IH in H. destruct H as (ms & -> & HF).
      exists (m :: ms). rewrite <- app_assoc. split; [reflexivity|].
      constructor; [|assumption].
      unfold higher_primes. rewrite Ha. cbn [bind]. now rewrite E.
    + intros (ms & -> & HF). inversion HF as [|? m ? ms' Hi HF']; subst.
      unfold higher_primes in Hi.
      destruct (py_assert _) as [[]| |] eqn:Ha; cbn [bind] in Hi; try discriminate.
      destruct (higher_search fuel i i maxprime rd) as [r0| |] eqn:E;
        cbn [bind] in Hi; try discriminate.
      pose proof E as E'. apply higher_search_Ok_inv in E'; [|lia].
      destruct E' as (m' & -> & _ & _). injection Hi as ->.
      cbn [bind]. apply IH. exists ms'. rewrite <- app_assoc.
      split; [reflexivity | assumption].
Qed.

(** X5. On a list or a tuple, [higher_primes] returns when, and only when,
    the scalar search returns for every element; the result then holds the
    scalar results in order, as a list in both cases, and the early
    [return limit] inside the loop is never taken.  On an integer array it
    returns only when the array is empty: otherwise the first element
    raises [AssertionError] when it fails the assertion and [TypeError]
    when it meets it, since [primes] rejects a NumPy integer. *)
Theorem higher_primes_elementwise (fuel : nat) (l : list Z) (maxprime : Z)
    (rd : option (list Z)) (r : pyval) :
  let scalar i m := higher_primes fuel (PInt i) maxprime rd = Ok (PInt m) in
  (higher_primes fuel (PList l) maxprime rd = Ok r
   <-> exists ms, r = PList ms /\ Forall2 scalar l ms)
  /\ (higher_primes fuel (PTuple l) maxprime rd = Ok r
      <-> exists ms, r = PList ms /\ Forall2 scalar l ms)
  /\ (higher_primes fuel (PArray l) maxprime rd = Ok r
      <-> l = [] /\ r = PArray [])
  /\ match l with
     | [] => True
     | i :: _ =>
         higher_primes (S fuel) (PArray l) maxprime rd
         = if (1 <? i) && (maxprime <=? i) then Raise TypeError
           else Raise AssertionError
     end.
Proof.
  intros scalar.
  assert (Harray : (higher_primes fuel (PArray l) maxprime rd = Ok r
                    <-> l = [] /\ r = PArray [])
                   /\ match l with
                      | [] => True
                      | i :: _ =>
                          higher_primes (S fuel) (PArray l) maxprime rd
                          = if (1 <? i) && (maxprime <=? i)
                            then Raise TypeError else Raise AssertionError
                      end).
  { destruct l as [|i rest].
    - split; [|exact I]. cbn. split.
      + intros [= <-]. split; reflexivity.
      + intros [_ ->]. reflexivity.
    - split.
      + split; [|intros [? _]; discriminate].
        intros H. exfalso. destruct fuel as [|fuel'].
        * cbn in H. destruct ((1 <? i) && (maxprime <=? i)); discriminate H.
        * cbn [higher_primes] in H. rewrite higher_each_numpy_cons in H.
          destruct ((1 <? i) && (maxprime <=? i)); discriminate H.
      + cbn [higher_primes]. rewrite higher_each_numpy_cons.
        destruct ((1 <? i) && (maxprime <=? i)); reflexivity. }
  assert (Hspec : forall r0, higher_each fuel l [] maxprime rd = Ok r0
                             <-> exists ms, r0 = inl ms /\ Forall2 scalar l ms)
    by (intros r0; apply (higher_each_spec maxprime rd fuel l [] r0)).
  split; [|split; [|exact Harray]]. all: clear Harray.
  all: cbn [higher_primes]; split.
  all: try (clear Hspec;
            destruct (higher_each fuel l [] maxprime rd) as [r0| |] eqn:E;
            cbn [bind]; try discriminate; intros [= <-];
            apply (higher_each_spec maxprime rd fuel l []) in E;
            destruct E as (ms & -> & HF);
            exists ms; split; [reflexivity | assumption]).
  all: intros (ms & -> & HF);
    assert (E : higher_each fuel l [] maxprime rd = Ok (inl ms))
      by (apply Hspec; exists ms; split; [reflexivity | assumption]);
    rewrite E; reflexivity.
Qed.

(* ================================================================== *)
(** * Further properties of the engine *)

Import EngineSpec.

Lemma item3_Ok_in_bounds (a : ndarray Z) (z y x v : Z) :
  item3 0 a z y x = Ok v -> in_bounds (shape a) z y x.
Proof.
  intros H. destruct (shape a) as [|nz [|ny [|nx [|? ?]]]] eqn:Hs;
    try (unfold item3 in H; rewrite Hs in H; discriminate H).
  unfold in_bounds.
  destruct (Z.leb_spec (- Z.of_nat nz) z), (Z.ltb_spec z (Z.of_nat nz)),
           (Z.leb_spec (- Z.of_nat ny) y), (Z.ltb_spec y (Z.of_nat ny)),
           (Z.leb_spec (- Z.of_nat nx) x), (Z.ltb_spec x (Z.of_nat nx));
    try lia.
  all: exfalso; rewrite item3_out_of_bounds in H; [discriminate H|];
    rewrite Hs; unfold in_bounds; lia.
Qed.

Lemma item3_in_bounds (a : ndarray Z) (z y x : Z) :
  in_bounds (shape a) z y x -> exists v, item3 0 a z y x = Ok v.
Proof.
  unfold in_bounds, item3, index_in.
  destruct (shape a) as [|nz [|ny [|nx [|? ?]]]]; try contradiction.
  intros (Hz & Hy & Hx).
  destruct (Z.leb_spec (- Z.of_nat nz) z), (Z.ltb_spec z (Z.of_nat nz)); try lia.
  destruct (Z.leb_spec (- Z.of_nat ny) y), (Z.ltb_spec y (Z.of_nat ny)); try lia.
  destruct (Z.leb_spec (- Z.of_nat nx) x), (Z.ltb_spec x (Z.of_nat nx)); try lia.
  cbn [andb]. eauto.
Qed.

(** Once the peak is known and lies in the array, the engine runs the
    effective policy and returns what it leaves. *)
Lemma center_fft_runs_policy
      (center_of_mass : ndarray Z -> pyfloat * pyfloat * pyfloat) (fuel : nat)
      (data mask : ndarray Z) (frames_logical : list Z)
      (centering fft_option : string) (kw : kwargs)
      (nz ny nx : nat) (iz0 iy0 ix0 : Z) :
  shape data = [nz; ny; nx] -> shape mask = [nz; ny; nx] ->
  peak_position center_of_mass data centering kw = Ok (iz0, iy0, ix0) ->
  in_bounds [nz; ny; nx] iz0 iy0 ix0 ->
  center_fft center_of_mass fuel data mask frames_logical centering
             fft_option kw
  = let '(q_values, qx, qz, qy) := q_arrays kw in
    br <- apply_policy fuel data mask frames_logical q_values qx qz qy
            (kw_fix_size kw) (kw_pad_size kw) iz0 iy0 ix0
            (Z.of_nat nz) (Z.of_nat ny) (Z.of_nat nx)
            (Z.abs (max_box iz0 (Z.of_nat nz))) (max_box iy0 (Z.of_nat ny))
            (Z.abs (max_box ix0 (Z.of_nat nx)))
            (effective_option fft_option iz0 iy0 ix0
               (Z.of_nat nz) (Z.of_nat ny) (Z.of_nat nx)) ;;
    Ok (returned q_values br).
Proof.
  intros Hd Hm Hp Hin.
  destruct (item3_in_bounds data iz0 iy0 ix0) as [v Hv]; [now rewrite Hd|].
  unfold center_fft, peak_position, ndim in *. rewrite Hd, Hm.
  cbn [length Nat.eqb negb orb].
  destruct (list_eq_dec Nat.eq_dec [nz; ny; nx] [nz; ny; nx]) as [_|n];
    [|contradiction n; reflexivity].
  cbn [negb]. unfold q_arrays.
  destruct (centering_peak center_of_mass data centering) as [[[z0 y0] x0]| |];
    cbn [bind] in Hp |- *; try discriminate Hp.
  destruct (if negb (length (kw_fix_bragg kw) =? 0)%nat then _ else _)
    as [[[z1 y1] x1]| |]; cbn [bind] in Hp |- *; try discriminate Hp.
  destruct (int_round z1) as [a| |]; cbn [bind] in Hp |- *; try discriminate Hp.
  destruct (int_round y1) as [b| |]; cbn [bind] in Hp |- *; try discriminate Hp.
  destruct (int_round x1) as [c| |]; cbn [bind] in Hp |- *; try discriminate Hp.
  injection Hp as -> -> ->.
  destruct (kw_q_values kw) as [|q0 [|q1 [|q2 qs]]]; cbn [bind];
    rewrite Hv; cbn [bind]; reflexivity.
Qed.

(** A call that returns found a peak inside the array. *)
Lemma center_fft_Ok_peak
      (center_of_mass : ndarray Z -> pyfloat * pyfloat * pyfloat) (fuel : nat)
      (data mask : ndarray Z) (frames_logical : list Z)
      (centering fft_option : string) (kw : kwargs)
      (res : ndarray Z * ndarray Z * list Z * list (list Q) * list Z) :
  center_fft center_of_mass fuel data mask frames_logical centering
             fft_option kw = Ok res ->
  exists nz ny nx iz0 iy0 ix0,
    shape data = [nz; ny; nx] /\ shape mask = [nz; ny; nx]
    /\ peak_position center_of_mass data centering kw = Ok (iz0, iy0, ix0)
    /\ in_bounds [nz; ny; nx] iz0 iy0 ix0.
Proof.
  unfold center_fft. intros H.
  destruct (negb (ndim data =? 3)%nat || negb (ndim mask =? 3)%nat);
    [discriminate|].
  destruct (list_eq_dec Nat.eq_dec (shape data) (shape mask)) as [Hs|];
    cbn [negb] in H; [|discriminate].
  destruct (kw_q_values kw) as [|q0 [|q1 [|q2 qs]]]; cbv iota beta in H;
    bind_inv H;
    (destruct (shape data) as [|nz [|ny [|nx [|? ?]]]] eqn:Hd;
     try discriminate H);
    exists nz, ny, nx;
    match goal with
    | E : item3 _ _ ?a ?b ?c = Ok _ |- _ =>
        exists a, b, c; apply item3_Ok_in_bounds in E; rewrite Hd in E
    end;
    (split; [reflexivity|]); (split; [now symmetry|]);
    (split; [|assumption]);
    unfold peak_position;
    repeat match goal with
           | E : ?m = Ok _ |- context [bind ?m _] => rewrite E; cbn [bind]
           end; reflexivity.
Qed.

Lemma center_fft_Ok_policy
      (center_of_mass : ndarray Z -> pyfloat * pyfloat * pyfloat) (fuel : nat)
      (data mask : ndarray Z) (frames_logical : list Z)
      (centering fft_option : string) (kw : kwargs)
      (res : ndarray Z * ndarray Z * list Z * list (list Q) * list Z) :
  center_fft center_of_mass fuel data mask frames_logical centering
             fft_option kw = Ok res ->
  exists nz ny nx iz0 iy0 ix0 q_values qx qz qy br,
    shape data = [nz; ny; nx] /\ shape mask = [nz; ny; nx]
    /\ peak_position center_of_mass data centering kw = Ok (iz0, iy0, ix0)
    /\ in_bounds [nz; ny; nx] iz0 iy0 ix0
    /\ q_arrays kw = (q_values, qx, qz, qy)
    /\ apply_policy fuel data mask frames_logical q_values qx qz qy
         (kw_fix_size kw) (kw_pad_size kw) iz0 iy0 ix0
         (Z.of_nat nz) (Z.of_nat ny) (Z.of_nat nx)
         (Z.abs (max_box iz0 (Z.of_nat nz))) (max_box iy0 (Z.of_nat ny))
         (Z.abs (max_box ix0 (Z.of_nat nx)))
         (effective_option fft_option iz0 iy0 ix0
            (Z.of_nat nz) (Z.of_nat ny) (Z.of_nat nx)) = Ok br
    /\ res = returned q_values br.
Proof.
  intros H.
  destruct (center_fft_Ok_peak _ _ _ _ _ _ _ _ _ H)
    as (nz & ny & nx & iz0 & iy0 & ix0 & Hd & Hm & Hp & Hin).
  rewrite (center_fft_runs_policy _ _ _ _ _ _ _ _ _ _ _ _ _ _ Hd Hm Hp Hin) in H.
  destruct (q_arrays kw) as [[[q_values qx] qz] qy] eqn:Hq.
  apply bind_Ok_inv in H. destruct H as (br & Hbr & [= <-]).
  exists nz, ny, nx, iz0, iy0, ix0, q_values, qx, qz, qy, br.
  auto 10.
Qed.

Lemma do_nothing_Ok (data mask : ndarray Z) (frames_logical : list Z)
      (q_values : list (list Q)) (qx qz qy : list Q) (fix_size : list Z)
      (nbz nby nbx : Z) (br : branch_result) :
  do_nothing data mask frames_logical q_values qx qz qy fix_size nbz nby nbx
  = Ok br ->
  length fix_size <> 3%nat
  /\ br = mk_branch data mask (repeat 0 6) qx qz qy frames_logical.
Proof.
  unfold do_nothing. intros H.
  destruct (Nat.eqb_spec (length fix_size) 3) as [Hlen|Hlen].
  - exfalso. bind_inv H.
    rewrite item_out_of_range in E1 by (rewrite Hlen; lia). discriminate.
  - injection H as <-. split; [assumption | reflexivity].
Qed.

Lemma do_nothing_three (data mask : ndarray Z) (frames_logical : list Z)
      (q_values : list (list Q)) (qx qz qy : list Q) (fix_size : list Z)
      (nbz nby nbx : Z) :
  length fix_size = 3%nat ->
  do_nothing data mask frames_logical q_values qx qz qy fix_size nbz nby nbx
  = Raise IndexError.
Proof.
  intros Hlen. destruct fix_size as [|a [|b [|c [|? ?]]]]; try discriminate Hlen.
  reflexivity.
Qed.

Lemma effective_do_nothing (iz0 iy0 ix0 nbz nby nbx : Z) :
  effective_option "do_nothing" iz0 iy0 ix0 nbz nby nbx = "do_nothing"%string.
Proof. unfold effective_option. now destruct (_ || _). Qed.

(** X6. ['do_nothing'] never crops.  Whenever the call returns, data, mask
    and provenance vector are the ones given and [pad_width] is six zeros,
    also with the six-entry [fix_size] the docstring describes; and with a
    three-entry [fix_size] the call never returns: once the peak is found
    inside the array it raises [IndexError] (the read of [fix_size[3]]). *)
Theorem do_nothing_never_crops
    (center_of_mass : ndarray Z -> pyfloat * pyfloat * pyfloat) (fuel : nat)
    (data mask : ndarray Z) (frames_logical : list Z) (centering : string)
    (kw : kwargs) :
  (forall res,
      center_fft center_of_mass fuel data mask frames_logical centering
                 "do_nothing" kw = Ok res ->
      passed_through data mask frames_logical res
      /\ length (kw_fix_size kw) <> 3%nat)
  /\ (forall nz ny nx iz0 iy0 ix0,
         length (kw_fix_size kw) = 3%nat ->
         shape data = [nz; ny; nx] -> shape mask = [nz; ny; nx] ->
         peak_position center_of_mass data centering kw = Ok (iz0, iy0, ix0) ->
         in_bounds [nz; ny; nx] iz0 iy0 ix0 ->
         center_fft center_of_mass fuel data mask frames_logical centering
                    "do_nothing" kw = Raise IndexError).
Proof.
  split.
  - intros res H. apply center_fft_Ok_policy in H.
    destruct H as (nz & ny & nx & iz0 & iy0 & ix0 & q_values & qx & qz & qy & br
                   & _ & _ & _ & _ & _ & Hbr & ->).
    rewrite effective_do_nothing in Hbr.
    change (apply_policy _ _ _ _ _ _ _ _ _ _ _ _ _ _ _ _ _ _ _ "do_nothing")
      with (do_nothing data mask frames_logical q_values qx qz qy
              (kw_fix_size kw) (Z.of_nat nz) (Z.of_nat ny) (Z.of_nat nx)) in Hbr.
    apply do_nothing_Ok in Hbr. destruct Hbr as [Hlen ->].
    split; [|assumption]. cbn. repeat split.
  - intros nz ny nx iz0 iy0 ix0 Hlen Hd Hm Hp Hin.
    rewrite (center_fft_runs_policy _ _ _ _ _ _ _ _ _ _ _ _ _ _ Hd Hm Hp Hin).
    destruct (q_arrays kw) as [[[q_values qx] qz] qy].
    rewrite effective_do_nothing.
    change (apply_policy _ _ _ _ _ _ _ _ _ _ _ _ _ _ _ _ _ _ _ "do_nothing")
      with (do_nothing data mask frames_logical q_values qx qz qy
              (kw_fix_size kw) (Z.of_nat nz) (Z.of_nat ny) (Z.of_nat nx)).
    now rewrite do_nothing_three.
Qed.

Lemma do_nothing_never_crops_witness :
  passed_through (volume 10 8 8 5 4 4) (clear_mask 10 8 8) (all_used 10)
    (volume 10 8 8 5 4 4, clear_mask 10 8 8, repeat 0 6, [], all_used 10)
  /\ run 10 8 8 5 4 4 "do_nothing" (mk_kwargs [] [2; 8; 0] [] [])
     = Raise IndexError.
Proof.
  split.
  - apply (proj1 (do_nothing_never_crops center_of_mass_exact 64
                    (volume 10 8 8 5 4 4) (clear_mask 10 8 8) (all_used 10)
                    "max" (mk_kwargs [] [2; 8; 0; 8; 0; 8] [] []))).
    vm_compute. reflexivity.
  - apply (proj2 (do_nothing_never_crops center_of_mass_exact 64
                    (volume 10 8 8 5 4 4) (clear_mask 10 8 8) (all_used 10)
                    "max" (mk_kwargs [] [2; 8; 0] [] []))
             10%nat 8%nat 8%nat 5 4 4);
      try reflexivity.
    cbn. lia.
Defined.

(** ** Shapes of the returned arrays *)

Lemma getitem3_shape_eq (a b a' b' : ndarray Z) (sz sy sx : slice) :
  shape a = shape b ->
  getitem3 0 a sz sy sx = Ok a' -> getitem3 0 b sz sy sx = Ok b' ->
  shape a' = shape b'.
Proof.
  unfold getitem3. intros ->.
  destruct (shape b) as [|nz [|ny [|nx [|? ?]]]]; try discriminate.
  destruct (slice_indices nz sz), (slice_indices ny sy), (slice_indices nx sx).
  intros [= <-] [= <-]. reflexivity.
Qed.

Lemma setitem3_shape (a src a' : ndarray Z) (sz sy sx : slice) :
  setitem3 0 a sz sy sx src = Ok a' -> shape a' = shape a.
Proof.
  unfold setitem3.
  destruct (shape a) as [|nz [|ny [|nx [|? ?]]]]; try discriminate;
    destruct (shape src) as [|sz' [|sy' [|sx' [|? ?]]]]; try discriminate.
  destruct (slice_indices nz sz), (slice_indices ny sy), (slice_indices nx sx).
  destruct (_ && _); [|discriminate]. intros [= <-]. reflexivity.
Qed.

Lemma full_shape (dims : list Z) (v : Z) (a : ndarray Z) :
  full dims v = Ok a -> shape a = map Z.to_nat dims.
Proof.
  unfold full. destruct (existsb _ _); [discriminate|]. intros [= <-]. reflexivity.
Qed.

Lemma zero_pad_shape_eq (a b a' b' : ndarray Z) (pw : list Z) (f g : bool) :
  shape a = shape b ->
  zero_pad a pw f = Ok a' -> zero_pad b pw g = Ok b' -> shape a' = shape b'.
Proof.
  unfold zero_pad. intros ->.
  destruct (shape b) as [|nz [|ny [|nx [|? ?]]]]; try discriminate.
  intros Ha Hb. bind_inv Ha. bind_inv Hb.
  apply setitem3_shape in Ha, Hb. apply full_shape in E5, E12.
  congruence.
Qed.

Lemma pad_arrays_shapes (frames_logical : list Z) (nbz : Z)
      (data mask : ndarray Z) (pad_width : list Z)
      (data' mask' : ndarray Z) (frames' : list Z) :
  shape data = shape mask ->
  pad_arrays frames_logical nbz data mask pad_width = Ok (data', mask', frames') ->
  shape data' = shape mask'.
Proof.
  unfold pad_arrays. intros Hs H. bind_inv H. injection H as <- <- _.
  eapply zero_pad_shape_eq; eassumption.
Qed.

Lemma crop_box_shapes (data mask : ndarray Z) (frames_logical : list Z)
      (q_values : list (list Q)) (qx qz qy : list Q)
      (nbz z0 z1 y0 y1 x0 x1 : Z) (br : branch_result) :
  shape data = shape mask ->
  crop_box data mask frames_logical q_values qx qz qy nbz z0 z1 y0 y1 x0 x1
  = Ok br ->
  shape (r_data br) = shape (r_mask br) /\ r_pad_width br = repeat 0 6.
Proof.
  unfold crop_box. intros Hs H. bind_inv H; injection H as <-;
    cbn [r_data r_mask r_pad_width]; (split; [|reflexivity]);
    eapply getitem3_shape_eq; eassumption.
Qed.

Section BranchShapes.
Variable fuel : nat.
Variables data mask : ndarray Z.
Variable frames_logical : list Z.
Variable q_values : list (list Q).
Variables qx qz qy : list Q.
Variables fix_size pad_size : list Z.
Variables iz0 iy0 ix0 nbz nby nbx max_nz max_ny max_nx : Z.
Variable br : branch_result.
Hypothesis same_shape : shape data = shape mask.

(** Ends a pad branch: data and mask went through the same crop and the
    same padding, and the branch wrote six pad widths. *)
Ltac pad_shapes H :=
  bind_inv H;
  match goal with
  | E : pad_arrays _ _ _ _ _ = Ok _ |- _ =>
      apply pad_arrays_shapes in E;
      [ injection H as <-; split; [exact E | reflexivity]
      | try assumption; unfold crop_detector in *;
        eapply getitem3_shape_eq; eassumption ]
  end.

Lemma apply_policy_shapes (fft_option : string) :
  apply_policy fuel data mask frames_logical q_values qx qz qy
    fix_size pad_size iz0 iy0 ix0 nbz nby nbx max_nz max_ny max_nx
    fft_option = Ok br ->
  shape (r_data br) = shape (r_mask br) /\ length (r_pad_width br) = 6%nat.
Proof.
  unfold apply_policy. intros H.
  repeat match type of H with
         | (if ?c then _ else _) = Ok _ => destruct c
         end; try discriminate H.
  - unfold crop_symmetric_ZYX in H. bind_inv H.
    apply crop_box_shapes in H; [|assumption]. destruct H as [H ->]. now split.
  - unfold crop_asymmetric_ZYX in H. bind_inv H.
    apply crop_box_shapes in H; [|assumption]. destruct H as [H ->]. now split.
  - unfold pad_symmetric_Z_crop_YX in H. pad_shapes H.
  - unfold pad_asymmetric_Z_crop_YX in H. pad_shapes H.
  - unfold pad_symmetric_Z in H. pad_shapes H.
  - unfold pad_asymmetric_Z in H. pad_shapes H.
  - unfold pad_symmetric_ZYX in H. pad_shapes H.
  - unfold pad_asymmetric_ZYX in H. pad_shapes H.
  - apply do_nothing_Ok in H. destruct H as [_ ->]. now split.
Qed.
End BranchShapes.

(** X7. Whenever [center_fft] returns, the returned mask has the shape of
    the returned data, and [pad_width] has six entries. *)
Theorem center_fft_mask_follows_data
    (center_of_mass : ndarray Z -> pyfloat * pyfloat * pyfloat) (fuel : nat)
    (data mask : ndarray Z) (frames_logical : list Z)
    (centering fft_option : string) (kw : kwargs)
    (data' mask' : ndarray Z) (pad_width : list Z) (q' : list (list Q))
    (frames' : list Z) :
  center_fft center_of_mass fuel data mask frames_logical centering
             fft_option kw = Ok (data', mask', pad_width, q', frames') ->
  shape data' = shape mask' /\ length pad_width = 6%nat.
Proof.
  intros H. apply center_fft_Ok_policy in H.
  destruct H as (nz & ny & nx & iz0 & iy0 & ix0 & q_values & qx & qz & qy & br
                 & Hd & Hm & _ & _ & _ & Hbr & [= -> -> -> _ _]).
  apply apply_policy_shapes in Hbr; [assumption | congruence].
Qed.

Lemma center_fft_mask_follows_data_witness :
  match run 10 8 8 5 4 4 "pad_symmetric_ZYX" (mk_kwargs [] [] [16; 8; 8] []) with
  | Ok (data', mask', pad_width, _, _) =>
      shape data' = shape mask' /\ length pad_width = 6%nat
  | _ => False
  end.
Proof.
  destruct (run 10 8 8 5 4 4 "pad_symmetric_ZYX" (mk_kwargs [] [] [16; 8; 8] []))
    as [[[[[data' mask'] pad_width] q'] frames']|e|] eqn:E;
    [ apply (center_fft_mask_follows_data _ _ _ _ _ _ _ _ _ _ _ _ _ E)
    | apply (f_equal digest) in E; vm_compute in E; discriminate E .. ].
Defined.

(** ** The peak of [centering='max'] *)

Lemma argmax_from_spec (r : list Z) :
  forall pre best_idx best,
    (best_idx < length pre)%nat -> nth best_idx pre 0 = best ->
    (forall i, (i < length pre)%nat -> nth i pre 0 <= best) ->
    (argmax_from r (length pre) best_idx best < length (pre ++ r))%nat
    /\ forall i, (i < length (pre ++ r))%nat ->
                 nth i (pre ++ r) 0
                 <= nth (argmax_from r (length pre) best_idx best) (pre ++ r) 0.
Proof.
  induction r as [|x r IH]; intros pre bi b Hbi Hb Hmax; cbn [argmax_from].
  - rewrite app_nil_r. split; [assumption|]. intros i Hi. rewrite Hb. now apply Hmax.
  - replace (pre ++ x :: r) with ((pre ++ [x]) ++ r) by now rewrite <- app_assoc.
    replace (S (length pre)) with (length (pre ++ [x]))
      by (rewrite length_app; cbn; lia).
    assert (Hx : nth (length pre) (pre ++ [x]) 0 = x)
      by (rewrite app_nth2, Nat.sub_diag by lia; reflexivity).
    destruct (Z.ltb_spec b x) as [Hlt|Hge]; apply IH.
    + rewrite length_app; cbn; lia.
    + assumption.
    + intros i Hi. rewrite length_app in Hi; cbn in Hi.
      destruct (Nat.eq_dec i (length pre)) as [->|Hne]; [lia|].
      rewrite app_nth1 by lia. specialize (Hmax i ltac:(lia)). lia.
    + rewrite length_app; cbn; lia.
    + rewrite app_nth1 by lia. assumption.
    + intros i Hi. rewrite length_app in Hi; cbn in Hi.
      destruct (Nat.eq_dec i (length pre)) as [->|Hne]; [lia|].
      rewrite app_nth1 by lia. apply Hmax. lia.
Qed.

Lemma argmax_spec (l : list Z) :
  l <> [] ->
  exists idx, argmax l = Ok idx /\ (idx < length l)%nat
              /\ forall i, (i < length l)%nat -> nth i l 0 <= nth idx l 0.
Proof.
  destruct l as [|x r]; [congruence|]. intros _.
  exists (argmax_from r 1 0 x). split; [reflexivity|].
  apply (argmax_from_spec r [x] 0%nat x); cbn; [lia | reflexivity |].
  intros i Hi. replace i with 0%nat by lia. lia.
Qed.

Lemma unravel_index_spec (idx nz ny nx : nat) :
  (idx < nz * ny * nx)%nat ->
  let '(z, y, x) := unravel_index idx ny nx in
  (z < nz)%nat /\ (y < ny)%nat /\ (x < nx)%nat
  /\ ((z * ny + y) * nx + x)%nat = idx.
Proof.
  intros H. unfold unravel_index.
  assert (0 < ny)%nat by (destruct ny; [rewrite Nat.mul_0_r in H|]; lia).
  assert (0 < nx)%nat by (destruct nx; [rewrite Nat.mul_0_r in H|]; lia).
  split; [|split; [|split]].
  - apply Nat.Div0.div_lt_upper_bound. lia.
  - apply Nat.mod_upper_bound. lia.
  - apply Nat.mod_upper_bound. lia.
  - rewrite (Nat.mul_comm ny nx), <- Nat.Div0.div_div.
    pose proof (Nat.div_mod_eq (idx / nx) ny).
    pose proof (Nat.div_mod_eq idx nx). nia.
Qed.

(** With [centering='max'] and no [fix_bragg], the peak is the position of
    the first maximum of [abs(data)], a cell of the array. *)
Lemma peak_position_max
      (center_of_mass : ndarray Z -> pyfloat * pyfloat * pyfloat)
      (data : ndarray Z) (kw : kwargs) (nz ny nx pz py px : nat) :
  well_formed data -> shape data = [nz; ny; nx] -> (0 < nz * ny * nx)%nat ->
  kw_fix_bragg kw = [] -> max_position data = (pz, py, px) ->
  peak_position center_of_mass data "max" kw
  = Ok (Z.of_nat pz, Z.of_nat py, Z.of_nat px)
  /\ (pz < nz)%nat /\ (py < ny)%nat /\ (px < nx)%nat
  /\ forall i j k, (i < nz)%nat -> (j < ny)%nat -> (k < nx)%nat ->
                   Z.abs (cell3 0 data i j k) <= Z.abs (cell3 0 data pz py px).
Proof.
  intros Hwf Hs Hpos Hfix Hmax.
  unfold well_formed in Hwf. rewrite Hs in Hwf. cbn [size_of fold_right] in Hwf.
  rewrite Nat.mul_1_r, Nat.mul_assoc in Hwf.
  assert (Hne : map Z.abs (buf data) <> []).
  { intros E. apply (f_equal (@length Z)) in E. rewrite length_map in E.
    cbn in E. lia. }
  destruct (argmax_spec _ Hne) as (idx & Ei & Hidx & Hbest).
  rewrite length_map in Hidx, Hbest.
  unfold max_position in Hmax. rewrite Hs in Hmax.
  unfold argmax in Ei.
  destruct (map Z.abs (buf data)) as [|x r] eqn:Habs; [congruence|].
  injection Ei as Ei. rewrite Ei in Hmax.
  pose proof (unravel_index_spec idx nz ny nx ltac:(lia)) as Hu.
  rewrite Hmax in Hu. destruct Hu as (Hz & Hy & Hx & Hi).
  split; [|split; [|split; [|split]]]; try assumption.
  - unfold peak_position, centering_peak. cbn [String.eqb Ascii.eqb Bool.eqb].
    rewrite Habs. cbn [argmax bind]. rewrite Ei, Hs, Hmax. cbn [bind].
    rewrite Hfix. reflexivity.
  - intros i j k Hi' Hj Hk. unfold cell3. rewrite Hs, Hi.
    pose proof (row_major_bound nz ny nx i j k Hi' Hj Hk) as Hb.
    specialize (Hbest ((i * ny + j) * nx + k)%nat ltac:(lia)).
    rewrite <- Habs in Hbest. change 0 with (Z.abs 0) in Hbest.
    rewrite !map_nth in Hbest. exact Hbest.
Qed.

(** ** Crop windows *)

Lemma nth_fillslice (l : list Z) (s : slice) (v d : Z) (i : nat) :
  (i < length l)%nat ->
  nth i (fillslice l s v) d
  = let '(a, n) := slice_indices (length l) s in
    if within a n i then v else nth i l d.
Proof.
  intros Hi. unfold fillslice.
  destruct (slice_indices (length l) s) as [a n] eqn:Hs.
  apply slice_indices_bound in Hs. unfold within.
  destruct (Nat.leb_spec a i) as [Ha|Ha]; cbn [andb].
  - rewrite app_nth2 by (rewrite length_firstn; lia).
    rewrite length_firstn, Nat.min_l by lia.
    destruct (Nat.ltb_spec i (a + n)) as [Hn|Hn].
    + rewrite app_nth1 by (rewrite repeat_length; lia).
      apply nth_repeat_lt. lia.
    + rewrite app_nth2 by (rewrite repeat_length; lia).
      rewrite repeat_length, nth_skipn. f_equal. lia.
  - rewrite app_nth1 by (rewrite length_firstn; lia).
    rewrite nth_firstn. destruct (Nat.ltb_spec i a); [reflexivity | lia].
Qed.

Lemma length_keep_window (lo n : nat) (l : list Z) :
  length (keep_window lo n l) = length l.
Proof.
  unfold keep_window. rewrite length_map, length_combine, length_seq. lia.
Qed.

Lemma nth_keep_window (lo n : nat) (l : list Z) (i : nat) :
  (i < length l)%nat ->
  nth i (keep_window lo n l) 0 = if within lo n i then nth i l 0 else 0.
Proof.
  intros Hi. unfold keep_window.
  set (f := fun '(i, f) => if within lo n i then f else 0).
  rewrite (nth_indep _ 0 (f (O, 0)))
    by (rewrite length_map, length_combine, length_seq; lia).
  rewrite map_nth, combine_nth by now rewrite length_seq.
  rewrite seq_nth by assumption. reflexivity.
Qed.

Lemma slice_indices_upto (len a : nat) :
  (a <= len)%nat -> slice_indices len (range 0 (Z.of_nat a)) = (O, a).
Proof.
  intros H. unfold slice_indices, range, clip_bound; cbn [start stop].
  change (0 <? 0) with false. cbv iota.
  destruct (Z.ltb_spec (Z.of_nat a) 0); f_equal; lia.
Qed.

Lemma slice_indices_from (len a : nat) :
  (a <= len)%nat -> slice_indices len (from (Z.of_nat a)) = (a, (len - a)%nat).
Proof.
  intros H. unfold slice_indices, from, clip_bound; cbn [start stop].
  destruct (Z.ltb_spec (Z.of_nat a) 0); f_equal; lia.
Qed.

(** The provenance vector the crop branches leave for the window
    [[z0, z0 + lz)] of the rocking axis. *)
Lemma crop_frames_window (frames_logical : list Z) (z0 lz : nat) :
  (z0 + lz <= length frames_logical)%nat ->
  (let frames1 :=
     if 0 <? Z.of_nat z0
     then fillslice frames_logical (range 0 (Z.of_nat z0)) 0
     else frames_logical in
   if Z.of_nat z0 + Z.of_nat lz <? Z.of_nat (length frames_logical)
   then fillslice frames1 (from (Z.of_nat z0 + Z.of_nat lz)) 0
   else frames1)
  = keep_window z0 lz frames_logical.
Proof.
  intros Hb. cbv zeta.
  set (frames1 := if 0 <? Z.of_nat z0 then _ else _).
  assert (Hlen1 : length frames1 = length frames_logical)
    by (subst frames1; destruct (0 <? Z.of_nat z0);
        now rewrite ?fillslice_length).
  assert (H1 : forall i, (i < length frames_logical)%nat ->
                         nth i frames1 0
                         = if (i <? z0)%nat then 0 else nth i frames_logical 0).
  { intros i Hi. subst frames1. destruct (Z.ltb_spec 0 (Z.of_nat z0)).
    - rewrite nth_fillslice, slice_indices_upto by lia.
      unfold within. cbn [Nat.leb andb Nat.add]. reflexivity.
    - destruct (Nat.ltb_spec i z0); [lia | reflexivity]. }
  clearbody frames1.
  apply nth_ext with (d := 0) (d' := 0).
  - rewrite length_keep_window.
    destruct (_ <? _); now rewrite ?fillslice_length.
  - intros i Hi.
    assert (Hi' : (i < length frames_logical)%nat)
      by (destruct (_ <? _); rewrite ?fillslice_length in Hi; lia).
    rewrite nth_keep_window by assumption. unfold within.
    destruct (Z.ltb_spec (Z.of_nat z0 + Z.of_nat lz)
                (Z.of_nat (length frames_logical))).
    + rewrite nth_fillslice by lia. rewrite Hlen1, <- Nat2Z.inj_add.
      rewrite slice_indices_from by lia. unfold within.
      rewrite H1 by assumption.
      destruct (Nat.leb_spec (z0 + lz) i), (Nat.ltb_spec i z0),
               (Nat.leb_spec z0 i), (Nat.ltb_spec i (z0 + lz)),
               (Nat.ltb_spec i (z0 + lz + (length frames_logical - (z0 + lz))));
        cbn [andb]; try reflexivity; lia.
    + rewrite H1 by assumption.
      destruct (Nat.ltb_spec i z0), (Nat.leb_spec z0 i),
               (Nat.ltb_spec i (z0 + lz)); cbn [andb]; try reflexivity; lia.
Qed.

Lemma getitem3_window (a : ndarray Z) (nz ny nx z0 lz y0 ly x0 lx : nat) :
  shape a = [nz; ny; nx] ->
  (z0 + lz <= nz)%nat -> (y0 + ly <= ny)%nat -> (x0 + lx <= nx)%nat ->
  getitem3 0 a (range (Z.of_nat z0) (Z.of_nat z0 + Z.of_nat lz))
               (range (Z.of_nat y0) (Z.of_nat y0 + Z.of_nat ly))
               (range (Z.of_nat x0) (Z.of_nat x0 + Z.of_nat lx))
  = Ok (sub_array a z0 lz y0 ly x0 lx).
Proof.
  intros Hs Hz Hy Hx. unfold getitem3. rewrite Hs.
  rewrite !slice_indices_range by assumption. reflexivity.
Qed.

Lemma crop_box_window (data mask : ndarray Z) (frames_logical : list Z)
      (q_values : list (list Q)) (qx qz qy : list Q)
      (nz ny nx z0 lz y0 ly x0 lx : nat) :
  shape data = [nz; ny; nx] -> shape mask = [nz; ny; nx] ->
  length frames_logical = nz ->
  (z0 + lz <= nz)%nat -> (y0 + ly <= ny)%nat -> (x0 + lx <= nx)%nat ->
  exists br,
    crop_box data mask frames_logical q_values qx qz qy (Z.of_nat nz)
      (Z.of_nat z0) (Z.of_nat z0 + Z.of_nat lz)
      (Z.of_nat y0) (Z.of_nat y0 + Z.of_nat ly)
      (Z.of_nat x0) (Z.of_nat x0 + Z.of_nat lx) = Ok br
    /\ r_data br = sub_array data z0 lz y0 ly x0 lx
    /\ r_mask br = sub_array mask z0 lz y0 ly x0 lx
    /\ r_pad_width br = repeat 0 6
    /\ r_frames_logical br = keep_window z0 lz frames_logical.
Proof.
  intros Hd Hm Hf Hz Hy Hx. unfold crop_box.
  rewrite (getitem3_window data nz ny nx) by assumption.
  rewrite (getitem3_window mask nz ny nx) by assumption.
  cbn [bind].
  pose proof (crop_frames_window frames_logical z0 lz ltac:(lia)) as Hw.
  cbv zeta in Hw. rewrite Hf in Hw.
  destruct (has_q_values q_values); eexists; (split; [reflexivity|]);
    cbn [r_data r_mask r_pad_width r_frames_logical]; repeat split;
    exact Hw.
Qed.

(** What a returned list of [smaller_primes] holds, element by element. *)
Lemma smaller_each_Ok_inv (maxprime : Z) (rd : option (list Z)) (l : list Z) :
  forall vn ms',
    smaller_each l vn maxprime rd = Ok (inl ms') ->
    exists ms, ms' = vn ++ ms
               /\ Forall2 (fun i m => m <= i
                                      /\ try_smaller_primes m maxprime rd = Ok true
                                      /\ smaller_primes (PInt i) maxprime rd
                                         = Ok (PInt m))
                          l ms.
Proof.
  induction l as [|i l IH]; intros vn ms' H; cbn [smaller_each] in H.
  - injection H as <-. exists []. rewrite app_nil_r. split; [reflexivity | constructor].
  - destruct (py_assert _) as [[]| |] eqn:Ha; cbn [bind] in H; try discriminate.
    destruct (smaller_search (Z.to_nat i) i maxprime rd) as [r| |] eqn:E;
      cbn [bind] in H; try discriminate.
    pose proof E as E'. apply smaller_search_Ok_inv in E'.
    destruct E' as [(m & -> & Hm & Hok) | ->]; [|discriminate].
    apply IH in H. destruct H as (ms & -> & HF).
    exists (m :: ms). rewrite <- app_assoc. split; [reflexivity|].
    constructor; [|assumption].
    split; [assumption|]. split; [assumption|].
    unfold smaller_primes. rewrite Ha. cbn [bind]. now rewrite E.
Qed.

Lemma fft_size_even (m : Z) :
  fft_size m -> exists h : nat, (0 < h)%nat /\ m = 2 * Z.of_nat h.
Proof.
  intros H. pose proof (try_smaller_primes_true_nonzero _ _ _ H) as [Hpos _].
  apply try_smaller_primes_true_fft_ok in H. destruct H as (_ & _ & Hdiv).
  cbn [dividers] in Hdiv. inversion Hdiv as [|? ? [k Hk] _]; subst.
  exists (Z.to_nat k). split; lia.
Qed.

(** One size the engine asks [smaller_primes] for: the result is accepted,
    at most the size, and more than half of it. *)
Lemma engine_size_spec (i m : Z) :
  m <= i -> try_smaller_primes m 7 (Some [2]) = Ok true ->
  smaller_primes (PInt i) 7 (Some [2]) = Ok (PInt m) ->
  7 <= i /\ m <= i /\ i < 2 * m /\ fft_size m.
Proof.
  intros Hm Hok Hs.
  assert (Hi : 7 <= i).
  { unfold smaller_primes in Hs.
    destruct (py_assert _) as [[]| |] eqn:Ha; cbn [bind] in Hs; try discriminate.
    apply py_assert_Ok_inv, andb_prop in Ha. destruct Ha as [_ Hp].
    now apply Z.leb_le in Hp. }
  destruct (smaller_primes_engine_scalar i Hi) as (m' & E & H1 & _ & _).
  rewrite Hs in E. injection E as <-. auto.
Qed.

(** The three sizes the crop branches unpack. *)
Lemma smaller_primes_unpack3 (a b c n1 n2 n3 : Z) (r : pyval) :
  smaller_primes (PTuple [a; b; c]) 7 (Some [2]) = Ok r ->
  unpack3 r = Ok (n1, n2, n3) ->
  (7 <= a /\ n1 <= a /\ a < 2 * n1 /\ fft_size n1)
  /\ (7 <= b /\ n2 <= b /\ b < 2 * n2 /\ fft_size n2)
  /\ (7 <= c /\ n3 <= c /\ c < 2 * n3 /\ fft_size n3).
Proof.
  cbn [smaller_primes]. intros H Hu.
  destruct (smaller_each [a; b; c] [] 7 (Some [2])) as [[ms|v]| |] eqn:E;
    cbn [bind] in H; try discriminate; injection H as <-;
    [|discriminate Hu].
  apply smaller_each_Ok_inv in E. destruct E as (ms' & -> & HF).
  cbn [app] in Hu.
  inversion HF as [|? m1 ? l1 (H1 & H1' & H1'') HF1]; subst.
  inversion HF1 as [|? m2 ? l2 (H2 & H2' & H2'') HF2]; subst.
  inversion HF2 as [|? m3 ? l3 (H3 & H3' & H3'') HF3]; subst.
  inversion HF3; subst. injection Hu as <- <- <-.
  auto using engine_size_spec.
Qed.

Lemma smaller_primes_unpack2 (a b n1 n2 : Z) (r : pyval) :
  smaller_primes (PTuple [a; b]) 7 (Some [2]) = Ok r ->
  unpack2 r = Ok (n1, n2) ->
  (7 <= a /\ n1 <= a /\ a < 2 * n1 /\ fft_size n1)
  /\ (7 <= b /\ n2 <= b /\ b < 2 * n2 /\ fft_size n2).
Proof.
  cbn [smaller_primes]. intros H Hu.
  destruct (smaller_each [a; b] [] 7 (Some [2])) as [[ms|v]| |] eqn:E;
    cbn [bind] in H; try discriminate; injection H as <-;
    [|discriminate Hu].
  apply smaller_each_Ok_inv in E. destruct E as (ms' & -> & HF).
  cbn [app] in Hu.
  inversion HF as [|? m1 ? l1 (H1 & H1' & H1'') HF1]; subst.
  inversion HF1 as [|? m2 ? l2 (H2 & H2' & H2'') HF2]; subst.
  inversion HF2; subst. injection Hu as <- <-.
  auto using engine_size_spec.
Qed.

Lemma effective_option_interior (fft_option : string) (pz py px nz ny nx : nat) :
  (0 < pz < nz)%nat -> (0 < py < ny)%nat -> (0 < px < nx)%nat ->
  effective_option fft_option (Z.of_nat pz) (Z.of_nat py) (Z.of_nat px)
    (Z.of_nat nz) (Z.of_nat ny) (Z.of_nat nx) = fft_option.
Proof.
  intros Hz Hy Hx. unfold effective_option, max_box.
  destruct (Z.eqb_spec (Z.abs (2 * Z.min (Z.of_nat pz) (Z.of_nat nz - Z.of_nat pz))) 0);
    [lia|].
  destruct (Z.eqb_spec (2 * Z.min (Z.of_nat py) (Z.of_nat ny - Z.of_nat py)) 0);
    [lia|].
  destruct (Z.eqb_spec (Z.abs (2 * Z.min (Z.of_nat px) (Z.of_nat nx - Z.of_nat px))) 0);
    [lia|].
  reflexivity.
Qed.

Lemma cell3_sub_array (a : ndarray Z) (z0 nz y0 ny x0 nx i j k : nat) :
  (i < nz)%nat -> (j < ny)%nat -> (k < nx)%nat ->
  cell3 0 (sub_array a z0 nz y0 ny x0 nx) i j k
  = cell3 0 a (z0 + i) (y0 + j) (x0 + k).
Proof.
  intros Hi Hj Hk. unfold sub_array, cell3 at 1. cbn [shape buf].
  now rewrite nth_tabulate3.
Qed.

Lemma max_position_empty (data : ndarray Z) :
  buf data = [] -> max_position data = (O, O, O).
Proof.
  intros E. unfold max_position. rewrite E.
  destruct (shape data) as [|? [|? [|? [|? ?]]]]; reflexivity.
Qed.

(** X8. ['crop_symmetric_ZYX'] with [centering='max'] and no [fix_bragg],
    when the maximum of [abs(data)] is not in the first frame, row or
    column: whenever the call returns, data and mask are cropped to the same
    box of accepted (FFT-compatible, even) sizes inside the array, the
    maximum sits at the centre voxel of the returned data, the provenance
    vector keeps its tags inside the rocking window and is UNUSED outside,
    and [pad_width] is six zeros. *)
Theorem crop_symmetric_centres_peak
    (center_of_mass : ndarray Z -> pyfloat * pyfloat * pyfloat) (fuel : nat)
    (data mask : ndarray Z) (frames_logical : list Z) (kw : kwargs)
    (nz ny nx pz py px : nat)
    (data' mask' : ndarray Z) (pad_width : list Z) (q' : list (list Q))
    (frames' : list Z) :
  well_formed data -> shape data = [nz; ny; nx] -> shape mask = [nz; ny; nx] ->
  length frames_logical = nz -> kw_fix_bragg kw = [] ->
  max_position data = (pz, py, px) ->
  (0 < pz)%nat -> (0 < py)%nat -> (0 < px)%nat ->
  center_fft center_of_mass fuel data mask frames_logical "max"
             "crop_symmetric_ZYX" kw = Ok (data', mask', pad_width, q', frames') ->
  exists hz hy hx : nat,
    (0 < hz <= pz /\ pz + hz <= nz)%nat
    /\ (0 < hy <= py /\ py + hy <= ny)%nat
    /\ (0 < hx <= px /\ px + hx <= nx)%nat
    /\ fft_size (2 * Z.of_nat hz) /\ fft_size (2 * Z.of_nat hy)
    /\ fft_size (2 * Z.of_nat hx)
    /\ data' = sub_array data (pz - hz) (2 * hz) (py - hy) (2 * hy)
                         (px - hx) (2 * hx)
    /\ mask' = sub_array mask (pz - hz) (2 * hz) (py - hy) (2 * hy)
                         (px - hx) (2 * hx)
    /\ pad_width = repeat 0 6
    /\ frames' = keep_window (pz - hz) (2 * hz) frames_logical
    /\ cell3 0 data' hz hy hx = cell3 0 data pz py px
    /\ forall i j k, (i < nz)%nat -> (j < ny)%nat -> (k < nx)%nat ->
                     Z.abs (cell3 0 data i j k) <= Z.abs (cell3 0 data' hz hy hx).
Proof.
  intros Hwf Hd Hm Hf Hfix Hmax Hpz Hpy Hpx H.
  assert (Hpos : (0 < nz * ny * nx)%nat).
  { destruct (Nat.eq_dec (nz * ny * nx) 0) as [E|]; [|lia]. exfalso.
    unfold well_formed in Hwf. rewrite Hd in Hwf. cbn [size_of fold_right] in Hwf.
    rewrite Nat.mul_1_r, Nat.mul_assoc, E in Hwf.
    apply length_zero_iff_nil in Hwf.
    rewrite (max_position_empty _ Hwf) in Hmax. injection Hmax as <- _ _. lia. }
  destruct (peak_position_max center_of_mass data kw nz ny nx pz py px
              Hwf Hd Hpos Hfix Hmax) as (Hp & Hz & Hy & Hx & Hbest).
  rewrite (center_fft_runs_policy _ _ _ _ _ _ _ _ _ _ _ _ _ _ Hd Hm Hp) in H
    by (unfold in_bounds; lia).
  destruct (q_arrays kw) as [[[q_values qx] qz] qy].
  rewrite effective_option_interior in H by lia.
  apply bind_Ok_inv in H. destruct H as (br & Hbr & [= <- <- <- _ <-]).
  change (apply_policy _ _ _ _ _ _ _ _ _ _ _ _ _ _ _ _ _ _ _ "crop_symmetric_ZYX")
    with (crop_symmetric_ZYX data mask frames_logical q_values qx qz qy
            (Z.of_nat pz) (Z.of_nat py) (Z.of_nat px) (Z.of_nat nz)
            (Z.abs (max_box (Z.of_nat pz) (Z.of_nat nz)))
            (max_box (Z.of_nat py) (Z.of_nat ny))
            (Z.abs (max_box (Z.of_nat px) (Z.of_nat nx)))) in Hbr.
  unfold crop_symmetric_ZYX in Hbr. bind_inv Hbr.
  destruct (smaller_primes_unpack3 _ _ _ _ _ _ _ E E0)
    as ((_ & Hbz & _ & Hfz) & (_ & Hby & _ & Hfy) & (_ & Hbx & _ & Hfx)).
  destruct (fft_size_even _ Hfz) as (hz & Hhz & ->).
  destruct (fft_size_even _ Hfy) as (hy & Hhy & ->).
  destruct (fft_size_even _ Hfx) as (hx & Hhx & ->).
  unfold max_box in Hbz, Hby, Hbx.
  rewrite !(Z.mul_comm 2), !Z.div_mul in Hbr by lia.
  replace (Z.of_nat pz - Z.of_nat hz) with (Z.of_nat (pz - hz)) in Hbr by lia.
  replace (Z.of_nat py - Z.of_nat hy) with (Z.of_nat (py - hy)) in Hbr by lia.
  replace (Z.of_nat px - Z.of_nat hx) with (Z.of_nat (px - hx)) in Hbr by lia.
  replace (Z.of_nat pz + Z.of_nat hz)
    with (Z.of_nat (pz - hz) + Z.of_nat (2 * hz)) in Hbr by lia.
  replace (Z.of_nat py + Z.of_nat hy)
    with (Z.of_nat (py - hy) + Z.of_nat (2 * hy)) in Hbr by lia.
  replace (Z.of_nat px + Z.of_nat hx)
    with (Z.of_nat (px - hx) + Z.of_nat (2 * hx)) in Hbr by lia.
  destruct (crop_box_window data mask frames_logical q_values qx qz qy
              nz ny nx (pz - hz) (2 * hz) (py - hy) (2 * hy) (px - hx) (2 * hx))
    as (br' & Hbr' & Hrd & Hrm & Hrp & Hrf); try assumption; try lia.
  rewrite Hbr' in Hbr. injection Hbr as <-.
  assert (Hcentre : cell3 0 (r_data br') hz hy hx = cell3 0 data pz py px).
  { rewrite Hrd, cell3_sub_array by lia. f_equal; lia. }
  exists hz, hy, hx.
  split; [lia|]. split; [lia|]. split; [lia|].
  split; [assumption|]. split; [assumption|]. split; [assumption|].
  split; [assumption|]. split; [assumption|]. split; [assumption|].
  split; [assumption|]. split; [assumption|].
  intros i j k Hi Hj Hk. rewrite Hcentre. now apply Hbest.
Qed.

Lemma crop_symmetric_centres_peak_witness :
  match run 12 8 8 5 4 4 "crop_symmetric_ZYX" (mk_kwargs [] [] [] []) with
  | Ok (data', _, _, _, frames') =>
      exists hz hy hx : nat,
        cell3 0 data' hz hy hx = cell3 0 (volume 12 8 8 5 4 4) 5 4 4
        /\ frames' = keep_window (5 - hz) (2 * hz) (all_used 12)
  | _ => False
  end.
Proof.
  destruct (run 12 8 8 5 4 4 "crop_symmetric_ZYX" (mk_kwargs [] [] [] []))
    as [[[[[d m] p] q] f]|e|] eqn:E;
    [| apply (f_equal digest) in E; vm_compute in E; discriminate E ..].
  destruct (crop_symmetric_centres_peak center_of_mass_exact 64
              (volume 12 8 8 5 4 4) (clear_mask 12 8 8) (all_used 12)
              (mk_kwargs [] [] [] []) 12 8 8 5 4 4 d m p q f)
    as (hz & hy & hx & _ & _ & _ & _ & _ & _ & _ & _ & _ & Hf & Hc & _);
    try (vm_compute; reflexivity); try lia; [exact E|].
  exists hz, hy, hx. split; assumption.
Defined.

Lemma effective_option_cases (fft_option : string) (iz0 iy0 ix0 nbz nby nbx : Z) :
  effective_option fft_option iz0 iy0 ix0 nbz nby nbx = fft_option
  \/ effective_option fft_option iz0 iy0 ix0 nbz nby nbx = "do_nothing"%string.
Proof. unfold effective_option. destruct (_ || _); auto. Qed.

Lemma effective_option_edge (fft_option : string) (iz0 iy0 ix0 : Z)
      (nz ny nx : nat) :
  in_bounds [nz; ny; nx] iz0 iy0 ix0 ->
  effective_option fft_option iz0 iy0 ix0
    (Z.of_nat nz) (Z.of_nat ny) (Z.of_nat nx)
  = if (iz0 =? 0) || (iy0 =? 0) || (ix0 =? 0) then "do_nothing"%string
    else fft_option.
Proof.
  unfold in_bounds, effective_option, max_box. intros (Hz & Hy & Hx).
  destruct (Z.eqb_spec iz0 0), (Z.eqb_spec iy0 0), (Z.eqb_spec ix0 0);
    destruct (Z.eqb_spec (Z.abs (2 * Z.min iz0 (Z.of_nat nz - iz0))) 0),
             (Z.eqb_spec (2 * Z.min iy0 (Z.of_nat ny - iy0)) 0),
             (Z.eqb_spec (Z.abs (2 * Z.min ix0 (Z.of_nat nx - ix0))) 0);
    cbn [orb]; try reflexivity; exfalso; lia.
Qed.

Lemma do_nothing_passed_through (data mask : ndarray Z)
      (frames_logical : list Z) (q_values : list (list Q)) (qx qz qy : list Q)
      (fix_size : list Z) (nbz nby nbx : Z) (br : branch_result) :
  do_nothing data mask frames_logical q_values qx qz qy fix_size nbz nby nbx
  = Ok br ->
  passed_through data mask frames_logical (returned q_values br).
Proof.
  intros H. apply do_nothing_Ok in H. destruct H as [_ ->].
  cbn. repeat split.
Qed.

(** A returned call ran the policy the peak selects: ['do_nothing'] when
    a coordinate of the peak is 0, the requested one otherwise. *)
Lemma center_fft_Ok_at_peak
      (center_of_mass : ndarray Z -> pyfloat * pyfloat * pyfloat) (fuel : nat)
      (data mask : ndarray Z) (frames_logical : list Z)
      (centering fft_option : string) (kw : kwargs)
      (nz ny nx : nat) (iz0 iy0 ix0 : Z)
      (res : ndarray Z * ndarray Z * list Z * list (list Q) * list Z) :
  shape data = [nz; ny; nx] ->
  peak_position center_of_mass data centering kw = Ok (iz0, iy0, ix0) ->
  center_fft center_of_mass fuel data mask frames_logical centering
             fft_option kw = Ok res ->
  exists q_values qx qz qy br,
    shape mask = [nz; ny; nx]
    /\ in_bounds [nz; ny; nx] iz0 iy0 ix0
    /\ q_arrays kw = (q_values, qx, qz, qy)
    /\ apply_policy fuel data mask frames_logical q_values qx qz qy
         (kw_fix_size kw) (kw_pad_size kw) iz0 iy0 ix0
         (Z.of_nat nz) (Z.of_nat ny) (Z.of_nat nx)
         (Z.abs (max_box iz0 (Z.of_nat nz))) (max_box iy0 (Z.of_nat ny))
         (Z.abs (max_box ix0 (Z.of_nat nx)))
         (if (iz0 =? 0) || (iy0 =? 0) || (ix0 =? 0) then "do_nothing"%string
          else fft_option) = Ok br
    /\ res = returned q_values br.
Proof.
  intros Hd Hp H. apply center_fft_Ok_policy in H.
  destruct H as (nz' & ny' & nx' & iz0' & iy0' & ix0' & q_values & qx & qz & qy
                 & br & Hd' & Hm & Hp' & Hin & Hq & Hbr & Hres).
  rewrite Hd in Hd'. injection Hd' as <- <- <-.
  rewrite Hp in Hp'. injection Hp' as <- <- <-.
  rewrite (effective_option_edge _ _ _ _ _ _ _ Hin) in Hbr.
  exists q_values, qx, qz, qy, br. auto 10.
Qed.

(** What the branch ['crop_asymmetric_ZYX'] leaves. *)
Lemma crop_asymmetric_branch (data mask : ndarray Z) (frames_logical : list Z)
      (q_values : list (list Q)) (qx qz qy : list Q) (nz ny nx : nat)
      (br : branch_result) :
  shape data = [nz; ny; nx] -> shape mask = [nz; ny; nx] ->
  length frames_logical = nz ->
  crop_asymmetric_ZYX data mask frames_logical q_values qx qz qy
    (Z.of_nat nz) (Z.of_nat ny) (Z.of_nat nx) = Ok br ->
  exists hz hy hx : nat,
    (2 * hz <= nz < 4 * hz)%nat /\ (2 * hy <= ny < 4 * hy)%nat
    /\ (2 * hx <= nx < 4 * hx)%nat
    /\ fft_size (2 * Z.of_nat hz) /\ fft_size (2 * Z.of_nat hy)
    /\ fft_size (2 * Z.of_nat hx)
    /\ r_data br = sub_array data (nz / 2 - hz) (2 * hz) (ny / 2 - hy) (2 * hy)
                             (nx / 2 - hx) (2 * hx)
    /\ r_mask br = sub_array mask (nz / 2 - hz) (2 * hz) (ny / 2 - hy) (2 * hy)
                             (nx / 2 - hx) (2 * hx)
    /\ r_pad_width br = repeat 0 6
    /\ r_frames_logical br = keep_window (nz / 2 - hz) (2 * hz) frames_logical.
Proof.
  intros Hd Hm Hf Hbr.
  unfold crop_asymmetric_ZYX in Hbr. bind_inv Hbr.
  destruct (smaller_primes_unpack3 _ _ _ _ _ _ _ E E0)
    as ((_ & Hbz & Hcz & Hfz) & (_ & Hby & Hcy & Hfy) & (_ & Hbx & Hcx & Hfx)).
  destruct (fft_size_even _ Hfz) as (hz & Hhz & ->).
  destruct (fft_size_even _ Hfy) as (hy & Hhy & ->).
  destruct (fft_size_even _ Hfx) as (hx & Hhx & ->).
  rewrite !(Z.mul_comm 2 (Z.of_nat _)), !Z.div_mul in Hbr by lia.
  change 2 with (Z.of_nat 2) in Hbr. rewrite <- !Nat2Z.inj_div in Hbr.
  pose proof (Nat.div_mod_eq nz 2). pose proof (Nat.mod_upper_bound nz 2).
  pose proof (Nat.div_mod_eq ny 2). pose proof (Nat.mod_upper_bound ny 2).
  pose proof (Nat.div_mod_eq nx 2). pose proof (Nat.mod_upper_bound nx 2).
  replace (Z.of_nat (nz / 2) - Z.of_nat hz)
    with (Z.of_nat (nz / 2 - hz)) in Hbr by lia.
  replace (Z.of_nat (ny / 2) - Z.of_nat hy)
    with (Z.of_nat (ny / 2 - hy)) in Hbr by lia.
  replace (Z.of_nat (nx / 2) - Z.of_nat hx)
    with (Z.of_nat (nx / 2 - hx)) in Hbr by lia.
  replace (Z.of_nat (nz / 2) + Z.of_nat hz)
    with (Z.of_nat (nz / 2 - hz) + Z.of_nat (2 * hz)) in Hbr by lia.
  replace (Z.of_nat (ny / 2) + Z.of_nat hy)
    with (Z.of_nat (ny / 2 - hy) + Z.of_nat (2 * hy)) in Hbr by lia.
  replace (Z.of_nat (nx / 2) + Z.of_nat hx)
    with (Z.of_nat (nx / 2 - hx) + Z.of_nat (2 * hx)) in Hbr by lia.
  destruct (crop_box_window data mask frames_logical q_values qx qz qy
              nz ny nx (nz / 2 - hz) (2 * hz) (ny / 2 - hy) (2 * hy)
              (nx / 2 - hx) (2 * hx))
    as (br' & Hbr' & Hrd & Hrm & Hrp & Hrf); try assumption; try lia.
  rewrite Hbr' in Hbr. injection Hbr as <-.
  exists hz, hy, hx.
  split; [lia|]. split; [lia|]. split; [lia|]. auto 10.
Qed.

(** X9. ['crop_asymmetric_ZYX'], with the peak found at [(z0, y0, x0)]:
    whenever the call returns, if one coordinate of the peak is 0 the
    arrays are passed through unchanged; if none is, data and mask are
    cropped to the window of accepted sizes around the middle of each axis,
    each window keeping more than half of its axis, and the provenance
    vector keeps its length, with the tags outside the rocking window set
    to UNUSED. *)
Theorem crop_asymmetric_window
    (center_of_mass : ndarray Z -> pyfloat * pyfloat * pyfloat) (fuel : nat)
    (data mask : ndarray Z) (frames_logical : list Z) (centering : string)
    (kw : kwargs) (nz ny nx : nat) (iz0 iy0 ix0 : Z)
    (data' mask' : ndarray Z) (pad_width : list Z) (q' : list (list Q))
    (frames' : list Z) :
  shape data = [nz; ny; nx] -> length frames_logical = nz ->
  peak_position center_of_mass data centering kw = Ok (iz0, iy0, ix0) ->
  center_fft center_of_mass fuel data mask frames_logical centering
             "crop_asymmetric_ZYX" kw = Ok (data', mask', pad_width, q', frames') ->
  if (iz0 =? 0) || (iy0 =? 0) || (ix0 =? 0)
  then passed_through data mask frames_logical
                      (data', mask', pad_width, q', frames')
  else exists hz hy hx : nat,
      (2 * hz <= nz < 4 * hz)%nat /\ (2 * hy <= ny < 4 * hy)%nat
      /\ (2 * hx <= nx < 4 * hx)%nat
      /\ fft_size (2 * Z.of_nat hz) /\ fft_size (2 * Z.of_nat hy)
      /\ fft_size (2 * Z.of_nat hx)
      /\ data' = sub_array data (nz / 2 - hz) (2 * hz) (ny / 2 - hy) (2 * hy)
                           (nx / 2 - hx) (2 * hx)
      /\ mask' = sub_array mask (nz / 2 - hz) (2 * hz) (ny / 2 - hy) (2 * hy)
                           (nx / 2 - hx) (2 * hx)
      /\ pad_width = repeat 0 6
      /\ frames' = keep_window (nz / 2 - hz) (2 * hz) frames_logical.
Proof.
  intros Hd Hf Hp H.
  destruct (center_fft_Ok_at_peak _ _ _ _ _ _ _ _ _ _ _ _ _ _ _ Hd Hp H)
    as (q_values & qx & qz & qy & br & Hm & _ & _ & Hbr & Hres).
  destruct ((iz0 =? 0) || (iy0 =? 0) || (ix0 =? 0)).
  { rewrite Hres. eapply do_nothing_passed_through. exact Hbr. }
  change (apply_policy _ _ _ _ _ _ _ _ _ _ _ _ _ _ _ _ _ _ _ "crop_asymmetric_ZYX")
    with (crop_asymmetric_ZYX data mask frames_logical q_values qx qz qy
            (Z.of_nat nz) (Z.of_nat ny) (Z.of_nat nx)) in Hbr.
  destruct (crop_asymmetric_branch _ _ _ _ _ _ _ _ _ _ _ Hd Hm Hf Hbr)
    as (hz & hy & hx & Hz & Hy & Hx & Hfz & Hfy & Hfx & Hrd & Hrm & Hrp & Hrf).
  injection Hres as -> -> -> _ ->.
  exists hz, hy, hx. auto 10.
Qed.

Lemma crop_asymmetric_window_witness :
  match run 11 8 8 5 4 4 "crop_asymmetric_ZYX" (mk_kwargs [] [] [] []) with
  | Ok (data', _, pad_width, _, frames') =>
      exists hz hy hx : nat,
        (2 * hz <= 11 < 4 * hz)%nat
        /\ data' = sub_array (volume 11 8 8 5 4 4) (11 / 2 - hz) (2 * hz)
                             (8 / 2 - hy) (2 * hy) (8 / 2 - hx) (2 * hx)
        /\ pad_width = repeat 0 6
        /\ frames' = keep_window (11 / 2 - hz) (2 * hz) (all_used 11)
  | _ => False
  end
  /\ match run 11 8 8 0 4 4 "crop_asymmetric_ZYX" (mk_kwargs [] [] [] []) with
     | Ok res =>
         passed_through (volume 11 8 8 0 4 4) (clear_mask 11 8 8) (all_used 11)
                        res
     | _ => False
     end.
Proof.
  split.
  - destruct (run 11 8 8 5 4 4 "crop_asymmetric_ZYX" (mk_kwargs [] [] [] []))
      as [[[[[d m] p] q] f]|e|] eqn:E;
      [| apply (f_equal digest) in E; vm_compute in E; discriminate E ..].
    assert (Hp : peak_position center_of_mass_exact (volume 11 8 8 5 4 4) "max"
                               (mk_kwargs [] [] [] []) = Ok (5, 4, 4))
      by (vm_compute; reflexivity).
    pose proof (crop_asymmetric_window center_of_mass_exact 64
                  (volume 11 8 8 5 4 4) (clear_mask 11 8 8) (all_used 11) "max"
                  (mk_kwargs [] [] [] []) 11 8 8 5 4 4 d m p q f
                  eq_refl eq_refl Hp E) as H.
    cbn [Z.eqb orb] in H.
    destruct H as (hz & hy & hx & Hz & _ & _ & _ & _ & _ & Hd & _ & Hw & Hf).
    exists hz, hy, hx. auto.
  - destruct (run 11 8 8 0 4 4 "crop_asymmetric_ZYX" (mk_kwargs [] [] [] []))
      as [[[[[d m] p] q] f]|e|] eqn:E;
      [| apply (f_equal digest) in E; vm_compute in E; discriminate E ..].
    assert (Hp : peak_position center_of_mass_exact (volume 11 8 8 0 4 4) "max"
                               (mk_kwargs [] [] [] []) = Ok (0, 4, 4))
      by (vm_compute; reflexivity).
    exact (crop_asymmetric_window center_of_mass_exact 64
             (volume 11 8 8 0 4 4) (clear_mask 11 8 8) (all_used 11) "max"
             (mk_kwargs [] [] [] []) 11 8 8 0 4 4 d m p q f
             eq_refl eq_refl Hp E).
Defined.

(** ** The provenance vector under the crop policies *)

Lemma keep_window_all (l : list Z) : keep_window 0 (length l) l = l.
Proof.
  apply nth_ext with (d := 0) (d' := 0); [apply length_keep_window|].
  intros i Hi. rewrite length_keep_window in Hi.
  rewrite nth_keep_window by assumption.
  replace (within 0 (length l) i) with true; [reflexivity|].
  symmetry. apply within_spec. lia.
Qed.

(** A crop box whose rocking window [[z0, z0 + lz)] lies inside the array:
    the returned data are the frames of that window, cut to some window of
    rows and columns, and the provenance vector keeps the tags of the frames
    of the window and holds UNUSED for all the others. *)
Lemma crop_box_rocking (data mask : ndarray Z) (frames_logical : list Z)
      (q_values : list (list Q)) (qx qz qy : list Q)
      (nz ny nx z0 lz : nat) (y0 y1 x0 x1 : Z) (br : branch_result) :
  shape data = [nz; ny; nx] -> length frames_logical = nz ->
  (z0 + lz <= nz)%nat ->
  crop_box data mask frames_logical q_values qx qz qy (Z.of_nat nz)
    (Z.of_nat z0) (Z.of_nat z0 + Z.of_nat lz) y0 y1 x0 x1 = Ok br ->
  (exists yy ly xx lx : nat, r_data br = sub_array data z0 lz yy ly xx lx)
  /\ r_frames_logical br = keep_window z0 lz frames_logical.
Proof.
  intros Hd Hf Hz H. unfold crop_box in H.
  destruct (getitem3 0 data _ _ _) as [d'| |] eqn:Ed; cbn [bind] in H;
    try discriminate H.
  destruct (getitem3 0 mask _ _ _) as [m'| |] eqn:Em; cbn [bind] in H;
    try discriminate H.
  pose proof (crop_frames_window frames_logical z0 lz ltac:(lia)) as Hw.
  cbv zeta in Hw. rewrite Hf in Hw.
  assert (Hbr : r_data br = d'
                /\ r_frames_logical br = keep_window z0 lz frames_logical)
    by (destruct (has_q_values q_values); injection H as <-;
        (split; [reflexivity | exact Hw])).
  destruct Hbr as [-> Hrf]. split; [|assumption].
  unfold getitem3 in Ed. rewrite Hd in Ed.
  rewrite slice_indices_range in Ed by assumption.
  destruct (slice_indices ny (range y0 y1)) as [yy ly].
  destruct (slice_indices nx (range x0 x1)) as [xx lx].
  injection Ed as <-. exists yy, ly, xx, lx. reflexivity.
Qed.

(** The rocking window of ['crop_symmetric_ZYX'] when the peak is at a
    frame index that is not negative: it lies inside the array, centred on
    the peak. *)
Lemma crop_symmetric_rocking (data mask : ndarray Z) (frames_logical : list Z)
      (q_values : list (list Q)) (qx qz qy : list Q) (nz ny nx : nat)
      (iz0 iy0 ix0 : Z) (br : branch_result) :
  shape data = [nz; ny; nx] -> length frames_logical = nz ->
  0 <= iz0 < Z.of_nat nz ->
  crop_symmetric_ZYX data mask frames_logical q_values qx qz qy iz0 iy0 ix0
    (Z.of_nat nz) (Z.abs (max_box iz0 (Z.of_nat nz)))
    (max_box iy0 (Z.of_nat ny)) (Z.abs (max_box ix0 (Z.of_nat nx))) = Ok br ->
  exists hz yy ly xx lx : nat,
    (hz <= Z.to_nat iz0)%nat /\ (Z.to_nat iz0 + hz <= nz)%nat
    /\ r_data br = sub_array data (Z.to_nat iz0 - hz) (2 * hz) yy ly xx lx
    /\ r_frames_logical br
       = keep_window (Z.to_nat iz0 - hz) (2 * hz) frames_logical.
Proof.
  intros Hd Hf Hz Hbr. unfold crop_symmetric_ZYX in Hbr. bind_inv Hbr.
  destruct (smaller_primes_unpack3 _ _ _ _ _ _ _ E E0)
    as ((_ & Hbz & _ & Hfz) & _ & _).
  destruct (fft_size_even _ Hfz) as (hz & Hhz & ->).
  unfold max_box in Hbz.
  rewrite (Z.mul_comm 2 (Z.of_nat hz)), Z.div_mul in Hbr by lia.
  replace (iz0 - Z.of_nat hz)
    with (Z.of_nat (Z.to_nat iz0 - hz)) in Hbr by lia.
  replace (iz0 + Z.of_nat hz)
    with (Z.of_nat (Z.to_nat iz0 - hz) + Z.of_nat (2 * hz)) in Hbr by lia.
  assert (Hin : (Z.to_nat iz0 - hz + 2 * hz <= nz)%nat) by lia.
  destruct (crop_box_rocking _ _ _ _ _ _ _ _ _ _ _ _ _ _ _ _ _ Hd Hf Hin Hbr)
    as [(yy & ly & xx & lx & Hrd) Hrf].
  exists hz, yy, ly, xx, lx.
  split; [lia|]. split; [lia|]. split; assumption.
Qed.

(** C1 (as amended).  Whenever [center_fft] returns, on a provenance vector
    as long as the rocking axis of [data]: under the six pad policies and
    under [do_nothing] the returned provenance vector is as long as the
    rocking axis of the returned data; under the two crop policies it keeps
    its input length, none of its tags is removed.  The frames of the
    returned data are then a window [[lo, lo + n)] of the frames given, the
    tags of that window are unchanged and the tags outside it are set to
    UNUSED (0); for ['crop_symmetric_ZYX'] this needs a peak whose frame
    index is not negative. *)
Theorem center_fft_provenance_length
    (center_of_mass : ndarray Z -> pyfloat * pyfloat * pyfloat) (fuel : nat)
    (data mask : ndarray Z) (frames_logical : list Z)
    (centering fft_option : string) (kw : kwargs)
    (data' mask' : ndarray Z) (pad_width : list Z) (q' : list (list Q))
    (frames' : list Z) :
  length frames_logical = rocking_length data ->
  center_fft center_of_mass fuel data mask frames_logical centering
             fft_option kw = Ok (data', mask', pad_width, q', frames') ->
  (In fft_option pad_options \/ fft_option = "do_nothing"%string ->
   length frames' = rocking_length data')
  /\ (In fft_option crop_options ->
      length frames' = length frames_logical
      /\ forall iz0 iy0 ix0,
           peak_position center_of_mass data centering kw
           = Ok (iz0, iy0, ix0) ->
           fft_option = "crop_asymmetric_ZYX"%string \/ 0 <= iz0 ->
           exists lo n y0 ly x0 lx : nat,
             (lo + n <= length frames_logical)%nat
             /\ shape data' = [n; ly; lx]
             /\ (forall i j k, (i < n)%nat -> (j < ly)%nat -> (k < lx)%nat ->
                   cell3 0 data' i j k
                   = cell3 0 data (lo + i) (y0 + j) (x0 + k))
             /\ frames' = keep_window lo n frames_logical).
Proof.
  intros Hlen H.
  destruct (center_fft_frames_lengths _ _ _ _ _ _ _ _ _ _ _ _ _ Hlen H)
    as [Hpad Hcrop].
  split; [exact Hpad|]. intros Hin. split; [now apply Hcrop|].
  intros iz0 iy0 ix0 Hp Hcond.
  destruct (center_fft_Ok_peak _ _ _ _ _ _ _ _ _ H)
    as (nz & ny & nx & ? & ? & ? & Hd & _ & _ & _).
  destruct (center_fft_Ok_at_peak _ _ _ _ _ _ _ _ _ _ _ _ _ _ _ Hd Hp H)
    as (q_values & qx & qz & qy & br & Hm & Hinb & _ & Hbr & Hres).
  unfold rocking_length in Hlen. rewrite Hd in Hlen. cbn [nth] in Hlen.
  injection Hres as -> _ _ _ ->.
  destruct ((iz0 =? 0) || (iy0 =? 0) || (ix0 =? 0)).
  { apply do_nothing_Ok in Hbr. destruct Hbr as [_ ->].
    cbn [r_data r_frames_logical].
    exists O, nz, O, ny, O, nx. rewrite Hlen.
    split; [lia|]. split; [assumption|]. split; [reflexivity|].
    rewrite <- Hlen. symmetry. apply keep_window_all. }
  destruct Hin as [<-|[<-|[]]].
  - destruct Hcond as [Hc|Hz]; [discriminate Hc|].
    change (apply_policy _ _ _ _ _ _ _ _ _ _ _ _ _ _ _ _ _ _ _
              "crop_symmetric_ZYX")
      with (crop_symmetric_ZYX data mask frames_logical q_values qx qz qy
              iz0 iy0 ix0 (Z.of_nat nz)
              (Z.abs (max_box iz0 (Z.of_nat nz)))
              (max_box iy0 (Z.of_nat ny))
              (Z.abs (max_box ix0 (Z.of_nat nx)))) in Hbr.
    destruct Hinb as (Hzb & _ & _).
    assert (Hzin : 0 <= iz0 < Z.of_nat nz) by lia.
    destruct (crop_symmetric_rocking _ _ _ _ _ _ _ _ _ _ _ _ _ _ Hd Hlen
                Hzin Hbr)
      as (hz & yy & ly & xx & lx & Hlo & Hhi & Hrd & Hrf).
    exists (Z.to_nat iz0 - hz)%nat, (2 * hz)%nat, yy, ly, xx, lx.
    rewrite Hrd, Hrf. split; [lia|]. split; [reflexivity|].
    split; [|reflexivity]. intros i j k Hi Hj Hk. now apply cell3_sub_array.
  - change (apply_policy _ _ _ _ _ _ _ _ _ _ _ _ _ _ _ _ _ _ _
              "crop_asymmetric_ZYX")
      with (crop_asymmetric_ZYX data mask frames_logical q_values qx qz qy
              (Z.of_nat nz) (Z.of_nat ny) (Z.of_nat nx)) in Hbr.
    destruct (crop_asymmetric_branch _ _ _ _ _ _ _ _ _ _ _ Hd Hm Hlen Hbr)
      as (hz & hy & hx & Hz & Hy & Hx & _ & _ & _ & Hrd & _ & _ & Hrf).
    pose proof (Nat.div_mod_eq nz 2). pose proof (Nat.mod_upper_bound nz 2).
    exists (nz / 2 - hz)%nat, (2 * hz)%nat, (ny / 2 - hy)%nat, (2 * hy)%nat,
           (nx / 2 - hx)%nat, (2 * hx)%nat.
    rewrite Hrd, Hrf. split; [lia|]. split; [reflexivity|].
    split; [|reflexivity]. intros i j k Hi Hj Hk. now apply cell3_sub_array.
Qed.

Lemma center_fft_provenance_length_witness :
  match run 10 8 8 5 4 4 "pad_symmetric_Z"
            (mk_kwargs [] [] [16; 8; 8] (q_grid 10 8 8)) with
  | Ok (data', _, _, _, frames') => length frames' = rocking_length data'
  | _ => False
  end
  /\ match run 12 8 8 5 4 4 "crop_symmetric_ZYX" (mk_kwargs [] [] [] []) with
     | Ok (data', _, _, _, frames') =>
         length frames' = 12%nat
         /\ exists lo n : nat,
              (lo + n <= 12)%nat /\ rocking_length data' = n
              /\ frames' = keep_window lo n (all_used 12)
     | _ => False
     end.
Proof.
  split.
  - destruct (run 10 8 8 5 4 4 "pad_symmetric_Z"
                  (mk_kwargs [] [] [16; 8; 8] (q_grid 10 8 8)))
      as [[[[[d m] p] q] f]|e|] eqn:E;
      [| apply (f_equal digest) in E; vm_compute in E; discriminate E ..].
    apply (proj1 (center_fft_provenance_length center_of_mass_exact 64
                    (volume 10 8 8 5 4 4) (clear_mask 10 8 8) (all_used 10)
                    "max" "pad_symmetric_Z"
                    (mk_kwargs [] [] [16; 8; 8] (q_grid 10 8 8))
                    d m p q f eq_refl E)).
    left. cbn. auto.
  - destruct (run 12 8 8 5 4 4 "crop_symmetric_ZYX" (mk_kwargs [] [] [] []))
      as [[[[[d m] p] q] f]|e|] eqn:E;
      [| apply (f_equal digest) in E; vm_compute in E; discriminate E ..].
    assert (Hp : peak_position center_of_mass_exact (volume 12 8 8 5 4 4) "max"
                               (mk_kwargs [] [] [] []) = Ok (5, 4, 4))
      by (vm_compute; reflexivity).
    destruct (proj2 (center_fft_provenance_length center_of_mass_exact 64
                       (volume 12 8 8 5 4 4) (clear_mask 12 8 8) (all_used 12)
                       "max" "crop_symmetric_ZYX" (mk_kwargs [] [] [] [])
                       d m p q f eq_refl E))
      as [Hlen Hwin]; [cbn; auto|].
    destruct (Hwin 5 4 4 Hp) as (lo & n & y0 & ly & x0 & lx & Hb & Hs & _ & Hf);
      [right; lia|].
    split; [exact Hlen|]. exists lo, n.
    split; [exact Hb|]. split; [|exact Hf].
    unfold rocking_length. rewrite Hs. reflexivity.
Defined.

(** ** Padding policies *)

Lemma asymmetric_pad_split (delta : Z) :
  0 <= delta ->
  0 <= asymmetric_pad_high delta <= asymmetric_pad_low delta delta
  /\ asymmetric_pad_low delta delta <= asymmetric_pad_high delta + 1
  /\ asymmetric_pad_low delta delta + asymmetric_pad_high delta = delta.
Proof.
  intros Hd. unfold asymmetric_pad_low, asymmetric_pad_high, int_trunc.
  cbn [Qnum Qden inject_Z Qdiv Qmult Qinv Qminus Qplus Qopp Pos.mul].
  Z.to_euclidean_division_equations. lia.
Qed.

(** The upward search returns the least accepted number from its start. *)
Lemma higher_search_Ok_least (maxprime : Z) (rd : option (list Z)) (fuel : nat) :
  forall limit i m,
    higher_search fuel limit i maxprime rd = Ok (Found m) ->
    forall k, i <= k < m -> try_smaller_primes k maxprime rd = Ok false.
Proof.
  induction fuel as [|fuel IH]; intros limit i m H k Hk; [discriminate|].
  cbn [higher_search] in H.
  destruct (try_smaller_primes i maxprime rd) as [[|]| |] eqn:E;
    cbn [bind negb] in H; try discriminate.
  - injection H as <-. lia.
  - destruct (i + 1 =? limit); [discriminate|].
    destruct (Z.eq_dec k i) as [->|Hne]; [assumption|].
    apply (IH _ _ _ H). lia.
Qed.

Lemma higher_primes_7_2_Ok (fuel : nat) (n m : Z) :
  higher_primes_7_2 fuel n = Ok m ->
  7 <= n <= m /\ fft_size m
  /\ forall k, n <= k < m -> ~ fft_size k.
Proof.
  unfold higher_primes_7_2, higher_primes. intros H.
  destruct (py_assert _) as [[]| |] eqn:Ha; cbn [bind] in H; try discriminate.
  apply py_assert_Ok_inv, andb_prop in Ha. destruct Ha as [_ Hp].
  apply Z.leb_le in Hp.
  destruct (higher_search fuel n n 7 (Some [2])) as [r| |] eqn:E;
    cbn [bind] in H; try discriminate.
  pose proof E as E'. apply higher_search_Ok_inv in E'; [|lia].
  destruct E' as (m' & -> & Hm & Hok). injection H as <-.
  split; [lia|]. split; [exact Hok|].
  intros k Hk Hfk. unfold fft_size in Hfk.
  rewrite (higher_search_Ok_least _ _ _ _ _ _ E k Hk) in Hfk. discriminate.
Qed.

Lemma firstn_repeat_le {A : Type} (v : A) (a n : nat) :
  (a <= n)%nat -> firstn a (repeat v n) = repeat v a.
Proof.
  revert n. induction a as [|a IH]; intros [|n] H; cbn; try reflexivity; try lia.
  f_equal. apply IH. lia.
Qed.

Lemma skipn_repeat_le {A : Type} (v : A) (a n : nat) :
  skipn a (repeat v n) = repeat v (n - a).
Proof.
  revert n. induction a as [|a IH]; intros [|n]; cbn; try reflexivity.
  apply IH.
Qed.

(** The provenance vector of a padded rocking axis: [p0] PADDED tags, the
    given tags, [p1] PADDED tags. *)
Lemma padded_frames_spec (data : ndarray Z) (nz p0 p1 : nat) (rest_shape : list nat)
      (rest_width : list Z) (frames_logical : list Z) :
  shape data = (nz + p0 + p1)%nat :: rest_shape ->
  length frames_logical = nz ->
  padded_frames data (Z.of_nat p0 :: rest_width) (Z.of_nat nz) frames_logical
  = Ok (repeat (-1) p0 ++ frames_logical ++ repeat (-1) p1).
Proof.
  intros Hs Hf. unfold padded_frames. rewrite Hs.
  change (item (_ :: rest_shape) 0) with (Ok (nz + p0 + p1)%nat).
  change (item (_ :: rest_width) 0) with (Ok (Z.of_nat p0)).
  cbn [bind]. unfold setslice. rewrite repeat_length.
  rewrite slice_indices_range by lia.
  unfold broadcast1. rewrite Hf, Nat.eqb_refl. cbn [bind].
  rewrite firstn_repeat_le, skipn_repeat_le by lia.
  replace (nz + p0 + p1 - (p0 + nz))%nat with p1 by lia. reflexivity.
Qed.

Lemma pad_arrays_spec (data mask : ndarray Z) (frames_logical : list Z)
      (nz ny nx z0 z1 y0 y1 x0 x1 : nat) :
  shape data = [nz; ny; nx] -> shape mask = [nz; ny; nx] ->
  length frames_logical = nz ->
  pad_arrays frames_logical (Z.of_nat nz) data mask
             (map Z.of_nat [z0; z1; y0; y1; x0; x1])
  = Ok (padded data nz ny nx z0 z1 y0 y1 x0 x1 false,
        padded mask nz ny nx z0 z1 y0 y1 x0 x1 true,
        repeat (-1) z0 ++ frames_logical ++ repeat (-1) z1).
Proof.
  intros Hd Hm Hf. unfold pad_arrays.
  rewrite (zero_pad_padded data nz ny nx) by assumption.
  rewrite (zero_pad_padded mask nz ny nx) by assumption.
  cbn [bind map].
  rewrite (padded_frames_spec _ nz z0 z1 [ny + y0 + y1; nx + x0 + x1]%nat)
    by (assumption || reflexivity).
  reflexivity.
Qed.

(** X10. ['pad_asymmetric_Z'], with the peak found at [(z0, y0, x0)]:
    whenever the call returns, if one coordinate of the peak is 0 the
    arrays are passed through unchanged; if none is, the rocking axis is
    padded to the least accepted size at or above its length, the padding
    split evenly with the extra frame, if any, in front; data is embedded
    with zeros around it and mask with ones, and the provenance vector is
    the given one between PADDED tags. *)
Theorem pad_asymmetric_Z_embeds
    (center_of_mass : ndarray Z -> pyfloat * pyfloat * pyfloat) (fuel : nat)
    (data mask : ndarray Z) (frames_logical : list Z) (centering : string)
    (kw : kwargs) (nz ny nx : nat) (iz0 iy0 ix0 : Z)
    (data' mask' : ndarray Z) (pad_width : list Z) (q' : list (list Q))
    (frames' : list Z) :
  shape data = [nz; ny; nx] -> length frames_logical = nz ->
  peak_position center_of_mass data centering kw = Ok (iz0, iy0, ix0) ->
  center_fft center_of_mass fuel data mask frames_logical centering
             "pad_asymmetric_Z" kw = Ok (data', mask', pad_width, q', frames') ->
  if (iz0 =? 0) || (iy0 =? 0) || (ix0 =? 0)
  then passed_through data mask frames_logical
                      (data', mask', pad_width, q', frames')
  else exists p0 p1 : nat,
      fft_size (Z.of_nat (nz + p0 + p1))
      /\ (forall k, Z.of_nat nz <= k < Z.of_nat (nz + p0 + p1) -> ~ fft_size k)
      /\ (p1 <= p0 <= p1 + 1)%nat
      /\ pad_width = map Z.of_nat [p0; p1; 0; 0; 0; 0]%nat
      /\ data' = padded data nz ny nx p0 p1 0 0 0 0 false
      /\ mask' = padded mask nz ny nx p0 p1 0 0 0 0 true
      /\ frames' = repeat (-1) p0 ++ frames_logical ++ repeat (-1) p1.
Proof.
  intros Hd Hf Hp H.
  destruct (center_fft_Ok_at_peak _ _ _ _ _ _ _ _ _ _ _ _ _ _ _ Hd Hp H)
    as (q_values & qx & qz & qy & br & Hm & _ & _ & Hbr & Hres).
  destruct ((iz0 =? 0) || (iy0 =? 0) || (ix0 =? 0)).
  { rewrite Hres. eapply do_nothing_passed_through. exact Hbr. }
  change (apply_policy _ _ _ _ _ _ _ _ _ _ _ _ _ _ _ _ _ _ _ "pad_asymmetric_Z")
    with (pad_asymmetric_Z fuel data mask frames_logical q_values qx qz qy
            (Z.of_nat nz)) in Hbr.
  unfold pad_asymmetric_Z in Hbr.
  apply bind_Ok_inv in Hbr. destruct Hbr as (nz1 & E & Hbr).
  apply higher_primes_7_2_Ok in E. destruct E as (Hn & Hok & Hleast).
  destruct (asymmetric_pad_split (nz1 - Z.of_nat nz) ltac:(lia))
    as (Hhi & Hlo & Hsum).
  set (lo := asymmetric_pad_low (nz1 - Z.of_nat nz) (nz1 - Z.of_nat nz)) in *.
  set (hi := asymmetric_pad_high (nz1 - Z.of_nat nz)) in *.
  replace [lo; hi; 0; 0; 0; 0]
    with (map Z.of_nat [Z.to_nat lo; Z.to_nat hi; 0; 0; 0; 0]%nat) in Hbr
    by (cbn [map]; rewrite !Z2Nat.id by lia; reflexivity).
  rewrite (pad_arrays_spec data mask frames_logical nz ny nx) in Hbr
    by assumption.
  cbn [bind] in Hbr.
  assert (Hbranch : r_data br = padded data nz ny nx (Z.to_nat lo) (Z.to_nat hi) 0 0 0 0 false
                    /\ r_mask br = padded mask nz ny nx (Z.to_nat lo) (Z.to_nat hi) 0 0 0 0 true
                    /\ r_pad_width br
                       = map Z.of_nat [Z.to_nat lo; Z.to_nat hi; 0; 0; 0; 0]%nat
                    /\ r_frames_logical br
                       = repeat (-1) (Z.to_nat lo) ++ frames_logical
                         ++ repeat (-1) (Z.to_nat hi)).
  { destruct (has_q_values q_values).
    - apply bind_Ok_inv in Hbr. destruct Hbr as (qx' & _ & [= <-]).
      repeat split.
    - injection Hbr as <-. repeat split. }
  destruct Hbranch as (Hrd & Hrm & Hrp & Hrf).
  injection Hres as -> -> -> _ ->.
  exists (Z.to_nat lo), (Z.to_nat hi).
  replace (Z.of_nat (nz + Z.to_nat lo + Z.to_nat hi)) with nz1 by lia.
  split; [assumption|]. split; [assumption|]. split; [lia|]. auto.
Qed.

Lemma pad_asymmetric_Z_embeds_witness :
  match run 11 8 8 5 4 4 "pad_asymmetric_Z" (mk_kwargs [] [] [] []) with
  | Ok (data', _, pad_width, _, frames') =>
      exists p0 p1 : nat,
        fft_size (Z.of_nat (11 + p0 + p1)) /\ (p1 <= p0 <= p1 + 1)%nat
        /\ pad_width = map Z.of_nat [p0; p1; 0; 0; 0; 0]%nat
        /\ data' = padded (volume 11 8 8 5 4 4) 11 8 8 p0 p1 0 0 0 0 false
        /\ frames' = repeat (-1) p0 ++ all_used 11 ++ repeat (-1) p1
  | _ => False
  end
  /\ match run 11 8 8 5 0 4 "pad_asymmetric_Z" (mk_kwargs [] [] [] []) with
     | Ok res =>
         passed_through (volume 11 8 8 5 0 4) (clear_mask 11 8 8) (all_used 11)
                        res
     | _ => False
     end.
Proof.
  split.
  - destruct (run 11 8 8 5 4 4 "pad_asymmetric_Z" (mk_kwargs [] [] [] []))
      as [[[[[d m] p] q] f]|e|] eqn:E;
      [| apply (f_equal digest) in E; vm_compute in E; discriminate E ..].
    assert (Hp : peak_position center_of_mass_exact (volume 11 8 8 5 4 4) "max"
                               (mk_kwargs [] [] [] []) = Ok (5, 4, 4))
      by (vm_compute; reflexivity).
    pose proof (pad_asymmetric_Z_embeds center_of_mass_exact 64
                  (volume 11 8 8 5 4 4) (clear_mask 11 8 8) (all_used 11) "max"
                  (mk_kwargs [] [] [] []) 11 8 8 5 4 4 d m p q f
                  eq_refl eq_refl Hp E) as H.
    cbn [Z.eqb orb] in H.
    destruct H as (p0 & p1 & Hfft & _ & Hsplit & Hw & Hd & _ & Hf).
    exists p0, p1. auto.
  - destruct (run 11 8 8 5 0 4 "pad_asymmetric_Z" (mk_kwargs [] [] [] []))
      as [[[[[d m] p] q] f]|e|] eqn:E;
      [| apply (f_equal digest) in E; vm_compute in E; discriminate E ..].
    assert (Hp : peak_position center_of_mass_exact (volume 11 8 8 5 0 4) "max"
                               (mk_kwargs [] [] [] []) = Ok (5, 0, 4))
      by (vm_compute; reflexivity).
    exact (pad_asymmetric_Z_embeds center_of_mass_exact 64
             (volume 11 8 8 5 0 4) (clear_mask 11 8 8) (all_used 11) "max"
             (mk_kwargs [] [] [] []) 11 8 8 5 0 4 d m p q f
             eq_refl eq_refl Hp E).
Defined.

Lemma symmetric_pad_even (h low nb : Z) :
  symmetric_pad (2 * h) low nb = Z.min (h - low) (2 * h - nb).
Proof.
  unfold symmetric_pad, int_trunc, Qmin, GenericMinMax.gmin.
  destruct (Qcompare _ _) eqn:C; unfold Qcompare in C;
    cbn [Qnum Qden inject_Z Qdiv Qmult Qinv Qminus Qplus Qopp Pos.mul] in *;
    [ apply Z.compare_eq in C | rewrite Z.compare_lt_iff in C
    | rewrite Z.compare_gt_iff in C ];
    Z.to_euclidean_division_equations; lia.
Qed.

Lemma symmetric_pad_high_even (h nb i0 : Z) :
  symmetric_pad_high (2 * h) nb i0 = Z.min (h - nb + i0) (2 * h - nb).
Proof.
  unfold symmetric_pad_high, int_trunc, Qmin, GenericMinMax.gmin.
  destruct (Qcompare _ _) eqn:C; unfold Qcompare in C;
    cbn [Qnum Qden inject_Z Qdiv Qmult Qinv Qminus Qplus Qopp Pos.mul] in *;
    [ apply Z.compare_eq in C | rewrite Z.compare_lt_iff in C
    | rewrite Z.compare_gt_iff in C ];
    Z.to_euclidean_division_equations; lia.
Qed.

(** The clamped pad widths of ['pad_symmetric_ZYX'] on one axis bring its
    length to the larger of the requested size and the present length. *)
Lemma symmetric_pad_clamped (h i0 nb : Z) :
  let lo := Z.max (symmetric_pad (2 * h) i0 nb) 0 in
  let hi := Z.max (symmetric_pad_high (2 * h) nb i0) 0 in
  0 <= lo /\ 0 <= hi /\ nb + lo + hi = Z.max (2 * h) nb
  /\ (0 <= h - i0 <= 2 * h - nb -> lo + i0 = h).
Proof.
  cbv zeta. rewrite symmetric_pad_even, symmetric_pad_high_even. lia.
Qed.

Lemma check_pad_size_Ok (fuel : nat) (pad_size : list Z) (i : Z) (u : unit) :
  check_pad_size fuel pad_size i = Ok u ->
  exists p, item pad_size i = Ok p /\ fft_size p.
Proof.
  unfold check_pad_size. intros H. bind_inv H.
  rewrite E in E0. injection E0 as <-.
  apply negb_false_iff, Z.eqb_eq in C. subst v1.
  apply higher_primes_7_2_Ok in E1. destruct E1 as (_ & Hok & _).
  exists v. split; assumption.
Qed.

(** X11. ['pad_symmetric_ZYX'], with the peak found at [(z0, y0, x0)]:
    whenever the call returns, if one coordinate of the peak is 0 the
    arrays are passed through unchanged; if none is, [pad_size] holds three
    accepted sizes and each axis comes out with the larger of the requested
    size and its present length: the negative pad widths are replaced by
    zero, so an axis longer than requested is left as it is, not cropped.
    Data is embedded with zeros around it, mask with ones, and the
    provenance vector is the given one between PADDED tags. *)
Theorem pad_symmetric_ZYX_shape
    (center_of_mass : ndarray Z -> pyfloat * pyfloat * pyfloat) (fuel : nat)
    (data mask : ndarray Z) (frames_logical : list Z) (centering : string)
    (kw : kwargs) (nz ny nx : nat) (iz0 iy0 ix0 : Z)
    (data' mask' : ndarray Z) (pad_width : list Z) (q' : list (list Q))
    (frames' : list Z) :
  shape data = [nz; ny; nx] -> length frames_logical = nz ->
  peak_position center_of_mass data centering kw = Ok (iz0, iy0, ix0) ->
  center_fft center_of_mass fuel data mask frames_logical centering
             "pad_symmetric_ZYX" kw = Ok (data', mask', pad_width, q', frames') ->
  if (iz0 =? 0) || (iy0 =? 0) || (ix0 =? 0)
  then passed_through data mask frames_logical
                      (data', mask', pad_width, q', frames')
  else exists (sz sy sx : Z) (z0 z1 y0 y1 x0 x1 : nat),
      kw_pad_size kw = [sz; sy; sx]
      /\ fft_size sz /\ fft_size sy /\ fft_size sx
      /\ pad_width = map Z.of_nat [z0; z1; y0; y1; x0; x1]
      /\ Z.of_nat (nz + z0 + z1) = Z.max sz (Z.of_nat nz)
      /\ Z.of_nat (ny + y0 + y1) = Z.max sy (Z.of_nat ny)
      /\ Z.of_nat (nx + x0 + x1) = Z.max sx (Z.of_nat nx)
      /\ data' = padded data nz ny nx z0 z1 y0 y1 x0 x1 false
      /\ mask' = padded mask nz ny nx z0 z1 y0 y1 x0 x1 true
      /\ frames' = repeat (-1) z0 ++ frames_logical ++ repeat (-1) z1.
Proof.
  intros Hd Hf Hp H.
  destruct (center_fft_Ok_at_peak _ _ _ _ _ _ _ _ _ _ _ _ _ _ _ Hd Hp H)
    as (q_values & qx & qz & qy & br & Hm & _ & _ & Hbr & Hres).
  destruct ((iz0 =? 0) || (iy0 =? 0) || (ix0 =? 0)).
  { rewrite Hres. eapply do_nothing_passed_through. exact Hbr. }
  change (apply_policy _ _ _ _ _ _ _ _ _ _ _ _ _ _ _ _ _ _ _ "pad_symmetric_ZYX")
    with (pad_symmetric_ZYX fuel data mask frames_logical q_values qx qz qy
            (kw_pad_size kw) iz0 iy0 ix0
            (Z.of_nat nz) (Z.of_nat ny) (Z.of_nat nx)) in Hbr.
  unfold pad_symmetric_ZYX in Hbr.
  destruct (kw_pad_size kw) as [|sz [|sy [|sx [|? ?]]]]; try discriminate Hbr.
  cbn [length Nat.eqb negb] in Hbr.
  apply bind_Ok_inv in Hbr. destruct Hbr as (u0 & E0 & Hbr).
  apply bind_Ok_inv in Hbr. destruct Hbr as (u1 & E1 & Hbr).
  apply bind_Ok_inv in Hbr. destruct Hbr as (u2 & E2 & Hbr).
  apply check_pad_size_Ok in E0, E1, E2.
  destruct E0 as (? & [= <-] & Hfz), E1 as (? & [= <-] & Hfy),
           E2 as (? & [= <-] & Hfx).
  change (item [sz; sy; sx] 0) with (Ok sz) in Hbr.
  change (item [sz; sy; sx] 1) with (Ok sy) in Hbr.
  change (item [sz; sy; sx] 2) with (Ok sx) in Hbr.
  cbn [bind map] in Hbr.
  destruct (fft_size_even _ Hfz) as (hz & _ & Ez).
  destruct (fft_size_even _ Hfy) as (hy & _ & Ey).
  destruct (fft_size_even _ Hfx) as (hx & _ & Ex).
  pose proof (symmetric_pad_clamped (Z.of_nat hz) iz0 (Z.of_nat nz)) as Hz.
  pose proof (symmetric_pad_clamped (Z.of_nat hy) iy0 (Z.of_nat ny)) as Hy.
  pose proof (symmetric_pad_clamped (Z.of_nat hx) ix0 (Z.of_nat nx)) as Hx.
  cbv zeta in Hz, Hy, Hx. rewrite <- Ez in Hz. rewrite <- Ey in Hy.
  rewrite <- Ex in Hx. clear Ez Ey Ex.
  destruct Hz as (Hz0 & Hz1 & Hzs & _), Hy as (Hy0 & Hy1 & Hys & _),
           Hx as (Hx0 & Hx1 & Hxs & _).
  set (z0 := Z.max (symmetric_pad sz iz0 (Z.of_nat nz)) 0) in *.
  set (z1 := Z.max (symmetric_pad_high sz (Z.of_nat nz) iz0) 0) in *.
  set (y0 := Z.max (symmetric_pad sy iy0 (Z.of_nat ny)) 0) in *.
  set (y1 := Z.max (symmetric_pad_high sy (Z.of_nat ny) iy0) 0) in *.
  set (x0 := Z.max (symmetric_pad sx ix0 (Z.of_nat nx)) 0) in *.
  set (x1 := Z.max (symmetric_pad_high sx (Z.of_nat nx) ix0) 0) in *.
  replace [z0; z1; y0; y1; x0; x1]
    with (map Z.of_nat [Z.to_nat z0; Z.to_nat z1; Z.to_nat y0; Z.to_nat y1;
                        Z.to_nat x0; Z.to_nat x1]) in Hbr
    by (cbn [map]; rewrite !Z2Nat.id by lia; reflexivity).
  rewrite (pad_arrays_spec data mask frames_logical nz ny nx) in Hbr
    by assumption.
  cbn [bind] in Hbr.
  exists sz, sy, sx, (Z.to_nat z0), (Z.to_nat z1), (Z.to_nat y0), (Z.to_nat y1),
         (Z.to_nat x0), (Z.to_nat x1).
  split; [reflexivity|]. split; [assumption|]. split; [assumption|].
  split; [assumption|].
  assert (Hbranch :
            r_pad_width br
            = map Z.of_nat [Z.to_nat z0; Z.to_nat z1; Z.to_nat y0; Z.to_nat y1;
                            Z.to_nat x0; Z.to_nat x1]
            /\ r_data br = padded data nz ny nx (Z.to_nat z0) (Z.to_nat z1)
                             (Z.to_nat y0) (Z.to_nat y1) (Z.to_nat x0)
                             (Z.to_nat x1) false
            /\ r_mask br = padded mask nz ny nx (Z.to_nat z0) (Z.to_nat z1)
                             (Z.to_nat y0) (Z.to_nat y1) (Z.to_nat x0)
                             (Z.to_nat x1) true
            /\ r_frames_logical br
               = repeat (-1) (Z.to_nat z0) ++ frames_logical
                 ++ repeat (-1) (Z.to_nat z1)).
  { destruct (has_q_values q_values); [bind_inv Hbr|];
      injection Hbr as <-; repeat split. }
  destruct Hbranch as (Hrp & Hrd & Hrm & Hrf).
  injection Hres as -> -> -> _ ->.
  split; [assumption|]. split; [lia|]. split; [lia|]. split; [lia|]. auto.
Qed.

Lemma pad_symmetric_ZYX_shape_witness :
  match run 10 8 8 5 4 4 "pad_symmetric_ZYX" (mk_kwargs [] [] [8; 16; 8] []) with
  | Ok (data', _, pad_width, _, frames') =>
      exists z0 z1 y0 y1 x0 x1 : nat,
        (10 + z0 + z1 = 10)%nat /\ (8 + y0 + y1 = 16)%nat
        /\ (8 + x0 + x1 = 8)%nat
        /\ pad_width = map Z.of_nat [z0; z1; y0; y1; x0; x1]
        /\ data' = padded (volume 10 8 8 5 4 4) 10 8 8 z0 z1 y0 y1 x0 x1 false
        /\ frames' = repeat (-1) z0 ++ all_used 10 ++ repeat (-1) z1
  | _ => False
  end
  /\ match run 10 8 8 5 4 0 "pad_symmetric_ZYX"
               (mk_kwargs [] [] [8; 16; 8] []) with
     | Ok res =>
         passed_through (volume 10 8 8 5 4 0) (clear_mask 10 8 8) (all_used 10)
                        res
     | _ => False
     end.
Proof.
  split.
  - destruct (run 10 8 8 5 4 4 "pad_symmetric_ZYX"
                  (mk_kwargs [] [] [8; 16; 8] []))
      as [[[[[d m] p] q] f]|e|] eqn:E;
      [| apply (f_equal digest) in E; vm_compute in E; discriminate E ..].
    assert (Hp : peak_position center_of_mass_exact (volume 10 8 8 5 4 4) "max"
                               (mk_kwargs [] [] [8; 16; 8] []) = Ok (5, 4, 4))
      by (vm_compute; reflexivity).
    pose proof (pad_symmetric_ZYX_shape center_of_mass_exact 64
                  (volume 10 8 8 5 4 4) (clear_mask 10 8 8) (all_used 10) "max"
                  (mk_kwargs [] [] [8; 16; 8] []) 10 8 8 5 4 4 d m p q f
                  eq_refl eq_refl Hp E) as H.
    cbn [Z.eqb orb] in H.
    destruct H as (sz & sy & sx & z0 & z1 & y0 & y1 & x0 & x1 & Hps & _ & _ & _
                   & Hw & Hz & Hy & Hx & Hd & _ & Hf).
    cbn [kw_pad_size] in Hps. injection Hps as <- <- <-.
    exists z0, z1, y0, y1, x0, x1.
    split; [lia|]. split; [lia|]. split; [lia|]. auto.
  - destruct (run 10 8 8 5 4 0 "pad_symmetric_ZYX"
                  (mk_kwargs [] [] [8; 16; 8] []))
      as [[[[[d m] p] q] f]|e|] eqn:E;
      [| apply (f_equal digest) in E; vm_compute in E; discriminate E ..].
    assert (Hp : peak_position center_of_mass_exact (volume 10 8 8 5 4 0) "max"
                               (mk_kwargs [] [] [8; 16; 8] []) = Ok (5, 4, 0))
      by (vm_compute; reflexivity).
    exact (pad_symmetric_ZYX_shape center_of_mass_exact 64
             (volume 10 8 8 5 4 0) (clear_mask 10 8 8) (all_used 10) "max"
             (mk_kwargs [] [] [8; 16; 8] []) 10 8 8 5 4 0 d m p q f
             eq_refl eq_refl Hp E).
Defined.

(** ** The effective policy *)




(* ================================================================== *)
(** * Further properties of the monitor normalisation *)

Import NormalizeSpec.

Section NormalizeMore.
Variable F : Type.
Variables (amin amax : list F -> F).
Variables (fdiv fmul : F -> F -> F).
Variable fzero : F.
Variable norm_to_min : bool.
Variable raw_monitor : list F.

Local Abbreviation fill :=
  (Normalize.padded_value F amin amax norm_to_min raw_monitor).

Lemma aligned_monitor_length (frames_logical : list Z) :
  forall position,
    Forall tag_ok frames_logical ->
    length (aligned_monitor F fzero raw_monitor fill frames_logical position)
    = count_nonzero frames_logical.
Proof.
  induction frames_logical as [|f rest IH]; intros position Htags;
    [reflexivity|].
  inversion Htags as [|? ? Hf Hrest]; subst.
  unfold count_nonzero in *. cbn [aligned_monitor filter].
  destruct Hf as [-> | [-> | ->]]; cbn [Z.eqb Pos.eqb negb length];
    rewrite IH by assumption; reflexivity.
Qed.

(** With valid tags and a raw monitor that covers the measured frames, the
    loop runs to its end. *)
Lemma monitor_loop_returns (frames_logical : list Z) :
  forall idx acc nb_overlap nb_padded position,
    Forall tag_ok frames_logical -> raw_monitor <> [] ->
    idx - nb_overlap = Z.of_nat (length acc) ->
    idx - nb_padded = Z.of_nat position ->
    (position + count_measured frames_logical <= length raw_monitor)%nat ->
    exists nb_padded',
      monitor_loop F amin amax norm_to_min raw_monitor frames_logical idx
        (acc ++ repeat fzero (count_nonzero frames_logical))
        nb_overlap nb_padded
      = Ok (acc ++ aligned_monitor F fzero raw_monitor fill
                     frames_logical position, nb_padded').
Proof.
  induction frames_logical as [|f rest IH];
    intros idx acc nbo nbp position Htags Hraw Hacc Hpos Hlen.
  - cbn. rewrite app_nil_r. eauto.
  - inversion Htags as [|? ? Hf Hrest]; subst.
    unfold count_measured in Hlen. cbn [filter] in Hlen.
    cbn [monitor_loop aligned_monitor].
    destruct Hf as [-> | [-> | ->]]; cbn [Z.eqb Pos.eqb negb length] in *.
    + change (count_nonzero (-1 :: rest)) with (S (count_nonzero rest)).
      cbn [repeat].
      assert (Hv : (if norm_to_min then np_min F amin raw_monitor
                    else np_max F amax raw_monitor) = Ok fill).
      { unfold np_min, np_max, Normalize.padded_value.
        destruct norm_to_min, raw_monitor; congruence. }
      rewrite Hv. cbn [bind]. rewrite Hacc, setitem_middle. cbn [bind].
      replace (acc ++ fill :: repeat fzero (count_nonzero rest))
        with ((acc ++ [fill]) ++ repeat fzero (count_nonzero rest))
        by (now rewrite <- app_assoc).
      destruct (IH (idx + 1) (acc ++ [fill]) nbo (nbp + 1) position)
        as [nbp' E]; auto.
      * rewrite length_app. cbn [length]. lia.
      * lia.
      * rewrite E, <- app_assoc. eauto.
    + change (count_nonzero (0 :: rest)) with (count_nonzero rest).
      destruct (IH (idx + 1) acc (nbo + 1) nbp (S position))
        as [nbp' E]; auto; try lia.
      * unfold count_measured. lia.
      * eauto.
    + change (count_nonzero (1 :: rest)) with (S (count_nonzero rest)).
      cbn [repeat].
      rewrite Hpos, (item_in_range raw_monitor position fzero) by lia.
      cbn [bind]. rewrite Hacc, setitem_middle. cbn [bind].
      replace (acc ++ nth position raw_monitor fzero
                   :: repeat fzero (count_nonzero rest))
        with ((acc ++ [nth position raw_monitor fzero])
                ++ repeat fzero (count_nonzero rest))
        by (now rewrite <- app_assoc).
      destruct (IH (idx + 1) (acc ++ [nth position raw_monitor fzero]) nbo nbp
                  (S position)) as [nbp' E]; auto.
      * rewrite length_app. cbn [length]. lia.
      * lia.
      * unfold count_measured. lia.
      * rewrite E, <- app_assoc. eauto.
Qed.
End NormalizeMore.

(** X13. Which inputs [normalize_dataset] accepts.  For a 3D array, valid
    provenance tags and a non-empty raw monitor with a value for every
    measured (not PADDED) frame: the call returns when the number of USED
    and PADDED tags is positive and equal to the number of frames of the
    array, and raises [ValueError] in every other case (no monitor value to
    take the minimum of, or a length mismatch). *)
Theorem normalize_dataset_accepts
    (F : Type) (amin amax : list F -> F) (fdiv fmul : F -> F -> F) (fzero : F)
    (array : ndarray F) (raw_monitor : list F) (frames_logical : list Z)
    (norm_to_min : bool) (nbz nby nbx : nat) :
  shape array = [nbz; nby; nbx] ->
  Forall tag_ok frames_logical -> raw_monitor <> [] ->
  (count_measured frames_logical <= length raw_monitor)%nat ->
  ((0 < count_nonzero frames_logical)%nat ->
   count_nonzero frames_logical = nbz ->
   exists array',
     normalize_dataset F amin amax fdiv fmul fzero array raw_monitor
                       frames_logical norm_to_min
     = Ok (array',
           rescaled_monitor amin amax fdiv norm_to_min
             (aligned_monitor F fzero raw_monitor
                (padded_value F amin amax norm_to_min raw_monitor)
                frames_logical 0),
           monitor_title norm_to_min))
  /\ (count_nonzero frames_logical = 0%nat
      \/ count_nonzero frames_logical <> nbz ->
      normalize_dataset F amin amax fdiv fmul fzero array raw_monitor
                        frames_logical norm_to_min = Raise ValueError).
Proof.
  intros Hs Htags Hraw Hlen.
  destruct (monitor_loop_returns F amin amax fzero norm_to_min raw_monitor
              frames_logical 0 [] 0 0 0%nat Htags Hraw eq_refl eq_refl Hlen)
    as [nbp' E].
  cbn [app] in E.
  pose proof (aligned_monitor_length F amin amax fzero norm_to_min raw_monitor
                frames_logical 0%nat Htags) as Hal.
  unfold normalize_dataset. rewrite Hs, E. cbn [bind].
  unfold rescaled_monitor, monitor_title.
  remember (aligned_monitor F fzero raw_monitor
              (padded_value F amin amax norm_to_min raw_monitor)
              frames_logical 0) as aligned eqn:Heq.
  clear Heq E.
  split.
  - intros Hpos Hn.
    destruct aligned as [|a aligned]; [cbn in Hal; lia|].
    destruct norm_to_min; cbn [np_min np_max bind];
      rewrite length_map, Hal, Hn, Nat.eqb_refl; cbn [negb]; eauto.
  - intros Hbad.
    destruct aligned as [|a aligned];
      [destruct norm_to_min; reflexivity|].
    destruct Hbad as [Hz|Hne]; [cbn in Hal; lia|].
    destruct norm_to_min; cbn [np_min np_max bind];
      rewrite length_map, Hal;
      (destruct (Nat.eqb_spec (count_nonzero frames_logical) nbz);
       [contradiction | reflexivity]).
Qed.

Lemma normalize_dataset_accepts_witness :
  (exists array',
      normalize_dataset Q q_min q_max Qdiv Qmult 0%Q (pixel_frames 3)
                        [5%Q; 6%Q; 7%Q] [1; 0; 1; -1] true
      = Ok (array',
            rescaled_monitor q_min q_max Qdiv true
              (aligned_monitor Q 0%Q [5%Q; 6%Q; 7%Q]
                 (padded_value Q q_min q_max true [5%Q; 6%Q; 7%Q])
                 [1; 0; 1; -1] 0),
            monitor_title true))
  /\ normalize_dataset Q q_min q_max Qdiv Qmult 0%Q (pixel_frames 4)
                       [5%Q; 6%Q; 7%Q] [1; 0; 1; -1] true = Raise ValueError.
Proof.
  split.
  - apply (proj1 (normalize_dataset_accepts Q q_min q_max Qdiv Qmult 0%Q
                    (pixel_frames 3) [5%Q; 6%Q; 7%Q] [1; 0; 1; -1] true
                    3 1 1 eq_refl
                    ltac:(repeat constructor; unfold tag_ok; lia)
                    ltac:(discriminate) ltac:(cbn; lia)));
      [cbn; lia | reflexivity].
  - apply (proj2 (normalize_dataset_accepts Q q_min q_max Qdiv Qmult 0%Q
                    (pixel_frames 4) [5%Q; 6%Q; 7%Q] [1; 0; 1; -1] true
                    4 1 1 eq_refl
                    ltac:(repeat constructor; unfold tag_ok; lia)
                    ltac:(discriminate) ltac:(cbn; lia))).
    right. cbn. lia.
Defined.

(** The loop over the frames after [t] turns: the frames before [t] have
    been multiplied, each once, the others are still as given. *)
Lemma scale_frames_turns (F : Type) (fmul : F -> F -> F) (fzero : F)
      (array : ndarray F) (nbz nby nbx : nat) (monitor : list F) (t : nat) :
  shape array = [nbz; nby; nbx] ->
  let array' :=
    fold_left
      (fun a idx => scale_frame F fmul fzero a nbz nby nbx idx
                                (nth idx monitor fzero))
      (seq 0 t) array in
  shape array' = [nbz; nby; nbx]
  /\ forall i j k, (i < nbz)%nat -> (j < nby)%nat -> (k < nbx)%nat ->
       cell3 fzero array' i j k
       = if (i <? t)%nat
         then fmul (cell3 fzero array i j k) (nth i monitor fzero)
         else cell3 fzero array i j k.
Proof.
  intros Hs. induction t as [|t IH]; cbv zeta.
  - cbn [seq fold_left]. split; [assumption|]. intros i j k _ _ _.
    reflexivity.
  - rewrite seq_S, fold_left_app. cbn [Nat.add fold_left].
    cbv zeta in IH. destruct IH as [_ IH].
    split; [reflexivity|]. intros i j k Hi Hj Hk.
    unfold scale_frame, cell3 at 1. cbn [shape buf].
    rewrite nth_tabulate3 by assumption. rewrite IH by assumption.
    destruct (Nat.eqb_spec i t) as [->|Hne].
    + rewrite Nat.ltb_irrefl.
      destruct (Nat.ltb_spec t (S t)); [reflexivity | lia].
    + destruct (Nat.ltb_spec i t), (Nat.ltb_spec i (S t)); try reflexivity; lia.
Qed.

(** X14. What [normalize_dataset] does to the array: whenever it returns,
    the loop over the frames has kept the shape of the array and multiplied
    every voxel of frame [i] once, by the returned monitor value of frame
    [i], whatever the number of frames; the title names the normalisation
    that was applied. *)
Theorem normalize_dataset_scales_frames
    (F : Type) (amin amax : list F -> F) (fdiv fmul : F -> F -> F) (fzero : F)
    (array : ndarray F) (raw_monitor : list F) (frames_logical : list Z)
    (norm_to_min : bool) (array' : ndarray F) (monitor' : list F)
    (title : string) :
  normalize_dataset F amin amax fdiv fmul fzero array raw_monitor
                    frames_logical norm_to_min = Ok (array', monitor', title) ->
  shape array' = shape array
  /\ length monitor' = rocking_length array
  /\ title = monitor_title norm_to_min
  /\ forall nbz nby nbx i j k,
      shape array = [nbz; nby; nbx] ->
      (i < nbz)%nat -> (j < nby)%nat -> (k < nbx)%nat ->
      cell3 fzero array' i j k
      = fmul (cell3 fzero array i j k) (nth i monitor' fzero).
Proof.
  unfold normalize_dataset. intros H.
  destruct (shape array) as [|nbz [|nby [|nbx [|? ?]]]] eqn:Hs;
    try discriminate H.
  bind_inv H; injection H as <- <- <-.
  destruct (scale_frames_turns F fmul fzero array nbz nby nbx v0 nbz Hs)
    as [Hshape Hcells].
  split; [exact Hshape|]. split.
  { apply negb_false_iff, Nat.eqb_eq in C. unfold rocking_length.
    rewrite Hs. exact C. }
  split.
  { destruct norm_to_min; bind_inv E0; injection E0 as _ <-; reflexivity. }
  intros ? ? ? i j k [= <- <- <-] Hi Hj Hk.
  unfold scale_frames. rewrite Hcells by assumption.
  destruct (Nat.ltb_spec i nbz); [reflexivity | lia].
Qed.

Lemma normalize_dataset_scales_frames_witness :
  match normalize_dataset Q q_min q_max Qdiv Qmult 0%Q (pixel_frames 3)
                          [5%Q; 6%Q; 7%Q] [1; 0; 1; -1] true with
  | Ok (array', monitor', title) =>
      shape array' = [3; 1; 1]%nat /\ length monitor' = 3%nat
      /\ title = "monitor.min() / monitor"%string
      /\ cell3 0%Q array' 1 0 0
         = Qmult (cell3 0%Q (pixel_frames 3) 1 0 0) (nth 1 monitor' 0%Q)
  | _ => False
  end.
Proof.
  destruct (normalize_dataset Q q_min q_max Qdiv Qmult 0%Q (pixel_frames 3)
              [5%Q; 6%Q; 7%Q] [1; 0; 1; -1] true)
    as [[[array' monitor'] title]|e|] eqn:E;
    [|vm_compute in E; discriminate E ..].
  destruct (normalize_dataset_scales_frames _ _ _ _ _ _ _ _ _ _ _ _ _ E)
    as (Hs & Hl & Ht & Hc).
  split; [exact Hs|]. split; [exact Hl|]. split; [exact Ht|].
  apply (Hc 3 1 1 1 0 0 eq_refl)%nat; lia.
Defined.

(* ================================================================== *)
(** * Two-dimensional arrays *)

Import Numpy2.

Section Buffers2.
Local Open Scope nat_scope.
Context {A : Type}.

Lemma tabulate2_length (ny nx : nat) (f : nat -> nat -> A) :
  length (tabulate2 ny nx f) = ny * nx.
Proof.
  unfold tabulate2. apply flat_map_seq_length.
  intros x. now rewrite length_map, length_seq.
Qed.

Lemma nth_tabulate2 (ny nx : nat) (f : nat -> nat -> A) (d : A) (i j : nat) :
  i < ny -> j < nx -> nth (i * nx + j) (tabulate2 ny nx f) d = f i j.
Proof.
  intros Hi Hj. unfold tabulate2.
  rewrite nth_flat_map_seq with (m := nx); try assumption.
  - cbn [Nat.add].
    rewrite (nth_indep _ d (f i 0)) by (now rewrite length_map, length_seq).
    rewrite (map_nth (fun j => f i j) (seq 0 nx) 0 j).
    now rewrite seq_nth.
  - intros x. now rewrite length_map, length_seq.
Qed.

Lemma cell2_tabulate2 (d : A) (ny nx : nat) (f : nat -> nat -> A) (i j : nat) :
  i < ny -> j < nx ->
  cell2 d (mk_ndarray [ny; nx] (tabulate2 ny nx f)) i j = f i j.
Proof. intros Hi Hj. unfold cell2. cbn [shape buf]. now apply nth_tabulate2. Qed.

Lemma tabulate2_ext (ny nx : nat) (f g : nat -> nat -> A) :
  (forall i j, i < ny -> j < nx -> f i j = g i j) ->
  tabulate2 ny nx f = tabulate2 ny nx g.
Proof.
  intros H. unfold tabulate2. apply flat_map_seq_ext. intros i Hi.
  apply map_ext_in. intros j Hj. apply in_seq in Hj. apply H; lia.
Qed.
End Buffers2.

Import Detector DetectorSpec.

Lemma fill2_cells (a a' : ndarray Z) (r c : index) (v : Z) (ny nx : nat) :
  shape a = [ny; nx] -> fill2 0 a r c v = Ok a' ->
  shape a' = [ny; nx]
  /\ forall i j, (i < ny)%nat -> (j < nx)%nat ->
                 cell2 0 a' i j
                 = if in_region ny nx (r, c) i j then v else cell2 0 a i j.
Proof.
  intros Hs H. unfold fill2 in H. rewrite Hs in H.
  unfold in_region. cbn [fst snd].
  destruct (select ny r) as [[r0 rl]|]; [|discriminate].
  destruct (select nx c) as [[c0 cl]|]; [|discriminate].
  injection H as <-. split; [reflexivity|].
  intros i j Hi Hj. now rewrite cell2_tabulate2.
Qed.

Lemma fill2_selectable (a : ndarray Z) (r c : index) (v : Z) (ny nx : nat) :
  shape a = [ny; nx] -> selectable ny nx (r, c) ->
  exists a', fill2 0 a r c v = Ok a'.
Proof.
  intros Hs [Hr Hc]. unfold fill2. rewrite Hs. cbn [fst snd] in *.
  destruct (select ny r) as [[r0 rl]|]; [|contradiction].
  destruct (select nx c) as [[c0 cl]|]; [|contradiction].
  eauto.
Qed.

Lemma fill2_not_selectable (a : ndarray Z) (r c : index) (v : Z) (ny nx : nat) :
  shape a = [ny; nx] -> ~ selectable ny nx (r, c) ->
  fill2 0 a r c v = Raise IndexError.
Proof.
  intros Hs Hn. unfold fill2, selectable in *. rewrite Hs. cbn [fst snd] in *.
  destruct (select ny r) as [[r0 rl]|]; [|reflexivity].
  destruct (select nx c) as [[c0 cl]|]; [|reflexivity].
  exfalso. apply Hn. split; discriminate.
Qed.

(** A sequence of fills with one value sets the union of the regions. *)
Lemma fill_regions_cells (regions : list (index * index)) (v : Z) (ny nx : nat) :
  forall a,
    shape a = [ny; nx] -> Forall (selectable ny nx) regions ->
    exists a',
      fill_regions a regions v = Ok a' /\ shape a' = [ny; nx]
      /\ forall i j, (i < ny)%nat -> (j < nx)%nat ->
                     cell2 0 a' i j
                     = if in_regions ny nx regions i j then v else cell2 0 a i j.
Proof.
  induction regions as [|[r c] rest IH]; intros a Hs Hall.
  - exists a. repeat split; assumption || reflexivity.
  - inversion Hall as [|? ? Hsel Hrest]; subst.
    destruct (fill2_selectable a r c v ny nx Hs Hsel) as [a1 E1].
    destruct (fill2_cells a a1 r c v ny nx Hs E1) as [Hs1 Hc1].
    destruct (IH a1 Hs1 Hrest) as (a' & E & Hs' & Hc).
    exists a'. cbn [fill_regions]. rewrite E1. cbn [bind].
    split; [assumption|]. split; [assumption|].
    intros i j Hi Hj. rewrite Hc, Hc1 by assumption.
    unfold in_regions. cbn [existsb].
    destruct (in_region ny nx (r, c) i j),
             (existsb (fun region => in_region ny nx region i j) rest);
      reflexivity.
Qed.

(** The fills stop with an [IndexError] at the first region with an
    integer out of range. *)
Lemma fill_regions_index_error (regions : list (index * index)) (v : Z)
      (ny nx : nat) :
  forall a,
    shape a = [ny; nx] -> Exists (fun region => ~ selectable ny nx region) regions ->
    fill_regions a regions v = Raise IndexError.
Proof.
  induction regions as [|[r c] rest IH]; intros a Hs Hex.
  - inversion Hex.
  - cbn [fill_regions].
    destruct (fill2 0 a r c v) as [a1| |] eqn:E1.
    + cbn [bind]. destruct (fill2_cells a a1 r c v ny nx Hs E1) as [Hs1 _].
      apply IH; [assumption|].
      inversion Hex as [? ? Hbad|? ? Hlater]; subst; [|assumption].
      rewrite fill2_not_selectable with (ny := ny) (nx := nx) in E1
        by assumption. discriminate.
    + unfold fill2 in E1. rewrite Hs in E1.
      destruct (select ny r) as [[? ?]|], (select nx c) as [[? ?]|];
        now inversion E1.
    + unfold fill2 in E1. rewrite Hs in E1.
      destruct (select ny r) as [[? ?]|], (select nx c) as [[? ?]|];
        discriminate.
Qed.

(** ** Detector gaps *)

Lemma within_slice_range (n i : nat) (a b : Z) :
  (i < n)%nat -> 0 <= a <= b ->
  (let '(r0, rl) := slice_indices n (range a b) in within r0 rl i)
  = within (Z.to_nat a) (Z.to_nat (b - a)) i.
Proof.
  intros Hi Hab. unfold slice_indices, range, clip_bound, within.
  cbn [start stop].
  destruct (Z.ltb_spec a 0), (Z.ltb_spec b 0); try lia.
  apply eq_true_iff_eq. rewrite !andb_true_iff, !Nat.leb_le, !Nat.ltb_lt. lia.
Qed.

Lemma within_slice_whole (n i : nat) :
  (i < n)%nat ->
  (let '(r0, rl) := slice_indices n whole in within r0 rl i) = true.
Proof.
  intros Hi. unfold slice_indices, whole, within. cbn [start stop].
  apply andb_true_iff. rewrite Nat.leb_le, Nat.ltb_lt. lia.
Qed.

Lemma in_region_box (ny nx i j : nat) (r0 r1 c0 c1 : Z) :
  (i < ny)%nat -> (j < nx)%nat -> 0 <= r0 <= r1 -> 0 <= c0 <= c1 ->
  in_region ny nx (box r0 r1 c0 c1) i j
  = within (Z.to_nat r0) (Z.to_nat (r1 - r0)) i
    && within (Z.to_nat c0) (Z.to_nat (c1 - c0)) j.
Proof.
  intros Hi Hj Hr Hc. unfold in_region, box. cbn [fst snd select].
  rewrite <- (within_slice_range ny i r0 r1), <- (within_slice_range nx j c0 c1)
    by assumption.
  destruct (slice_indices ny _), (slice_indices nx _). reflexivity.
Qed.

Lemma in_region_rows (ny nx i j : nat) (a b : Z) :
  (i < ny)%nat -> (j < nx)%nat -> 0 <= a <= b ->
  in_region ny nx (rows a b) i j = within (Z.to_nat a) (Z.to_nat (b - a)) i.
Proof.
  intros Hi Hj Hab. unfold in_region, rows. cbn [fst snd select].
  rewrite <- (within_slice_range ny i a b) by assumption.
  pose proof (within_slice_whole nx j Hj) as Hw.
  destruct (slice_indices ny _), (slice_indices nx whole).
  rewrite Hw. apply andb_true_r.
Qed.

Lemma in_region_cols (ny nx i j : nat) (a b : Z) :
  (i < ny)%nat -> (j < nx)%nat -> 0 <= a <= b ->
  in_region ny nx (cols a b) i j = within (Z.to_nat a) (Z.to_nat (b - a)) j.
Proof.
  intros Hi Hj Hab. unfold in_region, cols. cbn [fst snd select].
  rewrite <- (within_slice_range nx j a b) by assumption.
  pose proof (within_slice_whole ny i Hi) as Hw.
  destruct (slice_indices ny whole), (slice_indices nx _).
  rewrite Hw. reflexivity.
Qed.

Lemma select_at (n c : nat) :
  (c < n)%nat -> select n (At (Z.of_nat c)) = Some (c, 1%nat).
Proof.
  intros Hc. unfold select, index_in.
  destruct (Z.leb_spec (- Z.of_nat n) (Z.of_nat c)); [|lia].
  destruct (Z.ltb_spec (Z.of_nat c) (Z.of_nat n)); [|lia].
  destruct (Z.ltb_spec (Z.of_nat c) 0); [lia|].
  cbn [andb]. now rewrite Nat2Z.id.
Qed.

Lemma select_at_out (n : nat) (c : Z) :
  Z.of_nat n <= c -> select n (At c) = None.
Proof.
  intros Hc. unfold select, index_in.
  destruct (Z.ltb_spec c (Z.of_nat n)); [lia|].
  now rewrite andb_false_r.
Qed.

Lemma in_region_rows_at (ny nx i j c : nat) (a b : Z) :
  (i < ny)%nat -> (j < nx)%nat -> (c < nx)%nat -> 0 <= a <= b ->
  in_region ny nx (Span (range a b), At (Z.of_nat c)) i j
  = within (Z.to_nat a) (Z.to_nat (b - a)) i && (j =? c)%nat.
Proof.
  intros Hi Hj Hc Hab. unfold in_region. cbn [fst snd].
  rewrite select_at by assumption. cbn [select].
  rewrite <- (within_slice_range ny i a b) by assumption.
  destruct (slice_indices ny _). f_equal.
  unfold within. apply eq_true_iff_eq.
  rewrite andb_true_iff, Nat.leb_le, Nat.ltb_lt, Nat.eqb_eq. lia.
Qed.

Lemma in_region_empty_cols (ny nx i j : nat) (r : index) :
  in_region ny nx (r, Span (mk_slice None (Some 0))) i j = false.
Proof.
  unfold in_region. cbn [fst snd select].
  destruct (select ny r) as [[r0 rl]|]; [|reflexivity].
  unfold slice_indices, clip_bound, within. cbn [start stop].
  change (0 <? 0) with false. cbv iota.
  replace (Z.to_nat (Z.min (Z.of_nat nx) (Z.max 0 0)) - 0)%nat with 0%nat by lia.
  rewrite Nat.add_0_r.
  destruct (Nat.leb_spec 0 j), (Nat.ltb_spec j 0); try lia;
    try apply andb_false_r.
Qed.

Lemma selectable_spans (ny nx : nat) (s t : slice) :
  selectable ny nx (Span s, Span t).
Proof. split; discriminate. Qed.

Lemma selectable_rows_at (ny nx c : nat) (s : slice) :
  (c < nx)%nat -> selectable ny nx (Span s, At (Z.of_nat c)).
Proof.
  intros Hc. split; [discriminate|]. cbn [snd]. now rewrite select_at.
Qed.

Lemma check_2d_pair_Ok (data mask : ndarray Z) (ny nx : nat) :
  shape data = [ny; nx] -> shape mask = [ny; nx] ->
  check_2d_pair data mask = Ok tt.
Proof.
  intros Hd Hm. unfold check_2d_pair, ndim. rewrite Hd, Hm.
  cbn [length Nat.eqb negb orb].
  destruct (list_eq_dec Nat.eq_dec [ny; nx] [ny; nx]); [reflexivity|].
  contradiction.
Qed.

Lemma check_2d_pair_error (data mask : ndarray Z) :
  ndim data <> 2%nat \/ ndim mask <> 2%nat \/ shape data <> shape mask ->
  check_2d_pair data mask = Raise ValueError.
Proof.
  intros H. unfold check_2d_pair.
  destruct (Nat.eqb_spec (ndim data) 2), (Nat.eqb_spec (ndim mask) 2);
    cbn [negb orb]; try reflexivity.
  destruct (list_eq_dec Nat.eq_dec (shape data) (shape mask));
    [|reflexivity].
  exfalso. destruct H as [H|[H|H]]; contradiction.
Qed.

Lemma maxipix_gaps_cells (ny nx i j : nat) :
  (i < ny)%nat -> (j < nx)%nat ->
  in_regions ny nx maxipix_gaps i j = maxipix_gap i j.
Proof.
  intros Hi Hj. unfold in_regions, maxipix_gaps, maxipix_gap. cbn [existsb].
  rewrite in_region_cols, in_region_rows by (assumption || lia).
  now rewrite orb_false_r.
Qed.

Lemma eiger4m_gaps_cells (ny nx i j : nat) :
  (i < ny)%nat -> (j < nx)%nat ->
  in_regions ny nx eiger4m_gaps i j = eiger4m_gap i j.
Proof.
  intros Hi Hj. unfold in_regions, eiger4m_gaps, eiger4m_gap. cbn [existsb].
  rewrite in_region_cols, !in_region_rows by (assumption || lia).
  now rewrite orb_false_r, !orb_assoc.
Qed.

Lemma gap_mask_spec (gaps : list (index * index)) (gap : nat -> nat -> bool)
      (data mask : ndarray Z) (ny nx : nat) :
  shape data = [ny; nx] -> shape mask = [ny; nx] ->
  Forall (selectable ny nx) gaps ->
  (forall i j, (i < ny)%nat -> (j < nx)%nat ->
               in_regions ny nx gaps i j = gap i j) ->
  exists data' mask',
    (_ <- check_2d_pair data mask ;;
     data <- fill_regions data gaps 0 ;;
     mask <- fill_regions mask gaps 1 ;;
     Ok (data, mask)) = Ok (data', mask')
    /\ masked_where gap gap ny nx data mask data' mask'.
Proof.
  intros Hd Hm Hsel Hgap.
  rewrite (check_2d_pair_Ok data mask ny nx Hd Hm). cbn [bind].
  destruct (fill_regions_cells gaps 0 ny nx data Hd Hsel) as (data' & Ed & Hsd & Hcd).
  destruct (fill_regions_cells gaps 1 ny nx mask Hm Hsel) as (mask' & Em & Hsm & Hcm).
  rewrite Ed. cbn [bind]. rewrite Em. cbn [bind].
  exists data', mask'. split; [reflexivity|].
  split; [assumption|]. split; [assumption|].
  intros i j Hi Hj. rewrite Hcd, Hcm, Hgap by assumption. split; reflexivity.
Qed.

(** X15. [mask_maxipix] and [mask_eiger4m] on a 2D frame and a mask of the
    same shape, of any size: both return; the cells in the detector gaps
    (the cross of rows and columns 255 to 260 for the Maxipix; columns 1029
    to 1040 and rows 513 to 551, 1064 to 1102, 1614 to 1653 for the
    Eiger4M) are 0 in the returned data and 1 in the returned mask, all
    other cells are as given.  Arrays that are not 2D, or of different
    shapes, raise [ValueError]. *)
Theorem mask_maxipix_eiger4m_gaps (data mask : ndarray Z) :
  (ndim data <> 2%nat \/ ndim mask <> 2%nat \/ shape data <> shape mask ->
   mask_maxipix data mask = Raise ValueError
   /\ mask_eiger4m data mask = Raise ValueError)
  /\ (forall ny nx,
         shape data = [ny; nx] -> shape mask = [ny; nx] ->
         (exists data' mask',
             mask_maxipix data mask = Ok (data', mask')
             /\ masked_where maxipix_gap maxipix_gap ny nx data mask data' mask')
         /\ (exists data' mask',
                mask_eiger4m data mask = Ok (data', mask')
                /\ masked_where eiger4m_gap eiger4m_gap ny nx
                                data mask data' mask')).
Proof.
  split.
  - intros H. unfold mask_maxipix, mask_eiger4m.
    rewrite (check_2d_pair_error _ _ H). split; reflexivity.
  - intros ny nx Hd Hm. split.
    + apply gap_mask_spec; try assumption.
      * repeat constructor; discriminate.
      * intros i j. apply maxipix_gaps_cells.
    + apply gap_mask_spec; try assumption.
      * repeat constructor; discriminate.
      * intros i j. apply eiger4m_gaps_cells.
Qed.

Lemma mask_maxipix_eiger4m_gaps_witness :
  (mask_maxipix (mk_ndarray [2; 2]%nat [1; 2; 3; 4])
                (mk_ndarray [4]%nat [0; 0; 0; 0]) = Raise ValueError
   /\ mask_eiger4m (mk_ndarray [2; 2]%nat [1; 2; 3; 4])
                   (mk_ndarray [4]%nat [0; 0; 0; 0]) = Raise ValueError)
  /\ (exists data' mask',
         mask_maxipix (mk_ndarray [256; 2]%nat (repeat 7 512))
                      (mk_ndarray [256; 2]%nat (repeat 0 512))
         = Ok (data', mask')
         /\ cell2 0 data' 255 1 = 0 /\ cell2 0 mask' 255 1 = 1
         /\ cell2 0 data' 254 1 = 7 /\ cell2 0 mask' 254 1 = 0)
  /\ (exists data' mask',
         mask_eiger4m (mk_ndarray [1; 1030]%nat (repeat 7 1030))
                      (mk_ndarray [1; 1030]%nat (repeat 0 1030))
         = Ok (data', mask')
         /\ cell2 0 data' 0 1029 = 0 /\ cell2 0 mask' 0 1029 = 1
         /\ cell2 0 data' 0 1028 = 7 /\ cell2 0 mask' 0 1028 = 0)
  /\ (exists data' mask',
         mask_eiger4m (mk_ndarray [514; 1]%nat (repeat 7 514))
                      (mk_ndarray [514; 1]%nat (repeat 0 514))
         = Ok (data', mask')
         /\ cell2 0 data' 513 0 = 0 /\ cell2 0 mask' 513 0 = 1
         /\ cell2 0 data' 512 0 = 7 /\ cell2 0 mask' 512 0 = 0).
Proof.
  split; [|split; [|split]].
  - apply (proj1 (mask_maxipix_eiger4m_gaps (mk_ndarray [2; 2]%nat [1; 2; 3; 4])
                    (mk_ndarray [4]%nat [0; 0; 0; 0]))).
    right. left. discriminate.
  - destruct (proj2 (mask_maxipix_eiger4m_gaps
                       (mk_ndarray [256; 2]%nat (repeat 7 512))
                       (mk_ndarray [256; 2]%nat (repeat 0 512)))
                256%nat 2%nat eq_refl eq_refl)
      as [(data' & mask' & E & _ & _ & Hcells) _].
    exists data', mask'. split; [exact E|].
    destruct (Hcells 255%nat 1%nat ltac:(lia) ltac:(lia)) as [H1 H2].
    destruct (Hcells 254%nat 1%nat ltac:(lia) ltac:(lia)) as [H3 H4].
    repeat split; assumption.
  - destruct (proj2 (mask_maxipix_eiger4m_gaps
                       (mk_ndarray [1; 1030]%nat (repeat 7 1030))
                       (mk_ndarray [1; 1030]%nat (repeat 0 1030)))
                1%nat 1030%nat eq_refl eq_refl)
      as [_ (data' & mask' & E & _ & _ & Hcells)].
    exists data', mask'. split; [exact E|].
    destruct (Hcells 0%nat 1029%nat ltac:(lia) ltac:(lia)) as [H1 H2].
    destruct (Hcells 0%nat 1028%nat ltac:(lia) ltac:(lia)) as [H3 H4].
    repeat split; assumption.
  - destruct (proj2 (mask_maxipix_eiger4m_gaps
                       (mk_ndarray [514; 1]%nat (repeat 7 514))
                       (mk_ndarray [514; 1]%nat (repeat 0 514)))
                514%nat 1%nat eq_refl eq_refl)
      as [_ (data' & mask' & E & _ & _ & Hcells)].
    exists data', mask'. split; [exact E|].
    destruct (Hcells 513%nat 0%nat ltac:(lia) ltac:(lia)) as [H1 H2].
    destruct (Hcells 512%nat 0%nat ltac:(lia) ltac:(lia)) as [H3 H4].
    repeat split; assumption.
Defined.

Lemma eiger_data_cells (ny nx i j : nat) :
  (i < ny)%nat -> (j < nx)%nat -> (481 < nx)%nat ->
  in_regions ny nx eiger_data_regions i j = eiger_zeroed i j.
Proof.
  intros Hi Hj Hnx. unfold in_regions, eiger_data_regions, eiger_zeroed.
  cbn [existsb].
  change 478 with (Z.of_nat 478). change 481 with (Z.of_nat 481).
  rewrite !in_region_cols, !in_region_rows, !in_region_box, !in_region_rows_at,
    in_region_empty_cols by (assumption || lia).
  rewrite orb_false_l, !orb_false_r, !orb_assoc. reflexivity.
Qed.

Lemma eiger_mask_cells (ny nx i j : nat) :
  (i < ny)%nat -> (j < nx)%nat -> (481 < nx)%nat ->
  in_regions ny nx eiger_mask_regions i j = eiger_masked i j.
Proof.
  intros Hi Hj Hnx.
  unfold in_regions, eiger_mask_regions, eiger_masked, eiger_zeroed.
  cbn [existsb].
  change 478 with (Z.of_nat 478). change 481 with (Z.of_nat 481).
  rewrite !in_region_cols, !in_region_rows, !in_region_box, !in_region_rows_at
    by (assumption || lia).
  rewrite !orb_false_r, !orb_assoc.
  change (Z.to_nat (552 - 511)) with 41%nat.
  change (Z.to_nat 511) with 511%nat.
  destruct (within 511 41 i); [now rewrite !orb_true_r | now rewrite !orb_false_r].
Qed.

Lemma within_outside (a n i : nat) :
  (i < a \/ a + n <= i)%nat -> within a n i = false.
Proof.
  intros H. unfold within.
  destruct (Nat.leb_spec a i), (Nat.ltb_spec i (a + n)); try reflexivity. lia.
Qed.

Lemma eiger_band_not_zeroed (i j : nat) :
  (511 <= i < 552)%nat -> (j < 72)%nat -> eiger_zeroed i j = false.
Proof.
  intros Hi Hj. unfold eiger_zeroed.
  rewrite !within_outside by lia. reflexivity.
Qed.

(** X16. [mask_eiger] on a 2D frame and a mask of the same shape.  With at
    most 481 columns the call raises [IndexError] (the writes to the
    columns 478 and 481).  With more, it returns; the returned mask is 1 on
    every gap and bad-pixel region, but the returned data is 0 on all of
    them except the rows 511 to 551, which are masked without being set to
    zero (the write [data[511:552, :0]] selects no column). *)
Theorem mask_eiger_gaps (data mask : ndarray Z) (ny nx : nat) :
  shape data = [ny; nx] -> shape mask = [ny; nx] ->
  ((nx <= 481)%nat -> mask_eiger data mask = Raise IndexError)
  /\ ((481 < nx)%nat ->
      exists data' mask',
        mask_eiger data mask = Ok (data', mask')
        /\ masked_where eiger_zeroed eiger_masked ny nx data mask data' mask'
        /\ forall i j, (511 <= i < 552)%nat -> (i < ny)%nat -> (j < 72)%nat ->
                       cell2 0 mask' i j = 1
                       /\ cell2 0 data' i j = cell2 0 data i j).
Proof.
  intros Hd Hm. unfold mask_eiger.
  rewrite (check_2d_pair_Ok data mask ny nx Hd Hm). cbn [bind].
  split.
  - intros Hnx.
    rewrite (fill_regions_index_error eiger_data_regions 0 ny nx data Hd);
      [reflexivity|].
    apply Exists_exists. exists (Span (range 1214 1298), At 481).
    split; [do 12 right; left; reflexivity|].
    intros [_ Hc]. cbn [snd] in Hc. rewrite select_at_out in Hc by lia.
    now apply Hc.
  - intros Hnx.
    assert (Hseld : Forall (selectable ny nx) eiger_data_regions).
    { unfold eiger_data_regions, cols, rows, box.
      change 478 with (Z.of_nat 478). change 481 with (Z.of_nat 481).
      repeat constructor; try discriminate;
        cbn [snd]; rewrite select_at by lia; discriminate. }
    assert (Hselm : Forall (selectable ny nx) eiger_mask_regions).
    { unfold eiger_mask_regions, cols, rows, box.
      change 478 with (Z.of_nat 478). change 481 with (Z.of_nat 481).
      repeat constructor; try discriminate;
        cbn [snd]; rewrite select_at by lia; discriminate. }
    destruct (fill_regions_cells _ 0 ny nx data Hd Hseld)
      as (data' & Ed & Hsd & Hcd).
    destruct (fill_regions_cells _ 1 ny nx mask Hm Hselm)
      as (mask' & Em & Hsm & Hcm).
    rewrite Ed. cbn [bind]. rewrite Em. cbn [bind].
    exists data', mask'. split; [reflexivity|].
    assert (Hcells : forall i j, (i < ny)%nat -> (j < nx)%nat ->
                cell2 0 data' i j = (if eiger_zeroed i j then 0 else cell2 0 data i j)
                /\ cell2 0 mask' i j = (if eiger_masked i j then 1 else cell2 0 mask i j)).
    { intros i j Hi Hj.
      rewrite Hcd, Hcm, eiger_data_cells, eiger_mask_cells by assumption.
      split; reflexivity. }
    split; [split; [assumption | split; assumption]|].
    intros i j Hband Hi Hj.
    destruct (Hcells i j Hi ltac:(lia)) as [Hdc Hmc].
    rewrite Hdc, Hmc. unfold eiger_masked.
    rewrite eiger_band_not_zeroed by assumption. cbn [orb].
    unfold within.
    destruct (Nat.leb_spec 511 i), (Nat.ltb_spec i (511 + 41)); try lia.
    split; reflexivity.
Qed.

Lemma mask_eiger_gaps_witness :
  mask_eiger (mk_ndarray [1; 2]%nat [5; 6]) (mk_ndarray [1; 2]%nat [0; 0])
  = Raise IndexError
  /\ exists data' mask',
      mask_eiger (mk_ndarray [1; 482]%nat (repeat 7 482))
                 (mk_ndarray [1; 482]%nat (repeat 0 482)) = Ok (data', mask')
      /\ cell2 0 data' 0 255 = 0 /\ cell2 0 mask' 0 255 = 1
      /\ cell2 0 data' 0 478 = 7 /\ cell2 0 mask' 0 478 = 0.
Proof.
  split.
  - apply (proj1 (mask_eiger_gaps (mk_ndarray [1; 2]%nat [5; 6])
                    (mk_ndarray [1; 2]%nat [0; 0]) 1 2 eq_refl eq_refl)).
    lia.
  - destruct (proj2 (mask_eiger_gaps (mk_ndarray [1; 482]%nat (repeat 7 482))
                       (mk_ndarray [1; 482]%nat (repeat 0 482)) 1 482
                       eq_refl eq_refl) ltac:(lia))
      as (data' & mask' & E & (_ & _ & Hcells) & _).
    exists data', mask'. split; [exact E|].
    destruct (Hcells 0%nat 255%nat ltac:(lia) ltac:(lia)) as [H1 H2].
    destruct (Hcells 0%nat 478%nat ltac:(lia) ltac:(lia)) as [H3 H4].
    repeat split; assumption.
Defined.

(** ** Hot pixels *)

Lemma cell3_tabulate3 (nz ny nx : nat) (f : nat -> nat -> nat -> Z) (i j k : nat) :
  (i < nz)%nat -> (j < ny)%nat -> (k < nx)%nat ->
  cell3 0 (mk_ndarray [nz; ny; nx] (tabulate3 nz ny nx f)) i j k = f i j k.
Proof. intros Hi Hj Hk. unfold cell3. cbn [shape buf]. now apply nth_tabulate3. Qed.

Lemma assign_where_cells (a cond : ndarray Z) (v : Z) (ny nx : nat) :
  shape a = [ny; nx] -> shape cond = [ny; nx] ->
  exists a',
    assign_where a cond v = Ok a' /\ shape a' = [ny; nx]
    /\ forall i j, (i < ny)%nat -> (j < nx)%nat ->
                   cell2 0 a' i j
                   = if cell2 0 cond i j =? 1 then v else cell2 0 a i j.
Proof.
  intros Ha Hc. unfold assign_where. rewrite Ha, Hc.
  destruct (list_eq_dec Nat.eq_dec [ny; nx] [ny; nx]); [|contradiction].
  eexists. split; [reflexivity|]. split; [reflexivity|].
  intros i j Hi Hj. now rewrite cell2_tabulate2.
Qed.

Lemma assign_where_frame_cells (a cond : ndarray Z) (idx : nat) (v : Z)
      (nz ny nx : nat) :
  shape a = [nz; ny; nx] ->
  shape (assign_where_frame a cond idx v) = [nz; ny; nx]
  /\ forall i j k, (i < nz)%nat -> (j < ny)%nat -> (k < nx)%nat ->
                   cell3 0 (assign_where_frame a cond idx v) i j k
                   = if (i =? idx)%nat && (cell2 0 cond j k =? 1) then v
                     else cell3 0 a i j k.
Proof.
  intros Ha. unfold assign_where_frame. rewrite Ha.
  split; [reflexivity|]. intros i j k Hi Hj Hk. now rewrite cell3_tabulate3.
Qed.

(** The loop over the frames, after [m] turns. *)
Lemma hotpixel_frames_cells (data mask hot : ndarray Z) (nz ny nx : nat) :
  shape data = [nz; ny; nx] -> shape mask = [nz; ny; nx] ->
  forall m, (m <= nz)%nat ->
    exists data' mask',
      fold_left (fun '(data, mask) idx =>
                   (assign_where_frame data hot idx 0,
                    assign_where_frame mask hot idx 1))
                (seq 0 m) (data, mask) = (data', mask')
      /\ shape data' = [nz; ny; nx] /\ shape mask' = [nz; ny; nx]
      /\ forall i j k, (i < nz)%nat -> (j < ny)%nat -> (k < nx)%nat ->
           cell3 0 data' i j k
           = (if (i <? m)%nat && (cell2 0 hot j k =? 1) then 0
              else cell3 0 data i j k)
           /\ cell3 0 mask' i j k
              = (if (i <? m)%nat && (cell2 0 hot j k =? 1) then 1
                 else cell3 0 mask i j k).
Proof.
  intros Hd Hm. induction m as [|m IH]; intros Hle.
  - exists data, mask. cbn [seq fold_left]. repeat split; assumption.
  - destruct (IH ltac:(lia)) as (d & k' & E & Hsd & Hsm & Hc).
    rewrite seq_S, fold_left_app, E. cbn [fold_left Nat.add].
    destruct (assign_where_frame_cells d hot m 0 nz ny nx Hsd) as [Hsd' Hcd].
    destruct (assign_where_frame_cells k' hot m 1 nz ny nx Hsm) as [Hsm' Hcm].
    eexists _, _. split; [reflexivity|]. split; [assumption|].
    split; [assumption|].
    intros i j k Hi Hj Hk. rewrite Hcd, Hcm by assumption.
    destruct (Hc i j k Hi Hj Hk) as [-> ->].
    destruct (Nat.eqb_spec i m), (Nat.ltb_spec i m), (Nat.ltb_spec i (S m));
      try lia; cbn [andb]; destruct (cell2 0 hot j k =? 1); split; reflexivity.
Qed.

Lemma remove_hotpixels_map (data mask hot : ndarray Z) :
  ndim hot <> 3%nat ->
  (shape data <> shape mask ->
   remove_hotpixels data mask hot = Raise ValueError)
  /\ (forall ny nx,
         shape data = [ny; nx] -> shape mask = [ny; nx] ->
         (shape hot <> [ny; nx] ->
          remove_hotpixels data mask hot = Raise ValueError)
         /\ (shape hot = [ny; nx] ->
             exists data' mask',
               remove_hotpixels data mask hot = Ok (data', mask')
               /\ shape data' = [ny; nx] /\ shape mask' = [ny; nx]
               /\ forall i j, (i < ny)%nat -> (j < nx)%nat ->
                    cell2 0 data' i j
                    = (if cell2 0 hot i j =? 1 then 0 else cell2 0 data i j)
                    /\ cell2 0 mask' i j
                       = (if cell2 0 hot i j =? 1 then 1 else cell2 0 mask i j)))
  /\ (forall nz ny nx,
         shape data = [nz; ny; nx] -> shape mask = [nz; ny; nx] ->
         (nz = 0%nat -> remove_hotpixels data mask hot = Raise IndexError)
         /\ ((0 < nz)%nat -> shape hot <> [ny; nx] ->
             remove_hotpixels data mask hot = Raise ValueError)
         /\ ((0 < nz)%nat -> shape hot = [ny; nx] ->
             exists data' mask',
               remove_hotpixels data mask hot = Ok (data', mask')
               /\ shape data' = [nz; ny; nx] /\ shape mask' = [nz; ny; nx]
               /\ forall i j k, (i < nz)%nat -> (j < ny)%nat -> (k < nx)%nat ->
                    cell3 0 data' i j k
                    = (if cell2 0 hot j k =? 1 then 0 else cell3 0 data i j k)
                    /\ cell3 0 mask' i j k
                       = (if cell2 0 hot j k =? 1 then 1
                          else cell3 0 mask i j k))).
Proof.
  intros Hnd. unfold remove_hotpixels.
  destruct (Nat.eqb_spec (ndim hot) 3) as [|_]; [contradiction|].
  split; [|split].
  - intros Hne.
    destruct (list_eq_dec Nat.eq_dec (shape data) (shape mask));
      [contradiction | reflexivity].
  - intros ny nx Hd Hm. rewrite Hd, Hm.
    destruct (list_eq_dec Nat.eq_dec [ny; nx] [ny; nx]); [|contradiction].
    cbn [negb]. split.
    + intros Hne.
      destruct (list_eq_dec Nat.eq_dec [ny; nx] (shape hot));
        [congruence | reflexivity].
    + intros Hh.
      destruct (list_eq_dec Nat.eq_dec [ny; nx] (shape hot)); [|congruence].
      cbn [negb].
      destruct (assign_where_cells data hot 0 ny nx Hd Hh) as (d & Ed & Hsd & Hcd).
      destruct (assign_where_cells mask hot 1 ny nx Hm Hh) as (k & Ek & Hsk & Hck).
      rewrite Ed. cbn [bind]. rewrite Ek. cbn [bind].
      exists d, k. split; [reflexivity|]. split; [assumption|].
      split; [assumption|]. intros i j Hi Hj. split; auto.
  - intros nz ny nx Hd Hm. rewrite Hd, Hm.
    destruct (list_eq_dec Nat.eq_dec [nz; ny; nx] [nz; ny; nx]); [|contradiction].
    cbn [negb]. split; [|split].
    + intros ->. reflexivity.
    + intros Hnz Hne. destruct (Nat.eqb_spec nz 0); [lia|].
      destruct (list_eq_dec Nat.eq_dec [ny; nx] (shape hot));
        [congruence | reflexivity].
    + intros Hnz Hh. destruct (Nat.eqb_spec nz 0); [lia|].
      destruct (list_eq_dec Nat.eq_dec [ny; nx] (shape hot)); [|congruence].
      cbn [negb].
      destruct (hotpixel_frames_cells data mask hot nz ny nx Hd Hm nz (Nat.le_refl _))
        as (d & k & E & Hsd & Hsk & Hc).
      rewrite E. exists d, k. split; [reflexivity|]. split; [assumption|].
      split; [assumption|]. intros i j k' Hi Hj Hk.
      destruct (Hc i j k' Hi Hj Hk) as [-> ->].
      destruct (Nat.ltb_spec i nz); [|lia]. cbn [andb]. split; reflexivity.
Qed.

(** X17. [remove_hotpixels] with a 2D map of hot pixels.  On 2D data and
    mask of the shape of the map, and on 3D data and mask whose frames have
    the shape of the map, the call returns: the pixels where the map is
    exactly 1 are set to 0 in the data and to 1 in the mask (in every
    frame), every other pixel is as given.  Data and mask of different
    shapes, or a map of another shape, raise [ValueError]; 3D data without
    frames raises [IndexError]. *)
Theorem remove_hotpixels_cells (data mask hot : ndarray Z) :
  ndim hot <> 3%nat ->
  (shape data <> shape mask ->
   remove_hotpixels data mask hot = Raise ValueError)
  /\ (forall ny nx,
         shape data = [ny; nx] -> shape mask = [ny; nx] ->
         (shape hot <> [ny; nx] ->
          remove_hotpixels data mask hot = Raise ValueError)
         /\ (shape hot = [ny; nx] ->
             exists data' mask',
               remove_hotpixels data mask hot = Ok (data', mask')
               /\ shape data' = [ny; nx] /\ shape mask' = [ny; nx]
               /\ forall i j, (i < ny)%nat -> (j < nx)%nat ->
                    cell2 0 data' i j
                    = (if cell2 0 hot i j =? 1 then 0 else cell2 0 data i j)
                    /\ cell2 0 mask' i j
                       = (if cell2 0 hot i j =? 1 then 1 else cell2 0 mask i j)))
  /\ (forall nz ny nx,
         shape data = [nz; ny; nx] -> shape mask = [nz; ny; nx] ->
         (nz = 0%nat -> remove_hotpixels data mask hot = Raise IndexError)
         /\ ((0 < nz)%nat -> shape hot <> [ny; nx] ->
             remove_hotpixels data mask hot = Raise ValueError)
         /\ ((0 < nz)%nat -> shape hot = [ny; nx] ->
             exists data' mask',
               remove_hotpixels data mask hot = Ok (data', mask')
               /\ shape data' = [nz; ny; nx] /\ shape mask' = [nz; ny; nx]
               /\ forall i j k, (i < nz)%nat -> (j < ny)%nat -> (k < nx)%nat ->
                    cell3 0 data' i j k
                    = (if cell2 0 hot j k =? 1 then 0 else cell3 0 data i j k)
                    /\ cell3 0 mask' i j k
                       = (if cell2 0 hot j k =? 1 then 1
                          else cell3 0 mask i j k))).
Proof. apply remove_hotpixels_map. Qed.

Lemma remove_hotpixels_cells_witness :
  remove_hotpixels (mk_ndarray [1; 2]%nat [5; 6]) (mk_ndarray [1; 2]%nat [0; 0])
                   (mk_ndarray [1; 2]%nat [1; 2])
  = Ok (mk_ndarray [1; 2]%nat [0; 6], mk_ndarray [1; 2]%nat [1; 0]).
Proof.
  destruct (proj2 (proj1 (proj2 (remove_hotpixels_cells
              (mk_ndarray [1; 2]%nat [5; 6]) (mk_ndarray [1; 2]%nat [0; 0])
              (mk_ndarray [1; 2]%nat [1; 2]) ltac:(discriminate)))
              1%nat 2%nat eq_refl eq_refl) eq_refl)
    as (data' & mask' & E & _).
  rewrite E. vm_compute in E. symmetry. exact E.
Defined.

Lemma sum_app (l1 l2 : list Z) :
  fold_right Z.add 0 (l1 ++ l2)
  = fold_right Z.add 0 l1 + fold_right Z.add 0 l2.
Proof. induction l1 as [|x l1 IH]; cbn [app fold_right]; lia. Qed.

Lemma sum_seq_S (g : nat -> Z) (n : nat) :
  fold_right Z.add 0 (map g (seq 0 (S n)))
  = fold_right Z.add 0 (map g (seq 0 n)) + g n.
Proof.
  rewrite seq_S, map_app, sum_app. cbn [map fold_right Nat.add]. lia.
Qed.

Lemma sum_seq_nonneg (g : nat -> Z) (n : nat) :
  (forall f, 0 <= g f) -> 0 <= fold_right Z.add 0 (map g (seq 0 n)).
Proof.
  intros Hg. induction n as [|n IH]; [cbn; lia|].
  rewrite sum_seq_S. specialize (Hg n). lia.
Qed.

Lemma sum_seq_ge_one (g : nat -> Z) (n f : nat) :
  (forall f, 0 <= g f) -> (f < n)%nat ->
  g f <= fold_right Z.add 0 (map g (seq 0 n)).
Proof.
  intros Hg. induction n as [|n IH]; intros Hf; [lia|].
  rewrite sum_seq_S. pose proof (sum_seq_nonneg g n Hg). pose proof (Hg n).
  destruct (Nat.eq_dec f n) as [->|Hne]; [lia|].
  specialize (IH ltac:(lia)). lia.
Qed.

Lemma sum_seq_ge_two (g : nat -> Z) (n f1 f2 : nat) :
  (forall f, 0 <= g f) -> (f1 < f2 < n)%nat ->
  g f1 + g f2 <= fold_right Z.add 0 (map g (seq 0 n)).
Proof.
  intros Hg. induction n as [|n IH]; intros Hf; [lia|].
  rewrite sum_seq_S. pose proof (Hg n).
  destruct (Nat.eq_dec f2 n) as [->|Hne].
  - pose proof (sum_seq_ge_one g n f1 Hg ltac:(lia)). lia.
  - specialize (IH ltac:(lia)). lia.
Qed.

Lemma sum_axis0_cells (hot : ndarray Z) (nh ny nx : nat) :
  shape hot = [nh; ny; nx] ->
  shape (sum_axis0 hot) = [ny; nx]
  /\ forall j k, (j < ny)%nat -> (k < nx)%nat ->
                 cell2 0 (sum_axis0 hot) j k = hot_sum hot j k.
Proof.
  intros Hs. unfold sum_axis0, hot_sum. rewrite Hs. split; [reflexivity|].
  intros j k Hj Hk. now rewrite cell2_tabulate2.
Qed.

(** X18. [remove_hotpixels] with a 3D stack of hot-pixel maps works on the
    sum of the stack along its first axis, and removes the pixels where
    that sum is exactly 1.  So, on 2D data and mask of the frame shape, a
    pixel flagged (value 1) in two frames of a stack of non-negative maps
    is not removed: data and mask keep their values there. *)
Theorem remove_hotpixels_stack (data mask hot : ndarray Z) (nh ny nx : nat) :
  shape hot = [nh; ny; nx] ->
  remove_hotpixels data mask hot = remove_hotpixels data mask (sum_axis0 hot)
  /\ (shape data = [ny; nx] -> shape mask = [ny; nx] ->
      exists data' mask',
        remove_hotpixels data mask hot = Ok (data', mask')
        /\ (forall i j, (i < ny)%nat -> (j < nx)%nat ->
               cell2 0 data' i j
               = (if hot_sum hot i j =? 1 then 0 else cell2 0 data i j)
               /\ cell2 0 mask' i j
                  = (if hot_sum hot i j =? 1 then 1 else cell2 0 mask i j))
        /\ (forall i j f1 f2,
               (i < ny)%nat -> (j < nx)%nat -> (f1 < f2 < nh)%nat ->
               (forall f y x, 0 <= cell3 0 hot f y x) ->
               cell3 0 hot f1 i j = 1 -> cell3 0 hot f2 i j = 1 ->
               cell2 0 data' i j = cell2 0 data i j
               /\ cell2 0 mask' i j = cell2 0 mask i j)).
Proof.
  intros Hh. destruct (sum_axis0_cells hot nh ny nx Hh) as [Hs Hc].
  assert (Heq : remove_hotpixels data mask hot
                = remove_hotpixels data mask (sum_axis0 hot)).
  { unfold remove_hotpixels, ndim. rewrite Hs, Hh. reflexivity. }
  split; [exact Heq|].
  intros Hd Hm. rewrite Heq.
  destruct (remove_hotpixels_map data mask (sum_axis0 hot)) as (_ & H2 & _).
  { unfold ndim. rewrite Hs. discriminate. }
  destruct (H2 ny nx Hd Hm) as [_ H2'].
  destruct (H2' Hs) as (data' & mask' & E & _ & _ & Hcells).
  exists data', mask'. split; [assumption|].
  assert (Hsum : forall i j, (i < ny)%nat -> (j < nx)%nat ->
             cell2 0 data' i j
             = (if hot_sum hot i j =? 1 then 0 else cell2 0 data i j)
             /\ cell2 0 mask' i j
                = (if hot_sum hot i j =? 1 then 1 else cell2 0 mask i j)).
  { intros i j Hi Hj. destruct (Hcells i j Hi Hj) as [-> ->].
    rewrite Hc by assumption. split; reflexivity. }
  split; [exact Hsum|].
  intros i j f1 f2 Hi Hj Hf Hpos H1 H2f.
  destruct (Hsum i j Hi Hj) as [-> ->].
  assert (Hge : 2 <= hot_sum hot i j).
  { unfold hot_sum. rewrite Hh.
    pose proof (sum_seq_ge_two (fun f => cell3 0 hot f i j) nh f1 f2
                  (fun f => Hpos f i j) Hf) as Hge.
    cbv beta in Hge. lia. }
  destruct (Z.eqb_spec (hot_sum hot i j) 1); [lia|]. split; reflexivity.
Qed.

Lemma remove_hotpixels_stack_witness :
  remove_hotpixels (mk_ndarray [1; 2]%nat [5; 6]) (mk_ndarray [1; 2]%nat [0; 0])
                   (mk_ndarray [2; 1; 2]%nat [1; 1; 1; 0])
  = Ok (mk_ndarray [1; 2]%nat [5; 0], mk_ndarray [1; 2]%nat [0; 1]).
Proof.
  rewrite (proj1 (remove_hotpixels_stack
                    (mk_ndarray [1; 2]%nat [5; 6]) (mk_ndarray [1; 2]%nat [0; 0])
                    (mk_ndarray [2; 1; 2]%nat [1; 1; 1; 0]) 2 1 2 eq_refl)).
  reflexivity.
Defined.

(** ** The mean filter *)

Lemma argwhere_zero_In (data : ndarray Z) (ny nx i j : nat) :
  shape data = [ny; nx] ->
  In (i, j) (argwhere_zero data)
  <-> (i < ny)%nat /\ (j < nx)%nat /\ cell2 0 data i j = 0.
Proof.
  intros Hs. unfold argwhere_zero. rewrite Hs, filter_In, in_flat_map.
  split.
  - intros [(i' & Hi & Hj) Hz]. apply in_map_iff in Hj.
    destruct Hj as (j' & [= <- <-] & Hj). apply in_seq in Hi, Hj.
    apply Z.eqb_eq in Hz. repeat split; assumption || lia.
  - intros (Hi & Hj & Hz). split; [|now apply Z.eqb_eq].
    exists i. split; [apply in_seq; lia|].
    apply in_map_iff. exists j. split; [reflexivity | apply in_seq; lia].
Qed.

Lemma getitem2_Ok (a : ndarray Z) (r c : slice) (ny nx : nat) :
  shape a = [ny; nx] -> exists temp, getitem2 0 a r c = Ok temp.
Proof.
  intros Hs. unfold getitem2. rewrite Hs.
  destruct (slice_indices ny r), (slice_indices nx c). eauto.
Qed.

Lemma fill2_at (a : ndarray Z) (r c : nat) (v : Z) (ny nx : nat) :
  shape a = [ny; nx] -> (r < ny)%nat -> (c < nx)%nat ->
  exists a',
    fill2 0 a (At (Z.of_nat r)) (At (Z.of_nat c)) v = Ok a'
    /\ shape a' = [ny; nx]
    /\ forall i j, (i < ny)%nat -> (j < nx)%nat ->
                   cell2 0 a' i j
                   = if ((i =? r) && (j =? c))%nat then v else cell2 0 a i j.
Proof.
  intros Hs Hr Hc.
  destruct (fill2_selectable a (At (Z.of_nat r)) (At (Z.of_nat c)) v ny nx Hs)
    as [a' E].
  { split; cbn [fst snd]; rewrite select_at by assumption; discriminate. }
  destruct (fill2_cells a a' _ _ v ny nx Hs E) as [Hs' Hcells].
  exists a'. split; [assumption|]. split; [assumption|].
  intros i j Hi Hj. rewrite Hcells by assumption.
  unfold in_region. cbn [fst snd]. rewrite !select_at by assumption.
  unfold within.
  destruct (Nat.eqb_spec i r), (Nat.eqb_spec j c),
           (Nat.leb_spec r i), (Nat.ltb_spec i (r + 1)),
           (Nat.leb_spec c j), (Nat.ltb_spec j (c + 1));
    cbn [andb]; try reflexivity; lia.
Qed.

(** One turn of the loop when pixels are masked, not interpolated: the
    data is not touched. *)
Lemma mean_filter_step_mask (quotient : Z -> Z -> Z) (data mask : ndarray Z)
      (nb_neighbours n : Z) (r c ny nx : nat) :
  shape data = [ny; nx] -> shape mask = [ny; nx] ->
  (r < ny)%nat -> (c < nx)%nat ->
  exists mask',
    mean_filter_step quotient nb_neighbours false (data, n, mask) (r, c)
    = Ok (data, if isolated data nb_neighbours r c then n + 1 else n, mask')
    /\ shape mask' = [ny; nx]
    /\ forall i j, (i < ny)%nat -> (j < nx)%nat ->
         cell2 0 mask' i j
         = if ((i =? r) && (j =? c))%nat && isolated data nb_neighbours r c
           then 1 else cell2 0 mask i j.
Proof.
  intros Hd Hm Hr Hc. unfold mean_filter_step, isolated.
  destruct (getitem2_Ok data (range (Z.of_nat r - 1) (Z.of_nat r + 2))
              (range (Z.of_nat c - 1) (Z.of_nat c + 2)) ny nx Hd) as [temp ->].
  cbn [bind].
  destruct (negb (length (buf temp) =? 0)%nat && (24 <? total temp)
            && (nb_neighbours <=? nonzero_count temp)).
  - destruct (fill2_at mask r c 1 ny nx Hm Hr Hc) as (mask' & -> & Hs & Hcells).
    cbn [bind]. exists mask'. split; [reflexivity|]. split; [assumption|].
    intros i j Hi Hj. rewrite Hcells by assumption. now rewrite andb_true_r.
  - exists mask. split; [reflexivity|]. split; [assumption|].
    intros i j Hi Hj. now rewrite andb_false_r.
Qed.

Lemma mean_filter_loop_mask (quotient : Z -> Z -> Z) (data : ndarray Z)
      (nb_neighbours : Z) (ny nx : nat) (pixels : list (nat * nat)) :
  shape data = [ny; nx] ->
  Forall (fun '(r, c) => (r < ny)%nat /\ (c < nx)%nat) pixels ->
  forall mask n,
    shape mask = [ny; nx] ->
    exists mask',
      mean_filter_loop quotient nb_neighbours false pixels (data, n, mask)
      = Ok (data,
            n + Z.of_nat (length (filter (fun '(r, c) =>
                                            isolated data nb_neighbours r c)
                                         pixels)),
            mask')
      /\ shape mask' = [ny; nx]
      /\ forall i j, (i < ny)%nat -> (j < nx)%nat ->
           cell2 0 mask' i j
           = if existsb (fun '(r, c) =>
                           ((i =? r) && (j =? c))%nat
                           && isolated data nb_neighbours r c) pixels
             then 1 else cell2 0 mask i j.
Proof.
  intros Hd Hall. induction pixels as [|[r c] rest IH]; intros mask n Hm.
  - exists mask. cbn. rewrite Z.add_0_r. repeat split; assumption || reflexivity.
  - inversion Hall as [|? ? Hrc Hrest]; subst. destruct Hrc as [Hr Hc].
    specialize (IH Hrest).
    destruct (mean_filter_step_mask quotient data mask nb_neighbours n r c ny nx
                Hd Hm Hr Hc) as (mask1 & E1 & Hs1 & Hc1).
    destruct (IH mask1
                (if isolated data nb_neighbours r c then n + 1 else n) Hs1)
      as (mask' & E & Hs' & Hcells).
    exists mask'. cbn [mean_filter_loop]. rewrite E1. cbn [bind]. rewrite E.
    split; [|split; [assumption|]].
    + do 3 f_equal. cbn [filter].
      destruct (isolated data nb_neighbours r c); cbn [length]; lia.
    + intros i j Hi Hj. rewrite Hcells, Hc1 by assumption. cbn [existsb].
      destruct (((i =? r) && (j =? c))%nat && isolated data nb_neighbours r c),
               (existsb _ rest); reflexivity.
Qed.

(** X19. [mean_filter] with [interpolate=False] on a 2D frame and a mask
    of the same shape: the call returns the data untouched; the mask is set
    to 1 exactly on the zero-valued pixels whose 3x3 window passes the test
    (not empty, sum above 24, at least [nb_neighbours] non-zero pixels) and
    is unchanged elsewhere; [nb_pixels] is the number of those pixels. *)
Theorem mean_filter_masks_isolated_zeros (quotient : Z -> Z -> Z)
    (data mask : ndarray Z) (nb_neighbours : Z) (ny nx : nat) :
  shape data = [ny; nx] -> shape mask = [ny; nx] ->
  exists mask',
    mean_filter quotient data nb_neighbours mask false
    = Ok (data,
          Z.of_nat (length (filter (fun '(r, c) =>
                                      isolated data nb_neighbours r c)
                                   (argwhere_zero data))),
          mask')
    /\ shape mask' = [ny; nx]
    /\ forall i j, (i < ny)%nat -> (j < nx)%nat ->
         cell2 0 mask' i j
         = if treated data nb_neighbours i j then 1 else cell2 0 mask i j.
Proof.
  intros Hd Hm. unfold mean_filter, ndim. rewrite Hd, Hm.
  cbn [length Nat.eqb negb orb].
  destruct (mean_filter_loop_mask quotient data nb_neighbours ny nx
              (argwhere_zero data) Hd) with (mask := mask) (n := 0)
    as (mask' & E & Hs & Hcells); [|assumption|].
  { apply Forall_forall. intros [r c] Hin.
    apply (argwhere_zero_In data ny nx r c Hd) in Hin. tauto. }
  exists mask'. rewrite E. split; [reflexivity|]. split; [assumption|].
  intros i j Hi Hj. rewrite Hcells by assumption.
  replace (existsb _ (argwhere_zero data)) with (treated data nb_neighbours i j);
    [reflexivity|].
  apply eq_true_iff_eq. unfold treated.
  rewrite existsb_exists, andb_true_iff, Z.eqb_eq. split.
  - intros [Hz His]. exists (i, j). split.
    + apply (argwhere_zero_In data ny nx i j Hd). auto.
    + now rewrite !Nat.eqb_refl.
  - intros ([r c] & Hin & Hp). apply andb_true_iff in Hp. destruct Hp as [Hp His].
    apply andb_true_iff in Hp. destruct Hp as [Hr Hc].
    apply Nat.eqb_eq in Hr, Hc. subst r c.
    apply (argwhere_zero_In data ny nx i j Hd) in Hin. tauto.
Qed.

Lemma mean_filter_masks_isolated_zeros_witness :
  exists mask',
    mean_filter (fun a b => a / b) (mk_ndarray [3; 3]%nat [9; 9; 9; 9; 0; 9; 9; 9; 9]) 8
                (mk_ndarray [3; 3]%nat (repeat 0 9)) false
    = Ok (mk_ndarray [3; 3]%nat [9; 9; 9; 9; 0; 9; 9; 9; 9], 1, mask')
    /\ cell2 0 mask' 1 1 = 1.
Proof.
  destruct (mean_filter_masks_isolated_zeros (fun a b => a / b)
              (mk_ndarray [3; 3]%nat [9; 9; 9; 9; 0; 9; 9; 9; 9])
              (mk_ndarray [3; 3]%nat (repeat 0 9)) 8 3 3 eq_refl eq_refl)
    as (mask' & E & _ & Hcells).
  exists mask'. split; [exact E|].
  apply (Hcells 1%nat 1%nat); lia.
Defined.

Lemma window_slice_empty (n : nat) :
  (3 <= n)%nat ->
  snd (slice_indices n (range (Z.of_nat 0 - 1) (Z.of_nat 0 + 2))) = 0%nat.
Proof.
  intros Hn. unfold slice_indices, range, clip_bound. cbn [start stop snd].
  change (Z.of_nat 0 - 1) with (-1). change (Z.of_nat 0 + 2) with 2.
  change (-1 <? 0) with true. change (2 <? 0) with false. cbv iota. lia.
Qed.

(** The window of a pixel of the first row (or column) of an array with
    three rows (columns) or more is empty: its first bound is [-1], which
    counts from the end. *)
Lemma window_empty (a temp : ndarray Z) (ny nx r c : nat) :
  shape a = [ny; nx] ->
  (r = 0%nat /\ (3 <= ny)%nat) \/ (c = 0%nat /\ (3 <= nx)%nat) ->
  getitem2 0 a (range (Z.of_nat r - 1) (Z.of_nat r + 2))
               (range (Z.of_nat c - 1) (Z.of_nat c + 2)) = Ok temp ->
  length (buf temp) = 0%nat.
Proof.
  intros Hs Hskip H. unfold getitem2 in H. rewrite Hs in H.
  destruct (slice_indices ny _) as [r0 rl] eqn:Er.
  destruct (slice_indices nx _) as [c0 cl] eqn:Ec.
  injection H as <-. cbn [buf]. rewrite tabulate2_length.
  destruct Hskip as [[-> Hn]|[-> Hn]].
  - pose proof (window_slice_empty ny Hn) as Hw. rewrite Er in Hw.
    cbn [snd] in Hw. now subst rl.
  - pose proof (window_slice_empty nx Hn) as Hw. rewrite Ec in Hw.
    cbn [snd] in Hw. subst cl. apply Nat.mul_0_r.
Qed.

Lemma mean_filter_step_skips (quotient : Z -> Z -> Z) (nb_neighbours : Z)
      (interpolate : bool) (d k d' k' : ndarray Z) (n n' : Z) (r c ny nx : nat) :
  shape d = [ny; nx] -> shape k = [ny; nx] -> (r < ny)%nat -> (c < nx)%nat ->
  mean_filter_step quotient nb_neighbours interpolate (d, n, k) (r, c)
  = Ok (d', n', k') ->
  shape d' = [ny; nx] /\ shape k' = [ny; nx]
  /\ forall i j, (i < ny)%nat -> (j < nx)%nat ->
       (i = 0%nat /\ (3 <= ny)%nat) \/ (j = 0%nat /\ (3 <= nx)%nat) ->
       cell2 0 d' i j = cell2 0 d i j /\ cell2 0 k' i j = cell2 0 k i j.
Proof.
  intros Hd Hk Hr Hc H. unfold mean_filter_step in H.
  destruct (getitem2 0 d _ _) as [temp| |] eqn:Et; cbn [bind] in H;
    try discriminate H.
  destruct (Nat.eqb_spec (length (buf temp)) 0) as [Hempty|Hne]; cbn [negb andb] in H.
  - injection H as <- _ <-. repeat split; assumption || reflexivity.
  - assert (Hpix : forall i j,
               (i = 0%nat /\ (3 <= ny)%nat) \/ (j = 0%nat /\ (3 <= nx)%nat) ->
               ((i =? r) && (j =? c))%nat = false).
    { intros i j Hskip.
      destruct (Nat.eqb_spec i r) as [->|], (Nat.eqb_spec j c) as [->|];
        try reflexivity.
      exfalso. apply Hne. exact (window_empty d temp ny nx r c Hd Hskip Et). }
    destruct ((24 <? total temp) && (nb_neighbours <=? nonzero_count temp)).
    + destruct interpolate.
      * destruct (fill2_at d r c (quotient (total temp) (nonzero_count temp))
                    ny nx Hd Hr Hc) as (d1 & E1 & Hs1 & Hc1).
        destruct (fill2_at k r c 0 ny nx Hk Hr Hc) as (k1 & E2 & Hs2 & Hc2).
        rewrite E1 in H. cbn [bind] in H. rewrite E2 in H. cbn [bind] in H.
        injection H as <- _ <-. split; [assumption|]. split; [assumption|].
        intros i j Hi Hj Hskip.
        rewrite Hc1, Hc2, (Hpix i j Hskip) by assumption. split; reflexivity.
      * destruct (fill2_at k r c 1 ny nx Hk Hr Hc) as (k1 & E2 & Hs2 & Hc2).
        rewrite E2 in H. cbn [bind] in H.
        injection H as <- _ <-. split; [assumption|]. split; [assumption|].
        intros i j Hi Hj Hskip.
        rewrite Hc2, (Hpix i j Hskip) by assumption. split; reflexivity.
    + injection H as <- _ <-. repeat split; assumption || reflexivity.
Qed.

Lemma mean_filter_loop_skips (quotient : Z -> Z -> Z) (nb_neighbours : Z)
      (interpolate : bool) (ny nx : nat) (pixels : list (nat * nat)) :
  Forall (fun '(r, c) => (r < ny)%nat /\ (c < nx)%nat) pixels ->
  forall d k d' k' n n',
    shape d = [ny; nx] -> shape k = [ny; nx] ->
    mean_filter_loop quotient nb_neighbours interpolate pixels (d, n, k)
    = Ok (d', n', k') ->
    forall i j, (i < ny)%nat -> (j < nx)%nat ->
      (i = 0%nat /\ (3 <= ny)%nat) \/ (j = 0%nat /\ (3 <= nx)%nat) ->
      cell2 0 d' i j = cell2 0 d i j /\ cell2 0 k' i j = cell2 0 k i j.
Proof.
  induction pixels as [|[r c] rest IH]; intros Hall d k d' k' n n' Hd Hk H.
  - injection H as <- _ <-. intros. split; reflexivity.
  - inversion Hall as [|? ? Hrc Hrest]; subst. destruct Hrc as [Hr Hc].
    cbn [mean_filter_loop] in H.
    destruct (mean_filter_step quotient nb_neighbours interpolate (d, n, k) (r, c))
      as [[[d1 n1] k1]| |] eqn:E1; cbn [bind] in H; try discriminate H.
    destruct (mean_filter_step_skips _ _ _ _ _ _ _ _ _ _ _ _ _ Hd Hk Hr Hc E1)
      as (Hd1 & Hk1 & Hc1).
    intros i j Hi Hj Hskip.
    destruct (IH Hrest _ _ _ _ _ _ Hd1 Hk1 H i j Hi Hj Hskip) as [-> ->].
    now apply Hc1.
Qed.

(** X20. [mean_filter], in both modes, never treats a pixel of the first
    row of a frame with three rows or more, nor a pixel of the first column
    of a frame with three columns or more: whenever the call returns, data
    and mask are unchanged there, whatever the neighbours hold. *)
Theorem mean_filter_skips_first_row_and_column (quotient : Z -> Z -> Z)
    (data mask : ndarray Z) (nb_neighbours : Z) (interpolate : bool)
    (ny nx : nat) (data' mask' : ndarray Z) (nb_pixels : Z) :
  shape data = [ny; nx] -> shape mask = [ny; nx] ->
  mean_filter quotient data nb_neighbours mask interpolate
  = Ok (data', nb_pixels, mask') ->
  ((3 <= ny)%nat ->
   forall j, (j < nx)%nat ->
             cell2 0 data' 0 j = cell2 0 data 0 j
             /\ cell2 0 mask' 0 j = cell2 0 mask 0 j)
  /\ ((3 <= nx)%nat ->
      forall i, (i < ny)%nat ->
                cell2 0 data' i 0 = cell2 0 data i 0
                /\ cell2 0 mask' i 0 = cell2 0 mask i 0).
Proof.
  intros Hd Hm H. unfold mean_filter, ndim in H. rewrite Hd, Hm in H.
  cbn [length Nat.eqb negb orb] in H.
  assert (Hall : Forall (fun '(r, c) => (r < ny)%nat /\ (c < nx)%nat)
                        (argwhere_zero data)).
  { apply Forall_forall. intros [r c] Hin.
    apply (argwhere_zero_In data ny nx r c Hd) in Hin. tauto. }
  pose proof (mean_filter_loop_skips quotient nb_neighbours interpolate ny nx
                _ Hall _ _ _ _ _ _ Hd Hm H) as Hskips.
  split.
  - intros Hny j Hj. apply Hskips; [lia | assumption | left; auto].
  - intros Hnx i Hi. apply Hskips; [assumption | lia | right; auto].
Qed.

Lemma mean_filter_skips_first_row_and_column_witness :
  match mean_filter (fun a b => a / b)
                    (mk_ndarray [3; 3]%nat [9; 0; 9; 9; 0; 9; 9; 9; 9]) 5
                    (mk_ndarray [3; 3]%nat (repeat 0 9)) true with
  | Ok (data', _, _) => cell2 0 data' 0 1 = 0 /\ cell2 0 data' 1 1 = 9
  | _ => False
  end.
Proof.
  destruct (mean_filter (fun a b => a / b)
              (mk_ndarray [3; 3]%nat [9; 0; 9; 9; 0; 9; 9; 9; 9]) 5
              (mk_ndarray [3; 3]%nat (repeat 0 9)) true)
    as [[[data' n] mask']|e|] eqn:E;
    [| vm_compute in E; discriminate E ..].
  destruct (proj1 (mean_filter_skips_first_row_and_column (fun a b => a / b)
                     (mk_ndarray [3; 3]%nat [9; 0; 9; 9; 0; 9; 9; 9; 9])
                     (mk_ndarray [3; 3]%nat (repeat 0 9)) 5 true 3 3
                     data' mask' n eq_refl eq_refl E)
              ltac:(lia) 1%nat ltac:(lia))
    as [Hrow _].
  split; [exact Hrow|].
  vm_compute in E. injection E as <- _ _. reflexivity.
Defined.

(* ================================================================== *)
(** * Alien removal *)

Import Aliens AliensSpec.

Lemma window_start_spec (p width : Z) :
  0 <= p -> 0 <= width ->
  0 <= window_start p width <= p + width + 1
  /\ window_start p width = Z.max 0 (p - width).
Proof.
  intros Hp Hw. unfold window_start. destruct (Z.ltb_spec (p - width) 0); lia.
Qed.

Lemma within_window (n i : nat) (p width : Z) :
  (i < n)%nat -> 0 <= p -> 0 <= width ->
  (let '(a, l) := slice_indices n (window p width) in within a l i)
  = near p width i.
Proof.
  intros Hi Hp Hw. unfold window.
  destruct (window_start_spec p width Hp Hw) as [Hb Hs].
  rewrite within_slice_range by assumption.
  unfold within, near. apply eq_true_iff_eq.
  rewrite !andb_true_iff, Nat.leb_le, Nat.ltb_lt, !Z.leb_le. lia.
Qed.

Lemma in_region_window (ny nx i j : nat) (pix piy width : Z) :
  (i < ny)%nat -> (j < nx)%nat -> 0 <= pix -> 0 <= piy -> 0 <= width ->
  in_region ny nx (Span (window piy width), Span (window pix width)) i j
  = near piy width i && near pix width j.
Proof.
  intros Hi Hj Hx Hy Hw. unfold in_region. cbn [fst snd select].
  rewrite <- (within_window ny i piy width), <- (within_window nx j pix width)
    by assumption.
  destruct (slice_indices ny _), (slice_indices nx _). reflexivity.
Qed.

(** [dst[r, c] = src0[r, c]] between two arrays of one shape copies the
    region. *)
Lemma copy_region2 (dst src0 src : ndarray Z) (r c : slice) (ny nx : nat) :
  shape dst = [ny; nx] -> shape src0 = [ny; nx] ->
  getitem2 0 src0 r c = Ok src ->
  exists dst',
    setitem2 0 dst r c src = Ok dst' /\ shape dst' = [ny; nx]
    /\ forall i j, (i < ny)%nat -> (j < nx)%nat ->
         cell2 0 dst' i j
         = if in_region ny nx (Span r, Span c) i j then cell2 0 src0 i j
           else cell2 0 dst i j.
Proof.
  intros Hd Hs0 Hg. unfold getitem2 in Hg. rewrite Hs0 in Hg.
  unfold setitem2, in_region. cbn [fst snd select]. rewrite Hd.
  destruct (slice_indices ny r) as [r0 rl] eqn:Er.
  destruct (slice_indices nx c) as [c0 cl] eqn:Ec.
  injection Hg as <-. cbn [shape].
  unfold broadcasts. rewrite !Nat.eqb_refl. cbn [orb andb].
  eexists. split; [reflexivity|]. split; [reflexivity|].
  intros i j Hi Hj. rewrite cell2_tabulate2 by assumption.
  destruct (within r0 rl i) eqn:Wr; [|reflexivity].
  destruct (within c0 cl j) eqn:Wc; [|reflexivity].
  cbn [andb]. apply within_spec in Wr, Wc.
  assert (Hsr : (source_index rl (i - r0) < rl)%nat
                /\ (r0 + source_index rl (i - r0))%nat = i).
  { unfold source_index. destruct (Nat.eqb_spec rl 1); lia. }
  assert (Hsc : (source_index cl (j - c0) < cl)%nat
                /\ (c0 + source_index cl (j - c0))%nat = j).
  { unfold source_index. destruct (Nat.eqb_spec cl 1); lia. }
  destruct Hsr as [Hsr1 Hsr2], Hsc as [Hsc1 Hsc2].
  rewrite cell2_tabulate2 by assumption. now rewrite Hsr2, Hsc2.
Qed.

Lemma aliens_2d_checks (original_data updated_data updated_mask : ndarray Z)
      (ny0 nx0 ny nx : nat) :
  shape original_data = [ny0; nx0] -> shape updated_data = [ny; nx] ->
  shape updated_mask = [ny; nx] ->
  negb (ndim original_data =? 2)%nat || negb (ndim updated_data =? 2)%nat
  || negb (ndim updated_mask =? 2)%nat = false.
Proof. intros H0 H1 H2. unfold ndim. now rewrite H0, H1, H2. Qed.

(** X21. The key ['m'] of [update_aliens_2d], with the pointer at a
    non-negative position and a non-negative half-width: the call returns,
    the pixels of the frame within [width] of the pointer along both axes
    are set to 0 in the data and to 1 in the mask (the window is clipped at
    the edges of the frame), every other pixel and the controls are
    unchanged. *)
Theorem update_aliens_2d_masks_window (pix piy : Z)
    (original_data updated_data updated_mask : ndarray Z) (width : Z) (vmax : Q)
    (ny0 nx0 ny nx : nat) :
  shape original_data = [ny0; nx0] ->
  shape updated_data = [ny; nx] -> shape updated_mask = [ny; nx] ->
  0 <= pix -> 0 <= piy -> 0 <= width ->
  exists data' mask',
    update_aliens_2d "m" pix piy original_data updated_data updated_mask
                     width vmax
    = Ok (data', mask', width, vmax, false)
    /\ shape data' = [ny; nx] /\ shape mask' = [ny; nx]
    /\ forall i j, (i < ny)%nat -> (j < nx)%nat ->
         cell2 0 data' i j
         = (if near piy width i && near pix width j then 0
            else cell2 0 updated_data i j)
         /\ cell2 0 mask' i j
            = (if near piy width i && near pix width j then 1
               else cell2 0 updated_mask i j).
Proof.
  intros H0 Hd Hm Hx Hy Hw. unfold update_aliens_2d.
  rewrite (aliens_2d_checks _ _ _ ny0 nx0 ny nx H0 Hd Hm).
  cbn [String.eqb Ascii.eqb Bool.eqb].
  destruct (fill2_selectable updated_data (Span (window piy width))
              (Span (window pix width)) 0 ny nx Hd (selectable_spans _ _ _ _))
    as [d Ed].
  destruct (fill2_selectable updated_mask (Span (window piy width))
              (Span (window pix width)) 1 ny nx Hm (selectable_spans _ _ _ _))
    as [k Ek].
  destruct (fill2_cells _ _ _ _ _ _ _ Hd Ed) as [Hsd Hcd].
  destruct (fill2_cells _ _ _ _ _ _ _ Hm Ek) as [Hsk Hck].
  rewrite Ed. cbn [bind]. rewrite Ek. cbn [bind].
  exists d, k. split; [reflexivity|]. split; [assumption|]. split; [assumption|].
  intros i j Hi Hj.
  rewrite Hcd, Hck, in_region_window by assumption. split; reflexivity.
Qed.

Lemma update_aliens_2d_masks_window_witness :
  exists data' mask',
    update_aliens_2d "m" 1 1 (mk_ndarray [3; 3]%nat (repeat 5 9))
                     (mk_ndarray [3; 3]%nat (repeat 5 9))
                     (mk_ndarray [3; 3]%nat (repeat 0 9)) 0 (10 # 1)
    = Ok (data', mask', 0, 10 # 1, false)
    /\ cell2 0 data' 1 1 = 0 /\ cell2 0 data' 0 1 = 5.
Proof.
  destruct (update_aliens_2d_masks_window 1 1 (mk_ndarray [3; 3]%nat (repeat 5 9))
              (mk_ndarray [3; 3]%nat (repeat 5 9))
              (mk_ndarray [3; 3]%nat (repeat 0 9)) 0 (10 # 1) 3 3 3 3
              eq_refl eq_refl eq_refl ltac:(lia) ltac:(lia) ltac:(lia))
    as (data' & mask' & E & _ & _ & Hcells).
  exists data', mask'. split; [exact E|].
  split; [apply (Hcells 1%nat 1%nat); lia | apply (Hcells 0%nat 1%nat); lia].
Defined.

(** X22. ['m'] followed by ['b'] at the same pointer and half-width in
    [update_aliens_2d], on arrays of one shape: both calls return, and
    afterwards the pixels of the window hold the values of [original_data]
    and are unmasked (mask 0, whatever the mask held before), while every
    other pixel of data and mask is as it was before the two keys. *)
Theorem update_aliens_2d_unmask_restores (pix piy : Z)
    (original_data updated_data updated_mask : ndarray Z) (width : Z) (vmax : Q)
    (ny nx : nat) :
  shape original_data = [ny; nx] ->
  shape updated_data = [ny; nx] -> shape updated_mask = [ny; nx] ->
  0 <= pix -> 0 <= piy -> 0 <= width ->
  exists data1 mask1 data2 mask2,
    update_aliens_2d "m" pix piy original_data updated_data updated_mask
                     width vmax
    = Ok (data1, mask1, width, vmax, false)
    /\ update_aliens_2d "b" pix piy original_data data1 mask1 width vmax
       = Ok (data2, mask2, width, vmax, false)
    /\ forall i j, (i < ny)%nat -> (j < nx)%nat ->
         cell2 0 data2 i j
         = (if near piy width i && near pix width j
            then cell2 0 original_data i j else cell2 0 updated_data i j)
         /\ cell2 0 mask2 i j
            = (if near piy width i && near pix width j then 0
               else cell2 0 updated_mask i j).
Proof.
  intros H0 Hd Hm Hx Hy Hw.
  destruct (fill2_selectable updated_data (Span (window piy width))
              (Span (window pix width)) 0 ny nx Hd (selectable_spans _ _ _ _))
    as [d1 Ed1].
  destruct (fill2_selectable updated_mask (Span (window piy width))
              (Span (window pix width)) 1 ny nx Hm (selectable_spans _ _ _ _))
    as [k1 Ek1].
  destruct (fill2_cells _ _ _ _ _ _ _ Hd Ed1) as [Hsd1 Hcd1].
  destruct (fill2_cells _ _ _ _ _ _ _ Hm Ek1) as [Hsk1 Hck1].
  destruct (getitem2_Ok original_data (window piy width) (window pix width)
              ny nx H0) as [src Es].
  destruct (copy_region2 d1 original_data src _ _ ny nx Hsd1 H0 Es)
    as (d2 & Ed2 & Hsd2 & Hcd2).
  destruct (fill2_selectable k1 (Span (window piy width))
              (Span (window pix width)) 0 ny nx Hsk1 (selectable_spans _ _ _ _))
    as [k2 Ek2].
  destruct (fill2_cells _ _ _ _ _ _ _ Hsk1 Ek2) as [Hsk2 Hck2].
  exists d1, k1, d2, k2. split; [|split].
  - unfold update_aliens_2d.
    rewrite (aliens_2d_checks _ _ _ ny nx ny nx H0 Hd Hm).
    cbn [String.eqb Ascii.eqb Bool.eqb].
    rewrite Ed1. cbn [bind]. rewrite Ek1. reflexivity.
  - unfold update_aliens_2d.
    rewrite (aliens_2d_checks _ _ _ ny nx ny nx H0 Hsd1 Hsk1).
    cbn [String.eqb Ascii.eqb Bool.eqb].
    rewrite Es. cbn [bind]. rewrite Ed2. cbn [bind]. rewrite Ek2. reflexivity.
  - intros i j Hi Hj.
    rewrite Hcd2, Hck2, Hcd1, Hck1, in_region_window by assumption.
    destruct (near piy width i && near pix width j); split; reflexivity.
Qed.

Lemma update_aliens_2d_unmask_restores_witness :
  exists data1 mask1 data2 mask2,
    update_aliens_2d "m" 1 1 (mk_ndarray [3; 3]%nat (repeat 5 9))
                     (mk_ndarray [3; 3]%nat (repeat 5 9))
                     (mk_ndarray [3; 3]%nat (repeat 1 9)) 0 (10 # 1)
    = Ok (data1, mask1, 0, 10 # 1, false)
    /\ update_aliens_2d "b" 1 1 (mk_ndarray [3; 3]%nat (repeat 5 9))
                        data1 mask1 0 (10 # 1)
       = Ok (data2, mask2, 0, 10 # 1, false)
    /\ cell2 0 data2 1 1 = 5 /\ cell2 0 mask2 1 1 = 0
    /\ cell2 0 mask2 0 0 = 1.
Proof.
  destruct (update_aliens_2d_unmask_restores 1 1
              (mk_ndarray [3; 3]%nat (repeat 5 9))
              (mk_ndarray [3; 3]%nat (repeat 5 9))
              (mk_ndarray [3; 3]%nat (repeat 1 9)) 0 (10 # 1) 3 3
              eq_refl eq_refl eq_refl ltac:(lia) ltac:(lia) ltac:(lia))
    as (data1 & mask1 & data2 & mask2 & E1 & E2 & Hcells).
  exists data1, mask1, data2, mask2.
  split; [exact E1|]. split; [exact E2|].
  split; [apply (Hcells 1%nat 1%nat); lia|].
  split; [apply (Hcells 1%nat 1%nat); lia | apply (Hcells 0%nat 0%nat); lia].
Defined.

Lemma narrower_spec (width : Z) :
  0 <= narrower width /\ (0 <= width -> narrower (width + 1) = width).
Proof.
  unfold narrower. split.
  - destruct (Z.ltb_spec (width - 1) 0); lia.
  - intros Hw. destruct (Z.ltb_spec (width + 1 - 1) 0); lia.
Qed.

Lemma brighter_spec (vmax : Q) : (1 <= brighter vmax)%Q.
Proof.
  unfold brighter. destruct (Qlt_le_dec (vmax / 2) 1); [apply Qle_refl | assumption].
Qed.

(** X23. The control keys of [update_aliens_2d].  With an array that is
    not 2D every key raises [ValueError].  With 2D arrays, every key other
    than ['m'] and ['b'] returns data and mask untouched; [stop_masking] is
    set exactly by ['q']; a non-negative half-width stays non-negative and
    a colour scale of at least 1 stays at least 1; and ['down'] undoes
    ['up'] on a non-negative half-width. *)
Theorem update_aliens_2d_controls (key : string) (pix piy : Z)
    (original_data updated_data updated_mask : ndarray Z) (width : Z) (vmax : Q) :
  (ndim original_data <> 2%nat \/ ndim updated_data <> 2%nat
   \/ ndim updated_mask <> 2%nat ->
   update_aliens_2d key pix piy original_data updated_data updated_mask
                    width vmax = Raise ValueError)
  /\ (ndim original_data = 2%nat -> ndim updated_data = 2%nat ->
      ndim updated_mask = 2%nat ->
      (control_key key = true ->
       exists width' vmax',
         update_aliens_2d key pix piy original_data updated_data updated_mask
                          width vmax
         = Ok (updated_data, updated_mask, width', vmax', (key =? "q")%string)
         /\ (0 <= width -> 0 <= width')
         /\ (1 <= vmax -> 1 <= vmax')%Q)
      /\ (0 <= width ->
          update_aliens_2d "up" pix piy original_data updated_data updated_mask
                           width vmax
          = Ok (updated_data, updated_mask, width + 1, vmax, false)
          /\ update_aliens_2d "down" pix piy original_data updated_data
                              updated_mask (width + 1) vmax
             = Ok (updated_data, updated_mask, width, vmax, false))).
Proof.
  unfold update_aliens_2d. split.
  - intros H.
    destruct (Nat.eqb_spec (ndim original_data) 2),
             (Nat.eqb_spec (ndim updated_data) 2),
             (Nat.eqb_spec (ndim updated_mask) 2); cbn [negb orb];
      try reflexivity.
    exfalso. destruct H as [H|[H|H]]; contradiction.
  - intros -> -> ->. cbn [Nat.eqb negb orb]. split.
    + unfold control_key. intros Hkey.
      apply negb_true_iff, orb_false_iff in Hkey. destruct Hkey as [Hm Hb].
      rewrite Hm, Hb.
      destruct (String.eqb_spec key "up") as [->|_].
      { exists (width + 1), vmax. split; [reflexivity|]. split; [lia | auto]. }
      destruct (String.eqb_spec key "down") as [->|_].
      { exists (narrower width), vmax. split; [reflexivity|].
        split; [intros _; apply narrower_spec | auto]. }
      destruct (String.eqb_spec key "right") as [->|_].
      { exists width, (vmax * 2)%Q. split; [reflexivity|]. split; [auto|].
        intros Hv. apply Qle_trans with (y := vmax); [assumption|].
        rewrite <- (Qmult_1_r vmax) at 1.
        apply Qmult_le_l; [|discriminate].
        apply Qlt_le_trans with (y := 1%Q); [reflexivity | assumption]. }
      destruct (String.eqb_spec key "left") as [->|_].
      { exists width, (brighter vmax). split; [reflexivity|]. split; [auto|].
        intros _. apply brighter_spec. }
      destruct (String.eqb_spec key "q") as [->|_].
      { exists width, vmax. split; [reflexivity|]. split; auto. }
      exists width, vmax. split; [reflexivity|]. split; auto.
    + intros Hw. cbn [String.eqb Ascii.eqb Bool.eqb].
      split; [reflexivity|]. now rewrite (proj2 (narrower_spec width) Hw).
Qed.

Lemma update_aliens_2d_controls_witness :
  update_aliens_2d "down" 0 0 (mk_ndarray [1; 1]%nat [5])
                   (mk_ndarray [1; 1]%nat [5]) (mk_ndarray [1; 1]%nat [0])
                   (3 + 1) (10 # 1)
  = Ok (mk_ndarray [1; 1]%nat [5], mk_ndarray [1; 1]%nat [0], 3, 10 # 1, false).
Proof.
  apply (proj2 (proj2 (proj2 (update_aliens_2d_controls "down" 0 0
            (mk_ndarray [1; 1]%nat [5]) (mk_ndarray [1; 1]%nat [5])
            (mk_ndarray [1; 1]%nat [0]) 3 (10 # 1))
          eq_refl eq_refl eq_refl) ltac:(lia))).
Defined.

(** ** Alien removal on a 3D dataset *)

Lemma select_at_Z (n : nat) (idx : Z) :
  0 <= idx < Z.of_nat n -> select n (At idx) = Some (Z.to_nat idx, 1%nat).
Proof.
  intros H. rewrite <- (Z2Nat.id idx) at 1 by lia. apply select_at. lia.
Qed.

Lemma within_one (c i : nat) : within c 1 i = (i =? c)%nat.
Proof.
  unfold within. apply eq_true_iff_eq.
  rewrite andb_true_iff, Nat.leb_le, Nat.ltb_lt, Nat.eqb_eq. lia.
Qed.

Lemma axis_length_cases (dim nbz nby nbx n : Z) :
  axis_length dim nbz nby nbx = Some n ->
  (dim = 0 /\ n = nbz) \/ (dim = 1 /\ n = nby) \/ (dim = 2 /\ n = nbx).
Proof.
  unfold axis_length.
  destruct (Z.eqb_spec dim 0); [intros [= <-]; auto|].
  destruct (Z.eqb_spec dim 1); [intros [= <-]; auto|].
  destruct (Z.eqb_spec dim 2); [intros [= <-]; auto | discriminate].
Qed.

Lemma show_frame_Ok (data : ndarray Z) (dim idx n : Z) (nz ny nx : nat) :
  shape data = [nz; ny; nx] ->
  axis_length dim (Z.of_nat nz) (Z.of_nat ny) (Z.of_nat nx) = Some n ->
  0 <= idx < n -> show_frame data dim idx = Ok tt.
Proof.
  intros Hs Hax Hidx. unfold show_frame, plane, view3.
  destruct (axis_length_cases _ _ _ _ _ Hax) as [[-> ->]|[[-> ->]|[-> ->]]];
    cbn [Z.eqb Pos.eqb]; rewrite Hs; rewrite select_at_Z by assumption;
    reflexivity.
Qed.

(** X24. Frame navigation in [update_aliens].  On a dataset whose
    [original_data] and [updated_data] have one shape, along a valid axis
    [dim] of length [n] and from a frame index in range: ['u'] moves to the
    next frame and ['d'] to the previous one, both wrapping around the
    axis, with data, mask and the other controls untouched; ['d'] undoes
    ['u']. *)
Theorem update_aliens_frame_navigation (pix piy : Z)
    (original_data updated_data updated_mask : ndarray Z) (width dim idx : Z)
    (vmax : Q) (nz ny nx : nat) (n : Z) :
  shape original_data = [nz; ny; nx] -> shape updated_data = [nz; ny; nx] ->
  ndim updated_mask = 3%nat ->
  axis_length dim (Z.of_nat nz) (Z.of_nat ny) (Z.of_nat nx) = Some n ->
  0 <= idx < n ->
  update_aliens "u" pix piy original_data updated_data updated_mask
                width dim idx vmax
  = Ok (updated_data, updated_mask, width, vmax, (idx + 1) mod n, false)
  /\ update_aliens "d" pix piy original_data updated_data updated_mask
                   width dim idx vmax
     = Ok (updated_data, updated_mask, width, vmax, (idx - 1) mod n, false)
  /\ update_aliens "d" pix piy original_data updated_data updated_mask
                   width dim ((idx + 1) mod n) vmax
     = Ok (updated_data, updated_mask, width, vmax, idx, false).
Proof.
  intros H0 Hd Hm Hax Hidx.
  assert (Hdim : (2 <? dim) = false).
  { destruct (axis_length_cases _ _ _ _ _ Hax) as [[-> _]|[[-> _]|[-> _]]];
      reflexivity. }
  assert (Hup : (if n - 1 <? idx + 1 then 0 else idx + 1) = (idx + 1) mod n).
  { destruct (Z.ltb_spec (n - 1) (idx + 1)).
    - replace (idx + 1) with n by lia. now rewrite Z.mod_same by lia.
    - now rewrite Z.mod_small by lia. }
  assert (Hdown : forall i, 0 <= i < n ->
                            (if i - 1 <? 0 then n - 1 else i - 1) = (i - 1) mod n).
  { intros i Hi. destruct (Z.ltb_spec (i - 1) 0).
    - replace (i - 1) with (-1) by lia.
      apply Z.mod_unique with (q := -1); lia.
    - now rewrite Z.mod_small by lia. }
  assert (Hin : 0 <= (idx + 1) mod n < n) by (apply Z.mod_pos_bound; lia).
  assert (Hback : ((idx + 1) mod n - 1) mod n = idx).
  { rewrite <- Hup. destruct (Z.ltb_spec (n - 1) (idx + 1)).
    - replace (0 - 1) with (-1) by lia.
      symmetry. apply Z.mod_unique with (q := -1); lia.
    - replace (idx + 1 - 1) with idx by lia. apply Z.mod_small. lia. }
  unfold update_aliens. rewrite Hm. unfold ndim. rewrite H0, Hd, Hdim, Hax.
  cbn [length Nat.eqb negb orb String.eqb Ascii.eqb Bool.eqb].
  rewrite Hup, (Hdown idx Hidx), (Hdown _ Hin), Hback.
  rewrite !(show_frame_Ok updated_data dim _ n nz ny nx Hd Hax)
    by (assumption || (apply Z.mod_pos_bound; lia)).
  repeat split.
Qed.

Lemma update_aliens_frame_navigation_witness :
  update_aliens "u" 0 0 (mk_ndarray [2; 1; 1]%nat [5; 6])
                (mk_ndarray [2; 1; 1]%nat [5; 6]) (mk_ndarray [2; 1; 1]%nat [0; 0])
                0 0 1 (10 # 1)
  = Ok (mk_ndarray [2; 1; 1]%nat [5; 6], mk_ndarray [2; 1; 1]%nat [0; 0],
        0, 10 # 1, 0, false).
Proof.
  apply (proj1 (update_aliens_frame_navigation 0 0
                  (mk_ndarray [2; 1; 1]%nat [5; 6])
                  (mk_ndarray [2; 1; 1]%nat [5; 6])
                  (mk_ndarray [2; 1; 1]%nat [0; 0]) 0 0 1 (10 # 1) 2 1 1 2
                  eq_refl eq_refl eq_refl eq_refl ltac:(lia))).
Defined.

Lemma fill3_cells (a : ndarray Z) (i0 i1 i2 : index) (v : Z)
      (nz ny nx z0 lz y0 ly x0 lx : nat) :
  shape a = [nz; ny; nx] ->
  select nz i0 = Some (z0, lz) -> select ny i1 = Some (y0, ly) ->
  select nx i2 = Some (x0, lx) ->
  exists a',
    fill3 a (i0, i1, i2) v = Ok a' /\ shape a' = [nz; ny; nx]
    /\ forall i j k, (i < nz)%nat -> (j < ny)%nat -> (k < nx)%nat ->
         cell3 0 a' i j k
         = if within z0 lz i && within y0 ly j && within x0 lx k then v
           else cell3 0 a i j k.
Proof.
  intros Hs E0 E1 E2. unfold fill3. rewrite Hs, E0, E1, E2.
  eexists. split; [reflexivity|]. split; [reflexivity|].
  intros i j k Hi Hj Hk. now rewrite cell3_tabulate3.
Qed.

Lemma select_window (n : nat) (p width : Z) :
  0 <= p -> 0 <= width ->
  exists a l, select n (Span (window p width)) = Some (a, l)
              /\ forall i, (i < n)%nat -> within a l i = near p width i.
Proof.
  intros Hp Hw. cbn [select].
  destruct (slice_indices n (window p width)) as [a l] eqn:E.
  exists a, l. split; [reflexivity|]. intros i Hi.
  pose proof (within_window n i p width Hi Hp Hw) as H.
  now rewrite E in H.
Qed.

(** The region of the frame [idx] of the axis [dim] around the pointer. *)
Lemma plane_patch (dim idx pix piy width n : Z) (nz ny nx : nat) :
  axis_length dim (Z.of_nat nz) (Z.of_nat ny) (Z.of_nat nx) = Some n ->
  0 <= idx < n -> 0 <= pix -> 0 <= piy -> 0 <= width ->
  exists i0 i1 i2 z0 lz y0 ly x0 lx,
    plane dim idx (window piy width) (window pix width) = Some (i0, i1, i2)
    /\ select nz i0 = Some (z0, lz) /\ select ny i1 = Some (y0, ly)
    /\ select nx i2 = Some (x0, lx)
    /\ forall i j k, (i < nz)%nat -> (j < ny)%nat -> (k < nx)%nat ->
         within z0 lz i && within y0 ly j && within x0 lx k
         = in_patch dim idx pix piy width i j k.
Proof.
  intros Hax Hidx Hx Hy Hw.
  assert (Hat : forall m i, 0 <= idx < Z.of_nat m ->
                            within (Z.to_nat idx) 1 i = (Z.of_nat i =? idx)).
  { intros m i Hm. rewrite within_one. apply eq_true_iff_eq.
    rewrite Nat.eqb_eq, Z.eqb_eq. lia. }
  unfold plane, in_patch, along, frame_row, frame_col.
  destruct (axis_length_cases _ _ _ _ _ Hax) as [[-> ->]|[[-> ->]|[-> ->]]];
    cbn [Z.eqb Pos.eqb].
  - destruct (select_window ny piy width Hy Hw) as (y0 & ly & Ey & Hwy).
    destruct (select_window nx pix width Hx Hw) as (x0 & lx & Ex & Hwx).
    exists (At idx), (Span (window piy width)), (Span (window pix width)),
           (Z.to_nat idx), 1%nat, y0, ly, x0, lx.
    split; [reflexivity|]. split; [now apply select_at_Z|].
    split; [assumption|]. split; [assumption|].
    intros i j k Hi Hj Hk. now rewrite (Hat nz), Hwy, Hwx.
  - destruct (select_window nz piy width Hy Hw) as (z0 & lz & Ez & Hwz).
    destruct (select_window nx pix width Hx Hw) as (x0 & lx & Ex & Hwx).
    exists (Span (window piy width)), (At idx), (Span (window pix width)),
           z0, lz, (Z.to_nat idx), 1%nat, x0, lx.
    split; [reflexivity|]. split; [assumption|].
    split; [now apply select_at_Z|]. split; [assumption|].
    intros i j k Hi Hj Hk. rewrite (Hat ny), Hwz, Hwx by assumption.
    destruct (near piy width i), (Z.of_nat j =? idx); reflexivity.
  - destruct (select_window nz piy width Hy Hw) as (z0 & lz & Ez & Hwz).
    destruct (select_window ny pix width Hx Hw) as (y0 & ly & Ey & Hwy).
    exists (Span (window piy width)), (Span (window pix width)), (At idx),
           z0, lz, y0, ly, (Z.to_nat idx), 1%nat.
    split; [reflexivity|]. split; [assumption|]. split; [assumption|].
    split; [now apply select_at_Z|].
    intros i j k Hi Hj Hk. rewrite (Hat nx), Hwz, Hwy by assumption.
    destruct (near piy width i), (near pix width j), (Z.of_nat k =? idx);
      reflexivity.
Qed.

(** X25. The key ['m'] of [update_aliens], along a valid axis [dim], at a
    frame index in range, with the pointer at a non-negative position and a
    non-negative half-width: the call returns; in the frame [idx] of the
    axis [dim], the voxels within [width] of the pointer are set to 0 in
    the data and to 1 in the mask; every other voxel, in that frame and in
    all the others, and the controls are unchanged. *)
Theorem update_aliens_masks_patch (pix piy : Z)
    (original_data updated_data updated_mask : ndarray Z) (width dim idx : Z)
    (vmax : Q) (nz ny nx : nat) (n : Z) :
  ndim original_data = 3%nat ->
  shape updated_data = [nz; ny; nx] -> shape updated_mask = [nz; ny; nx] ->
  axis_length dim (Z.of_nat nz) (Z.of_nat ny) (Z.of_nat nx) = Some n ->
  0 <= idx < n -> 0 <= pix -> 0 <= piy -> 0 <= width ->
  exists data' mask',
    update_aliens "m" pix piy original_data updated_data updated_mask
                  width dim idx vmax
    = Ok (data', mask', width, vmax, idx, false)
    /\ shape data' = [nz; ny; nx] /\ shape mask' = [nz; ny; nx]
    /\ forall i j k, (i < nz)%nat -> (j < ny)%nat -> (k < nx)%nat ->
         cell3 0 data' i j k
         = (if in_patch dim idx pix piy width i j k then 0
            else cell3 0 updated_data i j k)
         /\ cell3 0 mask' i j k
            = (if in_patch dim idx pix piy width i j k then 1
               else cell3 0 updated_mask i j k).
Proof.
  intros H0 Hd Hm Hax Hidx Hx Hy Hw.
  assert (Hdim : (2 <? dim) = false).
  { destruct (axis_length_cases _ _ _ _ _ Hax) as [[-> _]|[[-> _]|[-> _]]];
      reflexivity. }
  destruct (plane_patch dim idx pix piy width n nz ny nx Hax Hidx Hx Hy Hw)
    as (i0 & i1 & i2 & z0 & lz & y0 & ly & x0 & lx & Hpl & E0 & E1 & E2 & Hpatch).
  destruct (fill3_cells updated_data i0 i1 i2 0 nz ny nx _ _ _ _ _ _ Hd E0 E1 E2)
    as (d & Ed & Hsd & Hcd).
  destruct (fill3_cells updated_mask i0 i1 i2 1 nz ny nx _ _ _ _ _ _ Hm E0 E1 E2)
    as (k' & Ek & Hsk & Hck).
  exists d, k'.
  split; [|split; [assumption | split; [assumption|]]].
  - unfold update_aliens. rewrite H0. unfold ndim. rewrite Hd, Hm.
    cbn [length Nat.eqb negb orb].
    unfold ndim in H0.
    destruct (shape original_data) as [|nbz [|nby [|nbx [|? ?]]]];
      try discriminate H0.
    rewrite Hdim. cbn [String.eqb Ascii.eqb Bool.eqb].
    rewrite Hpl, Ed. cbn [bind]. rewrite Ek. cbn [bind].
    rewrite (show_frame_Ok d dim idx n nz ny nx Hsd Hax Hidx). reflexivity.
  - intros i j k Hi Hj Hk.
    rewrite Hcd, Hck, Hpatch by assumption. split; reflexivity.
Qed.

Lemma update_aliens_masks_patch_witness :
  exists data' mask',
    update_aliens "m" 0 0 (mk_ndarray [2; 1; 2]%nat [5; 6; 7; 8])
                  (mk_ndarray [2; 1; 2]%nat [5; 6; 7; 8])
                  (mk_ndarray [2; 1; 2]%nat [0; 0; 0; 0]) 0 0 1 (10 # 1)
    = Ok (data', mask', 0, 10 # 1, 1, false)
    /\ cell3 0 data' 1 0 0 = 0 /\ cell3 0 data' 0 0 0 = 5.
Proof.
  destruct (update_aliens_masks_patch 0 0
              (mk_ndarray [2; 1; 2]%nat [5; 6; 7; 8])
              (mk_ndarray [2; 1; 2]%nat [5; 6; 7; 8])
              (mk_ndarray [2; 1; 2]%nat [0; 0; 0; 0]) 0 0 1 (10 # 1) 2 1 2 2
              eq_refl eq_refl eq_refl eq_refl
              ltac:(lia) ltac:(lia) ltac:(lia) ltac:(lia))
    as (data' & mask' & E & _ & _ & Hcells).
  exists data', mask'. split; [exact E|].
  split; [apply (Hcells 1%nat 0%nat 0%nat); lia
         | apply (Hcells 0%nat 0%nat 0%nat); lia].
Defined.

Lemma source_index_within (a l i : nat) :
  within a l i = true -> (a + source_index l (i - a))%nat = i.
Proof.
  intros H. apply within_spec in H. unfold source_index.
  destruct (Nat.eqb_spec l 1); lia.
Qed.

Lemma copy3_cells (dst src : ndarray Z) (i0 i1 i2 : index)
      (nz ny nx z0 lz y0 ly x0 lx : nat) :
  shape dst = [nz; ny; nx] -> shape src = [nz; ny; nx] ->
  select nz i0 = Some (z0, lz) -> select ny i1 = Some (y0, ly) ->
  select nx i2 = Some (x0, lx) ->
  exists dst',
    copy3 dst src (i0, i1, i2) = Ok dst' /\ shape dst' = [nz; ny; nx]
    /\ forall i j k, (i < nz)%nat -> (j < ny)%nat -> (k < nx)%nat ->
         cell3 0 dst' i j k
         = if within z0 lz i && within y0 ly j && within x0 lx k
           then cell3 0 src i j k else cell3 0 dst i j k.
Proof.
  intros Hd Hs E0 E1 E2. unfold copy3. rewrite Hd, Hs, E0, E1, E2.
  unfold broadcasts. rewrite !Nat.eqb_refl. cbn [orb andb].
  eexists. split; [reflexivity|]. split; [reflexivity|].
  intros i j k Hi Hj Hk. rewrite cell3_tabulate3 by assumption.
  destruct (within z0 lz i) eqn:Wz; [|reflexivity].
  destruct (within y0 ly j) eqn:Wy; [|reflexivity].
  destruct (within x0 lx k) eqn:Wx; [|reflexivity].
  cbn [andb]. now rewrite !source_index_within.
Qed.

(** X26. The key ['b'] of [update_aliens] on arrays of one shape, along a
    valid axis, at a frame index in range, with a non-negative pointer and
    half-width: the call returns; in the frame [idx] of the axis [dim] the
    voxels within [width] of the pointer take the values of
    [original_data] and are unmasked, every other voxel and the controls
    are unchanged.  So ['b'] after ['m'] at the same place puts the
    original intensities back. *)
Theorem update_aliens_unmask_restores (pix piy : Z)
    (original_data updated_data updated_mask : ndarray Z) (width dim idx : Z)
    (vmax : Q) (nz ny nx : nat) (n : Z) :
  shape original_data = [nz; ny; nx] ->
  shape updated_data = [nz; ny; nx] -> shape updated_mask = [nz; ny; nx] ->
  axis_length dim (Z.of_nat nz) (Z.of_nat ny) (Z.of_nat nx) = Some n ->
  0 <= idx < n -> 0 <= pix -> 0 <= piy -> 0 <= width ->
  exists data' mask',
    update_aliens "b" pix piy original_data updated_data updated_mask
                  width dim idx vmax
    = Ok (data', mask', width, vmax, idx, false)
    /\ shape data' = [nz; ny; nx] /\ shape mask' = [nz; ny; nx]
    /\ forall i j k, (i < nz)%nat -> (j < ny)%nat -> (k < nx)%nat ->
         cell3 0 data' i j k
         = (if in_patch dim idx pix piy width i j k
            then cell3 0 original_data i j k else cell3 0 updated_data i j k)
         /\ cell3 0 mask' i j k
            = (if in_patch dim idx pix piy width i j k then 0
               else cell3 0 updated_mask i j k).
Proof.
  intros H0 Hd Hm Hax Hidx Hx Hy Hw.
  assert (Hdim : (2 <? dim) = false).
  { destruct (axis_length_cases _ _ _ _ _ Hax) as [[-> _]|[[-> _]|[-> _]]];
      reflexivity. }
  destruct (plane_patch dim idx pix piy width n nz ny nx Hax Hidx Hx Hy Hw)
    as (i0 & i1 & i2 & z0 & lz & y0 & ly & x0 & lx & Hpl & E0 & E1 & E2 & Hpatch).
  destruct (copy3_cells updated_data original_data i0 i1 i2 nz ny nx
              _ _ _ _ _ _ Hd H0 E0 E1 E2) as (d & Ed & Hsd & Hcd).
  destruct (fill3_cells updated_mask i0 i1 i2 0 nz ny nx _ _ _ _ _ _ Hm E0 E1 E2)
    as (k' & Ek & Hsk & Hck).
  exists d, k'.
  split; [|split; [assumption | split; [assumption|]]].
  - unfold update_aliens, ndim. rewrite H0, Hd, Hm, Hdim.
    cbn [length Nat.eqb negb orb String.eqb Ascii.eqb Bool.eqb].
    rewrite Hpl, Ed. cbn [bind]. rewrite Ek. cbn [bind].
    rewrite (show_frame_Ok d dim idx n nz ny nx Hsd Hax Hidx). reflexivity.
  - intros i j k Hi Hj Hk.
    rewrite Hcd, Hck, Hpatch by assumption. split; reflexivity.
Qed.

Lemma update_aliens_unmask_restores_witness :
  exists data' mask',
    update_aliens "b" 0 0 (mk_ndarray [2; 1; 2]%nat [5; 6; 7; 8])
                  (mk_ndarray [2; 1; 2]%nat [5; 6; 0; 8])
                  (mk_ndarray [2; 1; 2]%nat [0; 0; 1; 0]) 0 0 1 (10 # 1)
    = Ok (data', mask', 0, 10 # 1, 1, false)
    /\ cell3 0 data' 1 0 0 = 7 /\ cell3 0 mask' 1 0 0 = 0.
Proof.
  destruct (update_aliens_unmask_restores 0 0
              (mk_ndarray [2; 1; 2]%nat [5; 6; 7; 8])
              (mk_ndarray [2; 1; 2]%nat [5; 6; 0; 8])
              (mk_ndarray [2; 1; 2]%nat [0; 0; 1; 0]) 0 0 1 (10 # 1) 2 1 2 2
              eq_refl eq_refl eq_refl eq_refl
              ltac:(lia) ltac:(lia) ltac:(lia) ltac:(lia))
    as (data' & mask' & E & _ & _ & Hcells).
  exists data', mask'. split; [exact E|].
  split; apply (Hcells 1%nat 0%nat 0%nat); lia.
Defined.

(* ================================================================== *)
(** * Centring by padding *)

(** X27. ['pad_symmetric_Z'] with [centering='max'] and no [fix_bragg],
    when the maximum of [abs(data)] is not in the first frame, row or
    column and the requested rocking size leaves room on both sides of it
    ([0 <= pad_size[0]/2 - z0 <= pad_size[0] - nbz]): whenever the call
    returns, [pad_size[0]] is an accepted size, the rocking axis has that
    length, data is embedded with zeros and mask with ones, the provenance
    vector is the given one between PADDED tags, and the maximum sits in
    the middle frame [pad_size[0]/2], at its detector position. *)
Theorem pad_symmetric_Z_centres_peak
    (center_of_mass : ndarray Z -> pyfloat * pyfloat * pyfloat) (fuel : nat)
    (data mask : ndarray Z) (frames_logical : list Z) (kw : kwargs)
    (nz ny nx pz py px : nat) (ps sy sx : Z)
    (data' mask' : ndarray Z) (pad_width : list Z) (q' : list (list Q))
    (frames' : list Z) :
  well_formed data -> shape data = [nz; ny; nx] -> shape mask = [nz; ny; nx] ->
  length frames_logical = nz -> kw_fix_bragg kw = [] ->
  kw_pad_size kw = [ps; sy; sx] ->
  max_position data = (pz, py, px) ->
  (0 < pz)%nat -> (0 < py)%nat -> (0 < px)%nat ->
  0 <= ps / 2 - Z.of_nat pz <= ps - Z.of_nat nz ->
  center_fft center_of_mass fuel data mask frames_logical "max"
             "pad_symmetric_Z" kw = Ok (data', mask', pad_width, q', frames') ->
  exists p0 p1 : nat,
    fft_size ps
    /\ Z.of_nat p0 = ps / 2 - Z.of_nat pz
    /\ Z.of_nat (nz + p0 + p1) = ps
    /\ pad_width = map Z.of_nat [p0; p1; 0; 0; 0; 0]%nat
    /\ data' = padded data nz ny nx p0 p1 0 0 0 0 false
    /\ mask' = padded mask nz ny nx p0 p1 0 0 0 0 true
    /\ frames' = repeat (-1) p0 ++ frames_logical ++ repeat (-1) p1
    /\ cell3 0 data' (Z.to_nat (ps / 2)) py px = cell3 0 data pz py px
    /\ forall i j k, (i < nz)%nat -> (j < ny)%nat -> (k < nx)%nat ->
         Z.abs (cell3 0 data i j k)
         <= Z.abs (cell3 0 data' (Z.to_nat (ps / 2)) py px).
Proof.
  intros Hwf Hd Hm Hf Hfix Hps Hmax Hpz Hpy Hpx Hroom H.
  assert (Hpos : (0 < nz * ny * nx)%nat).
  { destruct (Nat.eq_dec (nz * ny * nx) 0) as [E|]; [|lia]. exfalso.
    unfold well_formed in Hwf. rewrite Hd in Hwf. cbn [size_of fold_right] in Hwf.
    rewrite Nat.mul_1_r, Nat.mul_assoc, E in Hwf.
    apply length_zero_iff_nil in Hwf.
    rewrite (max_position_empty _ Hwf) in Hmax. injection Hmax as <- _ _. lia. }
  destruct (peak_position_max center_of_mass data kw nz ny nx pz py px
              Hwf Hd Hpos Hfix Hmax) as (Hp & Hz & Hy & Hx & Hbest).
  rewrite (center_fft_runs_policy _ _ _ _ _ _ _ _ _ _ _ _ _ _ Hd Hm Hp) in H
    by (unfold in_bounds; lia).
  destruct (q_arrays kw) as [[[q_values qx] qz] qy].
  rewrite effective_option_interior in H by lia.
  apply bind_Ok_inv in H. destruct H as (br & Hbr & [= <- <- <- _ <-]).
  change (apply_policy _ _ _ _ _ _ _ _ _ _ _ _ _ _ _ _ _ _ _ "pad_symmetric_Z")
    with (pad_symmetric_Z fuel data mask frames_logical q_values qx qz qy
            (kw_pad_size kw) (Z.of_nat pz) (Z.of_nat nz)) in Hbr.
  unfold pad_symmetric_Z in Hbr. rewrite Hps in Hbr.
  cbn [length Nat.eqb negb] in Hbr.
  apply bind_Ok_inv in Hbr. destruct Hbr as (u0 & E0 & Hbr).
  apply check_pad_size_Ok in E0. destruct E0 as (? & [= <-] & Hfz).
  change (item [ps; sy; sx] 0) with (Ok ps) in Hbr. cbn [bind] in Hbr.
  destruct (fft_size_even _ Hfz) as (h & _ & Eh).
  assert (Hhalf : ps / 2 = Z.of_nat h)
    by (rewrite Eh, Z.mul_comm, Z.div_mul; lia).
  assert (Elo : symmetric_pad ps (Z.of_nat pz) (Z.of_nat nz)
                = ps / 2 - Z.of_nat pz)
    by (rewrite Eh at 1; rewrite symmetric_pad_even; lia).
  assert (Ehi : symmetric_pad_high ps (Z.of_nat nz) (Z.of_nat pz)
                = ps / 2 - Z.of_nat nz + Z.of_nat pz)
    by (rewrite Eh at 1; rewrite symmetric_pad_high_even; lia).
  rewrite Elo, Ehi in Hbr.
  set (p0 := Z.to_nat (ps / 2 - Z.of_nat pz)).
  set (p1 := Z.to_nat (ps / 2 - Z.of_nat nz + Z.of_nat pz)).
  replace [ps / 2 - Z.of_nat pz; ps / 2 - Z.of_nat nz + Z.of_nat pz; 0; 0; 0; 0]
    with (map Z.of_nat [p0; p1; 0; 0; 0; 0]%nat) in Hbr
    by (subst p0 p1; cbn [map]; rewrite !Z2Nat.id by lia; reflexivity).
  rewrite (pad_arrays_spec data mask frames_logical nz ny nx) in Hbr
    by assumption.
  cbn [bind] in Hbr.
  assert (Hbranch : r_pad_width br = map Z.of_nat [p0; p1; 0; 0; 0; 0]%nat
                    /\ r_data br = padded data nz ny nx p0 p1 0 0 0 0 false
                    /\ r_mask br = padded mask nz ny nx p0 p1 0 0 0 0 true
                    /\ r_frames_logical br
                       = repeat (-1) p0 ++ frames_logical ++ repeat (-1) p1).
  { destruct (has_q_values q_values); [bind_inv Hbr|];
      injection Hbr as <-; repeat split. }
  destruct Hbranch as (Hrp & Hrd & Hrm & Hrf).
  assert (Hcentre : cell3 0 (r_data br) (Z.to_nat (ps / 2)) py px
                    = cell3 0 data pz py px).
  { rewrite Hrd, cell3_padded by (subst p0 p1; lia).
    replace (within p0 nz (Z.to_nat (ps / 2))) with true
      by (symmetry; apply within_spec; subst p0; lia).
    replace (within 0 ny py) with true by (symmetry; apply within_spec; lia).
    replace (within 0 nx px) with true by (symmetry; apply within_spec; lia).
    cbn [andb]. f_equal; subst p0; lia. }
  exists p0, p1.
  split; [assumption|]. split; [subst p0; lia|]. split; [subst p0 p1; lia|].
  split; [assumption|]. split; [assumption|]. split; [assumption|].
  split; [assumption|]. split; [assumption|].
  intros i j k Hi Hj Hk. rewrite Hcentre. now apply Hbest.
Qed.

Lemma pad_symmetric_Z_centres_peak_witness :
  match run 10 8 8 5 4 4 "pad_symmetric_Z" (mk_kwargs [] [] [16; 8; 8] []) with
  | Ok (data', _, pad_width, _, _) =>
      pad_width = [3; 3; 0; 0; 0; 0]
      /\ cell3 0 data' 8 4 4 = cell3 0 (volume 10 8 8 5 4 4) 5 4 4
  | _ => False
  end.
Proof.
  destruct (run 10 8 8 5 4 4 "pad_symmetric_Z" (mk_kwargs [] [] [16; 8; 8] []))
    as [[[[[d m] p] q] f]|e|] eqn:E;
    [| apply (f_equal digest) in E; vm_compute in E; discriminate E ..].
  assert (D : digest (run 10 8 8 5 4 4 "pad_symmetric_Z"
                          (mk_kwargs [] [] [16; 8; 8] []))
              = Ok ([16; 8; 8]%nat, [3; 3; 0; 0; 0; 0], [],
                    repeat (-1) 3 ++ all_used 10 ++ repeat (-1) 3))
    by (vm_compute; reflexivity).
  rewrite E in D. cbn [digest] in D. injection D as _ Hp _ _.
  destruct (pad_symmetric_Z_centres_peak center_of_mass_exact 64
              (volume 10 8 8 5 4 4) (clear_mask 10 8 8) (all_used 10)
              (mk_kwargs [] [] [16; 8; 8] []) 10 8 8 5 4 4 16 8 8 d m p q f)
    as (p0 & p1 & _ & _ & _ & _ & _ & _ & _ & Hc & _);
    try (vm_compute; reflexivity); try lia; try exact E.
  - change (16 / 2) with 8. lia.
  - split; [assumption | exact Hc].
Defined.

(* ================================================================== *)
(** * Every outcome of the FFT size test *)

Lemma check_dividers_outcomes (number : Z) (ks : list Z) :
  match check_dividers number ks with
  | Ok true => Forall (fun k => (k | number)) ks
  | Ok false => ~ Forall (fun k => (k | number)) ks
  | Raise e => e = ZeroDivisionError /\ In 0 ks
  | OutOfFuel => False
  end.
Proof.
  induction ks as [|k ks IH]; cbn [check_dividers]; [constructor|].
  destruct (Z.eqb_spec k 0) as [->|Hk]; [split; [reflexivity | now left]|].
  destruct (Z.eqb_spec (number mod k) 0) as [Hm|Hm]; cbn [negb].
  - apply Z.mod_divide in Hm; [|assumption].
    destruct (check_dividers number ks) as [[|]|e|].
    + now constructor.
    + intros Hall. now inversion Hall.
    + destruct IH as [-> Hin]. split; [reflexivity | now right].
    + assumption.
  - intros Hall. inversion Hall; subst. apply Hm. now apply Z.mod_divide.
Qed.

(** X28. Every outcome of [try_smaller_primes]. On a number that is not
    positive it raises [AssertionError] (the assertion of [primes]). On a
    positive number it returns [True] only when [maxprime] is at least 1
    (the leading 1 of the list of [primes]), every prime factor is at most
    [maxprime] and every required divider divides the number, and [False]
    only when that fails; the one other outcome is the
    [ZeroDivisionError] of [number % 0], which needs a zero among the
    required dividers and a number whose prime factors are all at most
    [maxprime]: the test on the prime factors comes first, and answers
    [False] without looking at the dividers. *)
Theorem try_smaller_primes_outcomes (number maxprime : Z)
    (required_dividers : option (list Z)) :
  match try_smaller_primes number maxprime required_dividers with
  | Ok true => 0 < number /\ fft_ok number maxprime required_dividers
  | Ok false => 0 < number /\ ~ fft_ok number maxprime required_dividers
  | Raise e =>
      (e = AssertionError /\ number <= 0)
      \/ (e = ZeroDivisionError /\ 0 < number
          /\ fft_ok number maxprime None
          /\ In 0 (dividers required_dividers))
  | OutOfFuel => False
  end.
Proof.
  destruct (Z.ltb_spec 0 number) as [Hn|Hn].
  2:{ unfold try_smaller_primes, primes.
      destruct (Z.ltb_spec 0 number) as [|_]; [lia|].
      cbn [py_assert bind]. left. split; [reflexivity | assumption]. }
  unfold try_smaller_primes, fft_ok.
  destruct (primes_ok number Hn) as (fs & E & Hpr & _ & _ & Hpd).
  rewrite E. cbn [bind py_max].
  assert (Hmax : fold_left Z.max fs 1 <= maxprime <->
                 1 <= maxprime
                 /\ forall q, Z.prime q -> (q | number) -> q <= maxprime).
  { rewrite fold_left_max_le, Forall_forall. split; intros [H1 H2]; split; auto.
    - intros q Hq Hdiv. apply H2. apply prime_divides_prod; auto. now rewrite Hpd.
    - intros x Hx. apply H2.
      + rewrite Forall_forall in Hpr. auto.
      + rewrite <- Hpd. now apply in_divides_prod. }
  destruct (Z.ltb_spec maxprime (fold_left Z.max fs 1)) as [Hlt|Hle].
  - split; [assumption|]. intros (H1 & H2 & _).
    assert (fold_left Z.max fs 1 <= maxprime) by (apply Hmax; auto). lia.
  - apply Hmax in Hle. destruct Hle as [H1 H2].
    destruct required_dividers as [ks|]; cbn [dividers].
    + pose proof (check_dividers_outcomes number ks) as Hc.
      destruct (check_dividers number ks) as [[|]|e|].
      * auto.
      * split; [assumption|]. intros (_ & _ & Hall). auto.
      * destruct Hc as [-> Hin]. right. repeat split; auto.
      * assumption.
    + repeat split; auto.
Qed.

(* ================================================================== *)
(** * The mean filter leaves the measured pixels alone *)

Lemma mean_filter_step_local (quotient : Z -> Z -> Z) (nb_neighbours : Z)
      (interpolate : bool) (d k : ndarray Z) (n : Z) (r c ny nx : nat) :
  shape d = [ny; nx] -> shape k = [ny; nx] -> (r < ny)%nat -> (c < nx)%nat ->
  exists d' n' k',
    mean_filter_step quotient nb_neighbours interpolate (d, n, k) (r, c)
    = Ok (d', n', k')
    /\ shape d' = [ny; nx] /\ shape k' = [ny; nx] /\ n <= n' <= n + 1
    /\ forall i j, (i < ny)%nat -> (j < nx)%nat ->
         ((i, j) <> (r, c) ->
          cell2 0 d' i j = cell2 0 d i j /\ cell2 0 k' i j = cell2 0 k i j)
         /\ (cell2 0 k' i j = cell2 0 k i j
             \/ cell2 0 k' i j = if interpolate then 0 else 1).
Proof.
  intros Hd Hk Hr Hc. unfold mean_filter_step.
  destruct (getitem2_Ok d (range (Z.of_nat r - 1) (Z.of_nat r + 2))
              (range (Z.of_nat c - 1) (Z.of_nat c + 2)) ny nx Hd) as [temp ->].
  cbn [bind].
  assert (Hpix : forall i j, (i, j) <> (r, c) ->
                             ((i =? r) && (j =? c))%nat = false).
  { intros i j Hne.
    destruct (Nat.eqb_spec i r) as [->|], (Nat.eqb_spec j c) as [->|];
      try reflexivity. now contradiction Hne. }
  destruct (negb (length (buf temp) =? 0)%nat && (24 <? total temp)
            && (nb_neighbours <=? nonzero_count temp)).
  - destruct interpolate.
    + destruct (fill2_at d r c (quotient (total temp) (nonzero_count temp))
                  ny nx Hd Hr Hc) as (d1 & E1 & Hs1 & Hc1).
      destruct (fill2_at k r c 0 ny nx Hk Hr Hc) as (k1 & E2 & Hs2 & Hc2).
      rewrite E1. cbn [bind]. rewrite E2. cbn [bind].
      exists d1, (n + 1), k1. split; [reflexivity|].
      split; [assumption|]. split; [assumption|]. split; [lia|].
      intros i j Hi Hj. split.
      * intros Hne. rewrite Hc1, Hc2, (Hpix i j Hne) by assumption.
        split; reflexivity.
      * rewrite Hc2 by assumption.
        destruct ((i =? r) && (j =? c))%nat; [now right | now left].
    + destruct (fill2_at k r c 1 ny nx Hk Hr Hc) as (k1 & E2 & Hs2 & Hc2).
      rewrite E2. cbn [bind].
      exists d, (n + 1), k1. split; [reflexivity|].
      split; [assumption|]. split; [assumption|]. split; [lia|].
      intros i j Hi Hj. split.
      * intros Hne. rewrite Hc2, (Hpix i j Hne) by assumption.
        split; reflexivity.
      * rewrite Hc2 by assumption.
        destruct ((i =? r) && (j =? c))%nat; [now right | now left].
  - exists d, n, k. split; [reflexivity|].
    split; [assumption|]. split; [assumption|]. split; [lia|].
    intros i j _ _. split; [split; reflexivity | now left].
Qed.

Lemma mean_filter_loop_local (quotient : Z -> Z -> Z) (nb_neighbours : Z)
      (interpolate : bool) (ny nx : nat) (pixels : list (nat * nat)) :
  Forall (fun '(r, c) => (r < ny)%nat /\ (c < nx)%nat) pixels ->
  forall d k n,
    shape d = [ny; nx] -> shape k = [ny; nx] ->
    exists d' n' k',
      mean_filter_loop quotient nb_neighbours interpolate pixels (d, n, k)
      = Ok (d', n', k')
      /\ shape d' = [ny; nx] /\ shape k' = [ny; nx]
      /\ n <= n' <= n + Z.of_nat (length pixels)
      /\ forall i j, (i < ny)%nat -> (j < nx)%nat ->
           (~ In (i, j) pixels ->
            cell2 0 d' i j = cell2 0 d i j /\ cell2 0 k' i j = cell2 0 k i j)
           /\ (cell2 0 k' i j = cell2 0 k i j
               \/ cell2 0 k' i j = if interpolate then 0 else 1).
Proof.
  induction pixels as [|[r c] rest IH]; intros Hall d k n Hd Hk.
  - exists d, n, k. cbn [mean_filter_loop length]. split; [reflexivity|].
    split; [assumption|]. split; [assumption|]. split; [lia|].
    intros i j _ _. split; [split; reflexivity | now left].
  - inversion Hall as [|? ? Hrc Hrest]; subst. destruct Hrc as [Hr Hc].
    destruct (mean_filter_step_local quotient nb_neighbours interpolate d k n
                r c ny nx Hd Hk Hr Hc)
      as (d1 & n1 & k1 & E1 & Hd1 & Hk1 & Hn1 & Hc1).
    destruct (IH Hrest d1 k1 n1 Hd1 Hk1)
      as (d' & n' & k' & E & Hd' & Hk' & Hn' & Hc').
    exists d', n', k'. cbn [mean_filter_loop]. rewrite E1. cbn [bind].
    split; [assumption|]. split; [assumption|]. split; [assumption|].
    split; [cbn [length]; lia|].
    intros i j Hi Hj. destruct (Hc' i j Hi Hj) as [Hout Hval].
    destruct (Hc1 i j Hi Hj) as [Hout1 Hval1]. split.
    + intros Hnin. destruct Hout as [-> ->]; [intros Hin; apply Hnin; now right|].
      apply Hout1. intros Heq. apply Hnin. left. now symmetry.
    + destruct Hval as [->| ->]; [assumption | now right].
Qed.

(** X29. [mean_filter], in both modes, on a 2D frame and a mask of the same
    shape: the call returns, data and mask keep their shape, and a pixel
    whose value is not zero is never touched, in the data or in the mask.
    A pixel of the mask either keeps its value or takes the value of the
    mode (1 when masking; 0 when interpolating, which unmasks an
    interpolated pixel that was masked), and [nb_pixels] is at most the
    number of zero-valued pixels of the frame. *)
Theorem mean_filter_touches_zero_pixels_only (quotient : Z -> Z -> Z)
    (data mask : ndarray Z) (nb_neighbours : Z) (interpolate : bool)
    (ny nx : nat) :
  shape data = [ny; nx] -> shape mask = [ny; nx] ->
  exists data' nb_pixels mask',
    mean_filter quotient data nb_neighbours mask interpolate
    = Ok (data', nb_pixels, mask')
    /\ shape data' = [ny; nx] /\ shape mask' = [ny; nx]
    /\ 0 <= nb_pixels <= Z.of_nat (length (argwhere_zero data))
    /\ forall i j, (i < ny)%nat -> (j < nx)%nat ->
         (cell2 0 data i j <> 0 ->
          cell2 0 data' i j = cell2 0 data i j
          /\ cell2 0 mask' i j = cell2 0 mask i j)
         /\ (cell2 0 mask' i j = cell2 0 mask i j
             \/ cell2 0 mask' i j = if interpolate then 0 else 1).
Proof.
  intros Hd Hm. unfold mean_filter, ndim. rewrite Hd, Hm.
  cbn [length Nat.eqb negb orb].
  assert (Hall : Forall (fun '(r, c) => (r < ny)%nat /\ (c < nx)%nat)
                        (argwhere_zero data)).
  { apply Forall_forall. intros [r c] Hin.
    apply (argwhere_zero_In data ny nx r c Hd) in Hin. tauto. }
  destruct (mean_filter_loop_local quotient nb_neighbours interpolate ny nx
              (argwhere_zero data) Hall data mask 0 Hd Hm)
    as (d' & n' & k' & E & Hd' & Hk' & Hn' & Hc').
  exists d', n', k'. split; [assumption|].
  split; [assumption|]. split; [assumption|]. split; [lia|].
  intros i j Hi Hj. destruct (Hc' i j Hi Hj) as [Hout Hval].
  split; [|assumption].
  intros Hnz. apply Hout. intros Hin.
  apply (argwhere_zero_In data ny nx i j Hd) in Hin. tauto.
Qed.

Lemma mean_filter_touches_zero_pixels_only_witness :
  exists data' nb_pixels mask',
    mean_filter (fun a b => a / b)
                (mk_ndarray [3; 3]%nat [9; 9; 9; 9; 0; 9; 9; 9; 9]) 8
                (mk_ndarray [3; 3]%nat [0; 0; 0; 0; 1; 0; 0; 0; 1]) true
    = Ok (data', nb_pixels, mask')
    /\ cell2 0 data' 2 2 = 9 /\ cell2 0 mask' 2 2 = 1
    /\ (cell2 0 mask' 1 1 = 1 \/ cell2 0 mask' 1 1 = 0).
Proof.
  destruct (mean_filter_touches_zero_pixels_only (fun a b => a / b)
              (mk_ndarray [3; 3]%nat [9; 9; 9; 9; 0; 9; 9; 9; 9])
              (mk_ndarray [3; 3]%nat [0; 0; 0; 0; 1; 0; 0; 0; 1]) 8 true
              3 3 eq_refl eq_refl)
    as (d' & n' & k' & E & _ & _ & _ & Hc).
  exists d', n', k'. split; [exact E|].
  destruct (Hc 2 2 ltac:(lia) ltac:(lia))%nat as [Hkeep _].
  destruct (Hc 1 1 ltac:(lia) ltac:(lia))%nat as [_ Hval].
  destruct Hkeep as [Hdk Hmk]; [vm_compute; discriminate|].
  split; [exact Hdk|]. split; [exact Hmk | exact Hval].
Defined.

(* ================================================================== *)
(** * The q grid under a crop *)

Lemma getslice_window {A : Type} (l : list A) (a n : nat) (d : A) :
  (a + n <= length l)%nat ->
  length (getslice l (range (Z.of_nat a) (Z.of_nat a + Z.of_nat n))) = n
  /\ forall i, (i < n)%nat ->
       nth i (getslice l (range (Z.of_nat a) (Z.of_nat a + Z.of_nat n))) d
       = nth (a + i) l d.
Proof.
  intros H. unfold getslice. rewrite slice_indices_range by assumption.
  split.
  - rewrite length_firstn, length_skipn. lia.
  - intros i Hi. rewrite nth_firstn.
    destruct (Nat.ltb_spec i n) as [_|]; [|lia]. apply nth_skipn.
Qed.

Lemma crop_box_q (data mask : ndarray Z) (frames_logical : list Z)
      (q_values : list (list Q)) (qx qz qy : list Q) (nbz z0 z1 y0 y1 x0 x1 : Z)
      (br : branch_result) :
  has_q_values q_values = true ->
  crop_box data mask frames_logical q_values qx qz qy nbz z0 z1 y0 y1 x0 x1
  = Ok br ->
  r_qx br = getslice qx (range z0 z1) /\ r_qz br = getslice qz (range y0 y1)
  /\ r_qy br = getslice qy (range x0 x1).
Proof.
  intros Hq H. unfold crop_box in H. rewrite Hq in H. bind_inv H.
  injection H as <-. repeat split.
Qed.

(** X30. ['crop_asymmetric_ZYX'] with a q grid [[qx, qz, qy]] whose arrays
    have the lengths of the three axes of the data: whenever the call
    returns, either data and q grid come back as given (the peak touched an
    edge), or the q grid stays co-registered with the data: each returned q
    array has the length of its axis of the returned data, and its sample
    [i] is the sample of the voxels that are kept at index [i], [qx] along
    the rocking axis, [qz] along the rows and [qy] along the columns; what
    follows the three arrays in [q_values] is kept. *)
Theorem crop_asymmetric_q_grid
    (center_of_mass : ndarray Z -> pyfloat * pyfloat * pyfloat) (fuel : nat)
    (data mask : ndarray Z) (frames_logical : list Z) (centering : string)
    (kw : kwargs) (nz ny nx : nat) (qx qz qy : list Q) (rest : list (list Q))
    (data' mask' : ndarray Z) (pad_width : list Z) (q' : list (list Q))
    (frames' : list Z) :
  shape data = [nz; ny; nx] -> length frames_logical = nz ->
  kw_q_values kw = qx :: qz :: qy :: rest ->
  length qx = nz -> length qz = ny -> length qy = nx ->
  center_fft center_of_mass fuel data mask frames_logical centering
             "crop_asymmetric_ZYX" kw = Ok (data', mask', pad_width, q', frames') ->
  (data' = data /\ q' = kw_q_values kw)
  \/ exists (z0 y0 x0 : nat) (qx' qz' qy' : list Q),
       q' = qx' :: qz' :: qy' :: rest
       /\ shape data' = [length qx'; length qz'; length qy']
       /\ (forall i, (i < length qx')%nat ->
             nth i qx' 0%Q = nth (z0 + i) qx 0%Q)
       /\ (forall j, (j < length qz')%nat ->
             nth j qz' 0%Q = nth (y0 + j) qz 0%Q)
       /\ (forall k, (k < length qy')%nat ->
             nth k qy' 0%Q = nth (x0 + k) qy 0%Q)
       /\ forall i j k,
            (i < length qx')%nat -> (j < length qz')%nat ->
            (k < length qy')%nat ->
            cell3 0 data' i j k = cell3 0 data (z0 + i) (y0 + j) (x0 + k).
Proof.
  intros Hd Hf Hkw Hqx Hqz Hqy H. apply center_fft_Ok_policy in H.
  destruct H as (nz' & ny' & nx' & iz0 & iy0 & ix0 & q_values & qx0 & qz0 & qy0
                 & br & Hd' & Hm & _ & _ & Hq & Hbr & Hres).
  rewrite Hd in Hd'. injection Hd' as <- <- <-.
  unfold q_arrays in Hq. rewrite Hkw in Hq. injection Hq as <- <- <- <-.
  assert (Hhas : has_q_values (qx :: qz :: qy :: rest) = true) by reflexivity.
  destruct (effective_option_cases "crop_asymmetric_ZYX" iz0 iy0 ix0
              (Z.of_nat nz) (Z.of_nat ny) (Z.of_nat nx)) as [Heff|Heff];
    rewrite Heff in Hbr.
  2:{ left. apply do_nothing_Ok in Hbr. destruct Hbr as [_ ->].
      injection Hres as -> _ _ -> _. rewrite Hkw. split; reflexivity. }
  right.
  change (apply_policy _ _ _ _ _ _ _ _ _ _ _ _ _ _ _ _ _ _ _ "crop_asymmetric_ZYX")
    with (crop_asymmetric_ZYX data mask frames_logical (qx :: qz :: qy :: rest)
            qx qz qy (Z.of_nat nz) (Z.of_nat ny) (Z.of_nat nx)) in Hbr.
  unfold crop_asymmetric_ZYX in Hbr. bind_inv Hbr.
  destruct (smaller_primes_unpack3 _ _ _ _ _ _ _ E E0)
    as ((_ & Hbz & Hcz & Hfz) & (_ & Hby & Hcy & Hfy) & (_ & Hbx & Hcx & Hfx)).
  destruct (fft_size_even _ Hfz) as (hz & Hhz & ->).
  destruct (fft_size_even _ Hfy) as (hy & Hhy & ->).
  destruct (fft_size_even _ Hfx) as (hx & Hhx & ->).
  rewrite !(Z.mul_comm 2 (Z.of_nat _)), !Z.div_mul in Hbr by lia.
  change 2 with (Z.of_nat 2) in Hbr. rewrite <- !Nat2Z.inj_div in Hbr.
  pose proof (Nat.div_mod_eq nz 2). pose proof (Nat.mod_upper_bound nz 2).
  pose proof (Nat.div_mod_eq ny 2). pose proof (Nat.mod_upper_bound ny 2).
  pose proof (Nat.div_mod_eq nx 2). pose proof (Nat.mod_upper_bound nx 2).
  replace (Z.of_nat (nz / 2) - Z.of_nat hz)
    with (Z.of_nat (nz / 2 - hz)) in Hbr by lia.
  replace (Z.of_nat (ny / 2) - Z.of_nat hy)
    with (Z.of_nat (ny / 2 - hy)) in Hbr by lia.
  replace (Z.of_nat (nx / 2) - Z.of_nat hx)
    with (Z.of_nat (nx / 2 - hx)) in Hbr by lia.
  replace (Z.of_nat (nz / 2) + Z.of_nat hz)
    with (Z.of_nat (nz / 2 - hz) + Z.of_nat (2 * hz)) in Hbr by lia.
  replace (Z.of_nat (ny / 2) + Z.of_nat hy)
    with (Z.of_nat (ny / 2 - hy) + Z.of_nat (2 * hy)) in Hbr by lia.
  replace (Z.of_nat (nx / 2) + Z.of_nat hx)
    with (Z.of_nat (nx / 2 - hx) + Z.of_nat (2 * hx)) in Hbr by lia.
  destruct (crop_box_q _ _ _ _ _ _ _ _ _ _ _ _ _ _ _ Hhas Hbr)
    as (Hrx & Hrz & Hry).
  destruct (crop_box_window data mask frames_logical (qx :: qz :: qy :: rest)
              qx qz qy nz ny nx (nz / 2 - hz) (2 * hz) (ny / 2 - hy) (2 * hy)
              (nx / 2 - hx) (2 * hx))
    as (br' & Hbr' & Hrd & _); try assumption; try lia.
  rewrite Hbr' in Hbr. injection Hbr as <-.
  destruct (getslice_window qx (nz / 2 - hz) (2 * hz) 0%Q ltac:(lia))
    as [Hlx Hnx].
  destruct (getslice_window qz (ny / 2 - hy) (2 * hy) 0%Q ltac:(lia))
    as [Hlz Hnz].
  destruct (getslice_window qy (nx / 2 - hx) (2 * hx) 0%Q ltac:(lia))
    as [Hly Hny].
  rewrite <- Hrx in Hlx, Hnx. rewrite <- Hrz in Hlz, Hnz.
  rewrite <- Hry in Hly, Hny.
  injection Hres as -> _ _ -> _.
  exists (nz / 2 - hz)%nat, (ny / 2 - hy)%nat, (nx / 2 - hx)%nat,
         (r_qx br'), (r_qz br'), (r_qy br').
  split; [reflexivity|]. rewrite Hlx, Hlz, Hly, Hrd.
  split; [reflexivity|]. split; [assumption|]. split; [assumption|].
  split; [assumption|].
  intros i j k Hi Hj Hk. now apply cell3_sub_array.
Qed.

Lemma crop_asymmetric_q_grid_witness :
  match run 11 8 8 5 4 4 "crop_asymmetric_ZYX"
            (mk_kwargs [] [] [] (q_grid 11 8 8)) with
  | Ok (data', _, _, q', _) =>
      exists qx' qz' qy',
        q' = [qx'; qz'; qy']
        /\ shape data' = [length qx'; length qz'; length qy']
  | _ => False
  end.
Proof.
  destruct (run 11 8 8 5 4 4 "crop_asymmetric_ZYX"
                (mk_kwargs [] [] [] (q_grid 11 8 8)))
    as [[[[[d m] p] q] f]|e|] eqn:E;
    [| apply (f_equal digest) in E; vm_compute in E; discriminate E ..].
  assert (D : digest (run 11 8 8 5 4 4 "crop_asymmetric_ZYX"
                          (mk_kwargs [] [] [] (q_grid 11 8 8)))
              = Ok ([10; 8; 8]%nat, [0; 0; 0; 0; 0; 0], [10; 8; 8]%nat,
                    [1; 1; 1; 1; 1; 1; 1; 1; 1; 1; 0]))
    by (vm_compute; reflexivity).
  rewrite E in D. cbn [digest] in D. injection D as Hs _ _ _.
  destruct (crop_asymmetric_q_grid center_of_mass_exact 64
              (volume 11 8 8 5 4 4) (clear_mask 11 8 8) (all_used 11) "max"
              (mk_kwargs [] [] [] (q_grid 11 8 8)) 11 8 8
              (q_axis 11) (q_axis 8) (q_axis 8) [] d m p q f
              eq_refl eq_refl eq_refl eq_refl eq_refl eq_refl E)
    as [[Hsame _] | (z0 & y0 & x0 & qx' & qz' & qy' & Hq & Hsh & _)].
  - exfalso. rewrite Hsame in Hs. discriminate Hs.
  - exists qx', qz', qy'. split; assumption.
Defined.
